(* ===== verification/_CoqProject ===== *)
-Q . S2P
Prelude.v
Machine.v
Spinlock.v
Cstring.v
Ktrace.v
Layout.v
Kalloc.v
Vm.v
Uvm.v
Sched.v
Sleeplock.v
Pipe.v
Bio.v
Ide.v
Log.v
Fs.v
Dir.v
Console.v
Tty.v
File.v
Proc.v
Fork.v
Wait.v
Exec.v
Syscall.v
Asm.v
Trap.v
Dashboard.v
Textutils.v
Shell.v
Umalloc.v
Mkfs.v
Boot.v
Platform.v
Ports.v
Start.v
Userprogs.v
Filters.v
