(* ===== verification/Prelude.v ===== *)
(** * xv6 with kernel tracing: a verification development

    The program is xv6 for x86-64, extended by a ring buffer of kernel events that a user
    program shows as a dashboard (src/ktrace.c, src/trace.c).  The development models the
    kernel, the boot loader, the user programs and the tool that builds the disk, by
    translating the C functions one by one into executable definitions with the names of the
    source, and proves the properties that make them correct.  This file is its root: it
    holds the vocabulary that all the others share.

    ** The model

    An integer of C is a [Z], and the conversions to its width ([u8] .. [i64]) are written
    where the code converts.  Memory is a function from addresses to bytes, a disk a function
    from block numbers to lists of bytes, a C string the list of its bytes before the NUL.

    Code that changes state is a program [prog S A] of the resumption monad defined below: from
    a state it returns, panics, spins for ever, reaches undefined behaviour, or gives the
    CPU away in swtch() ([Swtch]), to be resumed in whatever state the rest of the system has
    made by then.  A theorem about a blocking function therefore speaks about all behaviours
    of the other threads ([runs]).  The globals of the kernel are the record [kstate] of
    Machine.v; the tools and user programs have states of their own.

    What is not in the repository is a parameter with named laws: the linker's symbols
    ([Linker], [Symbols]), the disk controller of the boot loader ([IdePorts], [IdeLaws]), the
    devices ([Devices]; a disk controller for Ports is one with [ata_device]), the entry points
    of the assembly code ([Entries]), the kernel as a user program sees it ([Kernel], [Trace.reply]),
    sbrk() in Umalloc.  Interfaces inside the kernel are classes as well, proved against on one
    side and discharged on the other: [UserCopy] (copyout, used by traceread and implemented
    by Vm), [BlockDriver] with [BlockDriverLaws] (used by the buffer cache, implemented by
    the memory disk), [DevSw] (the device switch).

    ** The files

    - Machine: the structs of the headers and the kernel's globals.
    - Spinlock (spinlock.c): locks on one CPU, and [Module Smp], the instructions of
      acquire and release interleaved over any number of CPUs.
    - Cstring (string.c, the string routines of ulib.c), Layout (integers in byte arrays).
    - Ktrace (ktrace.c): the event ring, refined to a log of all events since boot.
    - Kalloc (kalloc.c), Vm (vm.c): the free list and the page tables as they lie in memory;
      Uvm has the theory of whole address spaces, for copyuvm and freevm.
    - Sched, Proc (proc.c), Sleeplock (sleeplock.c), Pipe (pipe.c); Fork and Wait have the
      theory of fork and wait.
    - Bio (bio.c, memide.c, ide.c), with the theory of the disk queue in Ide, Log (log.c), Fs (fs.c), File (file.c): the file system,
      from the buffer cache to open files; Dir has the theory of directories.
    - Console (console.c, kbd.c, uart.c), with the theory of its input in Tty; Exec (exec.c),
      Syscall (syscall.c, sysproc.c, sysfile.c), Trap (trap.c).
    - Asm (swtch.S, trapasm.S, usys.S, initcode.S, vectors.pl): instruction by instruction, on
      a model of the processor.
    - Dashboard ([Module Trace]: trace.c), Textutils and Filters (grep.c, wc.c, cat.c), Shell
      ([Module Sh]: sh.c), Umalloc (umalloc.c), Userprogs ([Module User]: printf.c, echo.c,
      kill.c, ln.c, ls.c, mkdir.c, rm.c, init.c).
    - Mkfs (mkfs.c): the image builder, on the disk that Fs reads.
    - Boot (bootmain.c), Platform (mp.c, lapic.c, ioapic.c), Ports (ide.c and uart.c at their
      registers), Start (main.c; seginit and syscallinit of vm.c, idtinit of trap.c), on the state
      of the kernel and of the platform together.

    ** What is proved

    - Tracing, end to end: traceevent and traceread implement an abstract log
      ([traceevent_refines], [traceread_delivers]); the ring keeps the newest 128 events
      through every wrap of its counters ([trace_keeps_last_128]); the bytes of an event
      decode to it ([event_bytes_roundtrip]); every system call is traced
      ([syscall_traces_call]); and the dashboard shows and counts the events that it reads
      ([dashboard_shows_newest], [itoa_atoi_roundtrip]).
    - Concurrency: mutual exclusion of spin locks on every interleaving
      ([mutual_exclusion], [critical_section]) and of sleep locks
      ([acquiresleep_excludes]); sleep loses no wakeup ([sleep_is_atomic]); what the scheduler
      runs, what kill does, and how a process is made; the protocol of pipes
      against arbitrary other threads ([pipewrite_protocol], [piperead_protocol]).
    - Memory: the page allocator, mapping a page, and growing and shrinking a process
      ([kalloc_takes_head], [mappages_maps_page], [allocuvm_deallocuvm]); an address space is
      copied to disjoint pages with the same contents, and freed without loss
      ([copyuvm_freevm_roundtrip]); what argptr checks.
    - Processes: fork makes a copy of the process that shares its files
      ([fork_copies_process]), wait takes everything back ([wait_reaps_child]), and the two
      together leave memory as it was ([fork_wait_roundtrip]).
    - The edge of the kernel: swtch, the entry of traps and the stubs of the system calls save
      and restore the registers ([swtch_roundtrip], [trap_roundtrip], [system_call_roundtrip]),
      and a new process gets into user mode ([new_process_enters_user]).
    - The disk driver: the interrupts serve the queue in order ([ide_serves_in_order]), iderw
      waits for its own request ([iderw_queues_request]), and the accesses to the registers of
      the controller have the effect that the queue assumes ([ide_registers_refine]).
    - The file system: the cache shows the disk ([bread_reads_block], [bwrite_coherent]);
      a commit is atomic whenever the machine stops ([commit_crash_atomic]), and recovery
      may be repeated ([recovery_idempotent]); log space ([begin_op_reserves],
      [log_write_absorbs]); free blocks, path names, and what writei stores readi finds
      ([balloc_bfree_free_map], [skipelem_walks_path], [writei_readi_roundtrip]); a
      directory is a map that dirlink extends ([dirlink_dirlookup]).  The image
      that mkfs writes is such a file system, with the files it was given
      ([mkfs_builds_image]).
    - The console: the input ring implements a terminal with a line editor, and consoleread
      returns the lines typed on it ([console_line_discipline]).
    - User programs: the matcher of grep decides the language of its patterns; the shell's
      parser ends on every line and inverts printing ([parsecmd_splits_words],
      [parsecmd_show_roundtrip]) and its commands get the right descriptors
      ([runcmd_wires_processes]); malloc and free keep the heap well formed
      ([malloc_free_keep_heap]); printf and cprintf agree ([printf_matches_cprintf]).
    - The machine: the boot loader brings the kernel to its place ([bootmain_loads_kernel]);
      mpinit and cpunum number the processors ([mpinit_numbers_cpus]); the I/O APIC is masked
      and then routed ([ioapic_masks_then_routes]); the serial port sends what it is given
      ([uart_sends_bytes]); the descriptors, gates and selectors that the start makes decode to what
      they are meant to be ([seginit_segments], [tvinit_gates], [syscallinit_selectors]), except
      for the map of I/O ports ([tss_leaves_ports_open]); every other processor is started on
      a stack of its own ([startother_boots]).

    ** Bounds

    A loop whose recursion is not structural takes a bound on its rounds, and running out
    of it is the outcome [NoFuel], which no theorem about a result allows.  Where the number of
    rounds depends on the input, the definition computes a bound that suffices and the
    theorem shows it: [max_events + 1] rounds of traceread, a block more than the bytes
    of writei and readi need, the length of the line for the parsers of the shell, the
    bytes that an input can still deliver for grep, one round for a byte of iappend in mkfs, a
    sector more on both sides for readseg, the length of the table for mpinit.  malloc and free need two
    turns of the ring.  Where a thread waits for others, the bound is how often it may be
    woken, or how often a device may be polled ([patience] in Boot), and is universally
    quantified.  The scheduler and init do not end: their bound is how many rounds are looked
    at.

    ** Not modelled

    The boot assembly (bootasm.S, entry.S, entryother.S): switches of the mode of the processor
    and first page tables, before the kernel runs at its own addresses.  The kernel functions
    see the context switch as the outcome [Swtch] and a trap frame as a record; Asm shows
    what the assembly does for that, but the two are not one state.  There is no theorem about main
    as a whole.  The debugging pcs of a lock.  Message texts of panic().  The test
    programs (usertests.c, forktest.c, stressfs.c and others), which exercise the functions
    that are modelled here. *)

From Stdlib Require Export ZArith Lia FunctionalExtensionality.
From stdpp Require Export base numbers strings gmap.
From stdpp Require Export list.

#[global] Open Scope Z_scope.
#[global] Set Default Goal Selector "!".

(** ** Machine integers: a value of a C type is a [Z]; [u8] .. [i64] are the
    conversions to the type, with the wrap-around of two's complement. *)

Definition u8 (z : Z) : Z := z mod 256.
Definition u16 (z : Z) : Z := z mod 65536.
Definition u32 (z : Z) : Z := z mod 4294967296.
Definition u64 (z : Z) : Z := z mod 18446744073709551616.
Definition i16 (z : Z) : Z := (z + 32768) mod 65536 - 32768.
Definition i32 (z : Z) : Z := (z + 2147483648) mod 4294967296 - 2147483648.
Definition i64 (z : Z) : Z :=
  (z + 9223372036854775808) mod 18446744073709551616 - 9223372036854775808.

(** ** Kernel code as a resumption monad

    A kernel thread run from a state [s] either returns ([Ret]), panics, spins
    for ever on a lock of another CPU ([Spin]), executes C that has no defined
    behaviour ([Undef]: out-of-bounds access, null dereference), or gives the
    CPU away in swtch() ([Swtch]), to be resumed later from whatever state the
    rest of the system has produced by then.  [NoFuel] marks a loop that was
    cut off by the model's bound and says nothing about the code. *)

Inductive outcome (S A : Type) : Type :=
| Ret (a : A) (s : S)
| Panic (msg : string) (s : S)
| Spin (s : S)
| Undef (what : string) (s : S)
| Swtch (s : S) (k : S -> outcome S A)
| NoFuel (s : S).
Arguments Ret {S A} a s.
Arguments Panic {S A} msg s.
Arguments Spin {S A} s.
Arguments Undef {S A} what s.
Arguments Swtch {S A} s k.
Arguments NoFuel {S A} s.

Fixpoint obind {S A B} (o : outcome S A) (f : A -> S -> outcome S B) : outcome S B :=
  match o with
  | Ret a s => f a s
  | Panic m s => Panic m s
  | Spin s => Spin s
  | Undef w s => Undef w s
  | Swtch s k => Swtch s (fun s' => obind (k s') f)
  | NoFuel s => NoFuel s
  end.

Definition prog (S A : Type) : Type := S -> outcome S A.

Definition ret {S A} (a : A) : prog S A := fun s => Ret a s.
Definition bind {S A B} (m : prog S A) (f : A -> prog S B) : prog S B :=
  fun s => obind (m s) f.
Definition panic {S A} (msg : string) : prog S A := fun s => Panic msg s.
Definition undef {S A} (what : string) : prog S A := fun s => Undef what s.
Definition gets {S A} (f : S -> A) : prog S A := fun s => Ret (f s) s.
Definition modify {S} (f : S -> S) : prog S unit := fun s => Ret tt (f s).

Declare Scope prog_scope.
Delimit Scope prog_scope with prog.
Notation "x <- c ;; k" := (bind c (fun x => k))
  (at level 100, c at next level, right associativity) : prog_scope.
Notation "c ;;; k" := (bind c (fun _ => k))
  (at level 100, right associativity) : prog_scope.
Notation "'when' b 'do' c" := (if b then c else ret tt)
  (at level 100, b at level 99, c at level 100, right associativity) : prog_scope.

(** A C [for] loop over the elements of [l]. *)
Fixpoint for_each {S X} (l : list X) (body : X -> prog S unit) : prog S unit :=
  match l with
  | [] => ret tt
  | x :: l' => bind (body x) (fun _ => for_each l' body)
  end.

(** A C [for] loop that a [return], [goto] or [break] in the body leaves early. *)
Fixpoint for_break {S X R} (l : list X) (body : X -> prog S (option R))
  : prog S (option R) :=
  match l with
  | [] => ret None
  | x :: l' => bind (body x) (fun r =>
      match r with Some v => ret (Some v) | None => for_break l' body end)
  end.

(** A C [for(;;)] or [while] loop: rounds until one yields a result.  The bound is on
    the rounds, each of which ends, in the loops of the kernel, with the thread
    asleep: it is the number of times the thread may be woken. *)
Fixpoint repeat_until {S R} (fuel : nat) (round : prog S (option R)) : prog S R :=
  match fuel with
  | O => fun s => NoFuel s
  | Datatypes.S fuel => bind round (fun r =>
      match r with Some v => ret v | None => repeat_until fuel round end)
  end.

(** ** Running a thread among others

    [runs n R o Q]: the thread that has reached the outcome [o] neither panics, nor
    spins, nor reaches undefined behaviour, through its next [n] turns, whatever the
    rest of the system does between them ([R s s'] relates the state in which the
    thread gives the CPU away and the state in which it gets it back), and when it
    returns it satisfies [Q]. *)
Fixpoint runs {S A} (n : nat) (R : S -> S -> Prop) (o : outcome S A) (Q : A -> S -> Prop) {struct o} : Prop :=
  match o with
  | Ret a s => Q a s
  | Swtch s k => match n with O => True | Datatypes.S n => forall s', R s s' -> runs n R (k s') Q end
  | NoFuel _ => n = O
  | Panic _ _ | Spin _ | Undef _ _ => False
  end.

(** ** Lemmas of the monad *)

Lemma bind_Ret {S A B} (m : prog S A) (f : A -> prog S B) s a s' :
  m s = Ret a s' -> bind m f s = f a s'.
Proof. intros E. unfold bind. by rewrite E. Qed.

Lemma bind_Panic {S A B} (m : prog S A) (f : A -> prog S B) s msg s' :
  m s = Panic msg s' -> bind m f s = Panic msg s'.
Proof. intros E. unfold bind. by rewrite E. Qed.

Lemma bind_ext {S A B} (m : prog S A) (f g : A -> prog S B) s :
  (forall a s, f a s = g a s) -> bind m f s = bind m g s.
Proof.
  intros E. assert (f = g) as ->; [|done].
  apply functional_extensionality. intros a. by apply functional_extensionality.
Qed.

Lemma bind_assoc {S A B C} (m : prog S A) (f : A -> prog S B) (g : B -> prog S C) :
  bind (bind m f) g = bind m (fun a => bind (f a) g).
Proof.
  apply functional_extensionality. intros s. unfold bind.
  induction (m s) as [| | | |s' k IH|]; simpl; try done.
  f_equal. apply functional_extensionality. intros s''. apply IH.
Qed.

Lemma seq3_run {S A B C D} (m1 : prog S A) (m2 : prog S B) (m3 : prog S C) (k : C -> prog S D) s x s' :
  bind m1 (fun _ => bind m2 (fun _ => m3)) s = Ret x s' ->
  bind m1 (fun _ => bind m2 (fun _ => bind m3 k)) s = k x s'.
Proof.
  intros E. transitivity (bind (bind m1 (fun _ => bind m2 (fun _ => m3))) k s); [|by apply bind_Ret].
  rewrite bind_assoc. f_equal. f_equal. apply functional_extensionality. intros _. by rewrite bind_assoc.
Qed.

Lemma for_each_app {S X} (l1 l2 : list X) (body : X -> prog S unit) s :
  for_each (l1 ++ l2) body s = bind (for_each l1 body) (fun _ => for_each l2 body) s.
Proof.
  revert s. induction l1 as [|x l1 IH]; intros s; [done|].
  cbn [for_each app]. rewrite bind_assoc. unfold bind at 1 2. f_equal.
  apply functional_extensionality. intros []. apply functional_extensionality.
  intros s'. apply IH.
Qed.

(** Running a primitive of the monad in front of a continuation. *)
Lemma bind_gets {S A B} (g : S -> A) (f : A -> prog S B) s :
  bind (gets g) f s = f (g s) s.
Proof. done. Qed.
Lemma bind_modify {S B} (g : S -> S) (f : unit -> prog S B) s :
  bind (modify g) f s = f tt (g s).
Proof. done. Qed.
Lemma bind_ret {S A B} (a : A) (f : A -> prog S B) s : bind (ret a) f s = f a s.
Proof. done. Qed.

(** The first element of a list with a property, and the loop that looks for it. *)
Lemma exists_first {X} (P : X -> Prop) `{forall x, Decision (P x)} (l : list X) x :
  x ∈ l -> P x -> exists l1 y l2, l = l1 ++ y :: l2 /\ P y /\ forall z, z ∈ l1 -> ~ P z.
Proof.
  induction l as [|y l IH]; intros Hx HP; [by apply not_elem_of_nil in Hx|].
  destruct (decide (P y)) as [Hy|Hy].
  - exists [], y, l. split_and!; [done|done|]. intros z Hz. by apply not_elem_of_nil in Hz.
  - apply elem_of_cons in Hx as [-> |Hx]; [done|]. destruct (IH Hx HP) as (l1 & z & l2 & -> & Hz & Hl).
    exists (y :: l1), z, l2. split_and!; [done|done|]. intros w [-> |Hw]%elem_of_cons; [done|by apply Hl].
Qed.

Lemma for_break_first {S X R} (l1 l2 : list X) x (body : X -> prog S (option R)) s v s' :
  (forall y, y ∈ l1 -> body y s = Ret None s) -> body x s = Ret (Some v) s' ->
  for_break (l1 ++ x :: l2) body s = Ret (Some v) s'.
Proof.
  intros Hl Hx. induction l1 as [|y l1 IH]; simpl.
  - by rewrite (bind_Ret _ _ _ _ _ Hx).
  - rewrite (bind_Ret _ _ _ _ _ (Hl y ltac:(by left))). apply IH. intros z Hz. apply Hl. by right.
Qed.

Lemma for_break_none {S X R} (l : list X) (body : X -> prog S (option R)) s :
  (forall y, y ∈ l -> body y s = Ret None s) -> for_break l body s = Ret None s.
Proof.
  intros Hl. induction l as [|y l IH]; simpl; [done|].
  rewrite (bind_Ret _ _ _ _ _ (Hl y ltac:(by left))). apply IH. intros z Hz. apply Hl. by right.
Qed.

Lemma runs_mono {S A} n (R : S -> S -> Prop) (o : outcome S A) (Q Q' : A -> S -> Prop) :
  (forall a s, Q a s -> Q' a s) -> runs n R o Q -> runs n R o Q'.
Proof.
  intros HQ. revert n. induction o as [a s| | | |s k IH|]; intros n; simpl; [apply HQ|done|done|done| |done].
  destruct n as [|n]; [done|]. intros H s' Hr. by apply IH, H.
Qed.

Lemma runs_rely {S A} n (R R' : S -> S -> Prop) (o : outcome S A) (Q : A -> S -> Prop) :
  (forall s s', R' s s' -> R s s') -> runs n R o Q -> runs n R' o Q.
Proof.
  intros HR. revert n. induction o as [a s| | | |s k IH|]; intros n; simpl; try done.
  destruct n as [|n]; [done|]. intros H s' Hr. by apply IH, H, HR.
Qed.

Lemma runs_bind {S A B} n R (m : prog S A) (f : A -> prog S B) s Q :
  runs n R (m s) (fun a s' => forall n', (n' <= n)%nat -> runs n' R (f a s') Q) ->
  runs n R (bind m f s) Q.
Proof.
  unfold bind. revert n. induction (m s) as [a s'| | | |s' k IH|]; intros n; simpl;
    [intros H; by apply H|done|done|done| |done].
  destruct n as [|n]; [done|]. intros H s'' Hr. apply IH. specialize (H s'' Hr).
  eapply runs_mono; [|exact H]. cbv beta. intros a s0 H' n' Hn. apply H'. lia.
Qed.

Lemma bind_Swtch {S A B} (m : prog S A) (f : A -> prog S B) s s' k :
  m s = Swtch s' k -> bind m f s = Swtch s' (bind k f).
Proof. intros E. unfold bind. by rewrite E. Qed.

Create HintDb kernel.

(** [mrun] performs the reads, writes and returns at the head of a program. *)
Ltac mrun := repeat (first
  [ rewrite bind_gets | rewrite bind_modify | rewrite bind_ret
  | rewrite bind_assoc | progress cbv beta iota ]).

(** [mstep E] runs the command at the head with the equation [E] for it. *)
Ltac mstep E := erewrite bind_Ret; [ | solve [ eapply E; eauto ] ].

Tactic Notation "mret" constr(E) := rewrite (bind_Ret _ _ _ _ _ E).

(** ** Words *)

Ltac unfold_words := unfold u8, u16, u32, u64, i16, i32, i64 in *.

(** [word_lia] decides linear goals about machine integers. *)
Ltac word_lia := unfold_words; Z.div_mod_to_equations; lia.

Lemma u32_range z : 0 <= u32 z < 4294967296.
Proof. word_lia. Qed.
Lemma u32_small z : 0 <= z < 4294967296 -> u32 z = z.
Proof. word_lia. Qed.
Lemma u64_range z : 0 <= u64 z < 18446744073709551616.
Proof. word_lia. Qed.
Lemma u64_small z : 0 <= z < 18446744073709551616 -> u64 z = z.
Proof. word_lia. Qed.
Lemma i32_range z : -2147483648 <= i32 z < 2147483648.
Proof. word_lia. Qed.
Lemma i32_small z : -2147483648 <= z < 2147483648 -> i32 z = z.
Proof. word_lia. Qed.

(** A power-of-two ring index is not disturbed by the wrap of its counter. *)
Lemma u32_mod_ring z n : 0 < n -> (n | 4294967296) -> u32 z mod n = z mod n.
Proof. intros Hn Hd. unfold u32. by apply Z.mod_mod_divide. Qed.
