(* ===== verification/Machine.v ===== *)
(** * Machine: the data of the kernel

    The structs of the headers (proc.h, spinlock.h, sleeplock.h, file.h, fs.h,
    buf.h, trace.h, x86.h) and the global variables of the kernel's C files, as
    records; [kstate] collects the globals, and a kernel function is a program
    [prog kstate A] over it.  [set_f v r] is the assignment [r.f = v]. *)

From S2P Require Import Prelude.

(** Constants of param.h, mmu.h, memlayout.h, fs.h, trace.h. *)
Definition NPROC : nat := 64.
Definition NCPU : nat := 8.
Definition NOFILE : nat := 16.
Definition NFILE : nat := 100.
Definition NINODE : nat := 50.
Definition NDEV : Z := 10.
Definition ROOTDEV : Z := 1.
Definition MAXARG : Z := 32.
Definition MAXOPBLOCKS : Z := 10.
Definition LOGSIZE : Z := MAXOPBLOCKS * 3.
Definition NBUF : nat := 30.
Definition FSSIZE : Z := 1000.
Definition KSTACKSIZE : Z := 4096.
Definition PGSIZE : Z := 4096.
Definition KERNBASE : Z := 18446603336221196288. (* 0xFFFF800000000000 *)
Definition PHYSTOP : Z := 234881024.             (* 0xE000000 *)
Definition BSIZE : Z := 512.
Definition V2P (a : Z) : Z := u64 (a - KERNBASE).
Definition P2V (a : Z) : Z := u64 (a + KERNBASE).
Definition PGROUNDUP (sz : Z) : Z := Z.land (u64 (sz + (PGSIZE - 1))) (u64 (Z.lnot (PGSIZE - 1))).
Definition PGROUNDDOWN (a : Z) : Z := Z.land a (u64 (Z.lnot (PGSIZE - 1))).

Definition TRACE_TYPE_SYSCALL : Z := 1.
Definition TRACE_TYPE_PROC : Z := 2.
Definition TRACE_TYPE_TRAP : Z := 3.
Definition TRACE_TYPE_MEM : Z := 4.
Definition TRACE_NAME_LEN : Z := 16.

(** enum procstate (proc.h). *)
Inductive procstate := UNUSED | EMBRYO | SLEEPING | RUNNABLE | RUNNING | ZOMBIE.
#[export] Instance procstate_eq_dec : EqDecision procstate.
Proof. solve_decision. Defined.

(** The type field of struct file (file.h). *)
Inductive filetype := FD_NONE | FD_PIPE | FD_INODE.
#[export] Instance filetype_eq_dec : EqDecision filetype.
Proof. solve_decision. Defined.

(** The sleep locks: one per buffer and one per cached inode. *)
Inductive sleepid := SLbuf (i : nat) | SLinode (i : nat).
#[export] Instance sleepid_eq_dec : EqDecision sleepid.
Proof. solve_decision. Defined.

(** The spin locks, by the global that holds them. *)
Inductive lockid :=
| LKptable | LKkmem | LKtrace | LKtick | LKftable | LKcons | LKinput
| LKide | LKbcache | LKlog | LKicache
| LKpipe (page : Z) | LKsleep (sl : sleepid).
#[export] Instance lockid_eq_dec : EqDecision lockid.
Proof. solve_decision. Defined.

(** Locks are told apart by their addresses; the map of locks is keyed by an
    injective numbering of them. *)
Definition lockid_code (l : lockid) : Z * (Z * nat) :=
  match l with
  | LKptable => (0, (0, 0%nat)) | LKkmem => (1, (0, 0%nat))
  | LKtrace => (2, (0, 0%nat)) | LKtick => (3, (0, 0%nat))
  | LKftable => (4, (0, 0%nat)) | LKcons => (5, (0, 0%nat))
  | LKinput => (6, (0, 0%nat)) | LKide => (7, (0, 0%nat))
  | LKbcache => (8, (0, 0%nat)) | LKlog => (9, (0, 0%nat))
  | LKicache => (10, (0, 0%nat))
  | LKpipe p => (11, (p, 0%nat))
  | LKsleep (SLbuf i) => (12, (0, i))
  | LKsleep (SLinode i) => (13, (0, i))
  end.
Definition lockid_decode (c : Z * (Z * nat)) : option lockid :=
  match c with
  | (0, _) => Some LKptable | (1, _) => Some LKkmem | (2, _) => Some LKtrace
  | (3, _) => Some LKtick | (4, _) => Some LKftable | (5, _) => Some LKcons
  | (6, _) => Some LKinput | (7, _) => Some LKide | (8, _) => Some LKbcache
  | (9, _) => Some LKlog | (10, _) => Some LKicache
  | (11, (p, _)) => Some (LKpipe p)
  | (12, (_, i)) => Some (LKsleep (SLbuf i))
  | (13, (_, i)) => Some (LKsleep (SLinode i))
  | _ => None
  end.
#[export] Instance lockid_countable : Countable lockid.
Proof.
  apply (inj_countable lockid_code lockid_decode).
  by intros [| | | | | | | | | | |p|[i|i]].
Defined.

(** Wait channels: the addresses processes sleep on. *)
Inductive chan :=
| ChNull | ChProc (i : nat) | ChTicks | ChLog | ChBuf (i : nat)
| ChSleep (sl : sleepid) | ChPipeR (page : Z) | ChPipeW (page : Z) | ChInput.
#[export] Instance chan_eq_dec : EqDecision chan.
Proof. solve_decision. Defined.

(** struct spinlock (spinlock.h).  [lk_cpu] is the id of the holding CPU; the call
    stack [pcs], a debugging aid that no code branches on, is not kept. *)
Record spinlock := Spinlock {
  lk_locked : Z;
  lk_name : string;
  lk_cpu : option Z;
}.

Definition set_lk_locked (v : Z) (r : spinlock) : spinlock :=
  Spinlock v (lk_name r) (lk_cpu r).
Definition set_lk_name (v : string) (r : spinlock) : spinlock :=
  Spinlock (lk_locked r) v (lk_cpu r).
Definition set_lk_cpu (v : option Z) (r : spinlock) : spinlock :=
  Spinlock (lk_locked r) (lk_name r) v.

(** struct sleeplock (sleeplock.h); its inner spinlock is the entry
    [LKsleep] of the lock map. *)
Record sleeplock := Sleeplock {
  sl_locked : Z;
  sl_name : string;
  sl_pid : Z;
}.

Definition set_sl_locked (v : Z) (r : sleeplock) : sleeplock :=
  Sleeplock v (sl_name r) (sl_pid r).
Definition set_sl_name (v : string) (r : sleeplock) : sleeplock :=
  Sleeplock (sl_locked r) v (sl_pid r).
Definition set_sl_pid (v : Z) (r : sleeplock) : sleeplock :=
  Sleeplock (sl_locked r) (sl_name r) v.

(** struct cpu (proc.h) of the CPU that runs the modelled thread, with the
    interrupt flag FL_IF of its EFLAGS and its per-CPU variable [proc], an index
    into the process table, the address of its local-storage page and its CR3
    register (the physical address of the page table in use). *)
Record cpu := Cpu {
  cpu_id : Z;
  cpu_ncli : Z;
  cpu_intena : bool;
  cpu_if : bool;
  cpu_proc : option nat;
  cpu_local : Z;
  cpu_cr3 : Z;
}.

Definition set_cpu_id (v : Z) (r : cpu) : cpu :=
  Cpu v (cpu_ncli r) (cpu_intena r) (cpu_if r) (cpu_proc r) (cpu_local r) (cpu_cr3 r).
Definition set_cpu_ncli (v : Z) (r : cpu) : cpu :=
  Cpu (cpu_id r) v (cpu_intena r) (cpu_if r) (cpu_proc r) (cpu_local r) (cpu_cr3 r).
Definition set_cpu_intena (v : bool) (r : cpu) : cpu :=
  Cpu (cpu_id r) (cpu_ncli r) v (cpu_if r) (cpu_proc r) (cpu_local r) (cpu_cr3 r).
Definition set_cpu_if (v : bool) (r : cpu) : cpu :=
  Cpu (cpu_id r) (cpu_ncli r) (cpu_intena r) v (cpu_proc r) (cpu_local r) (cpu_cr3 r).
Definition set_cpu_proc (v : option nat) (r : cpu) : cpu :=
  Cpu (cpu_id r) (cpu_ncli r) (cpu_intena r) (cpu_if r) v (cpu_local r) (cpu_cr3 r).
Definition set_cpu_local (v : Z) (r : cpu) : cpu :=
  Cpu (cpu_id r) (cpu_ncli r) (cpu_intena r) (cpu_if r) (cpu_proc r) v (cpu_cr3 r).
Definition set_cpu_cr3 (v : Z) (r : cpu) : cpu :=
  Cpu (cpu_id r) (cpu_ncli r) (cpu_intena r) (cpu_if r) (cpu_proc r) (cpu_local r) v.

(** struct trace_event (trace.h). *)
Record trace_event := Trace_event {
  te_seq : Z;
  te_ticks : Z;
  te_type : Z;
  te_pid : Z;
  te_arg0 : Z;
  te_arg1 : Z;
  te_arg2 : Z;
  te_comm : list Z;
  te_event : list Z;
  te_overwritten : Z;
}.


(** The global [traceBuffer] (ktrace.c). *)
Record trace_buffer := Trace_buffer {
  tb_enabled : Z;
  tb_seq : Z;
  tb_readseq : Z;
  tb_overwritten : Z;
  tb_events : list trace_event;
}.

Definition set_tb_enabled (v : Z) (r : trace_buffer) : trace_buffer :=
  Trace_buffer v (tb_seq r) (tb_readseq r) (tb_overwritten r) (tb_events r).
Definition set_tb_seq (v : Z) (r : trace_buffer) : trace_buffer :=
  Trace_buffer (tb_enabled r) v (tb_readseq r) (tb_overwritten r) (tb_events r).
Definition set_tb_readseq (v : Z) (r : trace_buffer) : trace_buffer :=
  Trace_buffer (tb_enabled r) (tb_seq r) v (tb_overwritten r) (tb_events r).
Definition set_tb_overwritten (v : Z) (r : trace_buffer) : trace_buffer :=
  Trace_buffer (tb_enabled r) (tb_seq r) (tb_readseq r) v (tb_events r).
Definition set_tb_events (v : list trace_event) (r : trace_buffer) : trace_buffer :=
  Trace_buffer (tb_enabled r) (tb_seq r) (tb_readseq r) (tb_overwritten r) v.

(** The global [kmem] (kalloc.c): [freelist] is the address of the first free page,
    whose first eight bytes hold the address of the next one. *)
Record kmem_t := Kmem {
  use_lock : Z;
  freelist : Z;
}.

Definition set_use_lock (v : Z) (r : kmem_t) : kmem_t :=
  Kmem v (freelist r).
Definition set_freelist (v : Z) (r : kmem_t) : kmem_t :=
  Kmem (use_lock r) v.

(** struct trapframe (x86.h). *)
Record trapframe := Trapframe {
  tf_rax : Z;
  tf_rbx : Z;
  tf_rcx : Z;
  tf_rdx : Z;
  tf_rbp : Z;
  tf_rsi : Z;
  tf_rdi : Z;
  tf_r8 : Z;
  tf_r9 : Z;
  tf_r10 : Z;
  tf_r11 : Z;
  tf_r12 : Z;
  tf_r13 : Z;
  tf_r14 : Z;
  tf_r15 : Z;
  tf_trapno : Z;
  tf_err : Z;
  tf_rip : Z;
  tf_cs : Z;
  tf_rflags : Z;
  tf_rsp : Z;
  tf_ss : Z;
}.

Definition set_tf_rax (v : Z) (r : trapframe) : trapframe :=
  Trapframe v (tf_rbx r) (tf_rcx r) (tf_rdx r) (tf_rbp r) (tf_rsi r) (tf_rdi r) (tf_r8 r) (tf_r9 r) (tf_r10 r) (tf_r11 r) (tf_r12 r) (tf_r13 r) (tf_r14 r) (tf_r15 r) (tf_trapno r) (tf_err r) (tf_rip r) (tf_cs r) (tf_rflags r) (tf_rsp r) (tf_ss r).
Definition set_tf_rcx (v : Z) (r : trapframe) : trapframe :=
  Trapframe (tf_rax r) (tf_rbx r) v (tf_rdx r) (tf_rbp r) (tf_rsi r) (tf_rdi r) (tf_r8 r) (tf_r9 r) (tf_r10 r) (tf_r11 r) (tf_r12 r) (tf_r13 r) (tf_r14 r) (tf_r15 r) (tf_trapno r) (tf_err r) (tf_rip r) (tf_cs r) (tf_rflags r) (tf_rsp r) (tf_ss r).
Definition set_tf_rsi (v : Z) (r : trapframe) : trapframe :=
  Trapframe (tf_rax r) (tf_rbx r) (tf_rcx r) (tf_rdx r) (tf_rbp r) v (tf_rdi r) (tf_r8 r) (tf_r9 r) (tf_r10 r) (tf_r11 r) (tf_r12 r) (tf_r13 r) (tf_r14 r) (tf_r15 r) (tf_trapno r) (tf_err r) (tf_rip r) (tf_cs r) (tf_rflags r) (tf_rsp r) (tf_ss r).
Definition set_tf_rdi (v : Z) (r : trapframe) : trapframe :=
  Trapframe (tf_rax r) (tf_rbx r) (tf_rcx r) (tf_rdx r) (tf_rbp r) (tf_rsi r) v (tf_r8 r) (tf_r9 r) (tf_r10 r) (tf_r11 r) (tf_r12 r) (tf_r13 r) (tf_r14 r) (tf_r15 r) (tf_trapno r) (tf_err r) (tf_rip r) (tf_cs r) (tf_rflags r) (tf_rsp r) (tf_ss r).
Definition set_tf_r11 (v : Z) (r : trapframe) : trapframe :=
  Trapframe (tf_rax r) (tf_rbx r) (tf_rcx r) (tf_rdx r) (tf_rbp r) (tf_rsi r) (tf_rdi r) (tf_r8 r) (tf_r9 r) (tf_r10 r) v (tf_r12 r) (tf_r13 r) (tf_r14 r) (tf_r15 r) (tf_trapno r) (tf_err r) (tf_rip r) (tf_cs r) (tf_rflags r) (tf_rsp r) (tf_ss r).
Definition set_tf_rip (v : Z) (r : trapframe) : trapframe :=
  Trapframe (tf_rax r) (tf_rbx r) (tf_rcx r) (tf_rdx r) (tf_rbp r) (tf_rsi r) (tf_rdi r) (tf_r8 r) (tf_r9 r) (tf_r10 r) (tf_r11 r) (tf_r12 r) (tf_r13 r) (tf_r14 r) (tf_r15 r) (tf_trapno r) (tf_err r) v (tf_cs r) (tf_rflags r) (tf_rsp r) (tf_ss r).
Definition set_tf_rsp (v : Z) (r : trapframe) : trapframe :=
  Trapframe (tf_rax r) (tf_rbx r) (tf_rcx r) (tf_rdx r) (tf_rbp r) (tf_rsi r) (tf_rdi r) (tf_r8 r) (tf_r9 r) (tf_r10 r) (tf_r11 r) (tf_r12 r) (tf_r13 r) (tf_r14 r) (tf_r15 r) (tf_trapno r) (tf_err r) (tf_rip r) (tf_cs r) (tf_rflags r) v (tf_ss r).

(** struct proc (proc.h).  Pointers to other processes, open files and inodes are
    indices into the tables that hold them; the trap frame is kept by value, and of
    the saved context only the address [p_context] at which it lies. *)
Record proc := Proc {
  p_sz : Z;
  p_pgdir : Z;
  p_kstack : Z;
  p_state : procstate;
  p_pid : Z;
  p_parent : option nat;
  p_tf : trapframe;
  p_context : Z;
  p_chan : chan;
  p_killed : Z;
  p_ofile : list (option nat);
  p_cwd : option nat;
  p_name : list Z;
}.

Definition set_p_sz (v : Z) (r : proc) : proc :=
  Proc v (p_pgdir r) (p_kstack r) (p_state r) (p_pid r) (p_parent r) (p_tf r) (p_context r) (p_chan r) (p_killed r) (p_ofile r) (p_cwd r) (p_name r).
Definition set_p_pgdir (v : Z) (r : proc) : proc :=
  Proc (p_sz r) v (p_kstack r) (p_state r) (p_pid r) (p_parent r) (p_tf r) (p_context r) (p_chan r) (p_killed r) (p_ofile r) (p_cwd r) (p_name r).
Definition set_p_kstack (v : Z) (r : proc) : proc :=
  Proc (p_sz r) (p_pgdir r) v (p_state r) (p_pid r) (p_parent r) (p_tf r) (p_context r) (p_chan r) (p_killed r) (p_ofile r) (p_cwd r) (p_name r).
Definition set_p_state (v : procstate) (r : proc) : proc :=
  Proc (p_sz r) (p_pgdir r) (p_kstack r) v (p_pid r) (p_parent r) (p_tf r) (p_context r) (p_chan r) (p_killed r) (p_ofile r) (p_cwd r) (p_name r).
Definition set_p_pid (v : Z) (r : proc) : proc :=
  Proc (p_sz r) (p_pgdir r) (p_kstack r) (p_state r) v (p_parent r) (p_tf r) (p_context r) (p_chan r) (p_killed r) (p_ofile r) (p_cwd r) (p_name r).
Definition set_p_parent (v : option nat) (r : proc) : proc :=
  Proc (p_sz r) (p_pgdir r) (p_kstack r) (p_state r) (p_pid r) v (p_tf r) (p_context r) (p_chan r) (p_killed r) (p_ofile r) (p_cwd r) (p_name r).
Definition set_p_tf (v : trapframe) (r : proc) : proc :=
  Proc (p_sz r) (p_pgdir r) (p_kstack r) (p_state r) (p_pid r) (p_parent r) v (p_context r) (p_chan r) (p_killed r) (p_ofile r) (p_cwd r) (p_name r).
Definition set_p_context (v : Z) (r : proc) : proc :=
  Proc (p_sz r) (p_pgdir r) (p_kstack r) (p_state r) (p_pid r) (p_parent r) (p_tf r) v (p_chan r) (p_killed r) (p_ofile r) (p_cwd r) (p_name r).
Definition set_p_chan (v : chan) (r : proc) : proc :=
  Proc (p_sz r) (p_pgdir r) (p_kstack r) (p_state r) (p_pid r) (p_parent r) (p_tf r) (p_context r) v (p_killed r) (p_ofile r) (p_cwd r) (p_name r).
Definition set_p_killed (v : Z) (r : proc) : proc :=
  Proc (p_sz r) (p_pgdir r) (p_kstack r) (p_state r) (p_pid r) (p_parent r) (p_tf r) (p_context r) (p_chan r) v (p_ofile r) (p_cwd r) (p_name r).
Definition set_p_ofile (v : list (option nat)) (r : proc) : proc :=
  Proc (p_sz r) (p_pgdir r) (p_kstack r) (p_state r) (p_pid r) (p_parent r) (p_tf r) (p_context r) (p_chan r) (p_killed r) v (p_cwd r) (p_name r).
Definition set_p_cwd (v : option nat) (r : proc) : proc :=
  Proc (p_sz r) (p_pgdir r) (p_kstack r) (p_state r) (p_pid r) (p_parent r) (p_tf r) (p_context r) (p_chan r) (p_killed r) (p_ofile r) v (p_name r).
Definition set_p_name (v : list Z) (r : proc) : proc :=
  Proc (p_sz r) (p_pgdir r) (p_kstack r) (p_state r) (p_pid r) (p_parent r) (p_tf r) (p_context r) (p_chan r) (p_killed r) (p_ofile r) (p_cwd r) v.

(** struct file (file.h).  [f_pipe] is the address of the pipe's page. *)
Record file := File {
  f_type : filetype;
  f_ref : Z;
  f_readable : Z;
  f_writable : Z;
  f_pipe : Z;
  f_ip : option nat;
  f_off : Z;
}.

Definition set_f_type (v : filetype) (r : file) : file :=
  File v (f_ref r) (f_readable r) (f_writable r) (f_pipe r) (f_ip r) (f_off r).
Definition set_f_ref (v : Z) (r : file) : file :=
  File (f_type r) v (f_readable r) (f_writable r) (f_pipe r) (f_ip r) (f_off r).
Definition set_f_readable (v : Z) (r : file) : file :=
  File (f_type r) (f_ref r) v (f_writable r) (f_pipe r) (f_ip r) (f_off r).
Definition set_f_writable (v : Z) (r : file) : file :=
  File (f_type r) (f_ref r) (f_readable r) v (f_pipe r) (f_ip r) (f_off r).
Definition set_f_pipe (v : Z) (r : file) : file :=
  File (f_type r) (f_ref r) (f_readable r) (f_writable r) v (f_ip r) (f_off r).
Definition set_f_ip (v : option nat) (r : file) : file :=
  File (f_type r) (f_ref r) (f_readable r) (f_writable r) (f_pipe r) v (f_off r).
Definition set_f_off (v : Z) (r : file) : file :=
  File (f_type r) (f_ref r) (f_readable r) (f_writable r) (f_pipe r) (f_ip r) v.

(** struct pipe (pipe.c). *)
Record pipe := Pipe {
  pi_data : list Z;
  pi_nread : Z;
  pi_nwrite : Z;
  pi_readopen : Z;
  pi_writeopen : Z;
}.

Definition set_pi_data (v : list Z) (r : pipe) : pipe :=
  Pipe v (pi_nread r) (pi_nwrite r) (pi_readopen r) (pi_writeopen r).
Definition set_pi_nread (v : Z) (r : pipe) : pipe :=
  Pipe (pi_data r) v (pi_nwrite r) (pi_readopen r) (pi_writeopen r).
Definition set_pi_nwrite (v : Z) (r : pipe) : pipe :=
  Pipe (pi_data r) (pi_nread r) v (pi_readopen r) (pi_writeopen r).
Definition set_pi_readopen (v : Z) (r : pipe) : pipe :=
  Pipe (pi_data r) (pi_nread r) (pi_nwrite r) v (pi_writeopen r).
Definition set_pi_writeopen (v : Z) (r : pipe) : pipe :=
  Pipe (pi_data r) (pi_nread r) (pi_nwrite r) (pi_readopen r) v.

(** struct buf (buf.h).  The doubly linked LRU list is [bc_lru] of the cache. *)
Record buf := Buf {
  b_flags : Z;
  b_dev : Z;
  b_blockno : Z;
  b_lock : sleeplock;
  b_refcnt : Z;
  b_data : list Z;
}.

Definition set_b_flags (v : Z) (r : buf) : buf :=
  Buf v (b_dev r) (b_blockno r) (b_lock r) (b_refcnt r) (b_data r).
Definition set_b_dev (v : Z) (r : buf) : buf :=
  Buf (b_flags r) v (b_blockno r) (b_lock r) (b_refcnt r) (b_data r).
Definition set_b_blockno (v : Z) (r : buf) : buf :=
  Buf (b_flags r) (b_dev r) v (b_lock r) (b_refcnt r) (b_data r).
Definition set_b_lock (v : sleeplock) (r : buf) : buf :=
  Buf (b_flags r) (b_dev r) (b_blockno r) v (b_refcnt r) (b_data r).
Definition set_b_refcnt (v : Z) (r : buf) : buf :=
  Buf (b_flags r) (b_dev r) (b_blockno r) (b_lock r) v (b_data r).
Definition set_b_data (v : list Z) (r : buf) : buf :=
  Buf (b_flags r) (b_dev r) (b_blockno r) (b_lock r) (b_refcnt r) v.

(** The global [bcache] (bio.c): [bc_lru] lists the buffers from [head.next] (most
    recently used) to [head.prev] (least recently used). *)
Record bcache_t := Bcache {
  bc_buf : list buf;
  bc_lru : list nat;
}.

Definition set_bc_buf (v : list buf) (r : bcache_t) : bcache_t :=
  Bcache v (bc_lru r).
Definition set_bc_lru (v : list nat) (r : bcache_t) : bcache_t :=
  Bcache (bc_buf r) v.

(** struct logheader (log.c). *)
Record logheader := Logheader {
  lh_n : Z;
  lh_block : list Z;
}.

Definition set_lh_n (v : Z) (r : logheader) : logheader :=
  Logheader v (lh_block r).
Definition set_lh_block (v : list Z) (r : logheader) : logheader :=
  Logheader (lh_n r) v.

(** struct log (log.c). *)
Record log_t := Log {
  log_start : Z;
  log_size : Z;
  log_outstanding : Z;
  log_committing : Z;
  log_dev : Z;
  log_lh : logheader;
}.

Definition set_log_start (v : Z) (r : log_t) : log_t :=
  Log v (log_size r) (log_outstanding r) (log_committing r) (log_dev r) (log_lh r).
Definition set_log_size (v : Z) (r : log_t) : log_t :=
  Log (log_start r) v (log_outstanding r) (log_committing r) (log_dev r) (log_lh r).
Definition set_log_outstanding (v : Z) (r : log_t) : log_t :=
  Log (log_start r) (log_size r) v (log_committing r) (log_dev r) (log_lh r).
Definition set_log_committing (v : Z) (r : log_t) : log_t :=
  Log (log_start r) (log_size r) (log_outstanding r) v (log_dev r) (log_lh r).
Definition set_log_dev (v : Z) (r : log_t) : log_t :=
  Log (log_start r) (log_size r) (log_outstanding r) (log_committing r) v (log_lh r).
Definition set_log_lh (v : logheader) (r : log_t) : log_t :=
  Log (log_start r) (log_size r) (log_outstanding r) (log_committing r) (log_dev r) v.

(** struct superblock (fs.h). *)
Record superblock := Superblock {
  sb_size : Z;
  sb_nblocks : Z;
  sb_ninodes : Z;
  sb_nlog : Z;
  sb_logstart : Z;
  sb_inodestart : Z;
  sb_bmapstart : Z;
}.


(** struct inode (file.h). *)
Record inode := Inode {
  i_dev : Z;
  i_inum : Z;
  i_ref : Z;
  i_lock : sleeplock;
  i_flags : Z;
  i_type : Z;
  i_major : Z;
  i_minor : Z;
  i_nlink : Z;
  i_size : Z;
  i_addrs : list Z;
}.

Definition set_i_dev (v : Z) (r : inode) : inode :=
  Inode v (i_inum r) (i_ref r) (i_lock r) (i_flags r) (i_type r) (i_major r) (i_minor r) (i_nlink r) (i_size r) (i_addrs r).
Definition set_i_inum (v : Z) (r : inode) : inode :=
  Inode (i_dev r) v (i_ref r) (i_lock r) (i_flags r) (i_type r) (i_major r) (i_minor r) (i_nlink r) (i_size r) (i_addrs r).
Definition set_i_ref (v : Z) (r : inode) : inode :=
  Inode (i_dev r) (i_inum r) v (i_lock r) (i_flags r) (i_type r) (i_major r) (i_minor r) (i_nlink r) (i_size r) (i_addrs r).
Definition set_i_lock (v : sleeplock) (r : inode) : inode :=
  Inode (i_dev r) (i_inum r) (i_ref r) v (i_flags r) (i_type r) (i_major r) (i_minor r) (i_nlink r) (i_size r) (i_addrs r).
Definition set_i_flags (v : Z) (r : inode) : inode :=
  Inode (i_dev r) (i_inum r) (i_ref r) (i_lock r) v (i_type r) (i_major r) (i_minor r) (i_nlink r) (i_size r) (i_addrs r).
Definition set_i_type (v : Z) (r : inode) : inode :=
  Inode (i_dev r) (i_inum r) (i_ref r) (i_lock r) (i_flags r) v (i_major r) (i_minor r) (i_nlink r) (i_size r) (i_addrs r).
Definition set_i_major (v : Z) (r : inode) : inode :=
  Inode (i_dev r) (i_inum r) (i_ref r) (i_lock r) (i_flags r) (i_type r) v (i_minor r) (i_nlink r) (i_size r) (i_addrs r).
Definition set_i_minor (v : Z) (r : inode) : inode :=
  Inode (i_dev r) (i_inum r) (i_ref r) (i_lock r) (i_flags r) (i_type r) (i_major r) v (i_nlink r) (i_size r) (i_addrs r).
Definition set_i_nlink (v : Z) (r : inode) : inode :=
  Inode (i_dev r) (i_inum r) (i_ref r) (i_lock r) (i_flags r) (i_type r) (i_major r) (i_minor r) v (i_size r) (i_addrs r).
Definition set_i_size (v : Z) (r : inode) : inode :=
  Inode (i_dev r) (i_inum r) (i_ref r) (i_lock r) (i_flags r) (i_type r) (i_major r) (i_minor r) (i_nlink r) v (i_addrs r).
Definition set_i_addrs (v : list Z) (r : inode) : inode :=
  Inode (i_dev r) (i_inum r) (i_ref r) (i_lock r) (i_flags r) (i_type r) (i_major r) (i_minor r) (i_nlink r) (i_size r) v.

(** The global [input] (console.c). *)
Record input_t := Input {
  in_buf : list Z;
  in_r : Z;
  in_w : Z;
  in_e : Z;
}.

Definition set_in_buf (v : list Z) (r : input_t) : input_t :=
  Input v (in_r r) (in_w r) (in_e r).
Definition set_in_r (v : Z) (r : input_t) : input_t :=
  Input (in_buf r) v (in_w r) (in_e r).
Definition set_in_w (v : Z) (r : input_t) : input_t :=
  Input (in_buf r) (in_r r) v (in_e r).
Definition set_in_e (v : Z) (r : input_t) : input_t :=
  Input (in_buf r) (in_r r) (in_w r) v.

(** The console's globals (console.c): the CGA text memory [crt], the cursor
    register of the CRT controller, and the bytes sent to the serial port so far. *)
Record console := Console {
  c_locking : Z;
  c_panicked : Z;
  c_crt : Z -> Z;
  c_pos : Z;
  c_uart : list Z;
  c_input : input_t;
}.

Definition set_c_locking (v : Z) (r : console) : console :=
  Console v (c_panicked r) (c_crt r) (c_pos r) (c_uart r) (c_input r).
Definition set_c_panicked (v : Z) (r : console) : console :=
  Console (c_locking r) v (c_crt r) (c_pos r) (c_uart r) (c_input r).
Definition set_c_crt (v : Z -> Z) (r : console) : console :=
  Console (c_locking r) (c_panicked r) v (c_pos r) (c_uart r) (c_input r).
Definition set_c_pos (v : Z) (r : console) : console :=
  Console (c_locking r) (c_panicked r) (c_crt r) v (c_uart r) (c_input r).
Definition set_c_uart (v : list Z) (r : console) : console :=
  Console (c_locking r) (c_panicked r) (c_crt r) (c_pos r) v (c_input r).
Definition set_c_input (v : input_t) (r : console) : console :=
  Console (c_locking r) (c_panicked r) (c_crt r) (c_pos r) (c_uart r) v.

(** The kernel's global variables.  [k_first] and [k_kbdshift] are the static locals of
    forkret and kbdgetc; [k_ideq] is the queue of ide.c, as indices of buffers.
    [k_dwrites] is not a variable of the kernel: it is the order in which blocks have
    reached the disk, block number and contents, for the statements about crashes. *)
Record kstate := Kstate {
  k_cpu : cpu;
  k_locks : gmap lockid spinlock;
  k_ticks : Z;
  k_trace : trace_buffer;
  k_mem : Z -> Z;
  k_kmem : kmem_t;
  k_ptable : list proc;
  k_initproc : option nat;
  k_nextpid : Z;
  k_ftable : list file;
  k_pipes : gmap Z pipe;
  k_bcache : bcache_t;
  k_disk : Z -> list Z;
  k_log : log_t;
  k_sb : superblock;
  k_icache : list inode;
  k_cons : console;
  k_kpml4 : Z;
  k_kpdpt : Z;
  k_first : Z;
  k_ideq : list nat;
  k_kbdshift : Z;
  k_dwrites : list (Z * list Z);
}.

Definition set_k_cpu (v : cpu) (r : kstate) : kstate :=
  Kstate v (k_locks r) (k_ticks r) (k_trace r) (k_mem r) (k_kmem r) (k_ptable r) (k_initproc r) (k_nextpid r) (k_ftable r) (k_pipes r) (k_bcache r) (k_disk r) (k_log r) (k_sb r) (k_icache r) (k_cons r) (k_kpml4 r) (k_kpdpt r) (k_first r) (k_ideq r) (k_kbdshift r) (k_dwrites r).
Definition set_k_locks (v : gmap lockid spinlock) (r : kstate) : kstate :=
  Kstate (k_cpu r) v (k_ticks r) (k_trace r) (k_mem r) (k_kmem r) (k_ptable r) (k_initproc r) (k_nextpid r) (k_ftable r) (k_pipes r) (k_bcache r) (k_disk r) (k_log r) (k_sb r) (k_icache r) (k_cons r) (k_kpml4 r) (k_kpdpt r) (k_first r) (k_ideq r) (k_kbdshift r) (k_dwrites r).
Definition set_k_ticks (v : Z) (r : kstate) : kstate :=
  Kstate (k_cpu r) (k_locks r) v (k_trace r) (k_mem r) (k_kmem r) (k_ptable r) (k_initproc r) (k_nextpid r) (k_ftable r) (k_pipes r) (k_bcache r) (k_disk r) (k_log r) (k_sb r) (k_icache r) (k_cons r) (k_kpml4 r) (k_kpdpt r) (k_first r) (k_ideq r) (k_kbdshift r) (k_dwrites r).
Definition set_k_trace (v : trace_buffer) (r : kstate) : kstate :=
  Kstate (k_cpu r) (k_locks r) (k_ticks r) v (k_mem r) (k_kmem r) (k_ptable r) (k_initproc r) (k_nextpid r) (k_ftable r) (k_pipes r) (k_bcache r) (k_disk r) (k_log r) (k_sb r) (k_icache r) (k_cons r) (k_kpml4 r) (k_kpdpt r) (k_first r) (k_ideq r) (k_kbdshift r) (k_dwrites r).
Definition set_k_mem (v : Z -> Z) (r : kstate) : kstate :=
  Kstate (k_cpu r) (k_locks r) (k_ticks r) (k_trace r) v (k_kmem r) (k_ptable r) (k_initproc r) (k_nextpid r) (k_ftable r) (k_pipes r) (k_bcache r) (k_disk r) (k_log r) (k_sb r) (k_icache r) (k_cons r) (k_kpml4 r) (k_kpdpt r) (k_first r) (k_ideq r) (k_kbdshift r) (k_dwrites r).
Definition set_k_kmem (v : kmem_t) (r : kstate) : kstate :=
  Kstate (k_cpu r) (k_locks r) (k_ticks r) (k_trace r) (k_mem r) v (k_ptable r) (k_initproc r) (k_nextpid r) (k_ftable r) (k_pipes r) (k_bcache r) (k_disk r) (k_log r) (k_sb r) (k_icache r) (k_cons r) (k_kpml4 r) (k_kpdpt r) (k_first r) (k_ideq r) (k_kbdshift r) (k_dwrites r).
Definition set_k_ptable (v : list proc) (r : kstate) : kstate :=
  Kstate (k_cpu r) (k_locks r) (k_ticks r) (k_trace r) (k_mem r) (k_kmem r) v (k_initproc r) (k_nextpid r) (k_ftable r) (k_pipes r) (k_bcache r) (k_disk r) (k_log r) (k_sb r) (k_icache r) (k_cons r) (k_kpml4 r) (k_kpdpt r) (k_first r) (k_ideq r) (k_kbdshift r) (k_dwrites r).
Definition set_k_initproc (v : option nat) (r : kstate) : kstate :=
  Kstate (k_cpu r) (k_locks r) (k_ticks r) (k_trace r) (k_mem r) (k_kmem r) (k_ptable r) v (k_nextpid r) (k_ftable r) (k_pipes r) (k_bcache r) (k_disk r) (k_log r) (k_sb r) (k_icache r) (k_cons r) (k_kpml4 r) (k_kpdpt r) (k_first r) (k_ideq r) (k_kbdshift r) (k_dwrites r).
Definition set_k_nextpid (v : Z) (r : kstate) : kstate :=
  Kstate (k_cpu r) (k_locks r) (k_ticks r) (k_trace r) (k_mem r) (k_kmem r) (k_ptable r) (k_initproc r) v (k_ftable r) (k_pipes r) (k_bcache r) (k_disk r) (k_log r) (k_sb r) (k_icache r) (k_cons r) (k_kpml4 r) (k_kpdpt r) (k_first r) (k_ideq r) (k_kbdshift r) (k_dwrites r).
Definition set_k_ftable (v : list file) (r : kstate) : kstate :=
  Kstate (k_cpu r) (k_locks r) (k_ticks r) (k_trace r) (k_mem r) (k_kmem r) (k_ptable r) (k_initproc r) (k_nextpid r) v (k_pipes r) (k_bcache r) (k_disk r) (k_log r) (k_sb r) (k_icache r) (k_cons r) (k_kpml4 r) (k_kpdpt r) (k_first r) (k_ideq r) (k_kbdshift r) (k_dwrites r).
Definition set_k_pipes (v : gmap Z pipe) (r : kstate) : kstate :=
  Kstate (k_cpu r) (k_locks r) (k_ticks r) (k_trace r) (k_mem r) (k_kmem r) (k_ptable r) (k_initproc r) (k_nextpid r) (k_ftable r) v (k_bcache r) (k_disk r) (k_log r) (k_sb r) (k_icache r) (k_cons r) (k_kpml4 r) (k_kpdpt r) (k_first r) (k_ideq r) (k_kbdshift r) (k_dwrites r).
Definition set_k_bcache (v : bcache_t) (r : kstate) : kstate :=
  Kstate (k_cpu r) (k_locks r) (k_ticks r) (k_trace r) (k_mem r) (k_kmem r) (k_ptable r) (k_initproc r) (k_nextpid r) (k_ftable r) (k_pipes r) v (k_disk r) (k_log r) (k_sb r) (k_icache r) (k_cons r) (k_kpml4 r) (k_kpdpt r) (k_first r) (k_ideq r) (k_kbdshift r) (k_dwrites r).
Definition set_k_disk (v : Z -> list Z) (r : kstate) : kstate :=
  Kstate (k_cpu r) (k_locks r) (k_ticks r) (k_trace r) (k_mem r) (k_kmem r) (k_ptable r) (k_initproc r) (k_nextpid r) (k_ftable r) (k_pipes r) (k_bcache r) v (k_log r) (k_sb r) (k_icache r) (k_cons r) (k_kpml4 r) (k_kpdpt r) (k_first r) (k_ideq r) (k_kbdshift r) (k_dwrites r).
Definition set_k_log (v : log_t) (r : kstate) : kstate :=
  Kstate (k_cpu r) (k_locks r) (k_ticks r) (k_trace r) (k_mem r) (k_kmem r) (k_ptable r) (k_initproc r) (k_nextpid r) (k_ftable r) (k_pipes r) (k_bcache r) (k_disk r) v (k_sb r) (k_icache r) (k_cons r) (k_kpml4 r) (k_kpdpt r) (k_first r) (k_ideq r) (k_kbdshift r) (k_dwrites r).
Definition set_k_sb (v : superblock) (r : kstate) : kstate :=
  Kstate (k_cpu r) (k_locks r) (k_ticks r) (k_trace r) (k_mem r) (k_kmem r) (k_ptable r) (k_initproc r) (k_nextpid r) (k_ftable r) (k_pipes r) (k_bcache r) (k_disk r) (k_log r) v (k_icache r) (k_cons r) (k_kpml4 r) (k_kpdpt r) (k_first r) (k_ideq r) (k_kbdshift r) (k_dwrites r).
Definition set_k_icache (v : list inode) (r : kstate) : kstate :=
  Kstate (k_cpu r) (k_locks r) (k_ticks r) (k_trace r) (k_mem r) (k_kmem r) (k_ptable r) (k_initproc r) (k_nextpid r) (k_ftable r) (k_pipes r) (k_bcache r) (k_disk r) (k_log r) (k_sb r) v (k_cons r) (k_kpml4 r) (k_kpdpt r) (k_first r) (k_ideq r) (k_kbdshift r) (k_dwrites r).
Definition set_k_cons (v : console) (r : kstate) : kstate :=
  Kstate (k_cpu r) (k_locks r) (k_ticks r) (k_trace r) (k_mem r) (k_kmem r) (k_ptable r) (k_initproc r) (k_nextpid r) (k_ftable r) (k_pipes r) (k_bcache r) (k_disk r) (k_log r) (k_sb r) (k_icache r) v (k_kpml4 r) (k_kpdpt r) (k_first r) (k_ideq r) (k_kbdshift r) (k_dwrites r).
Definition set_k_kpml4 (v : Z) (r : kstate) : kstate :=
  Kstate (k_cpu r) (k_locks r) (k_ticks r) (k_trace r) (k_mem r) (k_kmem r) (k_ptable r) (k_initproc r) (k_nextpid r) (k_ftable r) (k_pipes r) (k_bcache r) (k_disk r) (k_log r) (k_sb r) (k_icache r) (k_cons r) v (k_kpdpt r) (k_first r) (k_ideq r) (k_kbdshift r) (k_dwrites r).
Definition set_k_kpdpt (v : Z) (r : kstate) : kstate :=
  Kstate (k_cpu r) (k_locks r) (k_ticks r) (k_trace r) (k_mem r) (k_kmem r) (k_ptable r) (k_initproc r) (k_nextpid r) (k_ftable r) (k_pipes r) (k_bcache r) (k_disk r) (k_log r) (k_sb r) (k_icache r) (k_cons r) (k_kpml4 r) v (k_first r) (k_ideq r) (k_kbdshift r) (k_dwrites r).
Definition set_k_first (v : Z) (r : kstate) : kstate :=
  Kstate (k_cpu r) (k_locks r) (k_ticks r) (k_trace r) (k_mem r) (k_kmem r) (k_ptable r) (k_initproc r) (k_nextpid r) (k_ftable r) (k_pipes r) (k_bcache r) (k_disk r) (k_log r) (k_sb r) (k_icache r) (k_cons r) (k_kpml4 r) (k_kpdpt r) v (k_ideq r) (k_kbdshift r) (k_dwrites r).
Definition set_k_ideq (v : list nat) (r : kstate) : kstate :=
  Kstate (k_cpu r) (k_locks r) (k_ticks r) (k_trace r) (k_mem r) (k_kmem r) (k_ptable r) (k_initproc r) (k_nextpid r) (k_ftable r) (k_pipes r) (k_bcache r) (k_disk r) (k_log r) (k_sb r) (k_icache r) (k_cons r) (k_kpml4 r) (k_kpdpt r) (k_first r) v (k_kbdshift r) (k_dwrites r).
Definition set_k_kbdshift (v : Z) (r : kstate) : kstate :=
  Kstate (k_cpu r) (k_locks r) (k_ticks r) (k_trace r) (k_mem r) (k_kmem r) (k_ptable r) (k_initproc r) (k_nextpid r) (k_ftable r) (k_pipes r) (k_bcache r) (k_disk r) (k_log r) (k_sb r) (k_icache r) (k_cons r) (k_kpml4 r) (k_kpdpt r) (k_first r) (k_ideq r) v (k_dwrites r).
Definition set_k_dwrites (v : list (Z * list Z)) (r : kstate) : kstate :=
  Kstate (k_cpu r) (k_locks r) (k_ticks r) (k_trace r) (k_mem r) (k_kmem r) (k_ptable r) (k_initproc r) (k_nextpid r) (k_ftable r) (k_pipes r) (k_bcache r) (k_disk r) (k_log r) (k_sb r) (k_icache r) (k_cons r) (k_kpml4 r) (k_kpdpt r) (k_first r) (k_ideq r) (k_kbdshift r) v.

(** Programs of the kernel. *)
Abbreviation kprog := (prog kstate).

(** The globals as the loader leaves them: zeroed. *)
Definition zero_event : trace_event := Trace_event 0 0 0 0 0 0 0 (replicate 16 0) (replicate 16 0) 0.
Definition zero_tf : trapframe := Trapframe 0 0 0 0 0 0 0 0 0 0 0 0 0 0 0 0 0 0 0 0 0 0.
Definition zero_proc : proc :=
  Proc 0 0 0 UNUSED 0 None zero_tf 0 ChNull 0 (replicate NOFILE None) None (replicate 16 0).
Definition zero_file : file := File FD_NONE 0 0 0 0 None 0.
Definition zero_buf : buf := Buf 0 0 0 (Sleeplock 0 "" 0) 0 (replicate 512 0).
Definition zero_inode : inode := Inode 0 0 0 (Sleeplock 0 "" 0) 0 0 0 0 0 0 (replicate 13 0).
Definition kstate0 : kstate :=
  Kstate (Cpu 0 0 false false None 0 0) ∅ 0
    (Trace_buffer 0 0 0 0 (replicate 128 zero_event)) (fun _ => 0) (Kmem 0 0)
    (replicate NPROC zero_proc) None 1 (replicate NFILE zero_file) ∅
    (Bcache (replicate NBUF zero_buf) []) (fun _ => replicate 512 0)
    (Log 0 0 0 0 0 (Logheader 0 (replicate 30 0))) (Superblock 0 0 0 0 0 0 0)
    (replicate NINODE zero_inode)
    (Console 0 0 (fun _ => 0) 0 [] (Input (replicate 128 0) 0 0 0)) 0 0 1 [] 0 [].
