(* ===== verification/Spinlock.v ===== *)
(** * Spinlock: spinlock.c

    The lock operations as one CPU executes them ([initlock], [acquire],
    [release], [holding], [pushcli], [popcli]), and, in [Module Smp], the
    instructions of acquire and release interleaved over several CPUs. *)

From S2P Require Import Prelude Machine.
#[local] Open Scope prog_scope.

(** The struct spinlock of a lock; a static lock that initlock has not seen is
    zeroed memory. *)
Definition lock_of (lk : lockid) (s : kstate) : spinlock :=
  default (Spinlock 0 "" None) (k_locks s !! lk).
Definition put_lock (lk : lockid) (l : spinlock) (s : kstate) : kstate :=
  set_k_locks (<[lk := l]> (k_locks s)) s.
Definition upd_cpu (f : cpu -> cpu) (s : kstate) : kstate := set_k_cpu (f (k_cpu s)) s.

Definition initlock (lk : lockid) (name : string) : kprog unit :=
  modify (put_lock lk (Spinlock 0 name None)).

(** Check whether this cpu is holding the lock. *)
Definition holding (lk : lockid) : kprog bool :=
  gets (fun s => negb (lk_locked (lock_of lk s) =? 0) &&
                 bool_decide (lk_cpu (lock_of lk s) = Some (cpu_id (k_cpu s)))).

(** The instructions cli and sti, and the atomic exchange. *)
Definition cli : kprog unit := modify (upd_cpu (set_cpu_if false)).
Definition sti : kprog unit := modify (upd_cpu (set_cpu_if true)).
Definition xchg_locked (lk : lockid) (newval : Z) : kprog Z :=
  old <- gets (fun s => lk_locked (lock_of lk s));;
  modify (fun s => put_lock lk (set_lk_locked newval (lock_of lk s)) s);;;
  ret old.

Definition pushcli : kprog unit :=
  eflags <- gets (fun s => cpu_if (k_cpu s));;
  cli;;;
  ncli <- gets (fun s => cpu_ncli (k_cpu s));;
  (when ncli =? 0 do modify (upd_cpu (set_cpu_intena eflags)));;;
  modify (upd_cpu (set_cpu_ncli (ncli + 1))).

Definition popcli : kprog unit :=
  eflags <- gets (fun s => cpu_if (k_cpu s));;
  if (eflags : bool) then panic "popcli - interruptible" else
  modify (upd_cpu (fun c => set_cpu_ncli (cpu_ncli c - 1) c));;;
  c <- gets k_cpu;;
  if cpu_ncli c <? 0 then panic "popcli" else
  when (cpu_ncli c =? 0) && cpu_intena c do sti.

(** The spin loop of acquire ends at once when the lock is free; on a lock that
    another CPU holds the thread spins, and only that CPU can change this. *)
Definition acquire (lk : lockid) : kprog unit :=
  pushcli;;;
  h <- holding lk;;
  if (h : bool) then panic "acquire" else
  old <- xchg_locked lk 1;;
  if negb (old =? 0) then (fun s => Spin s) else
  modify (fun s => put_lock lk (set_lk_cpu (Some (cpu_id (k_cpu s))) (lock_of lk s)) s).

Definition release (lk : lockid) : kprog unit :=
  h <- holding lk;;
  if negb h then panic "release" else
  modify (fun s => put_lock lk (set_lk_cpu None (lock_of lk s)) s);;;
  modify (fun s => put_lock lk (set_lk_locked 0 (lock_of lk s)) s);;;
  popcli.

(** ** Several CPUs

    The memory operations of acquire and release on one lock, each CPU at its own
    point of the code.  [Pc] names the point: before the xchg, between the winning
    xchg and the recording of [lk->cpu], inside the critical section, and between
    the clearing of [lk->cpu] and of [lk->locked]. *)

Module Smp.

Inductive pc := Outside | Spinning | Recording | Critical | Releasing | Panicked.

Record mstate := Mstate { m_locked : Z; m_cpu : option nat; m_pc : nat -> pc }.

Definition goto (c : nat) (p : pc) (f : nat -> pc) : nat -> pc :=
  fun c' => if decide (c' = c) then p else f c'.

(** holding(lk) as CPU [c] evaluates it. *)
Definition holds (s : mstate) (c : nat) : bool :=
  negb (m_locked s =? 0) && bool_decide (m_cpu s = Some c).

Inductive step : mstate -> mstate -> Prop :=
| step_enter s c : m_pc s c = Outside -> holds s c = false ->
    step s (Mstate (m_locked s) (m_cpu s) (goto c Spinning (m_pc s)))
| step_reenter s c : m_pc s c ∈ [Outside; Critical] -> holds s c = true ->
    step s (Mstate (m_locked s) (m_cpu s) (goto c Panicked (m_pc s)))
| step_spin s c : m_pc s c = Spinning -> m_locked s <> 0 ->
    step s (Mstate 1 (m_cpu s) (m_pc s))
| step_win s c : m_pc s c = Spinning -> m_locked s = 0 ->
    step s (Mstate 1 (m_cpu s) (goto c Recording (m_pc s)))
| step_record s c : m_pc s c = Recording ->
    step s (Mstate (m_locked s) (Some c) (goto c Critical (m_pc s)))
| step_release s c : m_pc s c = Critical -> holds s c = true ->
    step s (Mstate (m_locked s) None (goto c Releasing (m_pc s)))
| step_release_panic s c : m_pc s c ∈ [Outside; Critical] -> holds s c = false ->
    step s (Mstate (m_locked s) (m_cpu s) (goto c Panicked (m_pc s)))
| step_unlock s c : m_pc s c = Releasing ->
    step s (Mstate 0 (m_cpu s) (goto c Outside (m_pc s))).

(** The states the lock goes through after initlock, whatever the CPUs do. *)
Inductive reachable : mstate -> Prop :=
| reach_init : reachable (Mstate 0 None (fun _ => Outside))
| reach_step s s' : reachable s -> step s s' -> reachable s'.

Definition owner (p : pc) : Prop := p = Recording \/ p = Critical \/ p = Releasing.

(** How the point of the code a CPU is at relates to the ghost holder [h] of the
    lock (the CPU past its winning xchg, if any) and to the field [lk->cpu]. *)
Definition view (h : option nat) (mc : option nat) (c : nat) (p : pc) : Prop :=
  match p with
  | Outside | Spinning => h <> Some c
  | Recording | Releasing => h = Some c /\ mc = None
  | Critical => h = Some c /\ mc = Some c
  | Panicked => h = Some c -> mc = Some c
  end.

Definition inv (s : mstate) : Prop :=
  exists h : option nat,
    m_locked s = (if h then 1 else 0) /\
    (forall c, m_cpu s = Some c -> h = Some c) /\
    (forall c, view h (m_cpu s) c (m_pc s c)).

End Smp.

(** ** What one CPU's acquire and release do *)

(** The CPU's interrupt bookkeeping before and after pushcli, popcli and a
    matched pair of them. *)
Definition push_cpu (c : cpu) : cpu :=
  Cpu (cpu_id c) (cpu_ncli c + 1) (if cpu_ncli c =? 0 then cpu_if c else cpu_intena c)
      false (cpu_proc c) (cpu_local c) (cpu_cr3 c).
Definition pop_cpu (c : cpu) : cpu :=
  Cpu (cpu_id c) (cpu_ncli c - 1) (cpu_intena c)
      ((cpu_ncli c - 1 =? 0) && cpu_intena c) (cpu_proc c) (cpu_local c) (cpu_cr3 c).
Definition sync_cpu (c : cpu) : cpu :=
  if cpu_ncli c =? 0 then set_cpu_intena (cpu_if c) c else c.

(** Interrupts are off while a pushcli is outstanding. *)
Definition cpu_ok (c : cpu) : Prop :=
  0 <= cpu_ncli c /\ (0 < cpu_ncli c -> cpu_if c = false).

Definition lock_free (lk : lockid) (s : kstate) : Prop :=
  exists nm, k_locks s !! lk = Some (Spinlock 0 nm None).

Definition lock_mine (lk : lockid) (s : kstate) : Prop :=
  exists nm, k_locks s !! lk = Some (Spinlock 1 nm (Some (cpu_id (k_cpu s)))).

(** The state in the critical section of [lk], and after leaving it. *)
Definition enter (lk : lockid) (s : kstate) : kstate :=
  put_lock lk (Spinlock 1 (lk_name (lock_of lk s)) (Some (cpu_id (k_cpu s))))
    (upd_cpu push_cpu s).
Definition leave (lk : lockid) (s : kstate) : kstate :=
  put_lock lk (Spinlock 0 (lk_name (lock_of lk s)) None) (upd_cpu pop_cpu s).

Lemma pushcli_run s : pushcli s = Ret tt (upd_cpu push_cpu s).
Proof.
  destruct s as [c ? ? ? ? ? ? ? ? ? ? ? ? ? ? ? ?]; destruct c as [id n ie fl pr].
  unfold pushcli, push_cpu, bind, gets, modify, cli, upd_cpu; simpl.
  by destruct (n =? 0).
Qed.

Lemma popcli_run s : cpu_if (k_cpu s) = false -> 0 < cpu_ncli (k_cpu s) ->
  popcli s = Ret tt (upd_cpu pop_cpu s).
Proof.
  destruct s as [c ? ? ? ? ? ? ? ? ? ? ? ? ? ? ? ?]; destruct c as [id n ie fl pr].
  simpl. intros -> Hn. unfold popcli, pop_cpu, bind, gets, modify, upd_cpu; simpl.
  destruct (Z.ltb_spec (n - 1) 0); [lia|].
  destruct (n - 1 =? 0), ie; done.
Qed.

Lemma put_lock_twice lk l1 l2 s : put_lock lk l2 (put_lock lk l1 s) = put_lock lk l2 s.
Proof. unfold put_lock; simpl. unfold set_k_locks; simpl. by rewrite insert_insert_eq. Qed.

Lemma put_lock_same lk l s : k_locks s !! lk = Some l -> put_lock lk l s = s.
Proof. intros E. destruct s; unfold put_lock, set_k_locks; simpl in *. by rewrite insert_id. Qed.

Lemma lock_of_put lk l s : lock_of lk (put_lock lk l s) = l.
Proof. unfold lock_of, put_lock; simpl. by rewrite lookup_insert_eq. Qed.

(** A free lock is taken at once. *)
Lemma acquire_run lk s : lock_free lk s -> acquire lk s = Ret tt (enter lk s).
Proof.
  intros [nm E]. unfold acquire. erewrite bind_Ret; [|apply pushcli_run].
  unfold holding. rewrite bind_gets.
  assert (lock_of lk (upd_cpu push_cpu s) = Spinlock 0 nm None) as El
    by (by unfold lock_of; simpl; rewrite E).
  rewrite El. simpl. unfold xchg_locked, modify. unfold bind, gets, ret; simpl.
  rewrite El; simpl. rewrite lock_of_put. unfold enter. rewrite put_lock_twice.
  unfold lock_of. by rewrite E.
Qed.

(** A lock this CPU holds is released, and interrupts return to what they were
    when the outermost lock was taken. *)
Lemma release_run lk s : lock_mine lk s -> cpu_if (k_cpu s) = false ->
  0 < cpu_ncli (k_cpu s) -> release lk s = Ret tt (leave lk s).
Proof.
  intros [nm E] Hif Hn.
  assert (lock_of lk s = Spinlock 1 nm (Some (cpu_id (k_cpu s)))) as El
    by (by unfold lock_of; rewrite E).
  unfold release, holding. rewrite bind_gets, El; simpl.
  rewrite bool_decide_true by done. simpl. rewrite !bind_modify, lock_of_put, put_lock_twice.
  rewrite popcli_run by done. unfold leave. rewrite El. done.
Qed.

Lemma release_not_held lk s : k_locks s !! lk = None \/ lock_free lk s ->
  release lk s = Panic "release" s.
Proof.
  intros H. unfold release, holding. rewrite bind_gets.
  assert (lk_locked (lock_of lk s) = 0) as ->; [|done].
  unfold lock_of. by destruct H as [-> | [nm ->]].
Qed.

Lemma acquire_twice lk s : lock_mine lk s ->
  acquire lk s = Panic "acquire" (upd_cpu push_cpu s).
Proof.
  intros [nm E]. unfold acquire. erewrite bind_Ret; [|apply pushcli_run].
  unfold holding, lock_of. rewrite bind_gets; simpl. rewrite E; simpl.
  by rewrite bool_decide_true.
Qed.

Lemma pop_push c : cpu_ok c -> pop_cpu (push_cpu c) = sync_cpu c.
Proof.
  intros [H0 H1]. destruct c as [id n ie fl pr]; unfold pop_cpu, push_cpu, sync_cpu; simpl in *.
  replace (n + 1 - 1) with n by lia.
  destruct (Z.eqb_spec n 0) as [->|Hne]; simpl; [done|]. rewrite H1 by lia. done.
Qed.

(** Outside the locks, a matched pair only refreshes the saved interrupt flag. *)
Definition sync (s : kstate) : kstate := upd_cpu sync_cpu s.

Lemma cpu_ok_push c : cpu_ok c -> cpu_ok (push_cpu c).
Proof. intros [H0 _]. split; simpl; [lia | done]. Qed.

Lemma cpu_ok_sync c : cpu_ok c -> cpu_ok (sync_cpu c).
Proof. intros [H0 H1]. unfold sync_cpu. destruct (cpu_ncli c =? 0); done. Qed.

Lemma sync_push c : 0 <= cpu_ncli c -> sync_cpu (push_cpu c) = push_cpu c.
Proof. intros H. unfold sync_cpu; simpl. destruct (Z.eqb_spec (cpu_ncli c + 1) 0); [lia|done]. Qed.

Lemma sync_cpu_id c : cpu_id (sync_cpu c) = cpu_id c.
Proof. unfold sync_cpu. by destruct (cpu_ncli c =? 0). Qed.

Lemma sync_cpu_proc c : cpu_proc (sync_cpu c) = cpu_proc c.
Proof. unfold sync_cpu. by destruct (cpu_ncli c =? 0). Qed.

Lemma sync_sync c : sync_cpu (sync_cpu c) = sync_cpu c.
Proof. unfold sync_cpu. destruct c as [? n ? ? ?]; simpl. by destruct (n =? 0) eqn:E; simpl; rewrite ?E. Qed.

Lemma enter_mine lk s : lock_mine lk (enter lk s).
Proof. exists (lk_name (lock_of lk s)). unfold enter, put_lock; simpl. by rewrite lookup_insert_eq. Qed.

Lemma leave_enter lk s : lock_free lk s -> cpu_ok (k_cpu s) -> leave lk (enter lk s) = sync s.
Proof.
  intros [nm E] Hok. unfold leave, enter. rewrite lock_of_put; simpl.
  assert (lk_name (lock_of lk s) = nm) as -> by (by unfold lock_of; rewrite E).
  unfold upd_cpu at 1; simpl. rewrite pop_push by done.
  destruct s; unfold put_lock, sync, upd_cpu, set_k_locks, set_k_cpu; simpl in *.
  by rewrite insert_insert_eq, insert_id.
Qed.

(** Releasing after a body that kept the CPU's record and the lock's entry. *)
Lemma release_after lk s s1 : cpu_ok (k_cpu s) ->
  k_cpu s1 = push_cpu (k_cpu s) -> k_locks s1 !! lk = k_locks (enter lk s) !! lk ->
  release lk s1 = Ret tt (leave lk s1).
Proof.
  intros [H0 _] Hc Hl. apply release_run.
  - exists (lk_name (lock_of lk s)). rewrite Hl, Hc. unfold enter, put_lock; simpl.
    by rewrite lookup_insert_eq.
  - by rewrite Hc.
  - rewrite Hc; simpl. lia.
Qed.

Lemma leave_free lk s : lock_free lk (leave lk s).
Proof. exists (lk_name (lock_of lk s)). apply lookup_insert_eq. Qed.

(** The other locks are not affected. *)
Lemma enter_free_ne lk lk' s : lk <> lk' -> lock_free lk' s -> lock_free lk' (enter lk s).
Proof. intros Hne. unfold lock_free, enter, put_lock; simpl. by rewrite lookup_insert_ne. Qed.
Lemma enter_mine_ne lk lk' s : lk <> lk' -> lock_mine lk' s -> lock_mine lk' (enter lk s).
Proof. intros Hne. unfold lock_mine, enter, put_lock; simpl. by rewrite lookup_insert_ne. Qed.
Lemma leave_free_ne lk lk' s : lk <> lk' -> lock_free lk' s -> lock_free lk' (leave lk s).
Proof. intros Hne. unfold lock_free, leave, put_lock; simpl. by rewrite lookup_insert_ne. Qed.
Lemma leave_mine_ne lk lk' s : lk <> lk' -> lock_mine lk' s -> lock_mine lk' (leave lk s).
Proof. intros Hne. unfold lock_mine, leave, put_lock; simpl. by rewrite lookup_insert_ne. Qed.

#[export] Hint Resolve cpu_ok_push cpu_ok_sync enter_mine leave_free : kernel.

(** Inside a critical section a matched pair changes nothing. *)
Lemma sync_enter lk s : cpu_ok (k_cpu s) -> sync (enter lk s) = enter lk s.
Proof.
  intros [H0 _]. unfold sync, enter, upd_cpu; simpl. rewrite sync_push by done. done.
Qed.

Lemma sync_held s : cpu_ncli (k_cpu s) <> 0 -> sync s = s.
Proof.
  intros Hn. destruct s as [c]; unfold sync, upd_cpu, sync_cpu, set_k_cpu; simpl in *.
  by destruct (Z.eqb_spec (cpu_ncli c) 0).
Qed.

(** An update of the globals that neither reads nor writes the locks and the CPU
    commutes with taking and leaving a lock. *)
Class Stable (u : kstate -> kstate) : Prop := {
  stable_cpu : forall s, k_cpu (u s) = k_cpu s;
  stable_locks : forall s, k_locks (u s) = k_locks s;
  stable_set : forall c l s, set_k_locks l (set_k_cpu c (u s)) = u (set_k_locks l (set_k_cpu c s))
}.

#[export] Instance stable_id : Stable id.
Proof. by split. Qed.
#[export] Instance stable_compose u v : Stable u -> Stable v -> Stable (u ∘ v).
Proof.
  intros [U1 U2 U3] [V1 V2 V3]. split; intros; simpl; [by rewrite U1|by rewrite U2|by rewrite U3, V3].
Qed.

Lemma leave_stable lk u s : Stable u -> leave lk (u s) = u (leave lk s).
Proof.
  intros [U1 U2 U3]. unfold leave, put_lock, upd_cpu, lock_of. rewrite U1, U2.
  rewrite <- U3. simpl. by rewrite U2.
Qed.

Lemma enter_stable lk u s : Stable u -> enter lk (u s) = u (enter lk s).
Proof.
  intros [U1 U2 U3]. unfold enter, put_lock, upd_cpu, lock_of. rewrite U1, U2.
  rewrite <- U3. simpl. by rewrite U2.
Qed.

Lemma sync_stable u s : Stable u -> sync (u s) = u (sync s).
Proof.
  intros [U1 U2 U3]. unfold sync, upd_cpu. rewrite U1.
  assert (forall c s, set_k_cpu c s = set_k_locks (k_locks s) (set_k_cpu c s)) as E by (by intros c []).
  rewrite (E _ (u s)), U2, U3, <- E. done.
Qed.

Lemma release_stable lk u s : Stable u -> lock_free lk s -> cpu_ok (k_cpu s) ->
  release lk (u (enter lk s)) = Ret tt (u (sync s)).
Proof.
  intros U Hf Hc. rewrite (release_after lk s (u (enter lk s)) Hc);
    [|apply stable_cpu|by rewrite stable_locks].
  by rewrite leave_stable, leave_enter.
Qed.

Lemma lock_free_stable lk u s : Stable u -> lock_free lk (u s) <-> lock_free lk s.
Proof. intros U. unfold lock_free. by rewrite stable_locks. Qed.
Lemma lock_mine_stable lk u s : Stable u -> lock_mine lk (u s) <-> lock_mine lk s.
Proof. intros U. unfold lock_mine. by rewrite stable_locks, stable_cpu. Qed.

(** ** Properties *)

(** A critical section (acquire, a body that neither touches this lock nor
    unbalances pushcli/popcli, release) entered with the lock free runs the body
    with the lock held and interrupts off, and afterwards the lock is free again
    and the CPU's lock depth and interrupt flag are what they were. *)
Theorem critical_section {A} (lk : lockid) (body : kprog A) (s s1 : kstate) (a : A) :
  lock_free lk s -> cpu_ok (k_cpu s) ->
  body (enter lk s) = Ret a s1 ->
  k_cpu s1 = k_cpu (enter lk s) -> k_locks s1 !! lk = k_locks (enter lk s) !! lk ->
  lock_mine lk (enter lk s) /\ cpu_if (k_cpu (enter lk s)) = false /\
  exists s2, bind (acquire lk) (fun _ => bind body (fun x => bind (release lk) (fun _ => ret x))) s
    = Ret a s2 /\
  lock_free lk s2 /\ k_cpu s2 = sync_cpu (k_cpu s) /\
  cpu_ncli (k_cpu s2) = cpu_ncli (k_cpu s) /\ cpu_if (k_cpu s2) = cpu_if (k_cpu s).
Proof.
  intros Hf Hok Hb Hc Hl. split; [apply enter_mine|]. split; [done|].
  exists (leave lk s1). split.
  { mstep acquire_run. mstep Hb. mstep release_after. done. }
  split; [exists (lk_name (lock_of lk s1)); unfold leave, put_lock; simpl; by rewrite lookup_insert_eq|].
  assert (k_cpu (leave lk s1) = sync_cpu (k_cpu s)) as ->.
  { unfold leave, upd_cpu; simpl. rewrite Hc; simpl. by apply pop_push. }
  unfold sync_cpu. by destruct (cpu_ncli (k_cpu s) =? 0).
Qed.

(** Sequences of pushcli ([true]) and popcli ([false]) calls, and the properly
    nested ones. *)
Definition cli_ops (l : list bool) : kprog unit :=
  for_each l (fun b : bool => if b then pushcli else popcli).

Inductive nested : list bool -> Prop :=
| nested_nil : nested []
| nested_pair l l' : nested l -> nested l' -> nested (true :: l ++ false :: l').

Lemma cli_ops_app l l' s :
  cli_ops (l ++ l') s = bind (cli_ops l) (fun _ => cli_ops l') s.
Proof. apply for_each_app. Qed.

Lemma cli_ops_one (b : bool) s s' :
  (if b then pushcli else popcli) s = Ret tt s' -> cli_ops [b] s = Ret tt s'.
Proof. intros E. unfold cli_ops. cbn [for_each]. by rewrite (bind_Ret _ _ _ _ _ E). Qed.

Lemma nested_run l : nested l -> forall s, cpu_ok (k_cpu s) ->
  cli_ops l s = Ret tt s \/ cli_ops l s = Ret tt (sync s).
Proof.
  induction 1 as [|l l' _ IH _ IH']; intros s Hok; [by left|]. right.
  change (true :: l ++ false :: l') with ([true] ++ (l ++ ([false] ++ l'))).
  rewrite cli_ops_app.
  rewrite (bind_Ret _ _ _ tt (upd_cpu push_cpu s)) by (apply (cli_ops_one true), pushcli_run).
  rewrite cli_ops_app.
  assert (cli_ops l (upd_cpu push_cpu s) = Ret tt (upd_cpu push_cpu s)) as E.
  { destruct (IH (upd_cpu push_cpu s)) as [E|E]; [by apply cpu_ok_push| done |].
    rewrite E. f_equal. unfold sync, upd_cpu; simpl. rewrite sync_push by apply Hok. done. }
  rewrite (bind_Ret _ _ _ _ _ E), cli_ops_app.
  assert (upd_cpu pop_cpu (upd_cpu push_cpu s) = sync s) as Ep.
  { unfold sync, upd_cpu; simpl. by rewrite pop_push. }
  rewrite (bind_Ret _ _ _ tt (sync s)).
  2: { apply (cli_ops_one false). rewrite popcli_run, Ep; [done|done|]. destruct Hok; simpl; lia. }
  destruct (IH' (sync s)) as [E'|E']; [by apply cpu_ok_sync | done |].
  rewrite E'. f_equal. unfold sync, upd_cpu; simpl. by rewrite sync_sync.
Qed.

(** "It takes two popcli to undo two pushcli.  Also, if interrupts are off,
    then pushcli, popcli leaves them off": a properly nested sequence of pushcli
    and popcli calls never panics, and the depth counter and the interrupt flag
    end as they began; a popcli without a pushcli panics. *)
Theorem pushcli_popcli_matched (l : list bool) (s : kstate) :
  nested l -> cpu_ok (k_cpu s) ->
  (exists s', cli_ops l s = Ret tt s' /\ cpu_ncli (k_cpu s') = cpu_ncli (k_cpu s) /\
     cpu_if (k_cpu s') = cpu_if (k_cpu s) /\ k_locks s' = k_locks s) /\
  (cpu_ncli (k_cpu s) = 0 -> exists msg s', popcli s = Panic msg s').
Proof.
  intros Hn Hok. split.
  - destruct (nested_run l Hn s Hok) as [-> | ->]; eexists; split; try done.
    unfold sync, sync_cpu, upd_cpu; simpl. by destruct (cpu_ncli (k_cpu s) =? 0).
  - intros H0. unfold popcli. rewrite bind_gets. destruct (cpu_if (k_cpu s)); [by eexists _, _|].
    rewrite bind_modify, bind_gets; simpl. rewrite H0. simpl. by eexists _, _.
Qed.

(** *** Several CPUs *)

Section SmpFacts.
Import Smp.

Lemma goto_eq c p f : goto c p f c = p.
Proof. unfold goto. by rewrite decide_True. Qed.
Lemma goto_ne c c' p f : c' <> c -> goto c p f c' = f c'.
Proof. intros H. unfold goto. by rewrite decide_False. Qed.

Lemma view_none mc c p : view None mc c p -> p = Outside \/ p = Spinning \/ p = Panicked.
Proof. destruct p; simpl; intuition congruence. Qed.

Lemma inv_step s s' : inv s -> step s s' -> inv s'.
Proof.
  intros (h & I1 & I2 & I3) Hst.
  destruct Hst as [s c Hp Hh|s c Hp Hh|s c Hp Hl|s c Hp Hl|s c Hp|s c Hp Hh|s c Hp Hh|s c Hp];
    pose proof (I3 c) as Ic; simpl in *.
  - rewrite Hp in Ic; simpl in Ic. exists h; simpl. split; [done|]. split; [done|].
    intros c'. destruct (decide (c' = c)) as [->|Hne]; [by rewrite goto_eq | rewrite goto_ne; eauto].
  - unfold holds in Hh. apply andb_prop in Hh as [_ Hh%bool_decide_eq_true].
    exists h; simpl. split; [done|]. split; [done|].
    intros c'. destruct (decide (c' = c)) as [->|Hne]; [rewrite goto_eq; simpl; tauto | rewrite goto_ne; eauto].
  - exists h; simpl. destruct h; [|done]. by split.
  - assert (h = None) as -> by (destruct h; [lia|done]).
    assert (m_cpu s = None) as E by (destruct (m_cpu s) as [c0|]; [by specialize (I2 c0 eq_refl)|done]).
    exists (Some c); simpl. rewrite E. split; [done|]. split; [done|].
    intros c'. destruct (decide (c' = c)) as [->|Hne]; [by rewrite goto_eq | rewrite goto_ne by done].
    destruct (view_none _ _ _ (I3 c')) as [-> |[-> | ->]]; simpl; congruence.
  - rewrite Hp in Ic; simpl in Ic. destruct Ic as [-> E]. exists (Some c); simpl. split; [done|].
    split; [congruence|]. intros c'. destruct (decide (c' = c)) as [->|Hne]; [by rewrite goto_eq|].
    rewrite goto_ne by done. specialize (I3 c'). rewrite E in I3.
    destruct (m_pc s c'); simpl in *; intuition congruence.
  - rewrite Hp in Ic; simpl in Ic. destruct Ic as [-> E]. exists (Some c); simpl. split; [done|].
    split; [done|]. intros c'. destruct (decide (c' = c)) as [->|Hne]; [by rewrite goto_eq|].
    rewrite goto_ne by done. specialize (I3 c').
    destruct (m_pc s c'); simpl in *; intuition congruence.
  - exists h; simpl. split; [done|]. split; [done|].
    intros c'. destruct (decide (c' = c)) as [->|Hne]; [|rewrite goto_ne; eauto].
    rewrite goto_eq; simpl. apply list_elem_of_In in Hp as [Hp|[Hp|[]]]; rewrite <- Hp in Ic; simpl in Ic;
      [done|tauto].
  - rewrite Hp in Ic; simpl in Ic. destruct Ic as [-> E]. exists None; simpl. rewrite E. split; [done|].
    split; [done|]. intros c'. destruct (decide (c' = c)) as [->|Hne]; [by rewrite goto_eq|].
    rewrite goto_ne by done. specialize (I3 c').
    destruct (m_pc s c'); simpl in *; intuition congruence.
Qed.

Lemma inv_reachable s : reachable s -> inv s.
Proof.
  induction 1 as [|s s' _ IH Hst]; [|by eapply inv_step].
  exists None; simpl. by repeat split.
Qed.

(** C5: Mutual exclusion on every interleaving of the instructions of acquire and
    release over any number of CPUs: two CPUs are never both between the winning
    xchg and the store that clears [locked]; holding() is true for the CPU in the
    critical section and false for a CPU that has not (or not yet) the lock, so the
    checks in acquire and release panic only for a CPU that misuses the lock. *)
Theorem mutual_exclusion (s : mstate) : reachable s ->
  (forall c c', owner (m_pc s c) -> owner (m_pc s c') -> c = c') /\
  (forall c, m_pc s c = Critical -> holds s c = true) /\
  (forall c, m_pc s c = Outside \/ m_pc s c = Spinning -> holds s c = false).
Proof.
  intros (h & I1 & I2 & I3)%inv_reachable. split; [|split].
  - intros c c' Ho Ho'. pose proof (I3 c). pose proof (I3 c').
    destruct Ho as [E|[E|E]], Ho' as [E'|[E'|E']]; rewrite E, E' in *; simpl in *; intuition congruence.
  - intros c E. specialize (I3 c). rewrite E in I3. destruct I3 as [-> E']. unfold holds.
    by rewrite I1, E', bool_decide_true.
  - intros c E. specialize (I3 c). unfold holds.
    assert (h <> Some c) by (by destruct E as [E|E]; rewrite E in I3).
    rewrite bool_decide_false; [apply andb_false_r|]. intros E'. by apply I2 in E'.
Qed.

End SmpFacts.

(** *** Witnesses *)

Definition one_lock : kstate := put_lock LKtick (Spinlock 0 "time" None) kstate0.

Lemma one_lock_free : lock_free LKtick one_lock.
Proof. exists "time"%string. apply lookup_insert_eq. Qed.

Lemma one_lock_cpu : cpu_ok (k_cpu one_lock).
Proof. split; simpl; lia. Qed.

Lemma critical_section_witness : exists s2,
  bind (acquire LKtick) (fun _ => bind (modify (set_k_ticks 5)) (fun x =>
    bind (release LKtick) (fun _ => ret x))) one_lock = Ret tt s2 /\ lock_free LKtick s2.
Proof.
  destruct (critical_section LKtick (modify (set_k_ticks 5)) one_lock
    (set_k_ticks 5 (enter LKtick one_lock)) tt one_lock_free one_lock_cpu eq_refl eq_refl eq_refl)
    as (_ & _ & s2 & E & Hf & _).
  by exists s2.
Defined.

Lemma pushcli_popcli_matched_witness : exists s', cli_ops [true; true; false; false] kstate0 = Ret tt s' /\
  cpu_ncli (k_cpu s') = 0.
Proof.
  destruct (pushcli_popcli_matched [true; true; false; false] kstate0) as [(s' & E & Hn & _) _].
  - exact (nested_pair [true; false] [] (nested_pair [] [] nested_nil nested_nil) nested_nil).
  - exact one_lock_cpu.
  - by exists s'.
Defined.

(** CPU 0 takes the lock while CPU 1 spins on it. *)
Lemma mutual_exclusion_witness : exists s, Smp.reachable s /\ Smp.m_pc s 0%nat = Smp.Critical /\
  Smp.holds s 0%nat = true /\ Smp.holds s 1%nat = false.
Proof.
  epose proof (Smp.reach_step _ _ Smp.reach_init ltac:(by apply (Smp.step_enter _ 0%nat))) as R1.
  epose proof (Smp.reach_step _ _ R1 ltac:(by apply (Smp.step_enter _ 1%nat))) as R2.
  epose proof (Smp.reach_step _ _ R2 ltac:(by apply (Smp.step_win _ 0%nat))) as R3.
  epose proof (Smp.reach_step _ _ R3 ltac:(by apply (Smp.step_record _ 0%nat))) as R4.
  destruct (mutual_exclusion _ R4) as (_ & Hc & Ho).
  eexists. split_and!; [exact R4|done|by apply Hc|by apply Ho; right].
Defined.
