(* ===== verification/Cstring.v ===== *)
(** * Cstring: string.c of the kernel and the string routines of ulib.c

    Memory is a function from addresses to bytes ([0 .. 255]); every routine is
    the C loop, one byte (or one 32-bit word) at a time, so that overlapping
    buffers behave as they do in the code. *)

From S2P Require Import Prelude.

Abbreviation mem := (Z -> Z).

(** ** Loads and stores *)

Definition store8 (m : mem) (a v : Z) : mem := fun x => if x =? a then u8 v else m x.

(** Little-endian access to [n] bytes. *)
Fixpoint load_le (n : nat) (m : mem) (a : Z) : Z :=
  match n with O => 0 | S n => m a + 256 * load_le n m (a + 1) end.
Fixpoint store_le (n : nat) (m : mem) (a v : Z) : mem :=
  match n with O => m | S n => store_le n (store8 m a v) (a + 1) (v / 256) end.
Definition load64 (m : mem) (a : Z) : Z := load_le 8 m a.
Definition store64 (m : mem) (a v : Z) : mem := store_le 8 m a v.

(** ** string.c *)

(** rep stosb and rep stosl (x86.h). *)
Fixpoint stosb (m : mem) (addr data : Z) (cnt : nat) : mem :=
  match cnt with O => m | S k => stosb (store8 m addr data) (addr + 1) data k end.
Fixpoint stosl (m : mem) (addr data : Z) (cnt : nat) : mem :=
  match cnt with O => m | S k => stosl (store_le 4 m addr data) (addr + 4) data k end.

Definition memset (m : mem) (dst c n : Z) : mem :=
  if (dst mod 4 =? 0) && (n mod 4 =? 0) then
    let c := Z.land c 255 in
    stosl m dst (Z.lor (Z.lor (Z.lor (Z.shiftl c 24) (Z.shiftl c 16)) (Z.shiftl c 8)) c)
      (Z.to_nat (i32 (n / 4)))
  else stosb m dst c (Z.to_nat (i32 n)).

Fixpoint memcmp_loop (m : mem) (s1 s2 : Z) (n : nat) : Z :=
  match n with
  | O => 0
  | S n => if negb (m s1 =? m s2) then m s1 - m s2 else memcmp_loop m (s1 + 1) (s2 + 1) n
  end.
Definition memcmp (m : mem) (v1 v2 n : Z) : Z := memcmp_loop m v1 v2 (Z.to_nat (u32 n)).

(** The two loops of memmove: [*--d = *--s] and [*d++ = *s++]. *)
Fixpoint copy_down (m : mem) (d s : Z) (n : nat) : mem :=
  match n with
  | O => m
  | S n => copy_down (store8 m (d - 1) (m (s - 1))) (d - 1) (s - 1) n
  end.
Fixpoint copy_up (m : mem) (d s : Z) (n : nat) : mem :=
  match n with
  | O => m
  | S n => copy_up (store8 m d (m s)) (d + 1) (s + 1) n
  end.
Definition memmove (m : mem) (dst src n : Z) : mem :=
  let n := u32 n in
  if (src <? dst) && (src + n >? dst) then copy_down m (dst + n) (src + n) (Z.to_nat n)
  else copy_up m dst src (Z.to_nat n).

Fixpoint strncmp_loop (m : mem) (p q : Z) (n : nat) : Z :=
  match n with
  | O => 0
  | S k => if negb (m p =? 0) && (m p =? m q) then strncmp_loop m (p + 1) (q + 1) k
           else m p - m q
  end.
Definition strncmp (m : mem) (p q n : Z) : Z := strncmp_loop m p q (Z.to_nat (u32 n)).

(** The copy of the string, then the padding of what is left of the [n] bytes. *)
Fixpoint strncpy_loop (m : mem) (s t : Z) (n : nat) : mem :=
  match n with
  | O => m
  | S k => let m' := store8 m s (m t) in
           if m t =? 0 then stosb m' (s + 1) 0 k else strncpy_loop m' (s + 1) (t + 1) k
  end.
Definition strncpy (m : mem) (s t n : Z) : mem := strncpy_loop m s t (Z.to_nat n).

(** [while(--n > 0 && ( *s++ = *t++) != 0); *s = 0], with [k] the value of [n]
    after the first decrement. *)
Fixpoint safestrcpy_loop (m : mem) (s t : Z) (k : nat) : mem :=
  match k with
  | O => store8 m s 0
  | S k => let m' := store8 m s (m t) in
           if m t =? 0 then store8 m' (s + 1) 0 else safestrcpy_loop m' (s + 1) (t + 1) k
  end.
Definition safestrcpy (m : mem) (s t n : Z) : mem :=
  if n <=? 0 then m else safestrcpy_loop m s t (Z.to_nat (n - 1)).

(** strlen has no bound of its own: [fuel] bytes are looked at, and [None] means
    that none of them was NUL. *)
Fixpoint strlen (fuel : nat) (m : mem) (s : Z) : option Z :=
  match fuel with
  | O => None
  | S f => if m s =? 0 then Some 0 else option_map (Z.add 1) (strlen f m (s + 1))
  end.

(** ** ulib.c *)

Fixpoint strcpy (fuel : nat) (m : mem) (s t : Z) : option mem :=
  match fuel with
  | O => None
  | S f => let m' := store8 m s (m t) in
           if m t =? 0 then Some m' else strcpy f m' (s + 1) (t + 1)
  end.

Fixpoint strcmp (fuel : nat) (m : mem) (p q : Z) : option Z :=
  match fuel with
  | O => None
  | S f => if negb (m p =? 0) && (m p =? m q) then strcmp f m (p + 1) (q + 1)
           else Some (m p - m q)
  end.

(** The address of the first [c] in the string at [s], 0 when there is none. *)
Fixpoint strchr (fuel : nat) (m : mem) (s c : Z) : option Z :=
  match fuel with
  | O => None
  | S f => if m s =? 0 then Some 0 else if m s =? c then Some s else strchr f m (s + 1) c
  end.

Definition umemset (m : mem) (dst c n : Z) : mem := stosb m dst c (Z.to_nat (i32 n)).
Definition umemmove (m : mem) (vdst vsrc n : Z) : mem := copy_up m vdst vsrc (Z.to_nat n).

(** The value of a digit string; the int accumulator wraps. *)
Fixpoint atoi_loop (fuel : nat) (m : mem) (s n : Z) : option Z :=
  match fuel with
  | O => None
  | S f => if (48 <=? m s) && (m s <=? 57) then atoi_loop f m (s + 1) (i32 (n * 10 + m s - 48))
           else Some n
  end.
Definition atoi (fuel : nat) (m : mem) (s : Z) : option Z := atoi_loop fuel m s 0.

(** ** Strings in struct fields

    A [char] array inside a struct is a list of bytes; the routines above run on
    it through a memory that holds the destination at address 0 and the source,
    followed by zeros (the NUL of a literal), far away. *)
Definition src_base : Z := 4294967296.
Definition at_list (base : Z) (l : list Z) (m : mem) : mem :=
  fun x => if (base <=? x) && (x <? base + Z.of_nat (length l)) then nth (Z.to_nat (x - base)) l 0 else m x.
Definition two_arrays (dst src : list Z) : mem :=
  at_list 0 dst (at_list src_base src (fun _ => 0)).
Definition read_list (m : mem) (base : Z) (n : nat) : list Z :=
  map (fun i => m (base + Z.of_nat i)) (seq 0 n).
Definition arr_safestrcpy (dst src : list Z) (n : Z) : list Z :=
  read_list (safestrcpy (two_arrays dst src) 0 src_base n) 0 (length dst).
Definition arr_strncpy (dst src : list Z) (n : Z) : list Z :=
  read_list (strncpy (two_arrays dst src) 0 src_base n) 0 (length dst).
Definition arr_strncmp (a b : list Z) (n : Z) : Z :=
  strncmp (two_arrays a b) 0 src_base n.

(** A string literal as a C string: its characters' codes. *)
Fixpoint lit (s : string) : list Z :=
  match s with
  | EmptyString => []
  | String c s' => Z.of_nat (Ascii.nat_of_ascii c) :: lit s'
  end.

(** ** What the loops compute, stated without loops *)

Definition in_range (a n x : Z) : bool := (a <=? x) && (x <? a + n).
Definition fill (m : mem) (a n c : Z) : mem := fun x => if in_range a n x then c else m x.
Definition blit (m : mem) (d s n : Z) : mem := fun x => if in_range d n x then m (x - d + s) else m x.
Definition bytes_ok (m : mem) : Prop := forall x, 0 <= m x < 256.

(** ** Lemmas *)

Ltac mem_cases := unfold fill, blit, in_range, store8 in *;
  repeat match goal with
  | |- context [?a <=? ?b] => destruct (Z.leb_spec a b)
  | |- context [?a <? ?b] => destruct (Z.ltb_spec a b)
  | |- context [?a =? ?b] => destruct (Z.eqb_spec a b)
  end; simpl; subst; try done; try lia.

Ltac mem_ext := apply functional_extensionality; intros ?; mem_cases.

Lemma in_range_spec a n x : in_range a n x = true <-> a <= x < a + n.
Proof. unfold in_range. rewrite andb_true_iff, Z.leb_le, Z.ltb_lt. done. Qed.

Lemma store8_bytes m a v : bytes_ok m -> bytes_ok (store8 m a v).
Proof. intros H x. unfold store8. destruct (x =? a); [word_lia | apply H]. Qed.

Lemma stosb_fill m a c n : stosb m a c n = fill m a (Z.of_nat n) (u8 c).
Proof.
  revert m a. induction n as [|n IH]; intros m a; simpl; [mem_ext|].
  rewrite IH. mem_ext.
Qed.

Lemma rep4 c : 0 <= c < 256 ->
  Z.lor (Z.lor (Z.lor (Z.shiftl c 24) (Z.shiftl c 16)) (Z.shiftl c 8)) c = c * 16843009.
Proof.
  intros Hc.
  assert (forallb (fun c => Z.lor (Z.lor (Z.lor (Z.shiftl c 24) (Z.shiftl c 16)) (Z.shiftl c 8)) c
                            =? c * 16843009) (seqZ 0 256) = true) as H by (vm_compute; done).
  rewrite forallb_forall in H. apply Z.eqb_eq, (H c), list_elem_of_In, elem_of_seqZ. lia.
Qed.

Lemma store4_fill m a c : 0 <= c < 256 -> store_le 4 m a (c * 16843009) = fill m a 4 c.
Proof.
  intros Hc. simpl. rewrite !Z.div_div by lia.
  apply functional_extensionality; intros x. unfold store8, fill, in_range, u8.
  replace ((c * 16843009) mod 256) with c by (Z.div_mod_to_equations; lia).
  replace ((c * 16843009 / 256) mod 256) with c by (Z.div_mod_to_equations; lia).
  replace ((c * 16843009 / (256 * 256)) mod 256) with c by (Z.div_mod_to_equations; lia).
  replace ((c * 16843009 / (256 * 256 * 256)) mod 256) with c by (Z.div_mod_to_equations; lia).
  mem_cases.
Qed.

Lemma stosl_fill m a c n : 0 <= c < 256 ->
  stosl m a (c * 16843009) n = fill m a (4 * Z.of_nat n) c.
Proof.
  intros Hc. revert m a. induction n as [|n IH]; intros m a; cbn [stosl]; [mem_ext|].
  rewrite store4_fill, IH by done. mem_ext.
Qed.

Lemma land_255 c : Z.land c 255 = u8 c.
Proof. unfold u8. change 255 with (Z.ones 8). rewrite Z.land_ones by lia. done. Qed.

Lemma memset_fill m dst c n : 0 <= n < 2147483648 -> memset m dst c n = fill m dst n (u8 c).
Proof.
  intros Hn. unfold memset.
  destruct (Z.eqb_spec (dst mod 4) 0), (Z.eqb_spec (n mod 4) 0) as [Hm|Hm]; simpl.
  - rewrite land_255, rep4, stosl_fill by word_lia. f_equal. word_lia.
  - rewrite stosb_fill. f_equal. word_lia.
  - rewrite stosb_fill. f_equal. word_lia.
  - rewrite stosb_fill. f_equal. word_lia.
Qed.

Lemma copy_up_step m d s n x :
  copy_up m d s (S n) x = copy_up (store8 m d (m s)) (d + 1) (s + 1) n x.
Proof. done. Qed.

(** Copying upwards is right unless the destination starts inside the source. *)
Lemma copy_up_blit m d s n : bytes_ok m -> d <= s \/ s + Z.of_nat n <= d ->
  copy_up m d s n = blit m d s (Z.of_nat n).
Proof.
  revert m d s. induction n as [|n IH]; intros m d s Hb Hd; simpl.
  { apply functional_extensionality; intros x. unfold blit, in_range.
    destruct (Z.leb_spec d x), (Z.ltb_spec x (d + Z.of_nat 0)); simpl; try done; lia. }
  rewrite IH by (try apply store8_bytes; try done; lia).
  apply functional_extensionality; intros x. unfold blit, in_range, store8.
  assert (u8 (m s) = m s) as E by (specialize (Hb s); word_lia).
  destruct (Z.leb_spec (d + 1) x), (Z.ltb_spec x (d + 1 + Z.of_nat n)), (Z.leb_spec d x),
    (Z.ltb_spec x (d + Z.of_nat (S n))); simpl; try lia; try done.
  - replace (x - (d + 1) + (s + 1)) with (x - d + s) by lia.
    destruct (Z.eqb_spec (x - d + s) d); [lia|done].
  - destruct (Z.eqb_spec x d); [|done]. lia.
  - destruct (Z.eqb_spec x d) as [->|]; [|lia]. rewrite E. f_equal. lia.
  - destruct (Z.eqb_spec x d); [lia|done].
Qed.

(** Copying downwards from the ends is right unless the destination ends inside
    the source. *)
Lemma copy_down_blit m d s n : bytes_ok m -> s <= d ->
  copy_down m d s n = blit m (d - Z.of_nat n) (s - Z.of_nat n) (Z.of_nat n).
Proof.
  revert m d s. induction n as [|n IH]; intros m d s Hb Hd; simpl.
  { apply functional_extensionality; intros x. unfold blit, in_range.
    destruct (Z.leb_spec (d - Z.of_nat 0) x), (Z.ltb_spec x (d - Z.of_nat 0 + Z.of_nat 0)); simpl; try done; lia. }
  rewrite IH by (try apply store8_bytes; try done; lia).
  apply functional_extensionality; intros x. unfold blit, in_range, store8.
  assert (u8 (m (s - 1)) = m (s - 1)) as E by (specialize (Hb (s - 1)); word_lia).
  replace (x - (d - 1 - Z.of_nat n) + (s - 1 - Z.of_nat n)) with (x - d + s) by lia.
  replace (x - (d - Z.of_nat (S n)) + (s - Z.of_nat (S n))) with (x - d + s) by lia.
  destruct (Z.leb_spec (d - 1 - Z.of_nat n) x), (Z.ltb_spec x (d - 1 - Z.of_nat n + Z.of_nat n)),
    (Z.leb_spec (d - Z.of_nat (S n)) x), (Z.ltb_spec x (d - Z.of_nat (S n) + Z.of_nat (S n)));
    simpl; try lia; try done.
  - destruct (Z.eqb_spec (x - d + s) (d - 1)); [lia|done].
  - destruct (Z.eqb_spec x (d - 1)) as [->|]; [|lia]. rewrite E. f_equal. lia.
  - destruct (Z.eqb_spec x (d - 1)) as [->|]; [lia|done].
  - destruct (Z.eqb_spec x (d - 1)) as [->|]; [lia|done].
Qed.

Lemma memmove_blit m dst src n : bytes_ok m -> 0 <= n < 4294967296 ->
  memmove m dst src n = blit m dst src n.
Proof.
  intros Hb Hn. unfold memmove. rewrite u32_small by done.
  destruct (Z.ltb_spec src dst), (Z.gtb_spec (src + n) dst); simpl.
  - rewrite copy_down_blit by (done || lia). f_equal; lia.
  - rewrite copy_up_blit by (done || lia). f_equal; lia.
  - rewrite copy_up_blit by (done || lia). f_equal; lia.
  - rewrite copy_up_blit by (done || lia). f_equal; lia.
Qed.

Lemma memset_bytes m dst c n : bytes_ok m -> 0 <= n < 2147483648 -> bytes_ok (memset m dst c n).
Proof. intros Hb Hn x. rewrite memset_fill by done. unfold fill. destruct (in_range _ _ _); [word_lia|apply Hb]. Qed.

Lemma memmove_bytes m dst src n : bytes_ok m -> 0 <= n < 4294967296 -> bytes_ok (memmove m dst src n).
Proof. intros Hb Hn x. rewrite memmove_blit by done. unfold blit. destruct (in_range _ _ _); apply Hb. Qed.

Lemma store_le_out n m a v x : ~ (a <= x < a + Z.of_nat n) -> store_le n m a v x = m x.
Proof.
  revert m a v. induction n as [|n IH]; intros m a v Hx; simpl; [done|].
  rewrite IH by lia. unfold store8. destruct (Z.eqb_spec x a); [lia|done].
Qed.

Lemma store_le_bytes n m a v : bytes_ok m -> bytes_ok (store_le n m a v).
Proof.
  revert m a v. induction n as [|n IH]; intros m a v Hb; simpl; [done|].
  by apply IH, store8_bytes.
Qed.

Lemma load_le_ext n m m' a : (forall x, a <= x < a + Z.of_nat n -> m x = m' x) ->
  load_le n m a = load_le n m' a.
Proof.
  revert a. induction n as [|n IH]; intros a H; simpl; [done|].
  rewrite H by lia. rewrite (IH (a + 1)); [done|]. intros x Hx. apply H. lia.
Qed.

Lemma load_store_same n m a v : load_le n (store_le n m a v) a = v mod 256 ^ Z.of_nat n.
Proof.
  revert m a v. induction n as [|n IH]; intros m a v; simpl; [by rewrite Z.mod_1_r|].
  rewrite store_le_out by lia. rewrite IH. unfold store8. rewrite Z.eqb_refl. unfold u8.
  rewrite Nat2Z.inj_succ, Z.pow_succ_r by lia. rewrite Z.rem_mul_r by lia. done.
Qed.

Lemma load64_store64 m a v : 0 <= v < 18446744073709551616 -> load64 (store64 m a v) a = v.
Proof. intros Hv. unfold load64, store64. rewrite load_store_same. by apply Z.mod_small. Qed.

Lemma load64_other m m' a : (forall x, a <= x < a + 8 -> m x = m' x) -> load64 m a = load64 m' a.
Proof. intros H. by apply load_le_ext. Qed.

(** The number of bytes before the first NUL, looking at [n] bytes at most. *)
Fixpoint strnlen (n : nat) (m : mem) (s : Z) : nat :=
  match n with
  | O => 0
  | S n => if m s =? 0 then 0 else S (strnlen n m (s + 1))
  end.

Lemma strnlen_ext n m m' s : (forall x, s <= x < s + Z.of_nat n -> m x = m' x) ->
  strnlen n m s = strnlen n m' s.
Proof.
  revert s. induction n as [|n IH]; intros s H; simpl; [done|].
  rewrite H by lia. rewrite (IH (s + 1)); [done|]. intros x Hx. apply H. lia.
Qed.

Lemma strnlen_le n m s : (strnlen n m s <= n)%nat.
Proof. revert s. induction n as [|n IH]; intros s; simpl; [lia|]. destruct (_ =? _); [lia|]. specialize (IH (s + 1)). lia. Qed.

(** What safestrcpy leaves in memory. *)
Lemma safestrcpy_loop_spec k m s t : bytes_ok m ->
  s + Z.of_nat k < t \/ t + Z.of_nat k <= s ->
  let m' := safestrcpy_loop m s t k in let l := strnlen k m t in
  (forall i, 0 <= i < Z.of_nat l -> m' (s + i) = m (t + i)) /\
  m' (s + Z.of_nat l) = 0 /\
  (forall x, ~ (s <= x < s + Z.of_nat k + 1) -> m' x = m x).
Proof.
  revert m s t. induction k as [|k IH]; intros m s t Hb Hd; simpl.
  { split; [lia|]. split; [unfold store8; by rewrite Z.add_0_r, Z.eqb_refl|].
    intros x Hx. unfold store8. destruct (Z.eqb_spec x s); [lia|done]. }
  assert (u8 (m t) = m t) as Et by (specialize (Hb t); word_lia).
  destruct (Z.eqb_spec (m t) 0) as [E|E].
  - split; [simpl; lia|]. split.
    + unfold store8. simpl. rewrite Z.add_0_r, Z.eqb_refl.
      destruct (Z.eqb_spec s (s + 1)); [lia|]. by rewrite E.
    + intros x Hx. unfold store8. destruct (Z.eqb_spec x (s + 1)), (Z.eqb_spec x s); lia || done.
  - specialize (IH (store8 m s (m t)) (s + 1) (t + 1)). simpl in IH.
    destruct IH as (I1 & I2 & I3); [by apply store8_bytes | lia |].
    rewrite <- (strnlen_ext k m) in I1, I2
      by (intros x Hx; unfold store8; destruct (Z.eqb_spec x s); [lia|done]).
    pose proof (strnlen_le k m (t + 1)). split; [|split].
    + intros i Hi. destruct (Z.eqb_spec i 0) as [->|Hne].
      * rewrite I3 by lia. unfold store8. rewrite !Z.add_0_r, Z.eqb_refl. done.
      * replace (s + i) with (s + 1 + (i - 1)) by lia. rewrite I1 by lia.
        unfold store8. destruct (Z.eqb_spec (t + 1 + (i - 1)) s); [lia|]. f_equal. lia.
    + rewrite <- I2. f_equal. lia.
    + intros x Hx. rewrite I3 by lia. unfold store8. destruct (Z.eqb_spec x s); [lia|done].
Qed.

(** strncpy: the string (or its first [n] bytes) followed by zeros, [n] bytes in all. *)
Lemma strncpy_loop_spec n m s t : bytes_ok m ->
  s + Z.of_nat n <= t \/ t + Z.of_nat n <= s ->
  strncpy_loop m s t n = fun x =>
    if in_range s (Z.of_nat n) x then
      (if x - s <? Z.of_nat (strnlen n m t) then m (x - s + t) else 0)
    else m x.
Proof.
  revert m s t. induction n as [|n IH]; intros m s t Hb Hd; cbn [strncpy_loop strnlen].
  { mem_ext. }
  assert (u8 (m t) = m t) as Et by (specialize (Hb t); word_lia).
  destruct (Z.eqb_spec (m t) 0) as [E|E].
  - rewrite stosb_fill. change (u8 0) with 0. rewrite E.
    apply functional_extensionality; intros x. unfold fill, in_range, store8. change (u8 0) with 0.
    destruct (Z.leb_spec (s + 1) x), (Z.ltb_spec x (s + 1 + Z.of_nat n)), (Z.leb_spec s x),
      (Z.ltb_spec x (s + Z.of_nat (S n))), (Z.ltb_spec (x - s) (Z.of_nat 0)), (Z.eqb_spec x s); simpl; lia || done.
  - rewrite IH by (try apply store8_bytes; try done; lia).
    rewrite <- (strnlen_ext n m)
      by (intros x Hx; unfold store8; destruct (Z.eqb_spec x s); [lia|done]).
    apply functional_extensionality; intros x. unfold in_range, store8.
    replace (x - (s + 1) + (t + 1)) with (x - s + t) by lia.
    destruct (Z.leb_spec (s + 1) x), (Z.ltb_spec x (s + 1 + Z.of_nat n)), (Z.leb_spec s x),
      (Z.ltb_spec x (s + Z.of_nat (S n))),
      (Z.ltb_spec (x - (s + 1)) (Z.of_nat (strnlen n m (t + 1)))),
      (Z.ltb_spec (x - s) (Z.of_nat (S (strnlen n m (t + 1))))),
      (Z.eqb_spec (x - s + t) s), (Z.eqb_spec x s) as [->|]; simpl; try lia; try done.
    all: rewrite Et; f_equal; lia.
Qed.

Lemma strncmp_loop_zero n m p q :
  strncmp_loop m p q n = 0 <->
  (forall i, 0 <= i < Z.of_nat n -> (forall j, 0 <= j < i -> m (p + j) <> 0) ->
     m (p + i) = m (q + i)).
Proof.
  revert p q. induction n as [|n IH]; intros p q; cbn [strncmp_loop]; [split; [lia|done]|].
  destruct (Z.eqb_spec (m p) 0) as [E|E]; simpl.
  - split.
    + intros H i Hi Hj. destruct (Z.eqb_spec i 0) as [->|Hne]; [rewrite !Z.add_0_r; lia|].
      exfalso. apply (Hj 0); [lia|]. by rewrite Z.add_0_r.
    + intros H. specialize (H 0). rewrite !Z.add_0_r in H. rewrite H; lia.
  - destruct (Z.eqb_spec (m p) (m q)) as [E'|E'].
    + rewrite IH. split.
      * intros H i Hi Hj. destruct (Z.eqb_spec i 0) as [->|Hne]; [by rewrite !Z.add_0_r|].
        replace (p + i) with (p + 1 + (i - 1)) by lia. replace (q + i) with (q + 1 + (i - 1)) by lia.
        apply H; [lia|]. intros j Hj'. specialize (Hj (j + 1)).
        replace (p + 1 + j) with (p + (j + 1)) by lia. apply Hj. lia.
      * intros H i Hi Hj. replace (p + 1 + i) with (p + (i + 1)) by lia.
        replace (q + 1 + i) with (q + (i + 1)) by lia. apply H; [lia|].
        intros j Hj'. destruct (Z.eqb_spec j 0) as [->|Hne]; [by rewrite Z.add_0_r|].
        replace (p + j) with (p + 1 + (j - 1)) by lia. apply Hj. lia.
    + split; [lia|]. intros H. specialize (H 0). rewrite !Z.add_0_r in H. rewrite H in E'; lia.
Qed.

Lemma at_list_in base l m x : base <= x < base + Z.of_nat (length l) ->
  Some (at_list base l m x) = l !! Z.to_nat (x - base).
Proof.
  intros Hx. unfold at_list. destruct (Z.leb_spec base x), (Z.ltb_spec x (base + Z.of_nat (length l))); try lia.
  destruct (lookup_lt_is_Some_2 l (Z.to_nat (x - base))) as [c Hc]; [lia|].
  rewrite Hc. by erewrite nth_lookup_Some.
Qed.

Lemma at_list_out base l m x : ~ (base <= x < base + Z.of_nat (length l)) -> at_list base l m x = m x.
Proof.
  intros Hx. unfold at_list.
  by destruct (Z.leb_spec base x), (Z.ltb_spec x (base + Z.of_nat (length l))); try lia.
Qed.

Lemma at_list_nth base l m (i : nat) :
  (i < length l)%nat -> at_list base l m (base + Z.of_nat i) = nth i l 0.
Proof.
  intros Hi. pose proof (at_list_in base l m (base + Z.of_nat i) ltac:(lia)) as E.
  replace (base + Z.of_nat i - base) with (Z.of_nat i) in E by lia. rewrite Nat2Z.id in E.
  symmetry in E. by erewrite nth_lookup_Some.
Qed.

Lemma at_list_bytes b l m : Forall (fun c => 0 <= c < 256) l -> bytes_ok m ->
  bytes_ok (at_list b l m).
Proof.
  intros Hl Hm x. destruct (decide (b <= x < b + Z.of_nat (length l))) as [Hx|Hx].
  - pose proof (at_list_in b l m x Hx) as E. symmetry in E. rewrite Forall_lookup in Hl. by apply Hl in E.
  - rewrite at_list_out by done. apply Hm.
Qed.

Lemma two_arrays_dst dst src i : (i < length dst)%nat ->
  two_arrays dst src (Z.of_nat i) = nth i dst 0.
Proof. intros Hi. by apply (at_list_nth 0). Qed.

Lemma two_arrays_src dst src i : Z.of_nat (length dst) <= src_base ->
  two_arrays dst src (src_base + Z.of_nat i) = nth i src 0.
Proof.
  intros Hd. unfold two_arrays. rewrite at_list_out by lia.
  destruct (decide (i < length src)%nat); [by apply at_list_nth|].
  rewrite at_list_out, nth_overflow by lia. done.
Qed.

Lemma length_read_list m b n : length (read_list m b n) = n.
Proof. unfold read_list. by rewrite length_map, length_seq. Qed.

Lemma nth_read_list m b n i : (i < n)%nat -> nth i (read_list m b n) 0 = m (b + Z.of_nat i).
Proof.
  intros Hi. unfold read_list.
  rewrite (nth_indep _ 0 (m (b + Z.of_nat 0))) by (rewrite length_map, length_seq; lia).
  rewrite (map_nth (fun i => m (b + Z.of_nat i)) (seq 0 n) 0%nat). by rewrite seq_nth.
Qed.

Lemma lit_bytes s : Forall (fun c => 0 <= c < 256) (lit s).
Proof.
  induction s as [|c s IH]; simpl; constructor; [|done].
  pose proof (Ascii.nat_ascii_bounded c). lia.
Qed.

(** ** Properties *)

(** The kernel's memset fills exactly the [n] bytes at [dst] with the low byte
    of [c], whichever of its two loops (words of four bytes, or single bytes) it
    takes, and agrees with the user library's memset. *)
Theorem memset_fills (m : mem) (dst c n : Z) : 0 <= n < 2147483648 ->
  (forall x, dst <= x < dst + n -> memset m dst c n x = u8 c) /\
  (forall x, ~ (dst <= x < dst + n) -> memset m dst c n x = m x) /\
  memset m dst c n = umemset m dst c n.
Proof.
  intros Hn. rewrite memset_fill by done. unfold fill. split; [|split].
  - intros x Hx. by rewrite (proj2 (in_range_spec _ _ _)).
  - intros x Hx. destruct (in_range dst n x) eqn:E; [|done]. by apply in_range_spec in E.
  - unfold umemset. rewrite stosb_fill, i32_small, Z2Nat.id by lia. done.
Qed.

Lemma memset_fills_witness : memset (fun _ => 0) 8 257 4 11 = 1.
Proof. exact (proj1 (memset_fills (fun _ => 0) 8 257 4 ltac:(lia)) 11 ltac:(lia)). Defined.

(** The kernel's memmove copies the [n] bytes at [src], as they were before the
    call, to [dst] for every overlap of the two regions, and changes nothing else;
    the user library's memmove does the same when the destination does not start
    inside the source, and not otherwise: moving [1;2;3] up by one byte it
    replicates the first byte. *)
Theorem memmove_overlap (m : mem) (dst src n : Z) : bytes_ok m -> 0 <= n < 2147483648 ->
  (forall i, 0 <= i < n -> memmove m dst src n (dst + i) = m (src + i)) /\
  (forall x, ~ (dst <= x < dst + n) -> memmove m dst src n x = m x) /\
  (dst <= src \/ src + n <= dst -> umemmove m dst src n = memmove m dst src n) /\
  read_list (umemmove (at_list 0 [1; 2; 3] (fun _ => 0)) 1 0 3) 0 4 = [1; 1; 1; 1].
Proof.
  intros Hb Hn. rewrite memmove_blit by (done || lia). unfold blit. repeat split.
  - intros i Hi. rewrite (proj2 (in_range_spec _ _ _)) by lia. f_equal. lia.
  - intros x Hx. destruct (in_range dst n x) eqn:E; [|done]. by apply in_range_spec in E.
  - intros Hd. unfold umemmove. rewrite copy_up_blit by (done || lia). unfold blit.
    by rewrite Z2Nat.id by lia.
Qed.

Lemma memmove_overlap_witness :
  memmove (at_list 0 [1; 2; 3] (fun _ => 0)) 1 0 3 (1 + 2) = 3.
Proof.
  assert (bytes_ok (at_list 0 [1; 2; 3] (fun _ => 0))) as Hb
    by (apply at_list_bytes; [by repeat constructor | done]).
  exact (proj1 (memmove_overlap _ 1 0 3 Hb ltac:(lia)) 2 ltac:(lia)).
Defined.

(** safestrcpy, "like strncpy but guaranteed to NUL-terminate": for [n > 0] and
    buffers that do not overlap, the destination receives the source string cut to
    [n - 1] bytes, then a NUL, and no byte outside the [n] bytes changes; strncpy
    fills its [n] bytes with the string and zeros. *)
Theorem safestrcpy_terminates_string (m : mem) (s t n : Z) : bytes_ok m -> 0 < n ->
  s + n <= t \/ t + n <= s ->
  let l := strnlen (Z.to_nat (n - 1)) m t in
  let m' := safestrcpy m s t n in
  (forall i, 0 <= i < Z.of_nat l -> m' (s + i) = m (t + i)) /\
  m' (s + Z.of_nat l) = 0 /\ Z.of_nat l < n /\
  (forall x, ~ (s <= x < s + n) -> m' x = m x) /\
  (forall i, 0 <= i < n -> strncpy m s t n (s + i) =
     if i <? Z.of_nat (strnlen (Z.to_nat n) m t) then m (t + i) else 0).
Proof.
  intros Hb Hn Hd l m'. subst l m'. unfold safestrcpy. destruct (Z.leb_spec n 0); [lia|].
  destruct (safestrcpy_loop_spec (Z.to_nat (n - 1)) m s t Hb) as (H1 & H2 & H3); [lia|].
  pose proof (strnlen_le (Z.to_nat (n - 1)) m t).
  repeat split; try done; try lia.
  - intros x Hx. apply H3. lia.
  - intros i Hi. unfold strncpy. rewrite strncpy_loop_spec by (done || lia).
    rewrite Z2Nat.id by lia. rewrite (proj2 (in_range_spec _ _ _)) by lia.
    replace (s + i - s) with i by lia. by replace (i + t) with (t + i) by lia.
Qed.

Lemma safestrcpy_terminates_string_witness :
  safestrcpy (at_list 100 (lit "kernel") (fun _ => 7)) 0 100 4 3 = 0.
Proof.
  assert (bytes_ok (at_list 100 (lit "kernel") (fun _ => 7))) as Hb
    by (apply at_list_bytes; [apply lit_bytes | done]).
  exact (proj1 (proj2 (safestrcpy_terminates_string _ 0 100 4 Hb ltac:(lia) ltac:(lia)))).
Defined.
