(* ===== verification/Ktrace.v ===== *)
(** * Ktrace: ktrace.c, the kernel's event ring buffer

    [traceinit], [traceevent] and [traceread] over the global [traceBuffer], and
    the abstract log they implement: the history of all events recorded since
    boot, the position up to which it has been consumed, and how many events were
    lost.  The counters of the implementation are 32-bit and wrap; the history
    does not. *)

From S2P Require Import Prelude Machine Spinlock Cstring.
#[local] Open Scope prog_scope.

Definition TRACE_BUF_SIZE : Z := 128.

(** The struct proc behind the per-CPU pointer [proc]. *)
Definition cur_proc (s : kstate) : option proc :=
  match cpu_proc (k_cpu s) with Some i => k_ptable s !! i | None => None end.

(** Entry [i] of the process table, and an assignment to it. *)
Definition proc_at (i : nat) (s : kstate) : proc := default zero_proc (k_ptable s !! i).
Definition upd_proc (i : nat) (f : proc -> proc) (s : kstate) : kstate :=
  set_k_ptable (alter f i (k_ptable s)) s.

(** The per-CPU variable [proc] where the code dereferences it. *)
Definition myproc : kprog nat :=
  fun s => match cpu_proc (k_cpu s) with Some i => Ret i s | None => Undef "null proc" s end.

Lemma bind_myproc {A} i (f : nat -> kprog A) s : cpu_proc (k_cpu s) = Some i -> bind myproc f s = f i s.
Proof. intros E. unfold bind, myproc. by rewrite E. Qed.

Definition upd_trace (f : trace_buffer -> trace_buffer) (s : kstate) : kstate :=
  set_k_trace (f (k_trace s)) s.

Definition traceinit : kprog unit :=
  initlock LKtrace "trace";;;
  modify (upd_trace (set_tb_enabled 1));;;
  modify (upd_trace (set_tb_seq 0));;;
  modify (upd_trace (set_tb_readseq 0));;;
  modify (upd_trace (set_tb_overwritten 0)).

(** The fields of the event, as traceevent sets them one after the other: the two
    names are zeroed and then filled by safestrcpy. *)
Definition zero_name : list Z := replicate (Z.to_nat TRACE_NAME_LEN) 0.
Definition event_comm (s : kstate) : list Z :=
  match cur_proc s with
  | Some p => if p_pid p >? 0 then arr_safestrcpy zero_name (p_name p) TRACE_NAME_LEN
              else arr_safestrcpy zero_name (lit "kernel") TRACE_NAME_LEN
  | None => arr_safestrcpy zero_name (lit "kernel") TRACE_NAME_LEN
  end.
Definition event_name (name : option (list Z)) : list Z :=
  match name with
  | Some nm => arr_safestrcpy zero_name nm TRACE_NAME_LEN
  | None => zero_name
  end.
Definition make_event (s : kstate) (type pid arg0 arg1 arg2 : Z) (name : option (list Z))
  : trace_event :=
  Trace_event (tb_seq (k_trace s)) (k_ticks s) (i32 type) (i32 pid) (i32 arg0) (i32 arg1)
    (i32 arg2) (event_comm s) (event_name name) (tb_overwritten (k_trace s)).

Definition slot (seq : Z) : nat := Z.to_nat (seq mod TRACE_BUF_SIZE).

Definition traceevent (type pid arg0 arg1 arg2 : Z) (name : option (list Z)) : kprog unit :=
  enabled <- gets (fun s => tb_enabled (k_trace s));;
  if enabled =? 0 then ret tt else
  acquire LKtrace;;;
  modify (fun s => upd_trace (fun tb =>
    set_tb_events (<[slot (tb_seq tb) := make_event s type pid arg0 arg1 arg2 name]> (tb_events tb)) tb) s);;;
  modify (upd_trace (fun tb => set_tb_seq (u32 (tb_seq tb + 1)) tb));;;
  tb <- gets k_trace;;
  (when u32 (tb_seq tb - tb_readseq tb) >? TRACE_BUF_SIZE do
     (modify (upd_trace (fun tb => set_tb_readseq (u32 (tb_seq tb - TRACE_BUF_SIZE)) tb));;;
      modify (upd_trace (fun tb => set_tb_overwritten (u32 (tb_overwritten tb + 1)) tb))));;;
  release LKtrace.

(** The 64 bytes of a struct trace_event in memory. *)
Definition EVENT_SIZE : Z := 64.
Fixpoint le_bytes (n : nat) (v : Z) : list Z :=
  match n with O => [] | S n => u8 v :: le_bytes n (v / 256) end.
Fixpoint of_le_bytes (l : list Z) : Z :=
  match l with [] => 0 | b :: l => b + 256 * of_le_bytes l end.
Definition event_bytes (e : trace_event) : list Z :=
  le_bytes 4 (te_seq e) ++ le_bytes 4 (te_ticks e) ++ le_bytes 4 (te_type e) ++
  le_bytes 4 (te_pid e) ++ le_bytes 4 (te_arg0 e) ++ le_bytes 4 (te_arg1 e) ++
  le_bytes 4 (te_arg2 e) ++ te_comm e ++ te_event e ++ le_bytes 4 (te_overwritten e).
(** What a user program reads back from those bytes. *)
Definition event_of_bytes (l : list Z) : trace_event :=
  let word i := of_le_bytes (take 4 (drop i l)) in
  Trace_event (word 0%nat) (word 4%nat) (i32 (word 8%nat)) (i32 (word 12%nat))
    (i32 (word 16%nat)) (i32 (word 20%nat)) (i32 (word 24%nat))
    (take 16 (drop 28 l)) (take 16 (drop 44 l)) (word 60%nat).

(** What traceread needs of the virtual memory system.  [copyout va b] writes the
    bytes [b] at the user address [va] of the current process and returns 0, or
    returns -1; [uread s va] is the byte the process sees at [va], and
    [user_ok s va n] says that the page table reaches the [n] bytes at [va].  The
    laws: on such a range copyout returns; it changes no byte outside the range and
    on success stores [b]; it touches neither the trace buffer, nor the locks, nor
    the CPU's record; and what the process sees depends on physical memory, the
    process table and the current process alone. *)
Class UserCopy := {
  copyout : Z -> list Z -> kprog Z;
  user_ok : kstate -> Z -> Z -> Prop;
  uread : kstate -> Z -> option Z
}.
Definition same_user_view (s s' : kstate) : Prop :=
  k_mem s' = k_mem s /\ k_ptable s' = k_ptable s /\ cpu_proc (k_cpu s') = cpu_proc (k_cpu s).
Class UserCopyLaws `{UserCopy} := {
  user_ok_view : forall s s' va n, same_user_view s s' -> user_ok s va n -> user_ok s' va n;
  uread_view : forall s s' va, same_user_view s s' -> uread s' va = uread s va;
  copyout_law : forall s va b, user_ok s va (Z.of_nat (length b)) ->
    exists r s', copyout va b s = Ret r s' /\ (r = 0 \/ r = -1) /\
      k_trace s' = k_trace s /\ k_locks s' = k_locks s /\ k_cpu s' = k_cpu s /\
      (forall va' n', user_ok s va' n' -> user_ok s' va' n') /\
      (r = 0 -> forall i, (i < length b)%nat -> uread s' (va + Z.of_nat i) = b !! i) /\
      (forall x, ~ (va <= x < va + Z.of_nat (length b)) -> uread s' x = uread s x)
}.

(** The copy loop: at most [max_events] rounds, so [max_events + 1] units of fuel
    always suffice ([traceread_fuel]). *)
Fixpoint traceread_loop `{UserCopy} (fuel : nat) (dst max_events count : Z) : kprog Z :=
  match fuel with
  | O => fun s => NoFuel s
  | S fuel =>
    tb <- gets k_trace;;
    if (count <? max_events) && negb (tb_readseq tb =? tb_seq tb) then
      let event := nth (slot (tb_readseq tb)) (tb_events tb) (Trace_event 0 0 0 0 0 0 0 [] [] 0) in
      modify (upd_trace (fun tb => set_tb_readseq (u32 (tb_readseq tb + 1)) tb));;;
      r <- copyout (dst + EVENT_SIZE * count) (event_bytes event);;
      if r <? 0 then release LKtrace;;; ret (if count >? 0 then count else -1)
      else traceread_loop fuel dst max_events (count + 1)
    else release LKtrace;;; ret count
  end.

Definition traceread `{UserCopy} (dst max_events : Z) : kprog Z :=
  if max_events <=? 0 then ret 0 else
  acquire LKtrace;;;
  traceread_loop (S (Z.to_nat max_events)) dst max_events 0.

(** ** The abstract log *)

Record tlog := Tlog {
  tl_hist : list trace_event;  (* every event recorded since traceinit *)
  tl_pos : nat;                (* how many of them are consumed *)
  tl_lost : nat                (* how many were overwritten before being read *)
}.

Definition tl_unread (q : tlog) : list trace_event := drop (tl_pos q) (tl_hist q).

(** Recording an event keeps the last 128 unread ones. *)
Definition tlog_record (e : trace_event) (q : tlog) : tlog :=
  if decide (128 < length (tl_hist q) + 1 - tl_pos q)%nat
  then Tlog (tl_hist q ++ [e]) (S (tl_pos q)) (S (tl_lost q))
  else Tlog (tl_hist q ++ [e]) (tl_pos q) (tl_lost q).

(** Consuming the [n] oldest unread events. *)
Definition tlog_consume (n : nat) (q : tlog) : tlog :=
  Tlog (tl_hist q) (tl_pos q + n) (tl_lost q).

(** The trace buffer [tb] holds the log [q]. *)
Record repr (tb : trace_buffer) (q : tlog) : Prop := Repr {
  r_enabled : tb_enabled tb <> 0;
  r_seq : tb_seq tb = u32 (Z.of_nat (length (tl_hist q)));
  r_readseq : tb_readseq tb = u32 (Z.of_nat (tl_pos q));
  r_overwritten : tb_overwritten tb = u32 (Z.of_nat (tl_lost q));
  r_pos : (tl_pos q <= length (tl_hist q))%nat;
  r_room : (length (tl_hist q) - tl_pos q <= 128)%nat;
  r_size : length (tb_events tb) = 128%nat;
  r_slots : forall i, (tl_pos q <= i < length (tl_hist q))%nat ->
    tb_events tb !! slot (Z.of_nat i) = tl_hist q !! i;
  r_numbers : forall i e, tl_hist q !! i = Some e -> te_seq e = u32 (Z.of_nat i)
}.

(** ** Lemmas *)

Lemma slot_lt z : (slot z < 128)%nat.
Proof. unfold slot, TRACE_BUF_SIZE. pose proof (Z.mod_pos_bound z 128). lia. Qed.

Lemma slot_u32 z : slot (u32 z) = slot z.
Proof. unfold slot, TRACE_BUF_SIZE. rewrite u32_mod_ring; [done | lia | by exists 33554432]. Qed.

(** Slots repeat after 128 events and not before. *)
Lemma slot_inj i j : slot (Z.of_nat i) = slot (Z.of_nat j) ->
  (i < j)%nat -> (j < i + 128)%nat -> False.
Proof. unfold slot, TRACE_BUF_SIZE. Z.div_mod_to_equations. lia. Qed.

(** The effect of traceevent on the buffer. *)
Definition tb_record (e : trace_event) (tb : trace_buffer) : trace_buffer :=
  let seq := u32 (tb_seq tb + 1) in
  let full := u32 (seq - tb_readseq tb) >? TRACE_BUF_SIZE in
  Trace_buffer (tb_enabled tb) seq
    (if full then u32 (seq - TRACE_BUF_SIZE) else tb_readseq tb)
    (if full then u32 (tb_overwritten tb + 1) else tb_overwritten tb)
    (<[slot (tb_seq tb) := e]> (tb_events tb)).

Lemma leave_enter_trace s tb : lock_free LKtrace s -> cpu_ok (k_cpu s) ->
  leave LKtrace (set_k_trace tb (enter LKtrace s)) = set_k_trace tb (sync s).
Proof. intros Hf Hc. rewrite <- (leave_enter LKtrace s) by done. done. Qed.

Lemma traceevent_run type pid arg0 arg1 arg2 name s :
  lock_free LKtrace s -> cpu_ok (k_cpu s) -> tb_enabled (k_trace s) <> 0 ->
  traceevent type pid arg0 arg1 arg2 name s =
  Ret tt (set_k_trace (tb_record (make_event s type pid arg0 arg1 arg2 name) (k_trace s)) (sync s)).
Proof.
  intros Hf Hc He. unfold traceevent. rewrite bind_gets.
  destruct (Z.eqb_spec (tb_enabled (k_trace s)) 0); [done|].
  mstep acquire_run. rewrite !bind_modify, bind_gets.
  set (e := make_event (enter LKtrace s) type pid arg0 arg1 arg2 name).
  change (make_event s type pid arg0 arg1 arg2 name) with e.
  rewrite <- leave_enter_trace by done.
  destruct (u32 (u32 (tb_seq (k_trace s) + 1) - tb_readseq (k_trace s)) >? TRACE_BUF_SIZE) eqn:E.
  all: cbn -[release]; rewrite E; mrun.
  all: rewrite (release_after LKtrace s) by done.
  all: unfold tb_record; rewrite E; done.
Qed.

Lemma traceevent_disabled type pid arg0 arg1 arg2 name s :
  tb_enabled (k_trace s) = 0 -> traceevent type pid arg0 arg1 arg2 name s = Ret tt s.
Proof. intros E. unfold traceevent. rewrite bind_gets, E. done. Qed.

(** The state after a call of traceevent, tracing enabled or not. *)
Definition traced (type pid arg0 arg1 arg2 : Z) (name : option (list Z)) (s : kstate) : kstate :=
  if tb_enabled (k_trace s) =? 0 then s
  else set_k_trace (tb_record (make_event s type pid arg0 arg1 arg2 name) (k_trace s)) (sync s).

Lemma traceevent_traced type pid arg0 arg1 arg2 name s :
  lock_free LKtrace s -> cpu_ok (k_cpu s) ->
  traceevent type pid arg0 arg1 arg2 name s = Ret tt (traced type pid arg0 arg1 arg2 name s).
Proof.
  intros Hf Hc. unfold traced. destruct (Z.eqb_spec (tb_enabled (k_trace s)) 0).
  - by apply traceevent_disabled.
  - by apply traceevent_run.
Qed.

(** traceevent changes the trace buffer and the CPU's saved interrupt flag only. *)
Lemma traced_frame type pid arg0 arg1 arg2 name s :
  traced type pid arg0 arg1 arg2 name s = s \/
  exists tb, traced type pid arg0 arg1 arg2 name s = set_k_trace tb (sync s).
Proof. unfold traced. destruct (_ =? 0); [by left | right; by eexists]. Qed.

(** Everything but the trace buffer and the CPU's saved interrupt flag. *)
Record quiet (s s' : kstate) : Prop := Quiet {
  q_locks : k_locks s' = k_locks s;
  q_ticks : k_ticks s' = k_ticks s;
  q_mem : k_mem s' = k_mem s;
  q_kmem : k_kmem s' = k_kmem s;
  q_ptable : k_ptable s' = k_ptable s;
  q_initproc : k_initproc s' = k_initproc s;
  q_nextpid : k_nextpid s' = k_nextpid s;
  q_ftable : k_ftable s' = k_ftable s;
  q_pipes : k_pipes s' = k_pipes s;
  q_bcache : k_bcache s' = k_bcache s;
  q_disk : k_disk s' = k_disk s;
  q_log : k_log s' = k_log s;
  q_sb : k_sb s' = k_sb s;
  q_icache : k_icache s' = k_icache s;
  q_cons : k_cons s' = k_cons s;
  q_kpml4 : k_kpml4 s' = k_kpml4 s;
  q_kpdpt : k_kpdpt s' = k_kpdpt s;
  q_first : k_first s' = k_first s;
  q_ideq : k_ideq s' = k_ideq s;
  q_kbdshift : k_kbdshift s' = k_kbdshift s;
  q_dwrites : k_dwrites s' = k_dwrites s;
  q_cpu : k_cpu s' = k_cpu s \/ k_cpu s' = sync_cpu (k_cpu s)
}.

Lemma quiet_refl s : quiet s s.
Proof. split; auto. Qed.

Lemma quiet_sync s : quiet s (sync s).
Proof. split; auto. Qed.

Lemma quiet_trans s1 s2 s3 : quiet s1 s2 -> quiet s2 s3 -> quiet s1 s3.
Proof.
  intros [] []. split; try congruence.
  destruct q_cpu0 as [E|E], q_cpu1 as [E'|E']; rewrite E', E; rewrite ?sync_sync; auto.
Qed.

Lemma quiet_traced type pid arg0 arg1 arg2 name s :
  quiet s (traced type pid arg0 arg1 arg2 name s).
Proof.
  destruct (traced_frame type pid arg0 arg1 arg2 name s) as [-> |[tb ->]]; [apply quiet_refl|].
  split; auto.
Qed.

Lemma quiet_cpu_ok s s' : quiet s s' -> cpu_ok (k_cpu s) -> cpu_ok (k_cpu s').
Proof. intros Hq Hc. destruct (q_cpu _ _ Hq) as [-> | ->]; [done | by apply cpu_ok_sync]. Qed.

Lemma quiet_lock_free s s' lk : quiet s s' -> lock_free lk s -> lock_free lk s'.
Proof. intros Hq. unfold lock_free. by rewrite (q_locks _ _ Hq). Qed.

Lemma quiet_cur_proc s s' : quiet s s' -> cur_proc s' = cur_proc s.
Proof.
  intros Hq. unfold cur_proc. rewrite (q_ptable _ _ Hq).
  destruct (q_cpu _ _ Hq) as [-> | ->]; [done | by rewrite sync_cpu_proc].
Qed.

#[export] Hint Resolve quiet_refl quiet_sync quiet_traced quiet_cpu_ok quiet_lock_free : kernel.

Lemma repr_record tb q e : repr tb q -> te_seq e = tb_seq tb ->
  repr (tb_record e tb) (tlog_record e q).
Proof.
  intros [H1 H2 H3 H4 H5 H6 H7 H8 H9] He.
  set (n := length (tl_hist q)) in *. set (p := tl_pos q) in *.
  assert (u32 (tb_seq tb + 1) = u32 (Z.of_nat (n + 1))) as Eseq by (rewrite H2; word_lia).
  assert (u32 (u32 (tb_seq tb + 1) - tb_readseq tb) = Z.of_nat (n + 1 - p)) as Ediff
    by (rewrite Eseq, H3; word_lia).
  assert (length (tl_hist q ++ [e]) = n + 1)%nat as Elen by (rewrite length_app; done).
  assert (forall i e', (tl_hist q ++ [e]) !! i = Some e' -> te_seq e' = u32 (Z.of_nat i)) as Hnum.
  { intros i e' Hi. apply lookup_snoc_Some in Hi as [[Hlt Hi]|[-> ->]]; [by apply H9|].
    by rewrite He, H2. }
  assert (forall i, (p <= i < n + 1)%nat -> (n + 1 <= i + 128)%nat ->
    <[slot (tb_seq tb) := e]> (tb_events tb) !! slot (Z.of_nat i) = (tl_hist q ++ [e]) !! i) as Hsl.
  { intros i Hi Hi2. rewrite H2, slot_u32. destruct (decide (i = n)) as [->|Hne].
    - rewrite list_lookup_insert_eq by (rewrite H7; apply slot_lt).
      subst n. by rewrite lookup_app_r, Nat.sub_diag by lia.
    - rewrite list_lookup_insert_ne.
      + rewrite lookup_app_l by lia. apply H8. lia.
      + intros E. apply (slot_inj i n); [done|lia|lia]. }
  unfold tb_record, tlog_record, TRACE_BUF_SIZE. rewrite Ediff. fold n p.
  destruct (decide (128 < n + 1 - p)%nat) as [Hd|Hd];
    [destruct (Z.gtb_spec (Z.of_nat (n + 1 - p)) 128); [|lia]
    |destruct (Z.gtb_spec (Z.of_nat (n + 1 - p)) 128); [lia|]].
  - split; simpl; rewrite ?length_insert, ?Elen; try done; try lia.
    + rewrite Eseq. replace (n + 1)%nat with (S p + 128)%nat by lia. word_lia.
    + rewrite H4. word_lia.
    + intros i Hi. apply Hsl; lia.
  - split; simpl; rewrite ?length_insert, ?Elen; try done; try lia.
    intros i Hi. apply Hsl; lia.
Qed.

Lemma repr_consume_one tb q : repr tb q -> (tl_pos q < length (tl_hist q))%nat ->
  repr (set_tb_readseq (u32 (tb_readseq tb + 1)) tb) (tlog_consume 1 q).
Proof.
  intros [H1 H2 H3 H4 H5 H6 H7 H8 H9] Hlt. split; simpl; try done; try lia.
  - rewrite H3. word_lia.
  - intros i Hi. apply H8. lia.
Qed.

Lemma repr_empty tb q : repr tb q ->
  tb_readseq tb =? tb_seq tb = bool_decide (tl_pos q = length (tl_hist q)).
Proof.
  intros [H1 H2 H3 H4 H5 H6 H7 H8 H9]. rewrite H2, H3.
  case_bool_decide as E; [rewrite E; apply Z.eqb_refl|].
  apply Z.eqb_neq. word_lia.
Qed.

Lemma repr_head tb q e : repr tb q -> tl_hist q !! tl_pos q = Some e ->
  nth (slot (tb_readseq tb)) (tb_events tb) (Trace_event 0 0 0 0 0 0 0 [] [] 0) = e.
Proof.
  intros [H1 H2 H3 H4 H5 H6 H7 H8 H9] He. rewrite H3, slot_u32. apply nth_lookup_Some.
  rewrite H8; [done|]. apply lookup_lt_Some in He. lia.
Qed.

Lemma consume_consume n m q : tlog_consume n (tlog_consume m q) = tlog_consume (m + n) q.
Proof. unfold tlog_consume; simpl. f_equal. lia. Qed.

Lemma consume_0 q : tlog_consume 0 q = q.
Proof. destruct q. unfold tlog_consume; simpl. f_equal. lia. Qed.

Lemma unread_lookup q i : tl_unread q !! i = tl_hist q !! (tl_pos q + i)%nat.
Proof. apply lookup_drop. Qed.

Lemma length_unread q : length (tl_unread q) = (length (tl_hist q) - tl_pos q)%nat.
Proof. apply length_drop. Qed.

Lemma length_le_bytes n v : length (le_bytes n v) = n.
Proof. revert v. induction n; intros; simpl; auto. Qed.

Lemma length_arr_safestrcpy dst src n : length (arr_safestrcpy dst src n) = length dst.
Proof. apply length_read_list. Qed.

(** Events of the buffer have their two names in 16 bytes each. *)
Definition event_wf (e : trace_event) : Prop :=
  length (te_comm e) = 16%nat /\ length (te_event e) = 16%nat.

Lemma length_event_bytes e : event_wf e -> length (event_bytes e) = 64%nat.
Proof. intros [H1 H2]. unfold event_bytes. rewrite !length_app, !length_le_bytes, H1, H2. done. Qed.

Lemma make_event_wf s type pid a0 a1 a2 name : event_wf (make_event s type pid a0 a1 a2 name).
Proof.
  split; unfold make_event; cbn [te_comm te_event].
  - unfold event_comm. destruct (cur_proc s) as [p|]; [destruct (p_pid p >? 0)|];
      by rewrite length_arr_safestrcpy.
  - unfold event_name. destruct name; [by rewrite length_arr_safestrcpy | done].
Qed.

Section Read.
Context `{UserCopyLaws}.

(** The user buffer at [dst + 64 c] .. holds the events [es]. *)
Definition holds_events (s : kstate) (dst c : Z) (es : list trace_event) : Prop :=
  forall i e b, es !! i = Some e -> (b < 64)%nat ->
    uread s (dst + 64 * (c + Z.of_nat i) + Z.of_nat b) = event_bytes e !! b.

Lemma holds_events_cons s dst c e es :
  (forall b, (b < 64)%nat -> uread s (dst + 64 * c + Z.of_nat b) = event_bytes e !! b) ->
  holds_events s dst (c + 1) es -> holds_events s dst c (e :: es).
Proof.
  intros H1 H2 i e' b Hi Hb. destruct i as [|i]; simpl in Hi.
  - simplify_eq. rewrite Z.add_0_r. by apply H1.
  - rewrite <- (H2 i e' b) by done. f_equal. lia.
Qed.

(** One run of the copy loop, as the code after it (release, return) sees it:
    [es] are the events copied, [r] the value returned. *)
Record copied (dst n c : Z) (q : tlog) (s s1 : kstate) (es : list trace_event) (r : Z) : Prop := {
  cp_prefix : es = take (length es) (tl_unread q);
  cp_bound : c + Z.of_nat (length es) <= n;
  cp_cpu : k_cpu s1 = k_cpu s;
  cp_locks : k_locks s1 = k_locks s;
  cp_bytes : holds_events s1 dst c es;
  cp_outside : forall x, x < dst + 64 * c -> uread s1 x = uread s x;
  cp_result :
    (r = c + Z.of_nat (length es) /\
     (c + Z.of_nat (length es) = n \/ length es = length (tl_unread q)) /\
     repr (k_trace s1) (tlog_consume (length es) q)) \/
    ((length es < length (tl_unread q))%nat /\ c + Z.of_nat (length es) < n /\
     r = (if c + Z.of_nat (length es) >? 0 then c + Z.of_nat (length es) else -1) /\
     repr (k_trace s1) (tlog_consume (S (length es)) q))
}.

Lemma traceread_loop_spec fuel dst n c s q :
  0 <= c <= n -> n - c < Z.of_nat fuel -> repr (k_trace s) q -> Forall event_wf (tl_unread q) ->
  (forall i, c <= i < n -> user_ok s (dst + 64 * i) 64) ->
  exists s1 es r, traceread_loop fuel dst n c s = bind (release LKtrace) (fun _ => ret r) s1 /\
    copied dst n c q s s1 es r.
Proof.
  revert c s q. induction fuel as [|fuel IH]; intros c s q Hc Hf Hr Hwf Hok; [lia|].
  cbn [traceread_loop]. rewrite bind_gets. rewrite (repr_empty _ _ Hr).
  destruct (Z.ltb_spec c n) as [Hlt|Hge]; simpl;
    [case_bool_decide as Hemp; simpl|].
  - exists s, [], c. split; [done|]. split; simpl; try done; try lia.
    left. rewrite consume_0, length_unread. split; [lia|]. split; [right; lia|done].
  - assert (tl_pos q < length (tl_hist q))%nat as Hp by (destruct Hr; lia).
    destruct (lookup_lt_is_Some_2 (tl_hist q) (tl_pos q) Hp) as [e He].
    rewrite (repr_head _ _ _ Hr He), bind_modify.
    set (s0 := upd_trace (fun tb => set_tb_readseq (u32 (tb_readseq tb + 1)) tb) s).
    assert (tl_unread q = e :: tl_unread (tlog_consume 1 q)) as Eun.
    { unfold tl_unread; simpl. rewrite (drop_S _ _ _ He). do 2 f_equal. lia. }
    rewrite Eun in Hwf. apply Forall_cons_1 in Hwf as [Hwe Hwf].
    assert (user_ok s0 (dst + EVENT_SIZE * c) (Z.of_nat (length (event_bytes e)))) as Hu.
    { rewrite length_event_bytes by done. apply (user_ok_view s); [done|]. apply Hok. lia. }
    destruct (copyout_law s0 _ _ Hu) as (r & s1 & Ec & Hres & Ht & Hl & Hcpu & Hkeep & Hw & Hout).
    rewrite (bind_Ret _ _ _ _ _ Ec). rewrite length_event_bytes in Hw, Hout by done.
    assert (repr (k_trace s1) (tlog_consume 1 q)) as Hr1.
    { rewrite Ht. by apply repr_consume_one. }
    destruct Hres as [-> | ->]; simpl.
    + destruct (IH (c + 1) s1 (tlog_consume 1 q)) as (s2 & es & r & E & [P1 P2 P3 P4 P5 P6 P7]);
        [lia|lia|done|done| |].
      { intros i Hi. apply Hkeep, (user_ok_view s); [done|]. apply Hok. lia. }
      exists s2, (e :: es), r. split; [done|]. split; rewrite ?Eun; simpl.
      * by rewrite <- P1.
      * lia.
      * by rewrite P3, Hcpu.
      * by rewrite P4, Hl.
      * apply holds_events_cons; [|done]. intros b Hb. rewrite P6 by lia. by apply Hw.
      * intros x Hx. rewrite P6 by lia. rewrite Hout by (unfold EVENT_SIZE; lia).
        by apply uread_view.
      * rewrite !consume_consume in P7. simpl in P7.
        replace (c + Z.of_nat (S (length es))) with (c + 1 + Z.of_nat (length es)) by lia.
        destruct P7 as [(-> & P8 & P9)|(P7 & P8 & -> & P9)]; [left|right];
          split_and!; try done; try lia.
    + exists s1, [], (if c >? 0 then c else -1). split; [done|]. split; simpl; try done; try lia.
      * intros x Hx. rewrite Hout by (unfold EVENT_SIZE; lia). by apply uread_view.
      * right. rewrite Z.add_0_r, length_unread. split_and!; try done; lia.
  - exists s, [], c. split; [done|]. split; simpl; try done; try lia.
    left. rewrite consume_0. split; [lia|]. split; [left; lia|done].
Qed.

End Read.

(** ** Sequences of events

    What one call of traceevent records, and a run of calls. *)
Record tcall := Tcall { c_type : Z; c_pid : Z; c_arg0 : Z; c_arg1 : Z; c_arg2 : Z; c_name : option (list Z) }.
Definition trace_all (l : list tcall) : kprog unit :=
  for_each l (fun c => traceevent (c_type c) (c_pid c) (c_arg0 c) (c_arg1 c) (c_arg2 c) (c_name c)).

Lemma sync_lock_free lk s : lock_free lk (sync s) <-> lock_free lk s.
Proof. done. Qed.

Lemma trace_all_spec l s q : repr (k_trace s) q -> lock_free LKtrace s -> cpu_ok (k_cpu s) ->
  exists s' es, trace_all l s = Ret tt s' /\ length es = length l /\
    repr (k_trace s') (fold_left (fun q e => tlog_record e q) es q) /\
    lock_free LKtrace s' /\ cpu_ok (k_cpu s') /\
    (forall i c e, l !! i = Some c -> es !! i = Some e ->
       te_type e = i32 (c_type c) /\ te_pid e = i32 (c_pid c) /\ te_arg0 e = i32 (c_arg0 c) /\
       te_arg1 e = i32 (c_arg1 c) /\ te_arg2 e = i32 (c_arg2 c) /\ te_event e = event_name (c_name c)).
Proof.
  revert s q. induction l as [|c l IH]; intros s q Hr Hf Hc.
  { by exists s, []. }
  unfold trace_all; cbn [for_each].
  set (e := make_event s (c_type c) (c_pid c) (c_arg0 c) (c_arg1 c) (c_arg2 c) (c_name c)).
  rewrite (bind_Ret _ _ _ _ _ (traceevent_run _ _ _ _ _ _ s Hf Hc (r_enabled _ _ Hr))).
  fold e. destruct (IH (set_k_trace (tb_record e (k_trace s)) (sync s)) (tlog_record e q))
    as (s' & es & E & Hlen & Hr' & Hf' & Hc' & Hes).
  - simpl. by apply repr_record.
  - done.
  - by apply cpu_ok_sync.
  - exists s', (e :: es). split; [done|]. simpl. rewrite Hlen. split_and!; try done.
    intros [|i] c' e' Hl Hl'; simpl in *; simplify_eq; [done|]. eauto.
Qed.

Lemma fold_record_hist es q : tl_hist (fold_left (fun q e => tlog_record e q) es q) = tl_hist q ++ es.
Proof.
  revert q. induction es as [|e es IH]; intros q; simpl; [by rewrite app_nil_r|].
  rewrite IH. unfold tlog_record. by destruct (decide _); simpl; rewrite <- app_assoc.
Qed.

(** From an empty log, the unread events are the last 128. *)
Lemma fold_record_fresh es :
  fold_left (fun q e => tlog_record e q) es (Tlog [] 0 0) =
  Tlog es (length es - 128) (length es - 128).
Proof.
  induction es as [|e es IH] using rev_ind; [done|].
  rewrite fold_left_app, IH; simpl. unfold tlog_record; simpl. rewrite length_app; simpl.
  destruct (decide _); f_equal; lia.
Qed.

Lemma traceinit_run s : length (tb_events (k_trace s)) = 128%nat ->
  exists s', traceinit s = Ret tt s' /\ repr (k_trace s') (Tlog [] 0 0) /\ lock_free LKtrace s' /\
    k_cpu s' = k_cpu s.
Proof.
  intros Hl. eexists. split; [done|]. split_and!; try done.
  - split; simpl; try done; try lia. 
  - exists "trace"%string. simpl. by rewrite lookup_insert_eq.
Qed.

(** ** The layout of the struct *)

Lemma le_bytes_back n v : of_le_bytes (le_bytes n v) = v mod 256 ^ Z.of_nat n.
Proof.
  revert v. induction n as [|n IH]; intros v; cbn [le_bytes of_le_bytes]; [by rewrite Z.mod_1_r|].
  rewrite IH, Nat2Z.inj_succ, Z.pow_succ_r by lia. unfold u8. rewrite Z.rem_mul_r by lia. done.
Qed.

(** ** Properties *)

(** traceevent implements the abstract log: from a buffer that holds the log
    [q], with its lock free, it returns, appends one event that carries the caller's
    arguments, the clock, the next sequence number and the number of events lost so
    far, forgets the oldest unread event exactly when 128 are unread, and leaves
    every other part of the kernel's state as it was; when tracing is disabled it
    does nothing. *)
Theorem traceevent_refines (s : kstate) (q : tlog) (type pid arg0 arg1 arg2 : Z)
    (name : option (list Z)) :
  repr (k_trace s) q -> lock_free LKtrace s -> cpu_ok (k_cpu s) ->
  exists e tb, traceevent type pid arg0 arg1 arg2 name s = Ret tt (set_k_trace tb (sync s)) /\
    repr tb (tlog_record e q) /\
    te_seq e = u32 (Z.of_nat (length (tl_hist q))) /\ te_overwritten e = u32 (Z.of_nat (tl_lost q)) /\
    te_ticks e = k_ticks s /\ te_type e = i32 type /\ te_pid e = i32 pid /\
    te_arg0 e = i32 arg0 /\ te_arg1 e = i32 arg1 /\ te_arg2 e = i32 arg2 /\
    traceevent type pid arg0 arg1 arg2 name (set_k_trace (set_tb_enabled 0 (k_trace s)) s) =
      Ret tt (set_k_trace (set_tb_enabled 0 (k_trace s)) s).
Proof.
  intros Hr Hf Hc. exists (make_event s type pid arg0 arg1 arg2 name). eexists.
  split; [apply traceevent_run; [done..|apply Hr]|].
  split; [by apply repr_record|]. simpl. split_and!; try done; apply Hr.
Qed.


(** C1: "The kernel maintains the most recent 128 events": however many events are
    recorded after traceinit (the 32-bit counters may wrap), with no reader, the
    unread events are the last 128 of them in order, and [overwritten] counts the
    others modulo 2^32. *)
Theorem trace_keeps_last_128 (s : kstate) (l : list tcall) :
  length (tb_events (k_trace s)) = 128%nat -> cpu_ok (k_cpu s) ->
  exists s' es q, bind traceinit (fun _ => trace_all l) s = Ret tt s' /\
    length es = length l /\ repr (k_trace s') q /\
    tl_unread q = drop (length es - 128) es /\
    tb_overwritten (k_trace s') = u32 (Z.of_nat (length l - 128)) /\
    (forall i c e, l !! i = Some c -> es !! i = Some e ->
       te_seq e = u32 (Z.of_nat i) /\ te_type e = i32 (c_type c) /\ te_pid e = i32 (c_pid c) /\
       te_arg0 e = i32 (c_arg0 c) /\ te_arg1 e = i32 (c_arg1 c)).
Proof.
  intros Hl Hc. destruct (traceinit_run s Hl) as (s0 & E0 & Hr0 & Hf0 & Hc0).
  destruct (trace_all_spec l s0 (Tlog [] 0 0) Hr0 Hf0 ltac:(by rewrite Hc0))
    as (s' & es & E & Hlen & Hr & Hf & Hc' & Hes).
  exists s', es, (Tlog es (length es - 128) (length es - 128)).
  rewrite fold_record_fresh in Hr. split; [by rewrite (bind_Ret _ _ _ _ _ E0)|].
  split_and!; try done.
  - rewrite <- Hlen. apply Hr.
  - intros i c e Hi He. destruct (Hes i c e Hi He) as (? & ? & ? & ? & ? & ?).
    split_and!; try done. by apply (r_numbers _ _ Hr).
Qed.

(** The 64 bytes handed to the user program decode, by the layout of struct
    trace_event, to the event the kernel recorded. *)
Theorem event_bytes_roundtrip (e : trace_event) :
  event_wf e -> 0 <= te_seq e < 4294967296 -> 0 <= te_ticks e < 4294967296 ->
  0 <= te_overwritten e < 4294967296 ->
  Forall (fun v => -2147483648 <= v < 2147483648) [te_type e; te_pid e; te_arg0 e; te_arg1 e; te_arg2 e] ->
  event_of_bytes (event_bytes e) = e /\ Z.of_nat (length (event_bytes e)) = EVENT_SIZE.
Proof.
  intros Hwf H1 H2 H3 H4. split; [|by rewrite length_event_bytes].
  destruct Hwf as [L1 L2]. destruct e as [sq tk ty pi a0 a1 a2 cm ev ow]; simpl in *.
  assert (forall v, -2147483648 <= v < 2147483648 -> i32 (v mod 256 ^ Z.of_nat 4) = v) as Hi.
  { intros v Hv. change (256 ^ Z.of_nat 4) with 4294967296. word_lia. }
  assert (forall v, 0 <= v < 4294967296 -> v mod 256 ^ Z.of_nat 4 = v) as Hu.
  { intros v Hv. change (256 ^ Z.of_nat 4) with 4294967296. by apply Z.mod_small. }
  repeat (apply Forall_cons_1 in H4 as [? H4]).
  do 16 (destruct cm as [|? cm]; [done|]). destruct cm; [|done].
  do 16 (destruct ev as [|? ev]; [done|]). destruct ev; [|done].
  unfold event_of_bytes, event_bytes; cbn -[of_le_bytes u8 Z.div].
  repeat match goal with |- context [of_le_bytes [u8 ?v; _; _; _]] =>
    change (of_le_bytes [u8 v; u8 (v / 256); u8 (v / 256 / 256); u8 (v / 256 / 256 / 256)])
      with (of_le_bytes (le_bytes 4 v)); rewrite le_bytes_back end.
  by rewrite !Hi, !Hu by done.
Qed.

(** ** Witnesses *)

(** The kernel right after traceinit, and with one event recorded. *)
Definition trace_ready : kstate :=
  match traceinit kstate0 with Ret _ s => s | _ => kstate0 end.
Definition sample_event : trace_event :=
  make_event trace_ready TRACE_TYPE_SYSCALL 3 16 6 0 (Some (lit "write")).
Definition trace_one : kstate :=
  set_k_trace (tb_record sample_event (k_trace trace_ready)) trace_ready.

Lemma trace_ready_repr : repr (k_trace trace_ready) (Tlog [] 0 0).
Proof. split; simpl; try done; lia. Qed.

Lemma trace_one_repr : repr (k_trace trace_one) (Tlog [sample_event] 0 0).
Proof. exact (repr_record _ _ sample_event trace_ready_repr eq_refl). Qed.

(** A machine whose user addresses are physical addresses. *)
Definition flat_copyout (va : Z) (b : list Z) : kprog Z :=
  fun s => Ret 0 (set_k_mem (at_list va b (k_mem s)) s).
#[local] Instance flat_user : UserCopy :=
  { copyout := flat_copyout; user_ok := fun _ _ _ => True; uread := fun s a => Some (k_mem s a) }.
#[local] Instance flat_laws : UserCopyLaws.
Proof.
  split; simpl; try done.
  - intros s s' va (-> & _). done.
  - intros s va b _. exists 0, (set_k_mem (at_list va b (k_mem s)) s). split_and!; try done; [by left|..].
    + intros _ i Hi. simpl. destruct (lookup_lt_is_Some_2 b i Hi) as [c Hc].
      rewrite at_list_nth by done. rewrite Hc. f_equal. by erewrite nth_lookup_Some.
    + intros x Hx. simpl. f_equal. apply at_list_out. lia.
Qed.

Lemma cpu_ok_boot : cpu_ok (k_cpu kstate0).
Proof. split; simpl; [lia|done]. Qed.

Lemma trace_ready_free : lock_free LKtrace trace_ready.
Proof. by exists "trace"%string. Qed.

(** The locks the kernel initialises at boot, all free. *)
Definition boot_locks : gmap lockid spinlock :=
  list_to_map (map (fun p => (fst p, Spinlock 0 (snd p) None))
    [(LKptable, "ptable"); (LKkmem, "kmem"); (LKtrace, "trace"); (LKtick, "time");
     (LKftable, "ftable"); (LKcons, "console"); (LKinput, "input"); (LKide, "ide");
     (LKbcache, "bcache"); (LKlog, "log"); (LKicache, "icache")])%string.
Definition booted : kstate := set_k_locks boot_locks trace_ready.

Lemma booted_free lk s : k_locks s = boot_locks ->
  bool_decide (is_Some (boot_locks !! lk)) = true -> lock_free lk s.
Proof.
  intros Hs [sl E]%bool_decide_eq_true. unfold lock_free. rewrite Hs, E.
  unfold boot_locks in E. apply elem_of_list_to_map_2, list_elem_of_fmap in E.
  destruct E as ([lk' nm] & [= -> ->] & _). by exists nm.
Qed.

Ltac boot_lock := apply booted_free; [reflexivity | vm_compute; reflexivity].

Lemma traceevent_refines_witness : exists e tb,
  traceevent TRACE_TYPE_PROC 4 3 0 0 (Some (lit "fork")) trace_ready = Ret tt (set_k_trace tb (sync trace_ready))
  /\ te_arg0 e = 3 /\ repr tb (tlog_record e (Tlog [] 0 0)).
Proof.
  destruct (traceevent_refines trace_ready (Tlog [] 0 0) TRACE_TYPE_PROC 4 3 0 0 (Some (lit "fork"))
    trace_ready_repr trace_ready_free cpu_ok_boot) as (e & tb & E & Hr & _ & _ & _ & _ & _ & Ha & _).
  exists e, tb. split_and!; done.
Defined.


Lemma trace_keeps_last_128_witness : exists s' es q,
  bind traceinit (fun _ => trace_all (replicate 130 (Tcall 1 2 3 4 5 None))) kstate0 = Ret tt s' /\
  length es = 130%nat /\ repr (k_trace s') q /\ tl_unread q = drop 2 es.
Proof.
  destruct (trace_keeps_last_128 kstate0 (replicate 130 (Tcall 1 2 3 4 5 None)) eq_refl cpu_ok_boot)
    as (s' & es & q & E & Hl & Hr & Hu & _).
  exists s', es, q. rewrite Hl in Hu. split_and!; done.
Defined.

Lemma event_bytes_roundtrip_witness : event_of_bytes (event_bytes sample_event) = sample_event.
Proof.
  refine (proj1 (event_bytes_roundtrip sample_event (make_event_wf _ _ _ _ _ _ _) _ _ _ _)); simpl; try lia.
  repeat constructor; simpl; word_lia.
Defined.
