(* ===== verification/Layout.v ===== *)
(** * Layout: integers and records inside byte arrays

    Disk blocks are lists of bytes; the structs that the code lays over them (the log
    header, the superblock, disk inodes, directory entries) are read and written field
    by field at their offsets, little-endian. *)

From S2P Require Import Prelude Machine Cstring Ktrace.

(** [l] with the bytes [bs] stored from offset [off] on. *)
Definition splice (off : nat) (bs l : list Z) : list Z := take off l ++ bs ++ drop (off + length bs) l.

Definition get_le (n off : nat) (l : list Z) : Z := of_le_bytes (take n (drop off l)).
Definition put_le (n off : nat) (v : Z) (l : list Z) : list Z := splice off (le_bytes n v) l.

Definition get16 := get_le 2.
Definition get32 := get_le 4.
Definition put16 := put_le 2.
Definition put32 := put_le 4.

Lemma length_splice off bs l : (off + length bs <= length l)%nat -> length (splice off bs l) = length l.
Proof. intros H. unfold splice. rewrite !length_app, length_take, length_drop. lia. Qed.

Lemma splice_lookup off bs l i : (off + length bs <= length l)%nat ->
  splice off bs l !! i =
    if decide (off <= i < off + length bs)%nat then bs !! (i - off)%nat else l !! i.
Proof.
  intros H. unfold splice. destruct (decide _) as [Hi|Hi].
  - rewrite lookup_app_r, length_take by (rewrite length_take; lia).
    rewrite lookup_app_l by lia. f_equal. lia.
  - destruct (decide (i < off)%nat).
    + rewrite lookup_app_l, lookup_take_lt by (rewrite ?length_take; lia). done.
    + rewrite lookup_app_r, length_take by (rewrite length_take; lia).
      rewrite lookup_app_r, lookup_drop by lia. f_equal. lia.
Qed.

Lemma slice_splice_same off bs l : (off + length bs <= length l)%nat ->
  take (length bs) (drop off (splice off bs l)) = bs.
Proof.
  intros H. unfold splice. rewrite drop_app_length' by (rewrite length_take; lia). by rewrite take_app_length.
Qed.

Lemma slice_splice_other off bs l n off' : (off + length bs <= length l)%nat ->
  (off' + n <= off \/ off + length bs <= off')%nat ->
  take n (drop off' (splice off bs l)) = take n (drop off' l).
Proof.
  intros H Ho. apply list_eq. intros i. destruct (decide (i < n)%nat).
  - rewrite !lookup_take_lt, !lookup_drop, splice_lookup, decide_False by lia. done.
  - rewrite !lookup_take_ge by lia. done.
Qed.

Lemma get_put_same n off v l : (off + n <= length l)%nat ->
  get_le n off (put_le n off v l) = v mod 256 ^ Z.of_nat n.
Proof.
  intros H. unfold get_le, put_le. rewrite <- (length_le_bytes n v) at 1.
  rewrite slice_splice_same by (by rewrite length_le_bytes). apply le_bytes_back.
Qed.

Lemma get_put_other n off v n' off' l : (off + n <= length l)%nat -> (off' + n' <= off \/ off + n <= off')%nat ->
  get_le n' off' (put_le n off v l) = get_le n' off' l.
Proof. intros H Ho. unfold get_le, put_le. rewrite slice_splice_other; rewrite ?length_le_bytes; auto. Qed.

Lemma length_put n off v l : (off + n <= length l)%nat -> length (put_le n off v l) = length l.
Proof. intros H. unfold put_le. apply length_splice. by rewrite length_le_bytes. Qed.

Lemma get32_put32 off v l : (off + 4 <= length l)%nat -> 0 <= v < 4294967296 -> get32 off (put32 off v l) = v.
Proof. intros H Hv. unfold get32, put32. rewrite get_put_same by done. apply Z.mod_small. done. Qed.
