(* ===== verification/Kalloc.v ===== *)
(** * Kalloc: kalloc.c, the physical page allocator

    [kfree], [kalloc], [freerange], [kinit1] and [kinit2].  The free list is
    threaded through the free pages themselves: the first eight bytes of a free
    page hold the address of the next one. *)

From S2P Require Import Prelude Machine Spinlock Cstring Ktrace.
#[local] Open Scope prog_scope.

(** The first address after the kernel, a symbol the linker defines (kernel.ld links
    the kernel above KERNBASE). *)
Class Linker := { kernel_end : Z; kernel_end_high : KERNBASE < kernel_end }.

Definition upd_kmem (f : kmem_t -> kmem_t) (s : kstate) : kstate := set_k_kmem (f (k_kmem s)) s.
Definition upd_mem (f : mem -> mem) (s : kstate) : kstate := set_k_mem (f (k_mem s)) s.

Definition use_lock_now : kprog bool := gets (fun s => negb (use_lock (k_kmem s) =? 0)).

(** [proc ? proc->pid : 0] *)
Definition cur_pid (s : kstate) : Z :=
  match cur_proc s with Some p => p_pid p | None => 0 end.

Definition kfree `{Linker} (v : Z) : kprog unit :=
  if negb (v mod PGSIZE =? 0) || (v <? kernel_end) || (V2P v >=? PHYSTOP) then panic "kfree" else
  modify (upd_mem (fun m => memset m v 1 PGSIZE));;;
  locking <- use_lock_now;;
  (when locking do acquire LKkmem);;;
  modify (fun s => upd_mem (fun m => store64 m v (freelist (k_kmem s))) s);;;
  modify (upd_kmem (set_freelist v));;;
  locking <- use_lock_now;;
  (when locking do release LKkmem);;;
  locking <- use_lock_now;;
  when locking do
    (pid <- gets cur_pid;;
     traceevent TRACE_TYPE_MEM pid (V2P v) 0 0 (Some (lit "kfree"))).

Definition kalloc : kprog Z :=
  locking <- use_lock_now;;
  (when locking do acquire LKkmem);;;
  r <- gets (fun s => freelist (k_kmem s));;
  (if negb (r =? 0) then modify (fun s => upd_kmem (set_freelist (load64 (k_mem s) r)) s)
   else panic "Out of memory!");;;
  locking <- use_lock_now;;
  (when locking do release LKkmem);;;
  locking <- use_lock_now;;
  (when locking && negb (r =? 0) do
    (pid <- gets cur_pid;;
     traceevent TRACE_TYPE_MEM pid (V2P r) 0 0 (Some (lit "kalloc"))));;;
  ret r.

(** The loop frees one page per round, so the number of whole pages between [p]
    and [vend] bounds the rounds. *)
Fixpoint freerange_loop `{Linker} (fuel : nat) (p vend : Z) : kprog unit :=
  match fuel with
  | O => fun s => NoFuel s
  | S fuel => if p + PGSIZE <=? vend then kfree p;;; freerange_loop fuel (p + PGSIZE) vend
              else ret tt
  end.
Definition freerange `{Linker} (vstart vend : Z) : kprog unit :=
  let p := PGROUNDUP vstart in
  freerange_loop (S (Z.to_nat ((vend - p) / PGSIZE))) p vend.

Definition kinit1 `{Linker} (vstart vend : Z) : kprog unit :=
  initlock LKkmem "kmem";;;
  modify (upd_kmem (set_use_lock 0));;;
  modify (upd_kmem (set_freelist 0));;;
  freerange vstart vend.

Definition kinit2 : kprog unit := modify (upd_kmem (set_use_lock 1)).

(** ** The free list and its invariant *)

(** The chain of pages that starts at [head]. *)
Fixpoint linked (m : mem) (head : Z) (l : list Z) : Prop :=
  match l with
  | [] => head = 0
  | p :: l' => head = p /\ linked m (load64 m p) l'
  end.

(** A page the allocator manages. *)
Definition page_ok `{Linker} (p : Z) : Prop :=
  p mod PGSIZE = 0 /\ kernel_end <= p /\ V2P p < PHYSTOP /\ 0 < p < 18446744073709551616.

(** [l] are the free pages, most recently freed first. *)
Record free_pages `{Linker} (s : kstate) (l : list Z) : Prop := Free_pages {
  fp_linked : linked (k_mem s) (freelist (k_kmem s)) l;
  fp_nodup : NoDup l;
  fp_pages : Forall page_ok l;
  fp_bytes : bytes_ok (k_mem s)
}.

(** The locks kalloc and kfree take are free (the list is guarded by its lock once
    [use_lock] is set). *)
Definition alloc_ready (s : kstate) : Prop :=
  lock_free LKkmem s /\ lock_free LKtrace s /\ cpu_ok (k_cpu s).

(** ** Lemmas *)

#[local] Opaque memset.

Lemma pages_apart p q x : p mod PGSIZE = 0 -> q mod PGSIZE = 0 -> p <> q ->
  p <= x < p + PGSIZE -> ~ (q <= x < q + PGSIZE).
Proof. unfold PGSIZE. Z.div_mod_to_equations. lia. Qed.

Lemma linked_ext m m' head l :
  (forall p x, p ∈ l -> p <= x < p + 8 -> m x = m' x) -> linked m head l -> linked m' head l.
Proof.
  revert head. induction l as [|p l IH]; intros head Hm; simpl; [done|].
  intros [-> Hl]. split; [done|].
  rewrite <- (load64_other m m') by (intros x Hx; apply (Hm p); [by left|done]).
  apply IH; [|done]. intros q x Hq Hx. apply (Hm q); [by right|done].
Qed.

Lemma load64_range m a : bytes_ok m -> 0 <= load64 m a < 18446744073709551616.
Proof.
  intros Hb. unfold load64.
  assert (forall n b, 0 <= load_le n m b < 256 ^ Z.of_nat n) as H; [|apply (H 8%nat)].
  induction n as [|n IH]; intros b; [simpl; lia|].
  cbn [load_le]. specialize (IH (b + 1)). pose proof (Hb b).
  rewrite Nat2Z.inj_succ, Z.pow_succ_r by lia. nia.
Qed.

Lemma linked_head_range m head l : linked m head l -> Forall (fun p => 0 < p < 18446744073709551616) l ->
  0 <= head < 18446744073709551616.
Proof. destruct l; simpl; [lia|]. intros [-> _] H%Forall_cons_1. lia. Qed.

(** What kfree does to memory. *)
Definition freed_mem (m : mem) (v head : Z) : mem := store64 (memset m v 1 PGSIZE) v head.

Lemma freed_mem_out m v head x : ~ (v <= x < v + PGSIZE) -> freed_mem m v head x = m x.
Proof.
  unfold PGSIZE in *. intros Hx. unfold freed_mem, store64. rewrite store_le_out by lia.
  rewrite memset_fill by (unfold PGSIZE; lia). unfold fill. destruct (in_range v PGSIZE x) eqn:E; [|done].
  apply in_range_spec in E. unfold PGSIZE in E. lia.
Qed.

Lemma freed_mem_junk m v head x : v + 8 <= x < v + PGSIZE -> freed_mem m v head x = 1.
Proof.
  unfold PGSIZE in *. intros Hx. unfold freed_mem, store64. rewrite store_le_out by lia.
  rewrite memset_fill by (unfold PGSIZE; lia). unfold fill.
  by rewrite (proj2 (in_range_spec _ _ _)) by (unfold PGSIZE; lia).
Qed.

Lemma freed_mem_bytes m v head : bytes_ok m -> bytes_ok (freed_mem m v head).
Proof. intros Hb. apply store_le_bytes, memset_bytes; [done | unfold PGSIZE; lia]. Qed.

Definition locking (s : kstate) : bool := negb (use_lock (k_kmem s) =? 0).
Definition lock_sync (s : kstate) : kstate := if locking s then sync s else s.
Definition mem_traced (v : Z) (name : string) (s : kstate) : kstate :=
  if locking s then traced TRACE_TYPE_MEM (cur_pid s) (V2P v) 0 0 (Some (lit name)) s else s.

(** The state after kfree(v) and after a kalloc that returns [r]. *)
Definition kfreed (v : Z) (s : kstate) : kstate :=
  mem_traced v "kfree"
    (set_k_kmem (set_freelist v (k_kmem s))
      (set_k_mem (freed_mem (k_mem s) v (freelist (k_kmem s))) (lock_sync s))).
Definition kalloced (r : Z) (s : kstate) : kstate :=
  mem_traced r "kalloc" (set_k_kmem (set_freelist (load64 (k_mem s) r) (k_kmem s)) (lock_sync s)).

Section Runs.
Context `{LK : Linker}.

Lemma kfree_bad v s : v mod PGSIZE <> 0 \/ v < kernel_end \/ PHYSTOP <= V2P v ->
  kfree v s = Panic "kfree" s.
Proof.
  intros Hb. unfold kfree.
  destruct (Z.eqb_spec (v mod PGSIZE) 0), (Z.ltb_spec v kernel_end), (Z.geb_spec (V2P v) PHYSTOP);
    simpl; try done. exfalso. lia.
Qed.

Lemma mem_trace_run v name s : lock_free LKtrace s -> cpu_ok (k_cpu s) ->
  (when locking s do (pid <- gets cur_pid;; traceevent TRACE_TYPE_MEM pid (V2P v) 0 0 (Some (lit name)))) s
  = Ret tt (mem_traced v name s).
Proof.
  intros Hf Hc. unfold mem_traced. destruct (locking s); [|done].
  rewrite bind_gets. by apply traceevent_traced.
Qed.

(** A state change under the allocator's lock, when it is used. *)
Lemma leave_enter_kmem k m s : lock_free LKkmem s -> cpu_ok (k_cpu s) ->
  leave LKkmem (set_k_kmem k (set_k_mem m (enter LKkmem s))) = set_k_kmem k (set_k_mem m (sync s)).
Proof. intros Hf Hc. rewrite <- (leave_enter LKkmem s) by done. done. Qed.

Lemma kfree_run v s : page_ok v -> alloc_ready s -> kfree v s = Ret tt (kfreed v s).
Proof.
  intros (H1 & H2 & H3 & H4) (Hk & Ht & Hc). unfold kfree.
  destruct (Z.eqb_spec (v mod PGSIZE) 0), (Z.ltb_spec v kernel_end), (Z.geb_spec (V2P v) PHYSTOP);
    cbn [negb orb]; try lia.
  rewrite bind_modify. unfold use_lock_now. rewrite bind_gets.
  set (s0 := upd_mem (fun m => memset m v 1 PGSIZE) s).
  set (k1 := set_freelist v (k_kmem s)). set (m1 := freed_mem (k_mem s) v (freelist (k_kmem s))).
  unfold kfreed, lock_sync. fold k1 m1.
  change (negb (use_lock (k_kmem s0) =? 0)) with (locking s).
  destruct (locking s) eqn:El.
  - mret (acquire_run LKkmem s0 Hk). rewrite !bind_modify, bind_gets.
    change (upd_kmem _ _) with (set_k_kmem k1 (set_k_mem m1 (enter LKkmem s))).
    change (negb (use_lock (k_kmem (set_k_kmem k1 (set_k_mem m1 (enter LKkmem s)))) =? 0)) with (locking s).
    rewrite El. mret (release_after LKkmem s (set_k_kmem k1 (set_k_mem m1 (enter LKkmem s))) Hc eq_refl eq_refl). rewrite leave_enter_kmem by done. rewrite bind_gets.
    change (negb _) with (locking (set_k_kmem k1 (set_k_mem m1 (sync s)))).
    apply mem_trace_run; [done|]. by apply cpu_ok_sync.
  - mrun. change (upd_kmem _ _) with (set_k_kmem k1 (set_k_mem m1 s)).
    change (negb (use_lock (k_kmem (set_k_kmem k1 (set_k_mem m1 s))) =? 0)) with (locking s) at 1.
    rewrite El. mrun.
    change (negb _) with (locking (set_k_kmem k1 (set_k_mem m1 s))).
    by apply mem_trace_run.
Qed.

Lemma kalloc_run r s : freelist (k_kmem s) = r -> r <> 0 -> alloc_ready s ->
  kalloc s = Ret r (kalloced r s).
Proof.
  intros Hr H0 (Hk & Ht & Hc). unfold kalloc, use_lock_now. rewrite bind_gets.
  change (negb _) with (locking s) at 1. unfold kalloced, lock_sync.
  set (k1 := set_freelist (load64 (k_mem s) r) (k_kmem s)).
  destruct (locking s) eqn:El.
  - mret (acquire_run LKkmem s Hk). rewrite bind_gets.
    change (freelist (k_kmem (enter LKkmem s))) with (freelist (k_kmem s)). rewrite Hr.
    destruct (Z.eqb_spec r 0); [done|]. cbn [negb]. rewrite bind_modify, bind_gets.
    change (upd_kmem _ _) with (set_k_kmem k1 (set_k_mem (k_mem s) (enter LKkmem s))).
    change (negb (use_lock (k_kmem (set_k_kmem k1 (set_k_mem (k_mem s) (enter LKkmem s)))) =? 0)) with (locking s).
    rewrite El.
    mret (release_after LKkmem s (set_k_kmem k1 (set_k_mem (k_mem s) (enter LKkmem s))) Hc eq_refl eq_refl).
    rewrite leave_enter_kmem, bind_gets, andb_true_r by done.
    change (set_k_kmem k1 (set_k_mem (k_mem s) (sync s))) with (set_k_kmem k1 (sync s)).
    mret (mem_trace_run r "kalloc" (set_k_kmem k1 (sync s)) Ht (cpu_ok_sync _ Hc)). done.
  - mrun. rewrite Hr. destruct (Z.eqb_spec r 0); [done|]. cbn [negb]. rewrite bind_modify, bind_gets.
    change (upd_kmem _ _) with (set_k_kmem k1 s).
    change (negb (use_lock (k_kmem (set_k_kmem k1 s)) =? 0)) with (locking s) at 1.
    rewrite El. mrun. rewrite andb_true_r.
    mret (mem_trace_run r "kalloc" (set_k_kmem k1 s) Ht Hc). done.
Qed.

Lemma kalloc_empty s : freelist (k_kmem s) = 0 -> alloc_ready s ->
  exists s', kalloc s = Panic "Out of memory!" s'.
Proof.
  intros Hr (Hk & Ht & Hc). unfold kalloc, use_lock_now. rewrite bind_gets.
  change (negb _) with (locking s) at 1. destruct (locking s).
  - mret (acquire_run LKkmem s Hk). rewrite bind_gets.
    change (freelist (k_kmem (enter LKkmem s))) with (freelist (k_kmem s)). rewrite Hr.
    eexists. by apply bind_Panic.
  - mrun. rewrite Hr. eexists. by apply bind_Panic.
Qed.

Lemma quiet_mem_traced v name s : quiet s (mem_traced v name s).
Proof. unfold mem_traced. destruct (locking s); auto with kernel. Qed.

Lemma quiet_lock_sync s : quiet s (lock_sync s).
Proof. unfold lock_sync. destruct (locking s); auto with kernel. Qed.

Lemma alloc_ready_quiet s s' : quiet s s' -> alloc_ready s -> alloc_ready s'.
Proof. intros Hq (? & ? & ?). split_and!; eauto with kernel. Qed.

Lemma kfreed_ready v s : alloc_ready s -> alloc_ready (kfreed v s).
Proof.
  intros Hr. eapply alloc_ready_quiet; [apply quiet_mem_traced|].
  exact (alloc_ready_quiet _ _ (quiet_lock_sync s) Hr).
Qed.

Lemma kalloced_ready v s : alloc_ready s -> alloc_ready (kalloced v s).
Proof.
  intros Hr. eapply alloc_ready_quiet; [apply quiet_mem_traced|].
  exact (alloc_ready_quiet _ _ (quiet_lock_sync s) Hr).
Qed.

Lemma kfreed_mem v s : k_mem (kfreed v s) = freed_mem (k_mem s) v (freelist (k_kmem s)).
Proof. unfold kfreed. by rewrite (q_mem _ _ (quiet_mem_traced _ _ _)). Qed.
Lemma kfreed_kmem v s : k_kmem (kfreed v s) = set_freelist v (k_kmem s).
Proof. unfold kfreed. by rewrite (q_kmem _ _ (quiet_mem_traced _ _ _)). Qed.
Lemma kalloced_mem v s : k_mem (kalloced v s) = k_mem s.
Proof. unfold kalloced. rewrite (q_mem _ _ (quiet_mem_traced _ _ _)). apply (q_mem _ _ (quiet_lock_sync s)). Qed.
Lemma kalloced_kmem v s : k_kmem (kalloced v s) = set_freelist (load64 (k_mem s) v) (k_kmem s).
Proof. unfold kalloced. by rewrite (q_kmem _ _ (quiet_mem_traced _ _ _)). Qed.

Lemma free_pages_freed v s l : page_ok v -> v ∉ l -> free_pages s l ->
  free_pages (kfreed v s) (v :: l).
Proof.
  intros Hv Hn [F1 F2 F3 F4]. split; rewrite ?kfreed_mem, ?kfreed_kmem.
  - cbn [linked]. split; [done|]. unfold freed_mem at 2. rewrite load64_store64.
    2: { eapply linked_head_range; [done|]. apply (Forall_impl _ _ _ F3). by intros ? (_ & _ & _ & ?). }
    eapply linked_ext; [|exact F1]. intros p x Hp Hx. symmetry. apply freed_mem_out.
    rewrite Forall_forall in F3. destruct (F3 p Hp) as (Hpa & _).
    apply (pages_apart p v x); [done|apply Hv|set_solver|unfold PGSIZE; lia].
  - by constructor.
  - by constructor.
  - by apply freed_mem_bytes.
Qed.

Lemma free_pages_alloced p s l : free_pages s (p :: l) -> free_pages (kalloced p s) l.
Proof.
  intros [[F0 F1] F2 F3 F4]. split; rewrite ?kalloced_mem, ?kalloced_kmem; try done.
  - by apply NoDup_cons_1_2 in F2.
  - by apply Forall_cons_1 in F3 as [_ ?].
Qed.

(** The [n] pages from [p] on. *)
Fixpoint pages_from (p : Z) (n : nat) : list Z :=
  match n with O => [] | S n => p :: pages_from (p + PGSIZE) n end.

Lemma elem_of_pages p n q : q ∈ pages_from p n -> p <= q.
Proof.
  revert p. induction n as [|n IH]; intros p; simpl; [set_solver|].
  intros [-> |Hq%IH]%elem_of_cons; unfold PGSIZE in *; lia.
Qed.

Lemma freerange_loop_run n p vend s l :
  (vend - p) / PGSIZE = Z.of_nat n -> alloc_ready s -> free_pages s l ->
  Forall page_ok (pages_from p n) -> (forall q, q ∈ l -> q < p) ->
  exists s', freerange_loop (S n) p vend s = Ret tt s' /\ alloc_ready s' /\
    free_pages s' (rev (pages_from p n) ++ l).
Proof.
  revert p s l. induction n as [|n IH]; intros p s l Hn Hr Hl Hp Hlt; cbn [freerange_loop].
  - destruct (Z.leb_spec (p + PGSIZE) vend).
    + exfalso. unfold PGSIZE in *. Z.div_mod_to_equations. lia.
    + exists s. auto.
  - assert (p + PGSIZE <= vend) as Hle by (unfold PGSIZE in *; Z.div_mod_to_equations; lia).
    apply Z.leb_le in Hle as ->. apply Forall_cons_1 in Hp as [Hp0 Hp].
    mret (kfree_run p s Hp0 Hr).
    destruct (IH (p + PGSIZE) (kfreed p s) (p :: l)) as (s' & E & Hr' & Hl').
    + unfold PGSIZE in *. Z.div_mod_to_equations. lia.
    + by apply kfreed_ready.
    + apply free_pages_freed; [done| |done]. intros ?%Hlt. lia.
    + done.
    + unfold PGSIZE in *. intros q [-> |?%Hlt]%elem_of_cons; lia.
    + exists s'. split_and!; [exact E|done|]. cbn [pages_from rev].
      by rewrite <- app_assoc.
Qed.

End Runs.

(** ** Properties *)

Section Props.
Context `{LK : Linker}.

(** kalloc on a well-formed free list hands out its head, a page that was free
    and is no longer on the list, leaving memory alone; on an empty list it panics
    (it never returns 0).  kalloc keeps the free list well formed. *)
Theorem kalloc_takes_head s l :
  free_pages s l -> alloc_ready s ->
  match l with
  | [] => exists s', kalloc s = Panic "Out of memory!" s'
  | p :: l' => exists s', kalloc s = Ret p s' /\ free_pages s' l' /\ alloc_ready s' /\
                 p ∉ l' /\ page_ok p /\ k_mem s' = k_mem s
  end.
Proof.
  intros Hl Hr. destruct l as [|p l'].
  - apply kalloc_empty; [|done]. apply Hl.
  - pose proof (fp_pages _ _ Hl) as Hp. apply Forall_cons_1 in Hp as [Hp _].
    pose proof (fp_nodup _ _ Hl) as Hd. apply NoDup_cons in Hd as [Hd _].
    exists (kalloced p s). split_and!; auto using free_pages_alloced, kalloced_ready, kalloced_mem.
    apply kalloc_run; [apply (fp_linked _ _ Hl)| |done]. destruct Hp as (_ & _ & _ & ?). lia.
Qed.

(** kfree accepts exactly the page-aligned addresses between the end of the
    kernel and PHYSTOP and panics on the rest.  A page it accepts goes to the head of
    the free list, its body is filled with the junk byte 1, memory outside it is
    unchanged, and the next kalloc returns it and restores the list. *)
Theorem kfree_kalloc_roundtrip s l v :
  free_pages s l -> alloc_ready s -> 0 < v < 18446744073709551616 -> v ∉ l ->
  (~ page_ok v -> kfree v s = Panic "kfree" s) /\
  (page_ok v -> exists s1 s2,
     kfree v s = Ret tt s1 /\ free_pages s1 (v :: l) /\
     (forall x, v + 8 <= x < v + PGSIZE -> k_mem s1 x = 1) /\
     (forall x, ~ (v <= x < v + PGSIZE) -> k_mem s1 x = k_mem s x) /\
     kalloc s1 = Ret v s2 /\ free_pages s2 l).
Proof.
  intros Hl Hr Hv Hn. split; intros Hp.
  - apply kfree_bad. unfold page_ok in Hp.
    destruct (Z.eq_dec (v mod PGSIZE) 0), (Z_lt_dec v kernel_end), (Z_lt_dec (V2P v) PHYSTOP); lia.
  - pose proof (free_pages_freed v s l Hp Hn Hl) as Hl1.
    exists (kfreed v s), (kalloced v (kfreed v s)). rewrite kfreed_mem.
    split_and!; auto using kfree_run, free_pages_alloced, freed_mem_junk, freed_mem_out.
    apply kalloc_run; [by rewrite kfreed_kmem|lia|by apply kfreed_ready].
Qed.

(** After kinit1(vstart, vend) the free list holds exactly the whole pages
    between vstart and vend, each once, highest address first. *)
Theorem kinit1_frees_range s vstart vend :
  lock_free LKtrace s -> cpu_ok (k_cpu s) -> bytes_ok (k_mem s) ->
  PGROUNDUP vstart <= vend ->
  Forall page_ok (pages_from (PGROUNDUP vstart) (Z.to_nat ((vend - PGROUNDUP vstart) / PGSIZE))) ->
  exists s', kinit1 vstart vend s = Ret tt s' /\ alloc_ready s' /\
    free_pages s' (rev (pages_from (PGROUNDUP vstart) (Z.to_nat ((vend - PGROUNDUP vstart) / PGSIZE)))).
Proof.
  intros Ht Hc Hb Hle Hp. unfold kinit1, initlock. rewrite !bind_modify. unfold freerange.
  rewrite <- (app_nil_r (rev _)). apply freerange_loop_run; [|split_and!| |done|set_solver].
  - rewrite Z2Nat.id; [done|]. apply Z.div_pos; unfold PGSIZE; lia.
  - unfold lock_free. eexists. apply lookup_insert_eq.
  - unfold lock_free in *. cbn. by rewrite lookup_insert_ne.
  - done.
  - split; [done|constructor|done|done].
Qed.

End Props.

(** *** Witnesses *)

(** A machine with one page of managed memory at 0xFFFF800000200000. *)
#[local] Instance small_linker : Linker :=
  { kernel_end := KERNBASE + 2097152; kernel_end_high := eq_refl }.

Definition one_page : Z := KERNBASE + 2097152.

Lemma one_page_ok : page_ok one_page.
Proof. unfold page_ok, one_page. vm_compute. split_and!; congruence. Qed.

(** The booted kernel before and after the page is freed. *)
Definition no_pages : kstate := set_k_kmem (Kmem 1 0) booted.
Definition with_page : kstate := kfreed one_page no_pages.

Lemma no_pages_free : free_pages no_pages [].
Proof. split; [done|constructor|constructor|]. intros x. cbn. lia. Qed.

Lemma no_pages_ready : alloc_ready no_pages.
Proof. split_and!; [boot_lock|boot_lock|apply cpu_ok_boot]. Qed.

Lemma with_page_free : free_pages with_page [one_page].
Proof. apply free_pages_freed; [apply one_page_ok|set_solver|apply no_pages_free]. Qed.

(** The [n] pages from [one_page] on, freed. *)
Definition some_pages (n : nat) : kstate := fold_right kfreed no_pages (pages_from one_page n).

Lemma pages_from_nodup p n : NoDup (pages_from p n).
Proof.
  revert p. induction n as [|n IH]; intros p; simpl; constructor; [|apply IH].
  intros H%elem_of_pages. unfold PGSIZE in H. lia.
Qed.

Lemma not_elem_of_pages_from p n q : p + PGSIZE * Z.of_nat n <= q -> q ∉ pages_from p n.
Proof.
  revert p. induction n as [|n IH]; intros p Hq; simpl; [apply not_elem_of_nil|].
  unfold PGSIZE in *. apply not_elem_of_cons. split; [lia|]. apply IH. lia.
Qed.

Lemma pages_from_ok k n : 0 <= k -> k + Z.of_nat n <= 1000 ->
  Forall page_ok (pages_from (one_page + PGSIZE * k) n).
Proof.
  revert k. induction n as [|n IH]; intros k Hk Hn; simpl; constructor.
  - unfold page_ok, one_page, kernel_end, small_linker, V2P, u64, KERNBASE, PHYSTOP, PGSIZE in *.
    Z.div_mod_to_equations. lia.
  - replace (one_page + PGSIZE * k + PGSIZE) with (one_page + PGSIZE * (k + 1)) by (unfold PGSIZE; lia).
    apply IH; lia.
Qed.

Lemma some_pages_free n : (n <= 1000)%nat -> free_pages (some_pages n) (pages_from one_page n) /\ alloc_ready (some_pages n).
Proof.
  intros Hn. unfold some_pages. pose proof (pages_from_ok 0 n ltac:(lia) ltac:(lia)) as Hok.
  replace (one_page + PGSIZE * 0) with one_page in Hok by (unfold PGSIZE; lia).
  pose proof (pages_from_nodup one_page n) as Hd.
  induction (pages_from one_page n) as [|p l IH]; simpl; [split; [apply no_pages_free|apply no_pages_ready]|].
  apply Forall_cons_1 in Hok as [Hp Hok]. apply NoDup_cons in Hd as [Hnl Hd].
  destruct (IH Hok Hd) as [IHl IHr]. split; [by apply free_pages_freed|by apply kfreed_ready].
Qed.

Lemma kalloc_takes_head_witness : exists s', kalloc with_page = Ret one_page s' /\ free_pages s' [].
Proof.
  destruct (kalloc_takes_head with_page [one_page] with_page_free (kfreed_ready _ _ no_pages_ready))
    as (s' & E & Hl & _).
  by exists s'.
Defined.

Lemma kfree_kalloc_roundtrip_witness : exists s1 s2,
  kfree one_page no_pages = Ret tt s1 /\ kalloc s1 = Ret one_page s2 /\
  kfree (one_page + 1) no_pages = Panic "kfree" no_pages.
Proof.
  destruct (kfree_kalloc_roundtrip no_pages [] one_page no_pages_free no_pages_ready)
    as [_ (s1 & s2 & E1 & _ & _ & _ & E2 & _)]; [done|set_solver|apply one_page_ok|].
  exists s1, s2. split_and!; [done|done|].
  apply (kfree_kalloc_roundtrip no_pages [] (one_page + 1) no_pages_free no_pages_ready);
    [done|set_solver|]. intros [[=] _].
Defined.

Lemma kinit1_frees_range_witness : exists s',
  kinit1 (KERNBASE + 2097153) (KERNBASE + 2097152 + 3 * 4096) trace_ready = Ret tt s' /\
  free_pages s' [KERNBASE + 2097152 + 2 * 4096; KERNBASE + 2097152 + 4096].
Proof.
  destruct (kinit1_frees_range trace_ready (KERNBASE + 2097153) (KERNBASE + 2097152 + 3 * 4096))
    as (s' & E & _ & Hl).
  - apply trace_ready_free.
  - apply cpu_ok_boot.
  - intros x. cbn. lia.
  - by vm_compute.
  - replace (Z.to_nat _) with 2%nat by reflexivity.
    repeat constructor; vm_compute; congruence.
  - exists s'. split; [exact E|exact Hl].
Defined.
