(* ===== verification/Vm.v ===== *)
(** * Vm: vm.c, virtual memory

    The four-level page tables as they lie in physical memory: [walkpgdir],
    [mappages], [setupkvm], [kvmalloc], [inituvm], [allocuvm], [deallocuvm],
    [freevm], [clearpteu], [copyuvm], [uva2ka], [copyout] and the switch of address
    spaces.  [loaduvm], which reads a file, is in Exec. *)

From S2P Require Import Prelude Machine Spinlock Cstring Ktrace Kalloc.
#[local] Open Scope prog_scope.

Definition PTE_P : Z := 1.
Definition PTE_W : Z := 2.
Definition PTE_U : Z := 4.
Definition PTE_PWT : Z := 8.
Definition PTE_PCD : Z := 16.
Definition PTE_PS : Z := 128.
Definition NPDENTRIES : nat := 512.

Definition PMX (va : Z) : Z := Z.land (Z.shiftr va 39) 511.
Definition PDPX (va : Z) : Z := Z.land (Z.shiftr va 30) 511.
Definition PDX (va : Z) : Z := Z.land (Z.shiftr va 21) 511.
Definition PTX (va : Z) : Z := Z.land (Z.shiftr va 12) 511.
Definition PTE_ADDR (pte : Z) : Z := Z.land pte (u64 (Z.lnot 4095)).
Definition PTE_FLAGS (pte : Z) : Z := Z.land pte 4095.

(** Loads and stores of eight and four bytes, and [&t[i]] for a table of entries. *)
Definition ld64 (a : Z) : kprog Z := gets (fun s => load64 (k_mem s) a).
Definition st64 (a v : Z) : kprog unit := modify (upd_mem (fun m => store64 m a v)).
Definition st32 (a v : Z) : kprog unit := modify (upd_mem (fun m => store_le 4 m a v)).
Definition entry (t i : Z) : Z := t + 8 * i.

Definition zero_page (p : Z) : kprog unit := modify (upd_mem (fun m => memset m p 0 PGSIZE)).

Definition lcr3 (v : Z) : kprog unit := modify (upd_cpu (set_cpu_cr3 v)).

Definition switchkvm : kprog unit := kpml4 <- gets k_kpml4;; lcr3 (V2P kpml4).

Definition switchuvm (i : nat) : kprog unit :=
  pushcli;;;
  p <- gets (proc_at i);;
  if p_pgdir p =? 0 then panic "switchuvm: no pgdir" else
  local <- gets (fun s => cpu_local (k_cpu s));;
  let tss := local + 1024 in
  let stktop := u64 (p_kstack p + KSTACKSIZE) in
  st32 (tss + 4 * 1) (u32 stktop);;;
  st32 (tss + 4 * 2) (u32 (Z.shiftr stktop 32));;;
  lcr3 (V2P (p_pgdir p));;;
  popcli.

Definition setupkvm : kprog Z :=
  pml4 <- kalloc;;
  zero_page pml4;;;
  kpdpt <- gets k_kpdpt;;
  st64 (entry pml4 256) (Z.lor (Z.lor (V2P kpdpt) PTE_P) PTE_W);;;
  ret pml4.

Definition kvmalloc : kprog unit :=
  kpml4 <- kalloc;;
  modify (set_k_kpml4 kpml4);;;
  zero_page kpml4;;;
  kpdpt <- kalloc;;
  modify (set_k_kpdpt kpdpt);;;
  zero_page kpdpt;;;
  st64 (entry kpml4 (PMX KERNBASE)) (Z.lor (Z.lor (V2P kpdpt) PTE_P) PTE_W);;;
  st64 (entry kpdpt 0) (Z.lor (Z.lor (Z.lor 0 PTE_PS) PTE_P) PTE_W);;;
  st64 (entry kpdpt 3)
    (Z.lor (Z.lor (Z.lor (Z.lor (Z.lor 3221225472 PTE_PS) PTE_P) PTE_W) PTE_PWT) PTE_PCD);;;
  switchkvm.

Definition present (pte : Z) : bool := negb (Z.land pte PTE_P =? 0).

(** One level of the walk: the table the entry at [e] points to, allocated when it
    is missing and [alloc] is set. *)
Definition walk_level (e : Z) (alloc : bool) : kprog (option Z) :=
  v <- ld64 e;;
  if present v then ret (Some (P2V (PTE_ADDR v))) else
  if negb alloc then ret None else
  t <- kalloc;;
  if t =? 0 then ret None else
  zero_page t;;;
  st64 e (Z.lor (Z.lor (Z.lor (V2P t) PTE_P) PTE_W) PTE_U);;;
  ret (Some t).

(** [None] is the null pointer. *)
Definition walkpgdir (pml4 va : Z) (alloc : bool) : kprog (option Z) :=
  pdp <- walk_level (entry pml4 (PMX va)) alloc;;
  match pdp with None => ret None | Some pdp =>
  pd <- walk_level (entry pdp (PDPX va)) alloc;;
  match pd with None => ret None | Some pd =>
  pgtab <- walk_level (entry pd (PDX va)) alloc;;
  match pgtab with None => ret None | Some pgtab => ret (Some (entry pgtab (PTX va)))
  end end end.

(** [a] reaches [last] after [(last - a) / PGSIZE] rounds, also across the wrap of
    the address. *)
Fixpoint mappages_loop (fuel : nat) (pgdir a last pa perm : Z) : kprog Z :=
  match fuel with
  | O => fun s => NoFuel s
  | S fuel =>
    pte <- walkpgdir pgdir a true;;
    match pte with
    | None => ret (-1)
    | Some pte =>
      v <- ld64 pte;;
      if present v then panic "remap" else
      st64 pte (Z.lor (Z.lor pa perm) PTE_P);;;
      if a =? last then ret 0
      else mappages_loop fuel pgdir (u64 (a + PGSIZE)) last (u64 (pa + PGSIZE)) perm
    end
  end.
Definition mappages (pgdir va size pa perm : Z) : kprog Z :=
  let a := PGROUNDDOWN va in
  let last := PGROUNDDOWN (u64 (va + size - 1)) in
  mappages_loop (S (Z.to_nat (u64 (last - a) / PGSIZE))) pgdir a last pa perm.

Definition inituvm (pgdir init sz : Z) : kprog unit :=
  if sz >=? PGSIZE then panic "inituvm: more than a page" else
  mem <- kalloc;;
  zero_page mem;;;
  _ <- mappages pgdir PGSIZE PGSIZE (V2P mem) (Z.lor PTE_W PTE_U);;
  modify (upd_mem (fun m => memmove m mem init sz)).

Section WithLinker.
Context `{LK : Linker}.

Fixpoint deallocuvm_loop (fuel : nat) (pgdir a oldsz : Z) : kprog unit :=
  match fuel with
  | O => fun s => NoFuel s
  | S fuel =>
    if a <? oldsz then
      pte <- walkpgdir pgdir a false;;
      (match pte with
       | None => ret tt
       | Some pte =>
         v <- ld64 pte;;
         when present v do
           (let pa := PTE_ADDR v in
            if pa =? 0 then panic "kfree" else
            kfree (P2V pa);;;
            st64 pte 0)
       end);;;
      deallocuvm_loop fuel pgdir (u64 (a + PGSIZE)) oldsz
    else ret tt
  end.
Definition deallocuvm (pgdir oldsz newsz : Z) : kprog Z :=
  if newsz >=? oldsz then ret oldsz else
  let a := PGROUNDUP newsz in
  deallocuvm_loop (S (Z.to_nat ((oldsz - a) / PGSIZE + 1))) pgdir a oldsz;;;
  ret newsz.

Fixpoint allocuvm_loop (fuel : nat) (pgdir a oldsz newsz : Z) : kprog Z :=
  match fuel with
  | O => fun s => NoFuel s
  | S fuel =>
    if a <? newsz then
      mem <- kalloc;;
      if mem =? 0 then _ <- deallocuvm pgdir newsz oldsz;; ret 0 else
      zero_page mem;;;
      r <- mappages pgdir a PGSIZE (V2P mem) (Z.lor PTE_W PTE_U);;
      if r <? 0 then _ <- deallocuvm pgdir newsz oldsz;; kfree mem;;; ret 0 else
      allocuvm_loop fuel pgdir (u64 (a + PGSIZE)) oldsz newsz
    else ret newsz
  end.
Definition allocuvm (pgdir oldsz newsz : Z) : kprog Z :=
  if newsz >=? KERNBASE then ret 0 else
  if newsz <? oldsz then ret oldsz else
  let a := PGROUNDUP oldsz in
  allocuvm_loop (S (Z.to_nat ((newsz - a) / PGSIZE + 1))) pgdir a oldsz newsz.

(** Freeing the tables below an entry, for the [n] entries of the table [t]. *)
Definition free_level (n : nat) (t : Z) (free_below : Z -> kprog unit) : kprog unit :=
  for_each (seqZ 0 (Z.of_nat n)) (fun i =>
    e <- ld64 (entry t i);;
    when present e do free_below (P2V (PTE_ADDR e))).

Definition free_pt (pt : Z) : kprog unit := free_level NPDENTRIES pt kfree;;; kfree pt.
Definition free_pd (pd : Z) : kprog unit := free_level NPDENTRIES pd free_pt;;; kfree pd.
Definition free_pdp (pdp : Z) : kprog unit := free_level NPDENTRIES pdp free_pd;;; kfree pdp.
Definition freevm (pml4 : Z) : kprog unit :=
  if pml4 =? 0 then panic "freevm: no pgdir" else
  free_level (Nat.div2 NPDENTRIES) pml4 free_pdp;;;
  kfree pml4.

Definition clearpteu (pgdir uva : Z) : kprog unit :=
  pte <- walkpgdir pgdir uva false;;
  match pte with
  | None => panic "clearpteu"
  | Some pte => v <- ld64 pte;; st64 pte (Z.land v (u64 (Z.lnot PTE_U)))
  end.

Fixpoint copyuvm_loop (fuel : nat) (pgdir d i sz : Z) : kprog Z :=
  match fuel with
  | O => fun s => NoFuel s
  | S fuel =>
    if i <? sz then
      pte <- walkpgdir pgdir i false;;
      match pte with
      | None => panic "copyuvm: pte should exist"
      | Some pte =>
        v <- ld64 pte;;
        if negb (present v) then panic "copyuvm: page not present" else
        let pa := PTE_ADDR v in
        let flags := PTE_FLAGS v in
        mem <- kalloc;;
        if mem =? 0 then freevm d;;; ret 0 else
        modify (upd_mem (fun m => memmove m mem (P2V pa) PGSIZE));;;
        r <- mappages d i PGSIZE (V2P mem) (i32 flags);;
        if r <? 0 then freevm d;;; ret 0 else
        copyuvm_loop fuel pgdir d (u64 (i + PGSIZE)) sz
      end
    else ret d
  end.
Definition copyuvm (pgdir sz : Z) : kprog Z :=
  let sz := u32 sz in
  d <- setupkvm;;
  if d =? 0 then ret 0 else
  copyuvm_loop (S (Z.to_nat (sz / PGSIZE + 1))) pgdir d PGSIZE sz.

(** Dereferencing the null pointer walkpgdir returns for an address without a page
    table has no defined behaviour. *)
Definition uva2ka (pgdir uva : Z) : kprog Z :=
  pte <- walkpgdir pgdir uva false;;
  match pte with
  | None => undef "null pte"
  | Some pte =>
    v <- ld64 pte;;
    if Z.land v PTE_P =? 0 then ret 0 else
    if Z.land v PTE_U =? 0 then ret 0 else
    ret (P2V (PTE_ADDR v))
  end.

(** The source is given by the bytes it holds: the callers copy from variables on
    the kernel stack, which no user page overlaps. *)
Definition put_bytes (a : Z) (b : list Z) : kprog unit := modify (upd_mem (at_list a b)).

Fixpoint copyout_loop (fuel : nat) (pgdir va : Z) (b : list Z) : kprog Z :=
  match fuel with
  | O => fun s => NoFuel s
  | S fuel =>
    if (0 <? length b)%nat then
      let va0 := PGROUNDDOWN va in
      pa0 <- uva2ka pgdir va0;;
      if pa0 =? 0 then ret (-1) else
      let n := Z.min (PGSIZE - (va - va0)) (Z.of_nat (length b)) in
      put_bytes (pa0 + (va - va0)) (take (Z.to_nat n) b);;;
      copyout_loop fuel pgdir (u64 (va0 + PGSIZE)) (drop (Z.to_nat n) b)
    else ret 0
  end.
Definition copyout_to (pgdir va : Z) (b : list Z) : kprog Z :=
  copyout_loop (S (length b)) pgdir va b.

End WithLinker.

(** ** What a page table says *)

(** The table the entry [i] of the table [t] points to, and the table reached from
    [t] through the entries [ix]. *)
Definition next_tbl (m : mem) (t i : Z) : option Z :=
  let v := load64 m (entry t i) in if present v then Some (P2V (PTE_ADDR v)) else None.
Fixpoint descend (m : mem) (t : Z) (ix : list Z) : option Z :=
  match ix with
  | [] => Some t
  | i :: ix => match next_tbl m t i with Some t' => descend m t' ix | None => None end
  end.
Definition path (va : Z) : list Z := [PMX va; PDPX va; PDX va].
Definition walk (m : mem) (pml4 va : Z) : option Z :=
  match descend m pml4 (path va) with Some t => Some (entry t (PTX va)) | None => None end.

(** The page table entry of [va], when the page is mapped. *)
Definition leaf (m : mem) (t : Z) (ix : list Z) (j : Z) : option Z :=
  match descend m t ix with
  | Some t' => let v := load64 m (entry t' j) in if present v then Some v else None
  | None => None
  end.
Definition translate (m : mem) (pml4 va : Z) : option Z := leaf m pml4 (path va) (PTX va).

(** The user half of the address space. *)
Definition USERTOP : Z := 140737488355328. (* 2^47 *)

(** *** Memory accesses of the kernel through the current page table

    A pointer below [USERTOP] goes through the page table of the current process, one
    above KERNBASE to the direct map; an access to an address that is not mapped traps,
    and trap() panics on a trap taken in the kernel. *)
Definition cur_pgdir (s : kstate) : Z := default 0 (p_pgdir <$> cur_proc s).
Definition user_addr (m : mem) (root va : Z) : option Z :=
  if va <? USERTOP then
    match translate m root va with
    | Some pte => Some (P2V (PTE_ADDR pte) + va mod PGSIZE)
    | None => None
    end
  else if KERNBASE <=? va then Some va else None.
Definition uload (va : Z) : kprog Z :=
  fun s => match user_addr (k_mem s) (cur_pgdir s) va with Some a => Ret (k_mem s a) s | None => Panic "trap" s end.
Definition ustore (va b : Z) : kprog unit :=
  fun s => match user_addr (k_mem s) (cur_pgdir s) va with
           | Some a => Ret tt (upd_mem (fun m => store8 m a b) s)
           | None => Panic "trap" s
           end.

Definition in_page (p x : Z) : Prop := p <= x < p + PGSIZE.

Definition idx_ok (p : list Z) (i : Z) : Prop := 0 <= i < 512 /\ (p = [] -> i < 256).
Fixpoint idxs_ok (p ix : list Z) : Prop :=
  match ix with [] => True | i :: ix => idx_ok p i /\ idxs_ok (p ++ [i]) ix end.

(** [own] assigns to every table page of the user half below [root] the indices
    that lead to it: a present entry of a table at depth less than three points to a
    table page that belongs to the entry, and every table is reached by its indices. *)
Record pt_ok `{Linker} (own : gmap Z (list Z)) (m : mem) (root : Z) : Prop := Pt_ok {
  pt_root : own !! root = Some [];
  pt_page : forall t p, own !! t = Some p -> page_ok t;
  pt_next : forall t p i t', own !! t = Some p -> (length p < 3)%nat -> idx_ok p i ->
    next_tbl m t i = Some t' -> own !! t' = Some (p ++ [i]);
  pt_linked : forall t p, own !! t = Some p -> (length p <= 3)%nat /\ idxs_ok [] p /\ descend m root p = Some t
}.

Lemma descend_app m t ix jx :
  descend m t (ix ++ jx) = match descend m t ix with Some t' => descend m t' jx | None => None end.
Proof. revert t. induction ix as [|i ix IH]; intros t; [done|]. cbn. by destruct (next_tbl m t i). Qed.

Lemma idxs_ok_app p ix jx : idxs_ok p (ix ++ jx) <-> idxs_ok p ix /\ idxs_ok (p ++ ix) jx.
Proof.
  revert p. induction ix as [|i ix IH]; intros p; cbn; [rewrite app_nil_r; tauto|]. rewrite IH, <- app_assoc. cbn. tauto.
Qed.

#[local] Opaque memset.

Lemma cur_pgdir_at i s : cpu_proc (k_cpu s) = Some i -> cur_pgdir s = p_pgdir (proc_at i s).
Proof. intros E. unfold cur_pgdir, cur_proc, proc_at. rewrite E. by destruct (k_ptable s !! i). Qed.

(** ** Arithmetic of entries *)

Lemma land_page_mask x : 0 <= x < 18446744073709551616 ->
  Z.land x (u64 (Z.lnot 4095)) = x / 4096 * 4096.
Proof.
  intros Hx. change (u64 (Z.lnot 4095)) with (Z.shiftl (Z.ones 52) 12).
  change 4096 with (2 ^ 12). rewrite <- Z.shiftr_div_pow2, <- Z.shiftl_mul_pow2 by lia.
  apply Z.bits_inj'. intros n Hn. rewrite Z.land_spec, !Z.shiftl_spec by lia.
  destruct (Z_lt_dec n 12).
  { rewrite !(Z.testbit_neg_r _ (n - 12)) by lia. apply andb_false_r. }
  rewrite Z.shiftr_spec, Z.sub_add by lia. destruct (Z_lt_dec (n - 12) 52).
  - rewrite Z.ones_spec_low by lia. apply andb_true_r.
  - rewrite Z.ones_spec_high, andb_false_r by lia. symmetry.
    destruct (Z.eq_dec x 0) as [-> |Hne]; [apply Z.bits_0|].
    apply Z.bits_above_log2; [lia|]. assert (Z.log2 x < 64); [|lia].
    apply Z.log2_lt_pow2; lia.
Qed.

Lemma PGROUNDDOWN_eq a : 0 <= a < 18446744073709551616 -> PGROUNDDOWN a = a / 4096 * 4096.
Proof. apply land_page_mask. Qed.

Lemma PGROUNDUP_eq a : 0 <= a < 18446744073709547520 -> PGROUNDUP a = (a + 4095) / 4096 * 4096.
Proof. intros Ha. unfold PGROUNDUP, PGSIZE. rewrite u64_small by lia. apply land_page_mask. lia. Qed.

Lemma lor_page a f : a mod 4096 = 0 -> 0 <= a -> 0 <= f < 4096 -> Z.lor a f = a + f.
Proof.
  intros Ha H0 Hf. assert (Z.land a f = 0) as E; [|by rewrite <- Z.lxor_lor, Z.add_nocarry_lxor].
  apply Z.bits_inj'. intros n Hn. rewrite Z.land_spec, Z.bits_0. destruct (Z_lt_dec n 12).
  - rewrite <- (Z.mod_pow2_bits_low a 12 n) by lia. change (2 ^ 12) with 4096. by rewrite Ha, Z.bits_0.
  - rewrite (Z.bits_above_log2 f n); [apply andb_false_r|lia|].
    destruct (Z.eq_dec f 0) as [-> |]; [simpl; lia|].
    enough (Z.log2 f < 12) by lia. apply Z.log2_lt_pow2; lia.
Qed.

Lemma idx_range va sh : 0 <= Z.land (Z.shiftr va sh) 511 < 512.
Proof. change 511 with (Z.ones 9). rewrite Z.land_ones by lia. apply Z.mod_pos_bound. lia. Qed.

Lemma idx_mod va sh : 0 <= sh -> Z.land (Z.shiftr va sh) 511 = va / 2 ^ sh mod 512.
Proof. intros ?. change 511 with (Z.ones 9). by rewrite Z.land_ones, Z.shiftr_div_pow2. Qed.

(** A page shares its indices, and the four indices determine it. *)
Lemma translate_page_path va va' : va / 4096 = va' / 4096 -> path va = path va' /\ PTX va = PTX va'.
Proof.
  unfold path, PMX, PDPX, PDX, PTX. rewrite !idx_mod by lia.
  change (2 ^ 39) with (4096 * 134217728). change (2 ^ 30) with (4096 * 262144).
  change (2 ^ 21) with (4096 * 512). change (2 ^ 12) with 4096.
  intros E. by rewrite <- !Z.div_div, E by lia.
Qed.

Lemma translate_page m root va va' : va / 4096 = va' / 4096 -> translate m root va = translate m root va'.
Proof. intros [E1 E2]%translate_page_path. unfold translate. by rewrite E1, E2. Qed.

Lemma path_page va va' : 0 <= va < USERTOP -> 0 <= va' < USERTOP ->
  path va = path va' -> PTX va = PTX va' -> va / 4096 = va' / 4096.
Proof.
  unfold USERTOP, path, PMX, PDPX, PDX, PTX. intros H H'. rewrite !idx_mod by lia.
  change (2 ^ 39) with 549755813888. change (2 ^ 30) with 1073741824.
  change (2 ^ 21) with 2097152. change (2 ^ 12) with 4096.
  intros [= E1 E2 E3] E4. Z.div_mod_to_equations. lia.
Qed.

Lemma path_idx_ok va : 0 <= va < USERTOP ->
  idx_ok [] (PMX va) /\ idx_ok [PMX va] (PDPX va) /\ idx_ok [PMX va; PDPX va] (PDX va).
Proof.
  intros H. unfold idx_ok. split_and!; try apply idx_range; try done.
  intros _. unfold PMX, USERTOP in *. rewrite idx_mod by lia. change (2 ^ 39) with 549755813888.
  Z.div_mod_to_equations. lia.
Qed.

Lemma page_phys `{Linker} t : page_ok t -> t = KERNBASE + V2P t /\ 0 <= V2P t < PHYSTOP /\ V2P t mod 4096 = 0.
Proof.
  unfold page_ok, V2P, KERNBASE, PHYSTOP, PGSIZE, u64. intros (Ha & _ & Hp & Hr).
  Z.div_mod_to_equations. lia.
Qed.

Lemma present_odd v : present v = Z.odd v.
Proof.
  unfold present, PTE_P. change 1 with (Z.ones 1) at 1. rewrite Z.land_ones by lia.
  rewrite Zmod_odd. by destruct (Z.odd v).
Qed.

Lemma present_zero : present 0 = false.
Proof. done. Qed.

(** A physical page address and flags make an entry that reads back as both. *)
Lemma pte_make pa f : pa mod 4096 = 0 -> 0 <= pa -> pa + 4096 <= 18446744073709551616 -> 0 <= f < 4096 ->
  let v := Z.lor (Z.lor pa f) PTE_P in
  0 <= v < 18446744073709551616 /\ present v = true /\ PTE_ADDR v = pa /\ PTE_FLAGS v = Z.lor f PTE_P.
Proof.
  intros Hm H0 Ht Hf v. assert (0 <= Z.lor f 1 < 4096) as Hl.
  { split; [apply Z.lor_nonneg; lia|]. apply Z.log2_lt_cancel. rewrite Z.log2_lor by lia.
    change (Z.log2 4096) with 12. apply Z.max_lub_lt; [|done].
    destruct (Z.eq_dec f 0) as [-> |]; [done|]. apply Z.log2_lt_pow2; lia. }
  assert (v = pa + Z.lor f 1) as E.
  { unfold v, PTE_P. rewrite <- Z.lor_assoc. by apply lor_page. }
  split; [lia|]. split.
  { rewrite present_odd. unfold v, PTE_P. rewrite <- !Z.bit0_odd, !Z.lor_spec, !Z.bit0_odd. by rewrite orb_true_r. }
  split.
  - unfold PTE_ADDR. rewrite land_page_mask by lia. rewrite E. Z.div_mod_to_equations. lia.
  - unfold PTE_FLAGS, PTE_P. change 4095 with (Z.ones 12). rewrite Z.land_ones by lia.
    change (2 ^ 12) with 4096. rewrite E. Z.div_mod_to_equations. lia.
Qed.

Definition table_pte (t : Z) : Z := Z.lor (Z.lor (Z.lor (V2P t) PTE_P) PTE_W) PTE_U.

Lemma table_pte_make `{Linker} t : page_ok t ->
  0 <= table_pte t < 18446744073709551616 /\ present (table_pte t) = true /\ P2V (PTE_ADDR (table_pte t)) = t.
Proof.
  intros (E & Hr & Hm)%page_phys. unfold PHYSTOP in Hr.
  destruct (pte_make (V2P t) 6) as (H1 & H2 & H3 & _); [done|lia|lia|lia|].
  assert (Z.lor (Z.lor (V2P t) 6) PTE_P = table_pte t) as Ev.
  { unfold table_pte, PTE_P, PTE_W, PTE_U. rewrite <- !Z.lor_assoc. done. }
  rewrite Ev in *. split_and!; [lia..|done|]. rewrite H3. unfold P2V.
  rewrite u64_small; unfold KERNBASE in *; lia.
Qed.

Lemma entry_inj t u i j : t mod 4096 = 0 -> u mod 4096 = 0 -> 0 <= i < 512 -> 0 <= j < 512 ->
  entry t i = entry u j -> t = u /\ i = j.
Proof. unfold entry. intros. Z.div_mod_to_equations. lia. Qed.

Lemma entry_in_page t i : 0 <= i < 512 -> forall x, entry t i <= x < entry t i + 8 -> in_page t x.
Proof. unfold entry, in_page, PGSIZE. lia. Qed.

(** A store to one entry leaves the other entries of page-aligned tables alone. *)
Lemma load_entry_other m t u i j v : t mod 4096 = 0 -> u mod 4096 = 0 -> 0 <= i < 512 -> 0 <= j < 512 ->
  entry t i <> entry u j -> load64 (store64 m (entry t i) v) (entry u j) = load64 m (entry u j).
Proof.
  intros Ht Hu Hi Hj Hne. symmetry. apply load64_other. intros x Hx. symmetry. apply store_le_out.
  unfold entry in *. Z.div_mod_to_equations. lia.
Qed.

Lemma load_zero_page m q u j : q mod 4096 = 0 -> u mod 4096 = 0 -> 0 <= j < 512 ->
  load64 (memset m q 0 PGSIZE) (entry u j) = if decide (u = q) then 0 else load64 m (entry u j).
Proof.
  intros Hq Hu Hj. rewrite memset_fill by (unfold PGSIZE; lia). destruct (decide (u = q)) as [-> |Hne].
  - transitivity (load64 (fun _ => 0) (entry q j)); [|done].
    apply load64_other. intros x Hx. unfold fill.
    rewrite (proj2 (in_range_spec _ _ _)); [done|]. pose proof (entry_in_page q j Hj x Hx) as Hp.
    unfold in_page in Hp. lia.
  - symmetry. apply load64_other. intros x Hx. unfold fill.
    destruct (in_range q PGSIZE x) eqn:E; [|done]. apply in_range_spec in E. exfalso.
    pose proof (entry_in_page u j Hj x Hx). by apply (pages_apart u q x).
Qed.

(** ** Adding a table page, setting a leaf *)

Lemma path_idxs_ok va : 0 <= va < USERTOP -> idxs_ok [] (path va).
Proof. intros (? & ? & ?)%path_idx_ok. simpl. auto. Qed.

Lemma descend_own `{Linker} own m root ix u p t : pt_ok own m root ->
  own !! u = Some p -> (length p + length ix <= 3)%nat -> idxs_ok p ix ->
  descend m u ix = Some t -> own !! t = Some (p ++ ix).
Proof.
  intros Hok. revert u p. induction ix as [|i ix IH]; intros u p Hu Hl Hi; simpl in *.
  { intros [= ->]. by rewrite app_nil_r. }
  destruct Hi as [Hi Hix], (next_tbl m u i) as [u'|] eqn:En; [|done]. intros Hd.
  rewrite cons_middle, app_assoc. apply (IH u'); [|rewrite length_app; simpl; lia|done|done].
  apply (pt_next _ _ _ Hok u p i u'); [done|lia|done|done].
Qed.

Section AddTable.
Context `{LK : Linker} (own : gmap Z (list Z)) (m : mem) (root t q : Z) (p : list Z) (i : Z).
Context (Hok : pt_ok own m root) (Ht : own !! t = Some p) (Hlen : (length p < 3)%nat).
Context (Hi : idx_ok p i) (Habs : next_tbl m t i = None).
Context (Hq : page_ok q) (Hqn : own !! q = None).

Definition add_table : mem := store64 (memset m q 0 PGSIZE) (entry t i) (table_pte q).

Lemma add_load u j : page_ok u -> 0 <= j < 512 -> entry t i <> entry u j ->
  load64 add_table (entry u j) = if decide (u = q) then 0 else load64 m (entry u j).
Proof.
  intros [Hu _] Hj Hne. destruct (pt_page _ _ _ Hok _ _ Ht) as [Hta _], Hq as [Hqa _].
  unfold add_table. rewrite load_entry_other by (done || apply Hi). by apply load_zero_page.
Qed.

Lemma add_next u j : page_ok u -> 0 <= j < 512 ->
  next_tbl add_table u j =
    if decide (u = t /\ j = i) then Some q else if decide (u = q) then None else next_tbl m u j.
Proof.
  intros Hu Hj. destruct (table_pte_make q Hq) as (Hr & Hp & Ha). unfold next_tbl at 1.
  destruct (decide _) as [[-> ->]|Hne].
  - unfold add_table. by rewrite load64_store64, Hp, Ha.
  - rewrite add_load; [|done..|].
    + by destruct (decide (u = q)).
    + intros E. apply Hne. destruct Hu as [Hua _], (pt_page _ _ _ Hok _ _ Ht) as [Hta _].
      apply entry_inj in E; [naive_solver|done|done|apply Hi|done].
Qed.

Lemma add_leaf_fresh ix p' j : idxs_ok p' ix -> 0 <= j < 512 -> leaf add_table q ix j = None.
Proof.
  intros Hix Hj. assert (q <> t) as Hqt by congruence. destruct ix as [|k ix]; unfold leaf; simpl.
  - rewrite add_load; [|done..|].
    + by rewrite decide_True.
    + destruct Hq as [Hqa _], (pt_page _ _ _ Hok _ _ Ht) as [Hta _].
      intros E. apply entry_inj in E; [naive_solver|done|done|apply Hi|done].
  - destruct Hix as [[Hk _] _]. rewrite add_next, decide_False, decide_True by (done || naive_solver). done.
Qed.

Lemma add_leaf ix u pu j : own !! u = Some pu -> (length pu + length ix = 3)%nat ->
  idxs_ok pu ix -> 0 <= j < 512 -> leaf add_table u ix j = leaf m u ix j.
Proof.
  revert u pu. induction ix as [|k ix IH]; intros u pu Hu Hl Hix Hj.
  - assert (u <> t) by (intros ->; simplify_eq; simpl in Hl; lia).
    assert (u <> q) by congruence. pose proof (pt_page _ _ _ Hok _ _ Hu) as Hup.
    unfold leaf; simpl. rewrite add_load, decide_False; [done..|].
    destruct Hup as [Hua _], (pt_page _ _ _ Hok _ _ Ht) as [Hta _].
    intros E. apply entry_inj in E; [naive_solver|done|done|apply Hi|done].
  - destruct Hix as [Hk Hix]. pose proof (pt_page _ _ _ Hok _ _ Hu) as Hup.
    unfold leaf; simpl. rewrite add_next by (done || apply Hk). destruct (decide _) as [[-> ->]|Hne].
    + rewrite Habs. by apply (add_leaf_fresh ix (pu ++ [i])).
    + rewrite decide_False by congruence. destruct (next_tbl m u k) as [u'|] eqn:En; [|done].
      apply (IH u' (pu ++ [k])); [|rewrite length_app; simpl in *; lia|done|done].
      apply (pt_next _ _ _ Hok u pu k u'); [done|simpl in *; lia|done|done].
Qed.

Lemma add_descend ix u pu u' : own !! u = Some pu -> (length pu + length ix <= 3)%nat -> idxs_ok pu ix ->
  descend m u ix = Some u' -> descend add_table u ix = Some u'.
Proof.
  revert u pu. induction ix as [|k ix IH]; intros u pu Hu Hl Hix; [done|]. destruct Hix as [Hk Hix]. cbn in *.
  rewrite add_next by (apply Hk || by apply (pt_page _ _ _ Hok u pu)). destruct (decide _) as [[-> ->]|Hne]; [by rewrite Habs|].
  rewrite decide_False by congruence. destruct (next_tbl m u k) as [u2|] eqn:En; [|done].
  apply (IH u2 (pu ++ [k])); [apply (pt_next _ _ _ Hok u pu k u2); [done|lia|done|done]|rewrite length_app; cbn; lia|done].
Qed.

Lemma add_ok : pt_ok (<[q := p ++ [i]]> own) add_table root.
Proof.
  split.
  - rewrite lookup_insert_ne; [apply Hok|]. intros ->. by rewrite (pt_root _ _ _ Hok) in Hqn.
  - intros u pu [[-> _]|[_ Hu]]%lookup_insert_Some; [done|]. by apply (pt_page _ _ _ Hok u pu).
  - intros u pu j u' Hu Hl Hj. assert (page_ok u) as Hup.
    { apply lookup_insert_Some in Hu as [[<- _]|[_ Hu]]; [done|]. by apply (pt_page _ _ _ Hok u pu). }
    rewrite add_next by (done || apply Hj). destruct (decide _) as [[-> ->]|Hne].
    + intros [= <-]. rewrite lookup_insert_ne in Hu by congruence.
      rewrite Ht in Hu. simplify_eq. by rewrite lookup_insert_eq.
    + destruct (decide (u = q)) as [-> |Huq]; [done|]. intros En.
      rewrite lookup_insert_ne in Hu by congruence.
      pose proof (pt_next _ _ _ Hok u pu j u' Hu Hl Hj En) as Ho.
      by rewrite lookup_insert_ne by congruence.
  - assert (forall u pu, own !! u = Some pu -> (length pu <= 3)%nat /\ idxs_ok [] pu /\ descend add_table root pu = Some u) as Hold.
    { intros u pu Hu. destruct (pt_linked _ _ _ Hok u pu Hu) as (L1 & L2 & L3). split_and!; [done|done|].
      by apply (add_descend _ _ []); [apply Hok|..]. }
    intros u pu [[<- <-]|[_ Hu]]%lookup_insert_Some; [|by apply Hold]. destruct (Hold t p Ht) as (L1 & L2 & L3).
    rewrite length_app, idxs_ok_app, descend_app, L3. cbn. split_and!; [lia|done|done|done|].
    by rewrite add_next, decide_True by (apply Hi || done || by apply (pt_page _ _ _ Hok t p)).
Qed.

Lemma add_out x : ~ in_page t x -> ~ in_page q x -> add_table x = m x.
Proof using Hi.
  intros H1 H2. unfold add_table, store64. rewrite store_le_out.
  - rewrite memset_fill by done. unfold fill.
    destruct (in_range q PGSIZE x) eqn:E; [|done]. by apply in_range_spec in E.
  - intros Hx. apply H1. by apply (entry_in_page t i); [apply Hi|].
Qed.

Lemma add_bytes : bytes_ok m -> bytes_ok add_table.
Proof using. intros Hb. apply store_le_bytes, memset_bytes; done. Qed.

End AddTable.

Section SetLeaf.
Context `{LK : Linker} (own : gmap Z (list Z)) (m : mem) (root t : Z) (p : list Z) (j v : Z).
Context (Hok : pt_ok own m root) (Ht : own !! t = Some p) (Hlen : length p = 3%nat).
Context (Hj : 0 <= j < 512) (Hv : 0 <= v < 18446744073709551616).

Definition set_leaf : mem := store64 m (entry t j) v.

Lemma set_leaf_next u pu k : own !! u = Some pu -> (length pu < 3)%nat -> idx_ok pu k ->
  next_tbl set_leaf u k = next_tbl m u k.
Proof.
  intros Hu Hl Hk. unfold next_tbl, set_leaf.
  destruct (pt_page _ _ _ Hok _ _ Hu) as [Hua _], (pt_page _ _ _ Hok _ _ Ht) as [Hta _].
  rewrite load_entry_other; [done|done|done|done|apply Hk|].
  intros E. apply entry_inj in E; [|done|done|done|apply Hk]. destruct E as [-> _]. simplify_eq. lia.
Qed.

Lemma set_leaf_descend ix u pu : own !! u = Some pu -> (length pu + length ix <= 3)%nat ->
  idxs_ok pu ix -> descend set_leaf u ix = descend m u ix.
Proof.
  revert u pu. induction ix as [|k ix IH]; intros u pu Hu Hl Hix; simpl; [done|].
  destruct Hix as [Hk Hix]. simpl in Hl. rewrite (set_leaf_next u pu k Hu ltac:(lia) Hk).
  destruct (next_tbl m u k) as [u'|] eqn:En; [|done].
  apply (IH u' (pu ++ [k])); [|rewrite length_app; simpl; lia|done].
  apply (pt_next _ _ _ Hok u pu k u'); [done|lia|done|done].
Qed.

Lemma set_leaf_ok : pt_ok own set_leaf root.
Proof.
  split; [apply Hok|apply (pt_page _ _ _ Hok)| |].
  - intros u pu k u' Hu Hl Hk. rewrite (set_leaf_next u pu k Hu Hl Hk). by apply (pt_next _ _ _ Hok).
  - intros u pu Hu. destruct (pt_linked _ _ _ Hok u pu Hu) as (L1 & L2 & L3). split_and!; [done|done|].
    by rewrite (set_leaf_descend pu root []) by (done || apply Hok).
Qed.

Lemma set_leaf_same va : 0 <= va < USERTOP -> p = path va -> j = PTX va ->
  descend m root (path va) = Some t ->
  translate set_leaf root va = if present v then Some v else None.
Proof.
  intros Hva Hp Hjv Hd. unfold translate, leaf.
  rewrite (set_leaf_descend _ root []), Hd; [|apply Hok|done|by apply path_idxs_ok].
  unfold set_leaf. by rewrite <- Hjv, load64_store64.
Qed.

Lemma set_leaf_other va va' : 0 <= va < USERTOP -> 0 <= va' < USERTOP -> p = path va -> j = PTX va ->
  va' / 4096 <> va / 4096 -> translate set_leaf root va' = translate m root va'.
Proof.
  intros Hva Hva' Hp Hjv Hne. unfold translate, leaf.
  rewrite (set_leaf_descend _ root []); [|apply Hok|done|by apply path_idxs_ok].
  destruct (descend m root (path va')) as [t'|] eqn:Hd; [|done].
  apply (descend_own own m root _ _ [] _ Hok (pt_root _ _ _ Hok)) in Hd; [|done|by apply path_idxs_ok].
  destruct (pt_page _ _ _ Hok _ _ Hd) as [Hua _], (pt_page _ _ _ Hok _ _ Ht) as [Hta _].
  unfold set_leaf. rewrite load_entry_other; [done|done|done|done|apply idx_range|].
  intros E. apply entry_inj in E; [|done|done|done|apply idx_range]. destruct E as [-> E].
  apply Hne, path_page; [done|done| |congruence]. simpl in Hd. congruence.
Qed.

Lemma set_leaf_out x : ~ in_page t x -> set_leaf x = m x.
Proof. intros Hx. apply store_le_out. intros H. by apply Hx, (entry_in_page t j). Qed.

End SetLeaf.

(** ** Running the page-table code *)

(** [s'] differs from [s] in memory, the free list and the trace. *)
Definition mem_only (s s' : kstate) : Prop :=
  quiet (set_k_kmem (k_kmem s') (set_k_mem (k_mem s') s)) s'.

Lemma mem_only_refl s : mem_only s s.
Proof. by split; auto. Qed.

Lemma mem_only_trans s1 s2 s3 : mem_only s1 s2 -> mem_only s2 s3 -> mem_only s1 s3.
Proof.
  intros [] []; simpl in *. split; simpl; try congruence.
  destruct q_cpu as [E|E], q_cpu0 as [E'|E']; rewrite E', E; rewrite ?sync_sync; auto.
Qed.

Lemma mem_only_quiet s s' : quiet s s' -> mem_only s s'.
Proof. intros []. split; simpl; auto. Qed.

Lemma mem_only_mem s m : mem_only s (set_k_mem m s).
Proof. by split; auto. Qed.

Lemma mem_only_kalloced p s : mem_only s (kalloced p s).
Proof.
  unfold kalloced. eapply mem_only_trans; [|apply mem_only_quiet, quiet_mem_traced].
  unfold lock_sync. destruct (locking s); by split; simpl; auto.
Qed.

Section Run.
Context `{LK : Linker}.

Record vm_ready (own : gmap Z (list Z)) (s : kstate) (root : Z) (l : list Z) : Prop := Vm_ready {
  vr_pt : pt_ok own (k_mem s) root;
  vr_free : free_pages s l;
  vr_alloc : alloc_ready s;
  vr_fresh : forall x, x ∈ l -> own !! x = None
}.

(** The page table has at most gained tables: what is mapped is unchanged, and so is
    memory outside the tables. *)
Record grown (own own' : gmap Z (list Z)) (s s' : kstate) (root : Z) (l l' : list Z) : Prop := Grown {
  gr_own : own ⊆ own';
  gr_next : forall u pu k u', own !! u = Some pu -> (length pu < 3)%nat -> idx_ok pu k ->
    next_tbl (k_mem s) u k = Some u' -> next_tbl (k_mem s') u k = Some u';
  gr_translate : forall va, 0 <= va < USERTOP -> translate (k_mem s') root va = translate (k_mem s) root va;
  gr_mem : forall x, (forall t, is_Some (own' !! t) -> ~ in_page t x) -> k_mem s' x = k_mem s x;
  gr_new : forall x, is_Some (own' !! x) -> is_Some (own !! x) \/ (x ∈ l /\ x ∉ l');
  gr_frame : mem_only s s';
  gr_free : l' ⊆ l;
  gr_taken : forall x, x ∈ l -> x ∈ l' \/ is_Some (own' !! x)
}.

Lemma grown_refl own s root l : grown own own s s root l l.
Proof. split; auto using mem_only_refl. Qed.

Lemma grown_trans o1 o2 o3 s1 s2 s3 root l1 l2 l3 :
  grown o1 o2 s1 s2 root l1 l2 -> grown o2 o3 s2 s3 root l2 l3 -> grown o1 o3 s1 s3 root l1 l3.
Proof.
  intros [A1 A2 A3 A4 A5 A6 A7 A8] [B1 B2 B3 B4 B5 B6 B7 B8]. split.
  - by trans o2.
  - intros u pu k u' Hu Hl Hk Hn. apply (B2 u pu); [by eapply lookup_weaken|done|done|by apply (A2 u pu)].
  - intros va Hva. rewrite B3, A3; done.
  - intros x Hx. rewrite B4 by done. apply A4. intros t [p Hp]. apply Hx. exists p. by eapply lookup_weaken.
  - intros x [Hx|[Hx Hn]]%B5; [apply A5 in Hx as [Hx|[Hx Hn]]; [by left|right]|right]; split; auto.
  - by eapply mem_only_trans.
  - by trans l2.
  - intros x [?|[p Hp]]%A8; [by apply B8|]. right. exists p. by eapply lookup_weaken.
Qed.

Lemma free_pages_same s s' l : k_mem s' = k_mem s -> k_kmem s' = k_kmem s -> free_pages s l -> free_pages s' l.
Proof. intros E1 E2 [H1 H2 H3 H4]. split; rewrite ?E1, ?E2; done. Qed.

Lemma free_pages_mem s l m : free_pages s l -> bytes_ok m ->
  (forall p x, p ∈ l -> in_page p x -> m x = k_mem s x) -> free_pages (set_k_mem m s) l.
Proof.
  intros [F1 F2 F3 F4] Hb Hm. split; [|done|done|done]. eapply linked_ext; [|exact F1].
  intros p x Hp Hx. symmetry. apply (Hm p); [done|]. unfold in_page, PGSIZE. lia.
Qed.

Lemma walk_level_present own s root l t p i t' :
  vm_ready own s root l -> next_tbl (k_mem s) t i = Some t' -> own !! t = Some p ->
  walk_level (entry t i) true s = Ret (Some t') s.
Proof.
  intros _ En _. unfold walk_level, ld64. rewrite bind_gets. unfold next_tbl in En.
  destruct (present _); [|done]. by simplify_eq.
Qed.

Lemma not_in_page (t u x : Z) : page_ok t -> page_ok u -> t <> u -> in_page t x -> ~ in_page u x.
Proof. intros [Ht _] [Hu _] Hne Hx. by apply (pages_apart t u x). Qed.

Lemma add_table_ready own s root t p i q l : vm_ready own s root (q :: l) ->
  own !! t = Some p -> (length p < 3)%nat -> idx_ok p i -> next_tbl (k_mem s) t i = None ->
  let s' := set_k_mem (add_table (k_mem s) t q i) (kalloced q s) in
  vm_ready (<[q := p ++ [i]]> own) s' root l /\
  grown own (<[q := p ++ [i]]> own) s s' root (q :: l) l.
Proof.
  intros [Hok Hl Hr Hf] Ht Hlen Hi Habs s'.
  pose proof (fp_nodup _ _ Hl) as [Hqn _]%NoDup_cons.
  pose proof (fp_pages _ _ Hl) as [Hq Hpl]%Forall_cons_1.
  assert (own !! q = None) as Hqo by (apply Hf; by left).
  split.
  - split.
    + by apply add_ok.
    + apply free_pages_mem; [by apply free_pages_alloced|apply add_bytes, Hl|].
      intros x y Hx Hy. rewrite kalloced_mem. rewrite Forall_forall in Hpl. specialize (Hpl x Hx).
      eapply add_out; [exact Hi| |].
      * apply (not_in_page x); [done|by apply (pt_page _ _ _ Hok t p)| |done].
        intros ->. rewrite (Hf t) in Ht; [done|by right].
      * apply (not_in_page x); [done|done|congruence|done].
    + by apply kalloced_ready.
    + intros x Hx. rewrite lookup_insert_ne; [apply Hf; by right|congruence].
  - split.
    + by apply insert_subseteq.
    + intros u pu k u' Hu Hlu Hk En. simpl.
      rewrite (add_next own _ root _ _ p) by (done || (by apply (pt_page _ _ _ Hok u pu)) || apply Hk).
      rewrite !decide_False; [done|congruence|naive_solver].
    + intros va Hva. unfold translate.
      change (k_mem s') with (add_table (k_mem s) t q i).
      by rewrite (add_leaf own (k_mem s) root t q p i Hok Ht Hlen Hi Habs Hq Hqo (path va) root [] (PTX va)
        (pt_root _ _ _ Hok) eq_refl (path_idxs_ok va Hva) (idx_range va 12)).
    + intros x Hx. change (k_mem s') with (add_table (k_mem s) t q i).
      eapply add_out; [exact Hi| |].
      * apply Hx. rewrite lookup_insert_ne by congruence. by exists p.
      * apply Hx. by rewrite lookup_insert_eq.
    + intros x [px [[<- _]|[_ Hx]]%lookup_insert_Some]; [right|left; by exists px].
      split; [by left|done].
    + eapply mem_only_trans; [apply mem_only_kalloced|apply mem_only_mem].
    + set_solver.
    + intros x [->|Hx]%elem_of_cons; [right; by rewrite lookup_insert_eq|by left].
Qed.

(** One level of the walk with [alloc] set. *)
Lemma walk_level_run own s root l t p i : vm_ready own s root l ->
  own !! t = Some p -> (length p < 3)%nat -> idx_ok p i -> (0 < length l)%nat ->
  exists t' own' s' l', walk_level (entry t i) true s = Ret (Some t') s' /\
    vm_ready own' s' root l' /\ grown own own' s s' root l l' /\
    own' !! t' = Some (p ++ [i]) /\ next_tbl (k_mem s') t i = Some t' /\
    (length l <= S (length l'))%nat.
Proof.
  intros Hs Ht Hlen Hi Hl. destruct (next_tbl (k_mem s) t i) as [t'|] eqn:En.
  - exists t', own, s, l. split_and!; auto using grown_refl.
    + by apply (walk_level_present own _ root l _ p).
    + by apply (pt_next _ _ _ (vr_pt _ _ _ _ Hs) t p i t').
  - destruct l as [|q l]; [simpl in Hl; lia|]. clear Hl.
    destruct (add_table_ready own s root t p i q l Hs Ht Hlen Hi En) as [Hs' Hg].
    eexists q, _, _, l. split_and!; [|exact Hs'|exact Hg|apply lookup_insert_eq| |done].
    + unfold walk_level, ld64. rewrite bind_gets. unfold next_tbl in En.
      destruct (present _) eqn:Ep; [done|]. cbn [negb].
      pose proof (fp_pages _ _ (vr_free _ _ _ _ Hs)) as [(_ & _ & _ & Hq) _]%Forall_cons_1.
      mret (kalloc_run q s (proj1 (fp_linked _ _ (vr_free _ _ _ _ Hs))) ltac:(lia) (vr_alloc _ _ _ _ Hs)).
      destruct (Z.eqb_spec q 0); [lia|]. unfold zero_page, st64. rewrite !bind_modify.
      unfold upd_mem. cbn [set_k_mem k_mem]. rewrite kalloced_mem. done.
    + pose proof (fp_pages _ _ (vr_free _ _ _ _ Hs)) as [Hq _]%Forall_cons_1. simpl.
      rewrite (add_next own _ root _ _ p) by
        (done || apply Hs || (by apply (pt_page _ _ _ (vr_pt _ _ _ _ Hs) t p)) || apply Hi).
      by rewrite decide_True.
Qed.

Lemma walkpgdir_lookup pml4 va s :
  walkpgdir pml4 va false s = Ret (walk (k_mem s) pml4 va) s.
Proof.
  assert (forall t i, walk_level (entry t i) false s = Ret (next_tbl (k_mem s) t i) s) as Hl.
  { intros t i. unfold walk_level, ld64, next_tbl. rewrite bind_gets. by destruct (present _). }
  unfold walkpgdir, walk; simpl. mret (Hl pml4 (PMX va)). destruct (next_tbl _ pml4 _) as [pdp|]; [|done].
  mret (Hl pdp (PDPX va)). destruct (next_tbl _ pdp _) as [pd|]; [|done].
  mret (Hl pd (PDX va)). by destruct (next_tbl _ pd _).
Qed.

(** walkpgdir with [alloc] set reaches the entry of any user address. *)
Lemma walkpgdir_run own s root l va : vm_ready own s root l -> 0 <= va < USERTOP ->
  (3 <= length l)%nat ->
  exists pt own' s' l', walkpgdir root va true s = Ret (Some (entry pt (PTX va))) s' /\
    vm_ready own' s' root l' /\ grown own own' s s' root l l' /\
    own' !! pt = Some (path va) /\ descend (k_mem s') root (path va) = Some pt /\
    (length l <= 3 + length l')%nat.
Proof.
  intros Hs Hva Hl. destruct (path_idx_ok va Hva) as (I1 & I2 & I3).
  pose proof (pt_root _ _ _ (vr_pt _ _ _ _ Hs)) as R0.
  destruct (walk_level_run own s root l root [] (PMX va) Hs R0) as
    (t1 & o1 & s1 & l1 & E1 & Hs1 & G1 & O1 & N1 & L1); [simpl; lia|done|lia|].
  destruct (walk_level_run o1 s1 root l1 t1 [PMX va] (PDPX va) Hs1 O1) as
    (t2 & o2 & s2 & l2 & E2 & Hs2 & G2 & O2 & N2 & L2); [simpl; lia|done|lia|].
  destruct (walk_level_run o2 s2 root l2 t2 [PMX va; PDPX va] (PDX va) Hs2 O2) as
    (t3 & o3 & s3 & l3 & E3 & Hs3 & G3 & O3 & N3 & L3); [simpl; lia|done|lia|].
  exists t3, o3, s3, l3. split.
  { unfold walkpgdir. by rewrite (bind_Ret _ _ _ _ _ E1), (bind_Ret _ _ _ _ _ E2), (bind_Ret _ _ _ _ _ E3). }
  split; [done|]. split; [by eapply grown_trans; [exact G1|]; eapply grown_trans|].
  split; [done|]. split; [|lia]. simpl.
  rewrite (gr_next _ _ _ _ _ _ _ G3 root [] (PMX va) t1);
    [|by eapply lookup_weaken; [apply (vr_pt _ _ _ _ Hs1)|apply G2]|simpl; lia|done|].
  2: { apply (gr_next _ _ _ _ _ _ _ G2 root []); [apply (vr_pt _ _ _ _ Hs1)|simpl; lia|done|done]. }
  rewrite (gr_next _ _ _ _ _ _ _ G3 t1 [PMX va] (PDPX va) t2);
    [|by eapply lookup_weaken; [apply O1|apply G2]|simpl; lia|done|done].
  by rewrite N3.
Qed.

(** ** The memory a process sees *)

Definition frame (pte : Z) : Z := P2V (PTE_ADDR pte).
Definition ubyte (m : mem) (root va : Z) : option Z :=
  match translate m root va with
  | Some pte => Some (m (frame pte + va mod PGSIZE))
  | None => None
  end.

(** The user pages are pages of their own: no table, no free page, each mapped once. *)
Record user_pages (own : gmap Z (list Z)) (s : kstate) (root : Z) (l : list Z) : Prop := User_pages {
  us_page : forall va pte, 0 <= va < USERTOP -> translate (k_mem s) root va = Some pte ->
    page_ok (frame pte) /\ own !! frame pte = None /\ frame pte ∉ l;
  us_inj : forall va va' pte pte', 0 <= va < USERTOP -> 0 <= va' < USERTOP ->
    translate (k_mem s) root va = Some pte -> translate (k_mem s) root va' = Some pte' ->
    frame pte = frame pte' -> va / PGSIZE = va' / PGSIZE
}.

Lemma user_pages_grown own own' s s' root l l' : grown own own' s s' root l l' ->
  user_pages own s root l -> user_pages own' s' root l'.
Proof.
  intros G [U1 U2]. split.
  - intros va pte Hva Ht. rewrite (gr_translate _ _ _ _ _ _ _ G va Hva) in Ht.
    destruct (U1 va pte Hva Ht) as (Hp & Ho & Hl). split_and!; [done| |].
    + destruct (own' !! frame pte) as [p|] eqn:E; [|done]. exfalso.
      destruct (gr_new _ _ _ _ _ _ _ G (frame pte)) as [[p' E']|[? _]]; [by exists p|congruence|done].
    + intros H. apply Hl. by apply (gr_free _ _ _ _ _ _ _ G).
  - intros va va' pte pte' Hva Hva'. rewrite !(gr_translate _ _ _ _ _ _ _ G) by done. by apply U2.
Qed.

Lemma mod_in_page p va : in_page p (p + va mod PGSIZE).
Proof. unfold in_page, PGSIZE. pose proof (Z.mod_pos_bound va 4096). lia. Qed.

Lemma ubyte_grown own own' s s' root l l' va : grown own own' s s' root l l' ->
  user_pages own s root l -> vm_ready own' s' root l' -> 0 <= va < USERTOP ->
  ubyte (k_mem s') root va = ubyte (k_mem s) root va.
Proof.
  intros G U V Hva. unfold ubyte. rewrite (gr_translate _ _ _ _ _ _ _ G) by done.
  destruct (translate (k_mem s) root va) as [pte|] eqn:Ht; [|done]. f_equal.
  destruct (us_page _ _ _ _ (user_pages_grown _ _ _ _ _ _ _ G U) va pte Hva) as (Hp & Ho & _).
  { by rewrite (gr_translate _ _ _ _ _ _ _ G). }
  apply (gr_mem _ _ _ _ _ _ _ G). intros t [p Hto] Hin.
  eapply (not_in_page t (frame pte)); [by apply (pt_page _ _ _ (vr_pt _ _ _ _ V) t p)|done|congruence|done|].
  apply mod_in_page.
Qed.

Lemma mappages_one root va pa perm s : 0 <= va < USERTOP -> va mod 4096 = 0 ->
  mappages root va PGSIZE pa perm s = mappages_loop 1 root va va pa perm s.
Proof.
  unfold USERTOP. intros Hva Ha. unfold mappages, PGSIZE. rewrite !PGROUNDDOWN_eq by word_lia.
  rewrite (u64_small (va + 4096 - 1)) by lia.
  replace (va / 4096 * 4096) with va by (Z.div_mod_to_equations; lia).
  replace ((va + 4096 - 1) / 4096 * 4096) with va by (Z.div_mod_to_equations; lia).
  by rewrite Z.sub_diag.
Qed.

Lemma leaf_present m root va pt : descend m root (path va) = Some pt ->
  present (load64 m (entry pt (PTX va))) = if translate m root va then true else false.
Proof. intros Hd. unfold translate, leaf. rewrite Hd. by destruct (present _). Qed.

Lemma mappages_remap own s root l va pa perm pte : vm_ready own s root l -> 0 <= va < USERTOP ->
  va mod 4096 = 0 -> (3 <= length l)%nat -> translate (k_mem s) root va = Some pte ->
  exists s', mappages root va PGSIZE pa perm s = Panic "remap" s'.
Proof.
  intros Hs Hva Ha Hl Ht. rewrite mappages_one by done.
  destruct (walkpgdir_run own s root l va Hs Hva Hl) as (pt & o & s1 & l1 & E & _ & G & _ & Hd & _).
  cbn [mappages_loop]. rewrite (bind_Ret _ _ _ _ _ E). unfold ld64. rewrite bind_gets.
  rewrite (leaf_present _ _ _ _ Hd), (gr_translate _ _ _ _ _ _ _ G), Ht by done. by eexists.
Qed.

(** What mapping the page [p] at [va] changes. *)
Record mapped (own own' : gmap Z (list Z)) (s s' : kstate) (root va p perm : Z) (l l' : list Z) : Prop := Mapped {
  mp_ready : vm_ready own' s' root l';
  mp_users : user_pages own' s' root l';
  mp_here : translate (k_mem s') root va = Some (Z.lor (Z.lor (V2P p) perm) PTE_P);
  mp_there : forall va', 0 <= va' < USERTOP -> va' / 4096 <> va / 4096 ->
    translate (k_mem s') root va' = translate (k_mem s) root va' /\
    ubyte (k_mem s') root va' = ubyte (k_mem s) root va';
  mp_page : forall x, in_page p x -> k_mem s' x = k_mem s x;
  mp_new : forall x, is_Some (own' !! x) -> is_Some (own !! x) \/ x ∈ l;
  mp_frame : mem_only s s';
  mp_own : own ⊆ own';
  mp_mem : forall x, (forall t, is_Some (own' !! t) -> ~ in_page t x) -> k_mem s' x = k_mem s x;
  mp_free : l' ⊆ l;
  mp_taken : forall x, x ∈ l -> x ∈ l' \/ is_Some (own' !! x);
  mp_count : (length l <= 3 + length l')%nat
}.

Section MapOne.
Context (own : gmap Z (list Z)) (s : kstate) (root va p perm : Z) (l : list Z).
Context (Hs : vm_ready own s root l) (Hu : user_pages own s root l).
Context (Hva : 0 <= va < USERTOP) (Hn : translate (k_mem s) root va = None).
Context (Hp : page_ok p) (Hpo : own !! p = None) (Hpl : p ∉ l).
Context (Hpu : forall va' pte, 0 <= va' < USERTOP -> translate (k_mem s) root va' = Some pte -> frame pte <> p).
Context (Hperm : 0 <= perm < 4096).

Lemma leaf_pte : let v := Z.lor (Z.lor (V2P p) perm) PTE_P in
  0 <= v < 18446744073709551616 /\ present v = true /\ frame v = p /\ PTE_FLAGS v = Z.lor perm PTE_P.
Proof.
  destruct (page_phys p Hp) as (E & Hr & Hm). unfold PHYSTOP in Hr.
  destruct (pte_make (V2P p) perm) as (H1 & H2 & H3 & H4); [done|lia|lia|done|].
  split_and!; [lia..|done| |done]. unfold frame, P2V. rewrite H3, u64_small; unfold KERNBASE in *; lia.
Qed.

(** The state walkpgdir leaves, with the leaf entry of [va] then set. *)
Context (own' : gmap Z (list Z)) (s' : kstate) (l' : list Z) (pt : Z).
Context (Hs' : vm_ready own' s' root l') (G : grown own own' s s' root l l').
Context (Hpt : own' !! pt = Some (path va)) (Hd : descend (k_mem s') root (path va) = Some pt).

Let v : Z := Z.lor (Z.lor (V2P p) perm) PTE_P.
Let m' : mem := set_leaf (k_mem s') pt (PTX va) v.

Lemma mo_own : own' !! p = None.
Proof.
  destruct (own' !! p) eqn:E; [|done].
  by destruct (gr_new _ _ _ _ _ _ _ G p) as [[? ?]|[? _]]; [|congruence|].
Qed.

Lemma mo_here va' : va' / 4096 = va / 4096 -> translate m' root va' = Some v.
Proof.
  intros E. rewrite (translate_page _ _ _ _ E). destruct leaf_pte as (Lv & Lp & _).
  unfold m'. rewrite (set_leaf_same own' (k_mem s') root pt (path va) (PTX va) v (vr_pt _ _ _ _ Hs') Hpt
    eq_refl (idx_range va 12) Lv va Hva eq_refl eq_refl Hd). unfold v. by rewrite Lp.
Qed.

Lemma mo_there va' : 0 <= va' < USERTOP -> va' / 4096 <> va / 4096 ->
  translate m' root va' = translate (k_mem s') root va'.
Proof.
  intros Hva' Hne.
  by apply (set_leaf_other own' (k_mem s') root pt (path va) (PTX va) v (vr_pt _ _ _ _ Hs') Hpt eq_refl
    (idx_range va 12) va va').
Qed.

Lemma mo_cases va' pte : 0 <= va' < USERTOP -> translate m' root va' = Some pte ->
  (va' / 4096 = va / 4096 /\ frame pte = p) \/
  (va' / 4096 <> va / 4096 /\ translate (k_mem s') root va' = Some pte /\ frame pte <> p).
Proof.
  intros Hva' Ht. destruct (Z.eq_dec (va' / 4096) (va / 4096)) as [E|Hne].
  - left. rewrite mo_here in Ht by done. injection Ht as <-. split; [done|]. apply leaf_pte.
  - right. rewrite mo_there in Ht by done. split_and!; [done|done|].
    apply (Hpu va'); [done|]. by rewrite <- (gr_translate _ _ _ _ _ _ _ G).
Qed.

Lemma mo_users : user_pages own' (set_k_mem m' s') root l'.
Proof.
  pose proof (user_pages_grown _ _ _ _ _ _ _ G Hu) as [U1 U2]. split; simpl.
  - intros va' pte Hva' [[_ ->]|(_ & Ht & _)]%mo_cases; [| |done]; [|by apply (U1 va')].
    split_and!; [done|apply mo_own|]. intros H. by apply Hpl, (gr_free _ _ _ _ _ _ _ G).
  - intros va1 va2 pte1 pte2 H1 H2 Ht1 Ht2 Hf.
    apply mo_cases in Ht1 as [[E1 F1]|(N1 & T1 & F1)]; [| |done];
      apply mo_cases in Ht2 as [[E2 F2]|(N2 & T2 & F2)]; try done; unfold PGSIZE in *;
      [congruence|congruence|congruence|]. by apply (U2 va1 va2 pte1 pte2).
Qed.

Lemma mo_page : page_ok pt.
Proof. by apply (pt_page _ _ _ (vr_pt _ _ _ _ Hs') pt (path va)). Qed.

Lemma mo_mem u x : page_ok u -> own' !! u = None -> in_page u x -> m' x = k_mem s' x.
Proof.
  intros Hpu' Ho Hx. apply set_leaf_out; [apply idx_range|].
  apply (not_in_page u); [done|apply mo_page|congruence|done].
Qed.

Lemma mo_ready : vm_ready own' (set_k_mem m' s') root l'.
Proof.
  destruct Hs' as [Hok Hl Hr Hf], leaf_pte as (Lv & _). split; [|  |exact Hr|exact Hf].
  - by apply (set_leaf_ok own' (k_mem s') root pt (path va) (PTX va) v Hok Hpt eq_refl (idx_range va 12)).
  - apply free_pages_mem; [done|apply store_le_bytes, Hl|]. intros u x Hul Hx.
    pose proof (fp_pages _ _ Hl) as Hps. rewrite Forall_forall in Hps. apply (mo_mem u); auto.
Qed.

Lemma mo_ubyte va' : 0 <= va' < USERTOP -> va' / 4096 <> va / 4096 ->
  ubyte m' root va' = ubyte (k_mem s) root va'.
Proof.
  intros Hva' Hne. rewrite <- (ubyte_grown _ _ _ _ _ _ _ va' G Hu Hs' Hva'). unfold ubyte.
  rewrite mo_there by done. destruct (translate (k_mem s') root va') as [pte|] eqn:Ht; [|done]. f_equal.
  pose proof (user_pages_grown _ _ _ _ _ _ _ G Hu) as [U1 _].
  destruct (U1 va' pte Hva' Ht) as (? & ? & _). apply (mo_mem (frame pte)); [done|done|apply mod_in_page].
Qed.

Lemma mo_mapped : (length l <= 3 + length l')%nat ->
  mapped own own' s (set_k_mem m' s') root va p perm l l'.
Proof.
  intros Hc. split; [apply mo_ready|apply mo_users|by apply mo_here| | | | |apply G| |apply G|apply G|done].
  - intros va' Hva' Hne. split; [|by apply mo_ubyte]. simpl. rewrite mo_there by done.
    by apply (gr_translate _ _ _ _ _ _ _ G).
  - intros x Hx. simpl. rewrite (mo_mem p) by (done || apply mo_own).
    apply (gr_mem _ _ _ _ _ _ _ G). intros t [pp Ht] Hin.
    apply (not_in_page t p x); [by apply (pt_page _ _ _ (vr_pt _ _ _ _ Hs') t pp)|done| |done|done].
    intros ->. by rewrite mo_own in Ht.
  - intros x Hx. apply (gr_new _ _ _ _ _ _ _ G) in Hx. tauto.
  - eapply mem_only_trans; [apply G|apply mem_only_mem].
  - intros x Hx. cbn [k_mem set_k_mem]. unfold m'. rewrite set_leaf_out; [by apply (gr_mem _ _ _ _ _ _ _ G)|apply idx_range|].
    apply Hx. by exists (path va).
Qed.

End MapOne.

Lemma mappages_maps own s root va p perm l :
  vm_ready own s root l -> user_pages own s root l -> 0 <= va < USERTOP -> va mod 4096 = 0 ->
  translate (k_mem s) root va = None -> page_ok p -> own !! p = None -> p ∉ l ->
  (forall va' pte, 0 <= va' < USERTOP -> translate (k_mem s) root va' = Some pte -> frame pte <> p) ->
  0 <= perm < 4096 -> (3 <= length l)%nat ->
  exists own' s' l', mappages root va PGSIZE (V2P p) perm s = Ret 0 s' /\
    mapped own own' s s' root va p perm l l'.
Proof.
  intros Hs Hu Hva Ha Hn Hp Hpo Hpl Hpu Hperm Hl. rewrite mappages_one by done.
  destruct (walkpgdir_run own s root l va Hs Hva Hl) as (pt & own' & s1 & l1 & E & Hs' & G & Hpt & Hd & Hc).
  eexists own', _, l1. split; [|eapply mo_mapped; eassumption].
  cbn [mappages_loop]. rewrite (bind_Ret _ _ _ _ _ E). unfold ld64, st64.
  rewrite bind_gets, (leaf_present _ _ _ _ Hd), (gr_translate _ _ _ _ _ _ _ G), Hn, bind_modify by done.
  by rewrite Z.eqb_refl.
Qed.

(** Memory outside the tables may change freely. *)
Lemma table_ext own m m' root : pt_ok own m root ->
  (forall t x, is_Some (own !! t) -> in_page t x -> m' x = m x) ->
  pt_ok own m' root /\ (forall va, 0 <= va < USERTOP -> translate m' root va = translate m root va) /\
  (forall va, 0 <= va < USERTOP -> walk m' root va = walk m root va).
Proof.
  intros Hok Hm.
  assert (forall u p k, own !! u = Some p -> 0 <= k < 512 -> load64 m' (entry u k) = load64 m (entry u k)) as Hld.
  { intros u p k Hu Hk. apply load64_other. intros x Hx. apply (Hm u); [by exists p|].
    by apply (entry_in_page u k). }
  assert (forall u p k, own !! u = Some p -> idx_ok p k -> next_tbl m' u k = next_tbl m u k) as Hnx.
  { intros u p k Hu [Hk _]. unfold next_tbl. by rewrite (Hld u p k). }
  assert (forall ix p u, (length p + length ix <= 3)%nat -> own !! u = Some p -> idxs_ok p ix -> descend m' u ix = descend m u ix) as Hdesc'.
  { induction ix as [|i ix IH]; intros p u Hl Hu Hix; simpl in *; [done|]. destruct Hix as [Hi Hix].
    rewrite (Hnx u p i) by done. destruct (next_tbl m u i) as [u'|] eqn:En; [|done].
    apply (IH (p ++ [i])); [rewrite length_app; simpl; lia| |done].
    apply (pt_next _ _ _ Hok u p i u'); [done|lia|done|done]. }
  split.
  - split; [apply Hok|apply (pt_page _ _ _ Hok)| |].
    + intros t p i t' Ht Hl Hi. rewrite (Hnx t p i) by done. by apply (pt_next _ _ _ Hok).
    + intros t p Ht. destruct (pt_linked _ _ _ Hok t p Ht) as (L1 & L2 & L3). split_and!; [done|done|].
      by rewrite (Hdesc' p [] root) by (done || apply Hok).
  - assert (forall va, 0 <= va < USERTOP -> descend m' root (path va) = descend m root (path va)) as Hdesc
      by (intros va Hva; apply (Hdesc' _ []); [done|apply Hok|by apply path_idxs_ok]).
    split; intros va Hva; unfold translate, leaf, walk; rewrite (Hdesc va Hva); [|done].
    destruct (descend m root (path va)) as [t|] eqn:Hd; [|done].
    apply (descend_own own m root _ _ [] _ Hok (pt_root _ _ _ Hok)) in Hd; [|done|by apply path_idxs_ok].
    by rewrite (Hld t _ (PTX va) Hd (idx_range va 12)).
Qed.

(** A fresh page, with whatever is then stored in it. *)
Lemma taken_page own s root q l m : vm_ready own s root (q :: l) -> user_pages own s root (q :: l) ->
  bytes_ok m -> (forall x, ~ in_page q x -> m x = k_mem s x) ->
  let s1 := set_k_mem m (kalloced q s) in
  (kalloc s = Ret q (kalloced q s) /\ q <> 0) /\
  vm_ready own s1 root l /\ user_pages own s1 root l /\
  page_ok q /\ own !! q = None /\ q ∉ l /\
  (forall va pte, 0 <= va < USERTOP -> translate (k_mem s1) root va = Some pte -> frame pte <> q) /\
  (forall va, 0 <= va < USERTOP -> translate (k_mem s1) root va = translate (k_mem s) root va /\
     ubyte (k_mem s1) root va = ubyte (k_mem s) root va) /\ mem_only s s1.
Proof.
  intros [Hok Hl Hr Hf] [U1 U2] Hb Hout s1.
  pose proof (fp_nodup _ _ Hl) as [Hqn _]%NoDup_cons. pose proof (fp_pages _ _ Hl) as [Hq Hpl]%Forall_cons_1.
  assert (own !! q = None) as Hqo by (apply Hf; by left).
  destruct (table_ext own (k_mem s) (k_mem s1) root Hok) as (Hok1 & Htr & _).
  { intros t x [p Ht] Hx. apply Hout. apply (not_in_page t); [by apply (pt_page _ _ _ Hok t p)|done|congruence|done]. }
  split_and!; [|by destruct Hq as (_ & _ & _ & ?); lia| | |done|done|done| | |].
  - apply kalloc_run; [apply (fp_linked _ _ Hl)|destruct Hq as (_ & _ & _ & ?); lia|done].
  - split; [done| |by apply kalloced_ready|].
    + apply free_pages_mem; [by apply free_pages_alloced|done|].
      intros p x Hp Hx. rewrite kalloced_mem. apply Hout. rewrite Forall_forall in Hpl.
      apply (not_in_page p); [by apply Hpl|done|congruence|done].
    + intros x Hx. apply Hf. by right.
  - split.
    + intros va pte Hva. rewrite Htr by done. intros (? & ? & ?)%U1; [|done]. set_solver.
    + intros va va' pte pte' Hva Hva'. rewrite !Htr by done. by apply U2.
  - intros va pte Hva. rewrite Htr by done. intros (_ & _ & Hn)%U1; [|done]. set_solver.
  - intros va Hva. split; [by apply Htr|]. unfold ubyte. rewrite Htr by done.
    destruct (translate (k_mem s) root va) as [pte|] eqn:Ht; [|done]. f_equal.
    destruct (U1 va pte Hva Ht) as (? & _ & Hn). apply Hout.
    apply (not_in_page (frame pte)); [done|done|set_solver|apply mod_in_page].
  - eapply mem_only_trans; [apply mem_only_kalloced|apply mem_only_mem].
Qed.

Lemma zero_page_mem m q x : memset m q 0 PGSIZE x = if in_range q PGSIZE x then 0 else m x.
Proof. by rewrite memset_fill. Qed.

(** A fresh zeroed page. *)
Lemma zeroed_page own s root q l : vm_ready own s root (q :: l) -> user_pages own s root (q :: l) ->
  let s1 := set_k_mem (memset (k_mem s) q 0 PGSIZE) (kalloced q s) in
  (kalloc s = Ret q (kalloced q s) /\ q <> 0) /\
  vm_ready own s1 root l /\ user_pages own s1 root l /\
  page_ok q /\ own !! q = None /\ q ∉ l /\
  (forall va pte, 0 <= va < USERTOP -> translate (k_mem s1) root va = Some pte -> frame pte <> q) /\
  (forall va, 0 <= va < USERTOP -> translate (k_mem s1) root va = translate (k_mem s) root va /\
     ubyte (k_mem s1) root va = ubyte (k_mem s) root va) /\
  (forall x, in_page q x -> k_mem s1 x = 0) /\ mem_only s s1.
Proof.
  intros Hs Hu s1. destruct (taken_page own s root q l (memset (k_mem s) q 0 PGSIZE) Hs Hu) as (K & H1 & H2 & H3 & H4 & H5 & H6 & H7 & H8).
  - apply memset_bytes; [apply Hs|done].
  - intros x Hx. rewrite zero_page_mem. destruct (in_range q PGSIZE x) eqn:E; [|done]. by apply in_range_spec in E.
  - split_and!; try done; [apply K|apply K|]. intros x Hx. cbn. rewrite zero_page_mem. by rewrite (proj2 (in_range_spec _ _ _)).
Qed.

(** The [n] pages from [a] on have become zeroed user pages. *)
Record allocated (own own' : gmap Z (list Z)) (s s' : kstate) (root a n : Z) (l l' : list Z) : Prop := Allocated {
  al_ready : vm_ready own' s' root l';
  al_users : user_pages own' s' root l';
  al_in : forall va, a <= va < a + PGSIZE * n ->
    ubyte (k_mem s') root va = Some 0 /\
    exists pte, translate (k_mem s') root va = Some pte /\ PTE_FLAGS pte = Z.lor (Z.lor PTE_W PTE_U) PTE_P;
  al_out : forall va, 0 <= va < USERTOP -> ~ (a <= va < a + PGSIZE * n) ->
    translate (k_mem s') root va = translate (k_mem s) root va /\
    ubyte (k_mem s') root va = ubyte (k_mem s) root va;
  al_frame : mem_only s s';
  al_free : l' ⊆ l
}.

Lemma allocated_nil own s root a l : vm_ready own s root l -> user_pages own s root l ->
  allocated own own s s root a 0 l l.
Proof. split; auto using mem_only_refl. intros va. unfold PGSIZE. lia. Qed.

(** One round of the loop of allocuvm. *)
Lemma alloc_round own s root a q l : vm_ready own s root (q :: l) -> user_pages own s root (q :: l) ->
  0 <= a < USERTOP -> a mod 4096 = 0 -> translate (k_mem s) root a = None -> (3 <= length l)%nat ->
  exists own' s' l',
    (mem <- kalloc;; zero_page mem;;; mappages root a PGSIZE (V2P mem) (Z.lor PTE_W PTE_U)) s = Ret 0 s' /\
    kalloc s = Ret q (kalloced q s) /\ q <> 0 /\
    allocated own own' s s' root a 1 (q :: l) l' /\ (length l <= 3 + length l')%nat.
Proof.
  intros Hs Hu Ha Hm Hn Hl.
  destruct (zeroed_page own s root q l Hs Hu) as ([E Hq0] & Hs1 & Hu1 & Hq & Hqo & Hql & Hqu & Hsame & Hz & Hf).
  set (s1 := set_k_mem (memset (k_mem s) q 0 PGSIZE) (kalloced q s)) in *.
  destruct (mappages_maps own s1 root a q (Z.lor PTE_W PTE_U) l) as (own' & s' & l' & Em & M); try done.
  { by rewrite (proj1 (Hsame a Ha)). }
  exists own', s', l'. split.
  { mret E. unfold zero_page. rewrite bind_modify. unfold upd_mem. rewrite kalloced_mem. exact Em. }
  split; [done|]. split; [done|]. split; [|apply M]. unfold PGSIZE in *.
  assert (forall va, a <= va < a + 4096 * 1 -> translate (k_mem s') root va
    = Some (Z.lor (Z.lor (V2P q) (Z.lor PTE_W PTE_U)) PTE_P)) as Hin.
  { intros va Hva. rewrite (translate_page _ _ va a); [apply M|]. Z.div_mod_to_equations. lia. }
  destruct (leaf_pte q (Z.lor PTE_W PTE_U)) as (_ & _ & Lf & Lfl); [done..|]. split; try apply M.
  - intros va Hva. split; [|by eexists; split; [apply Hin|]]. unfold ubyte. rewrite (Hin va Hva), Lf. f_equal.
    rewrite (mp_page _ _ _ _ _ _ _ _ _ _ M) by apply mod_in_page. apply Hz, mod_in_page.
  - intros va Hva Hout. destruct (mp_there _ _ _ _ _ _ _ _ _ _ M va Hva) as [E1 E2].
    + unfold PGSIZE in Hout. Z.div_mod_to_equations. lia.
    + rewrite E1, E2. by apply Hsame.
  - eapply mem_only_trans; [exact Hf|apply M].
  - pose proof (mp_free _ _ _ _ _ _ _ _ _ _ M). set_solver.
Qed.

Lemma allocated_cons o1 o2 o3 s1 s2 s3 root a n l1 l2 l3 : 0 <= a -> 0 <= n ->
  a + PGSIZE * (n + 1) <= USERTOP ->
  allocated o1 o2 s1 s2 root a 1 l1 l2 -> allocated o2 o3 s2 s3 root (a + PGSIZE) n l2 l3 ->
  allocated o1 o3 s1 s3 root a (n + 1) l1 l3.
Proof.
  intros Ha Hn Ht [A1 A2 A3 A4 A5 A6] [B1 B2 B3 B4 B5 B6]. split; try done; unfold PGSIZE in *.
  - intros va Hva. destruct (Z_lt_dec va (a + 4096)).
    + destruct (B4 va) as [-> ->]; [lia..|]. apply A3. lia.
    + apply B3. lia.
  - intros va Hva Hout. destruct (B4 va) as [-> ->]; [lia..|]. apply A4; lia.
  - by eapply mem_only_trans.
  - set_solver.
Qed.

Lemma allocuvm_loop_run root oldsz newsz n fuel own s a l : (n < fuel)%nat ->
  vm_ready own s root l -> user_pages own s root l -> 0 <= a -> a mod 4096 = 0 ->
  Z.of_nat n = (newsz - a + 4095) / 4096 -> newsz <= USERTOP -> (4 * n <= length l)%nat ->
  (forall va, a <= va < a + 4096 * Z.of_nat n -> translate (k_mem s) root va = None) ->
  exists own' s' l', allocuvm_loop fuel root a oldsz newsz s = Ret newsz s' /\
    allocated own own' s s' root a (Z.of_nat n) l l'.
Proof.
  revert fuel own s a l. induction n as [|n IH]; intros fuel own s a l Hfuel Hs Hu Ha Hm Hn Ht Hl Hnone;
    (destruct fuel as [|fuel]; [lia|]); cbn [allocuvm_loop].
  - destruct (Z.ltb_spec a newsz); [Z.div_mod_to_equations; lia|].
    exists own, s, l. split; [done|by apply allocated_nil].
  - destruct (Z.ltb_spec a newsz); [|Z.div_mod_to_equations; lia].
    destruct l as [|q l]; [simpl in Hl; lia|]. simpl in Hl.
    destruct (alloc_round own s root a q l Hs Hu) as (o1 & s1 & l1 & E & Eq & Hq & A & Hc);
      [lia|done|apply Hnone; lia|lia|].
    rewrite (bind_Ret _ _ _ _ _ Eq) in E. mret Eq. destruct (Z.eqb_spec q 0); [done|].
    rewrite (bind_Ret (zero_page q) _ _ tt _ eq_refl) in E.
    rewrite (bind_Ret (zero_page q) _ _ tt _ eq_refl). mret E.
    cbn [Z.ltb Z.compare]. unfold USERTOP in Ht.
    rewrite (u64_small (a + PGSIZE)) by (unfold PGSIZE; lia).
    destruct (IH fuel o1 s1 (a + PGSIZE) l1) as (o2 & s2 & l2 & E2 & A2).
    + lia.
    + apply A.
    + apply A.
    + unfold PGSIZE; lia.
    + unfold PGSIZE. Z.div_mod_to_equations. lia.
    + unfold PGSIZE. Z.div_mod_to_equations. lia.
    + done.
    + lia.
    + unfold PGSIZE. intros va Hva. rewrite (proj1 (al_out _ _ _ _ _ _ _ _ _ A va ltac:(unfold USERTOP; Z.div_mod_to_equations; lia)
        ltac:(unfold PGSIZE; lia))). apply Hnone. lia.
    + exists o2, s2, l2. split; [exact E2|]. rewrite Nat2Z.inj_succ.
      apply (allocated_cons _ o1 _ _ s1 _ _ _ _ _ l1); [lia|lia| |done|done].
      unfold USERTOP, PGSIZE. Z.div_mod_to_equations. lia.
Qed.

(** ** copyout *)

Definition user_pte (m : mem) (root va : Z) : option Z :=
  match translate m root va with
  | Some pte => if Z.land pte PTE_U =? 0 then None else Some pte
  | None => None
  end.

Lemma walk_translate m root va a : walk m root va = Some a ->
  translate m root va = if present (load64 m a) then Some (load64 m a) else None.
Proof.
  unfold walk, translate, leaf. destruct (descend m root (path va)); [|done]. by intros [= <-].
Qed.

Lemma uva2ka_run root va s a : walk (k_mem s) root va = Some a ->
  uva2ka root va s = Ret (match user_pte (k_mem s) root va with Some pte => frame pte | None => 0 end) s.
Proof.
  intros Ha. unfold uva2ka, user_pte. mret (walkpgdir_lookup root va s). rewrite Ha. unfold ld64.
  rewrite bind_gets, (walk_translate _ _ _ _ Ha). unfold present.
  destruct (Z.land (load64 (k_mem s) a) PTE_P =? 0); cbn [negb]; [done|].
  by destruct (Z.land (load64 (k_mem s) a) PTE_U =? 0).
Qed.

Section CopyChunk.
Context (own : gmap Z (list Z)) (s : kstate) (root va : Z) (l b : list Z) (pte : Z).
Context (Hok : pt_ok own (k_mem s) root) (Hu : user_pages own s root l).
Context (Hva : 0 <= va < USERTOP) (Ht : translate (k_mem s) root va = Some pte).
Context (Hb : va mod PGSIZE + Z.of_nat (length b) <= PGSIZE).

(** The state after a chunk [b] that stays within the page of [va]. *)
Let s' : kstate := upd_mem (at_list (frame pte + va mod PGSIZE) b) s.

Lemma chunk_out x : ~ in_page (frame pte) x -> k_mem s' x = k_mem s x.
Proof.
  intros Hx. apply at_list_out. unfold in_page, PGSIZE in *. pose proof (Z.mod_pos_bound va 4096). lia.
Qed.

Lemma chunk_tables : pt_ok own (k_mem s') root /\
  (forall va', 0 <= va' < USERTOP -> translate (k_mem s') root va' = translate (k_mem s) root va') /\
  (forall va', 0 <= va' < USERTOP -> walk (k_mem s') root va' = walk (k_mem s) root va').
Proof.
  apply table_ext; [done|]. intros t x [p Hto] Hx. apply chunk_out.
  destruct (us_page _ _ _ _ Hu va pte Hva Ht) as (? & ? & _).
  apply (not_in_page t); [by apply (pt_page _ _ _ Hok t p)|done|congruence|done].
Qed.

Lemma chunk_users : user_pages own s' root l.
Proof.
  destruct chunk_tables as (_ & T & _), Hu as [U1 U2]. split.
  - intros va' pte' Hva'. rewrite T by done. by apply U1.
  - intros v1 v2 p1 p2 H1 H2. rewrite !T by done. by apply U2.
Qed.

Lemma chunk_ubyte va' : 0 <= va' < USERTOP ->
  ubyte (k_mem s') root va' =
    if in_range va (Z.of_nat (length b)) va' then b !! Z.to_nat (va' - va) else ubyte (k_mem s) root va'.
Proof.
  intros Hva'. unfold ubyte. rewrite (proj1 (proj2 chunk_tables) va' Hva').
  destruct (in_range va (Z.of_nat (length b)) va') eqn:Er.
  - apply in_range_spec in Er. assert (va' / 4096 = va / 4096) as Ep
      by (unfold PGSIZE in *; Z.div_mod_to_equations; lia).
    rewrite (translate_page _ _ _ _ Ep), Ht.
    assert (va' mod PGSIZE = va mod PGSIZE + (va' - va)) as ->
      by (unfold PGSIZE; Z.div_mod_to_equations; lia).
    change (k_mem s') with (at_list (frame pte + va mod PGSIZE) b (k_mem s)).
    rewrite at_list_in by lia. f_equal. lia.
  - destruct (translate (k_mem s) root va') as [pte'|] eqn:Ht'; [|done]. f_equal.
    assert (~ va <= va' < va + Z.of_nat (length b)) as Hr by (rewrite <- in_range_spec, Er; done).
    destruct (decide (frame pte' = frame pte)) as [Ef|Hne].
    + apply at_list_out. pose proof (us_inj _ _ _ _ Hu va' va pte' pte Hva' Hva Ht' Ht Ef) as Ep.
      rewrite Ef. unfold PGSIZE in *. Z.div_mod_to_equations. lia.
    + apply chunk_out. destruct (us_page _ _ _ _ Hu va pte Hva Ht) as (? & _).
      destruct (us_page _ _ _ _ Hu va' pte' Hva' Ht') as (? & _).
      apply (not_in_page (frame pte')); [done..|apply mod_in_page].
Qed.

End CopyChunk.

(** The first [k] bytes of [b] have been stored at [va]. *)
Record copied_to (own : gmap Z (list Z)) (s s' : kstate) (root va : Z) (l b : list Z) (k : nat) : Prop := Copied_to {
  ct_pt : pt_ok own (k_mem s') root;
  ct_users : user_pages own s' root l;
  ct_translate : forall va', 0 <= va' < USERTOP -> translate (k_mem s') root va' = translate (k_mem s) root va';
  ct_walk : forall va', 0 <= va' < USERTOP -> walk (k_mem s') root va' = walk (k_mem s) root va';
  ct_ubyte : forall va', 0 <= va' < USERTOP ->
    ubyte (k_mem s') root va' =
      if in_range va (Z.of_nat k) va' then b !! Z.to_nat (va' - va) else ubyte (k_mem s) root va';
  ct_frame : s' = set_k_mem (k_mem s') s
}.

Lemma copied_nil own s root va l b : pt_ok own (k_mem s) root -> user_pages own s root l ->
  copied_to own s s root va l b 0.
Proof.
  split; try done.
  - intros va' Hva'. destruct (in_range va (Z.of_nat 0) va') eqn:E; [|done]. apply in_range_spec in E. lia.
  - by destruct s.
Qed.

Lemma copied_app own s s1 s2 root va l b n k : (n <= length b)%nat ->
  copied_to own s s1 root va l b n -> copied_to own s1 s2 root (va + Z.of_nat n) l (drop n b) k ->
  copied_to own s s2 root va l b (n + k).
Proof.
  intros Hn [A1 A2 A3 Aw A4 A5] [B1 B2 B3 Bw B4 B5]. split; try done.
  - intros va' Hva'. by rewrite B3, A3.
  - intros va' Hva'. by rewrite Bw, Aw.
  - intros va' Hva'. rewrite B4, A4 by done. rewrite lookup_drop. unfold in_range.
    repeat match goal with |- context [?x <=? ?y] => destruct (Z.leb_spec x y)
      | |- context [?x <? ?y] => destruct (Z.ltb_spec x y) end; simpl; try lia; try done; f_equal; lia.
  - rewrite B5, A5. done.
Qed.

Lemma copied_chunk own s root va l b n pte : pt_ok own (k_mem s) root -> user_pages own s root l ->
  0 <= va < USERTOP -> translate (k_mem s) root va = Some pte -> (0 < n <= length b)%nat ->
  va mod PGSIZE + Z.of_nat n <= PGSIZE ->
  copied_to own s (upd_mem (at_list (frame pte + va mod PGSIZE) (take n b)) s) root va l b n.
Proof.
  intros Hok Hu Hva Ht Hn Hp. assert (length (take n b) = n) as Hl by (rewrite length_take; lia).
  assert (va mod PGSIZE + Z.of_nat (length (take n b)) <= PGSIZE) as Hp' by (by rewrite Hl).
  destruct (chunk_tables own s root va l (take n b) pte Hok Hu Hva Ht Hp') as (T1 & T2 & T3).
  split; [done|by apply (chunk_users own)|done|done| |by destruct s].
  intros va' Hva'. rewrite (chunk_ubyte own s root va l) by done. rewrite Hl.
  destruct (in_range va (Z.of_nat n) va') eqn:Er; [|done]. apply in_range_spec in Er.
  rewrite lookup_take_lt by lia. done.
Qed.

Lemma walk_page m root va va' : va / 4096 = va' / 4096 -> walk m root va = walk m root va'.
Proof. intros [E1 E2]%translate_page_path. unfold walk. by rewrite E1, E2. Qed.

Lemma user_pte_page m root va va' : va / 4096 = va' / 4096 -> user_pte m root va = user_pte m root va'.
Proof. intros E. unfold user_pte. by rewrite (translate_page _ _ _ _ E). Qed.

Lemma copyout_loop_run own root l fuel b s va : (length b < fuel)%nat ->
  pt_ok own (k_mem s) root -> user_pages own s root l -> 0 <= va -> va + Z.of_nat (length b) <= USERTOP ->
  (forall x, va <= x < va + Z.of_nat (length b) -> is_Some (walk (k_mem s) root x)) ->
  exists r k s', copyout_loop fuel root va b s = Ret r s' /\ copied_to own s s' root va l b k /\
    ((r = 0 /\ k = length b) \/
     (r = -1 /\ (k < length b)%nat /\ user_pte (k_mem s) root (va + Z.of_nat k) = None)).
Proof.
  revert b s va. induction fuel as [|fuel IH]; intros b s va Hf Hok Hu Hva Htop Hw; [lia|].
  cbn [copyout_loop]. destruct (Nat.ltb_spec 0 (length b)) as [Hb|Hb].
  2: { exists 0, 0%nat, s. split; [done|]. split; [by apply copied_nil|]. left. split; [done|lia]. }
  unfold USERTOP in *. assert (PGROUNDDOWN va = va - va mod PGSIZE) as Er.
  { rewrite PGROUNDDOWN_eq by lia. unfold PGSIZE. Z.div_mod_to_equations. lia. }
  assert (PGROUNDDOWN va / 4096 = va / 4096) as Ep by (rewrite Er; unfold PGSIZE; Z.div_mod_to_equations; lia).
  destruct (Hw va ltac:(lia)) as [a Ha].
  mret (uva2ka_run root (PGROUNDDOWN va) s a ltac:(by rewrite (walk_page _ _ _ _ Ep))).
  rewrite (user_pte_page _ _ _ _ Ep). destruct (user_pte (k_mem s) root va) as [pte|] eqn:Ept.
  2: { exists (-1), 0%nat, s. split; [done|]. split; [by apply copied_nil|]. right. by rewrite Z.add_0_r. }
  assert (translate (k_mem s) root va = Some pte) as Ht.
  { unfold user_pte in Ept. destruct (translate (k_mem s) root va); [|done]. by destruct (_ =? 0). }
  destruct (us_page _ _ _ _ Hu va pte) as ((_ & _ & _ & Hp) & _); [unfold USERTOP; lia|done|].
  destruct (Z.eqb_spec (frame pte) 0) as [|_]; [lia|].
  replace (va - PGROUNDDOWN va) with (va mod PGSIZE) by lia.
  set (n := Z.min _ _). pose proof (Z.mod_pos_bound va 4096 ltac:(lia)) as Hm.
  assert (0 < n <= Z.of_nat (length b)) as Hn by (unfold n, PGSIZE; lia).
  pose proof (copied_chunk own s root va l b (Z.to_nat n) pte Hok Hu ltac:(unfold USERTOP; lia) Ht ltac:(lia)
    ltac:(unfold n, PGSIZE in *; lia)) as Hc.
  set (s1 := upd_mem _ s) in Hc. unfold put_bytes. rewrite bind_modify.
  change (upd_mem _ s) with s1.
  assert (va + n = va - va mod PGSIZE + PGSIZE \/ n = Z.of_nat (length b)) as Hnext by (unfold n; lia).
  destruct (IH (drop (Z.to_nat n) b) s1 (va + n)) as (r & k & s' & E & Hc' & Hr).
  - rewrite length_drop. lia.
  - apply Hc.
  - apply Hc.
  - lia.
  - rewrite length_drop. unfold USERTOP. lia.
  - rewrite length_drop. intros x Hx. rewrite (ct_walk _ _ _ _ _ _ _ _ Hc) by (unfold USERTOP; lia).
    apply Hw. lia.
  - assert (copyout_loop fuel root (u64 (PGROUNDDOWN va + PGSIZE)) (drop (Z.to_nat n) b) s1 = Ret r s') as E'.
    { destruct Hnext as [En|En].
      - rewrite Er, <- En, u64_small by (unfold USERTOP in *; lia). exact E.
      - destruct fuel as [|fuel']; [lia|]. cbn [copyout_loop] in *.
        replace (length (drop (Z.to_nat n) b)) with 0%nat in * by (rewrite length_drop; lia). exact E. }
    exists r, (Z.to_nat n + k)%nat, s'. split; [exact E'|]. split.
    { eapply copied_app; [lia|exact Hc|]. by rewrite Z2Nat.id by lia. }
    rewrite length_drop in Hr. destruct Hr as [[-> ->]|(-> & Hk & Hup)]; [left; lia|right].
    split_and!; [done|lia|]. unfold user_pte in *.
    rewrite (ct_translate _ _ _ _ _ _ _ _ Hc) in Hup by (unfold USERTOP; lia).
    by replace (va + Z.of_nat (Z.to_nat n + k)) with (va + n + Z.of_nat k) by lia.
Qed.

Lemma copied_re own s s' t t' root va l b k : copied_to own s s' root va l b k ->
  k_mem t = k_mem s -> k_mem t' = k_mem s' -> t' = set_k_mem (k_mem t') t -> copied_to own t t' root va l b k.
Proof.
  intros [C1 [U1 U2] C3 C4 C5 C6] E E' Ef.
  split; [by rewrite E'|by split; rewrite E'|by rewrite E, E'|by rewrite E, E'|by rewrite E, E'|done].
Qed.

Lemma store8_at_list m a b : 0 <= b < 256 -> store8 m a b = at_list a [b] m.
Proof.
  intros Hb. apply functional_extensionality. intros x. unfold store8.
  destruct (Z.eqb_spec x a) as [-> |Hne].
  - pose proof (at_list_in a [b] m a ltac:(simpl; lia)) as E. rewrite Z.sub_diag in E. injection E as ->. word_lia.
  - symmetry. apply at_list_out. simpl. lia.
Qed.

Lemma ustore_run i va b s pte : cpu_proc (k_cpu s) = Some i -> va < USERTOP -> 0 <= b < 256 ->
  translate (k_mem s) (p_pgdir (proc_at i s)) va = Some pte ->
  ustore va b s = Ret tt (upd_mem (at_list (frame pte + va mod PGSIZE) [b]) s).
Proof.
  intros Hp Hv Hb Ht. unfold ustore, user_addr. rewrite (proj2 (Z.ltb_lt _ _) Hv), (cur_pgdir_at i s Hp), Ht.
  unfold upd_mem. by rewrite store8_at_list.
Qed.

(** ** deallocuvm *)

(** The pages of [a, a + n pages) are unmapped, their frames on the free list. *)
Record dealloced (own : gmap Z (list Z)) (s s' : kstate) (root a n : Z) (l l' : list Z) : Prop := Dealloced {
  de_ready : vm_ready own s' root l';
  de_users : user_pages own s' root l';
  de_in : forall va, a <= va < a + PGSIZE * n -> translate (k_mem s') root va = None;
  de_freed : forall va pte, a <= va < a + PGSIZE * n -> translate (k_mem s) root va = Some pte -> frame pte ∈ l';
  de_out : forall va, 0 <= va < USERTOP -> ~ (a <= va < a + PGSIZE * n) ->
    translate (k_mem s') root va = translate (k_mem s) root va /\
    ubyte (k_mem s') root va = ubyte (k_mem s) root va;
  de_frame : mem_only s s';
  de_free : l ⊆ l'
}.

Lemma mem_only_kfreed v s : mem_only s (kfreed v s).
Proof.
  unfold kfreed. eapply mem_only_trans; [|apply mem_only_quiet, quiet_mem_traced].
  unfold lock_sync. destruct (locking s); by split; simpl; auto.
Qed.

Section DeallocOne.
Context (own : gmap Z (list Z)) (s : kstate) (root va pte pt : Z) (l : list Z).
Context (Hs : vm_ready own s root l) (Hu : user_pages own s root l).
Context (Hva : 0 <= va < USERTOP) (Hm : va mod 4096 = 0).
Context (Ht : translate (k_mem s) root va = Some pte).
Context (Hd : descend (k_mem s) root (path va) = Some pt).

Let s1 : kstate := kfreed (frame pte) s.
Let m2 : mem := set_leaf (k_mem s1) pt (PTX va) 0.
Let s2 : kstate := set_k_mem m2 s1.

Lemma do_page : page_ok (frame pte) /\ own !! frame pte = None /\ frame pte ∉ l.
Proof. by apply (us_page _ _ _ _ Hu va). Qed.

Lemma do_out x : ~ in_page (frame pte) x -> k_mem s1 x = k_mem s x.
Proof. intros Hx. unfold s1. rewrite kfreed_mem. by apply freed_mem_out. Qed.

Lemma do_tables : pt_ok own (k_mem s1) root /\
  (forall va', 0 <= va' < USERTOP -> translate (k_mem s1) root va' = translate (k_mem s) root va') /\
  (forall va', 0 <= va' < USERTOP -> walk (k_mem s1) root va' = walk (k_mem s) root va').
Proof.
  destruct do_page as (Hp & Ho & _). apply table_ext; [apply Hs|]. intros t x [p Hto] Hx. apply do_out.
  apply (not_in_page t); [by apply (pt_page _ _ _ (vr_pt _ _ _ _ Hs) t p)|done|congruence|done].
Qed.

Lemma do_pt : own !! pt = Some (path va).
Proof.
  apply (descend_own own (k_mem s) root (path va) root [] pt (vr_pt _ _ _ _ Hs) (pt_root _ _ _ (vr_pt _ _ _ _ Hs)));
    [done|by apply path_idxs_ok|done].
Qed.

Lemma do_here va' : va' / 4096 = va / 4096 -> translate (k_mem s2) root va' = None.
Proof.
  intros E. rewrite (translate_page _ _ _ _ E). destruct do_tables as (Hok & _ & Hw).
  specialize (Hw va Hva). unfold walk in Hw. rewrite Hd in Hw.
  destruct (descend (k_mem s1) root (path va)) as [pt'|] eqn:Hd1; [|done].
  assert (pt' = pt) as -> by (unfold entry in Hw; injection Hw; lia).
  by apply (set_leaf_same own (k_mem s1) root pt (path va) (PTX va) 0 Hok do_pt eq_refl (idx_range va 12)
    ltac:(lia) va Hva).
Qed.

Lemma do_there va' : 0 <= va' < USERTOP -> va' / 4096 <> va / 4096 ->
  translate (k_mem s2) root va' = translate (k_mem s) root va'.
Proof.
  intros Hva' Hne. destruct do_tables as (Hok & Htr & _). rewrite <- Htr by done.
  by apply (set_leaf_other own (k_mem s1) root pt (path va) (PTX va) 0 Hok do_pt eq_refl
    (idx_range va 12) va va').
Qed.

Lemma do_mem u x : page_ok u -> own !! u = None -> in_page u x -> m2 x = k_mem s1 x.
Proof.
  intros Hpu' Ho Hx. apply set_leaf_out; [apply idx_range|].
  apply (not_in_page u); [done|by apply (pt_page _ _ _ (vr_pt _ _ _ _ Hs) pt (path va)), do_pt| |done].
  intros ->. by rewrite do_pt in Ho.
Qed.

Lemma do_case va' pte' : 0 <= va' < USERTOP -> translate (k_mem s2) root va' = Some pte' ->
  va' / 4096 <> va / 4096 /\ translate (k_mem s) root va' = Some pte' /\ frame pte' <> frame pte.
Proof.
  intros Hva' Ht'. destruct (Z.eq_dec (va' / 4096) (va / 4096)) as [E|Hne].
  { by rewrite do_here in Ht'. }
  rewrite do_there in Ht' by done. split_and!; [done|done|]. intros Ef. apply Hne.
  by apply (us_inj _ _ _ _ Hu va' va pte' pte).
Qed.

Lemma do_dealloced : dealloced own s s2 root va 1 l (frame pte :: l).
Proof.
  destruct do_page as (Hp & Ho & Hl), do_tables as (Hok & Htr & _). split.
  - split.
    + by apply (set_leaf_ok own (k_mem s1) root pt (path va) (PTX va) 0 Hok do_pt eq_refl (idx_range va 12)).
    + assert (free_pages s1 (frame pte :: l)) as Hf by (apply free_pages_freed; [done|done|apply Hs]).
      apply free_pages_mem; [done|apply store_le_bytes, Hf|]. intros u x Hul Hx.
      pose proof (fp_pages _ _ Hf) as Hps. rewrite Forall_forall in Hps.
      apply (do_mem u); [by apply Hps| |done]. apply elem_of_cons in Hul as [-> |Hul]; [done|].
      by apply (vr_fresh _ _ _ _ Hs).
    + by apply kfreed_ready, Hs.
    + intros x [-> |Hx]%elem_of_cons; [done|by apply (vr_fresh _ _ _ _ Hs)].
  - split.
    + intros va' pte' Hva' (_ & Ht' & Hne)%do_case; [|done].
      destruct (us_page _ _ _ _ Hu va' pte' Hva' Ht') as (? & ? & ?). set_solver.
    + intros v1 v2 p1 p2 H1 H2 (_ & T1 & _)%do_case (_ & T2 & _)%do_case Hf; [|done..].
      by apply (us_inj _ _ _ _ Hu v1 v2 p1 p2).
  - intros va' Hva'. apply do_here. unfold PGSIZE in *. Z.div_mod_to_equations. lia.
  - intros va' pte' Hva' Ht'. assert (va' / 4096 = va / 4096) as E by (unfold PGSIZE in *; Z.div_mod_to_equations; lia).
    rewrite (translate_page _ _ _ _ E), Ht in Ht'. simplify_eq. by left.
  - intros va' Hva' Hout. assert (va' / 4096 <> va / 4096) as Hne by (unfold PGSIZE in *; Z.div_mod_to_equations; lia).
    split; [by apply do_there|]. unfold ubyte. rewrite do_there by done.
    destruct (translate (k_mem s) root va') as [pte'|] eqn:Ht'; [|done]. f_equal.
    destruct (us_page _ _ _ _ Hu va' pte' Hva' Ht') as (Hp' & Ho' & _).
    change (k_mem s2) with m2. rewrite (do_mem (frame pte')) by (done || apply mod_in_page).
    apply do_out. apply (not_in_page (frame pte')); [done..| |apply mod_in_page].
    intros Ef. apply Hne. by apply (us_inj _ _ _ _ Hu va' va pte' pte).
  - eapply mem_only_trans; [apply mem_only_kfreed|apply mem_only_mem].
  - set_solver.
Qed.

End DeallocOne.

Lemma dealloced_nil own s root a n l : vm_ready own s root l -> user_pages own s root l ->
  (forall va, a <= va < a + PGSIZE * n -> translate (k_mem s) root va = None) ->
  dealloced own s s root a n l l.
Proof. intros Hs Hu Hn. split; auto using mem_only_refl. intros va pte Hva. by rewrite Hn. Qed.

Lemma dealloced_cons own s1 s2 s3 root a n l1 l2 l3 : 0 <= a -> 0 <= n ->
  a + PGSIZE * (n + 1) <= USERTOP ->
  dealloced own s1 s2 root a 1 l1 l2 -> dealloced own s2 s3 root (a + PGSIZE) n l2 l3 ->
  dealloced own s1 s3 root a (n + 1) l1 l3.
Proof.
  intros Ha Hn Ht [A1 A2 A3 Af A4 A5 A6] [B1 B2 B3 Bf B4 B5 B6]. split; try done; unfold PGSIZE in *.
  - intros va Hva. destruct (Z_lt_dec va (a + 4096)); [|apply B3; lia].
    destruct (B4 va) as [-> _]; [lia..|]. apply A3. lia.
  - intros va pte Hva E. destruct (Z_lt_dec va (a + 4096)); [apply B6, (Af va); [lia|done]|].
    apply (Bf va); [lia|]. destruct (A4 va) as [-> _]; [lia..|done].
  - intros va Hva Hout. destruct (B4 va) as [-> ->]; [lia..|]. apply A4; lia.
  - by eapply mem_only_trans.
  - set_solver.
Qed.

(** One round of the loop of deallocuvm. *)
Lemma dealloc_round own s root a l : vm_ready own s root l -> user_pages own s root l ->
  0 <= a < USERTOP -> a mod 4096 = 0 ->
  exists s' l', (pte <- walkpgdir root a false;;
    match pte with
    | None => ret tt
    | Some pte => v <- ld64 pte;;
       when present v do
         (let pa := PTE_ADDR v in if pa =? 0 then panic "kfree" else kfree (P2V pa);;; st64 pte 0)
    end) s = Ret tt s' /\ dealloced own s s' root a 1 l l'.
Proof.
  intros Hs Hu Ha Hm. mret (walkpgdir_lookup root a s).
  assert (translate (k_mem s) root a = None -> dealloced own s s root a 1 l l) as Hskip.
  { intros Hn. apply dealloced_nil; [done|done|]. intros va Hva. rewrite (translate_page _ _ va a); [done|].
    unfold PGSIZE in *. Z.div_mod_to_equations. lia. }
  destruct (walk (k_mem s) root a) as [e|] eqn:Hw.
  2: { exists s, l. split; [done|]. apply Hskip. unfold walk in Hw. unfold translate, leaf.
       by destruct (descend (k_mem s) root (path a)). }
  pose proof (walk_translate _ _ _ _ Hw) as Ht. unfold ld64. rewrite bind_gets.
  destruct (present (load64 (k_mem s) e)) eqn:Ep; [|exists s, l; auto].
  unfold walk in Hw. destruct (descend (k_mem s) root (path a)) as [pt|] eqn:Hd; [|done]. injection Hw as <-.
  set (pte := load64 (k_mem s) (entry pt (PTX a))) in *.
  destruct (us_page _ _ _ _ Hu a pte Ha Ht) as (Hp & _ & _).
  destruct (Z.eqb_spec (PTE_ADDR pte) 0) as [E0|_].
  { exfalso. destruct Hp as (_ & Hk & _). unfold frame in Hk. rewrite E0 in Hk.
    change (P2V 0) with KERNBASE in Hk. pose proof kernel_end_high. lia. }
  eexists _, (frame pte :: l). split; [|by apply (do_dealloced own s root a pte pt l)].
  mret (kfree_run (frame pte) s Hp (vr_alloc _ _ _ _ Hs)). done.
Qed.

Lemma deallocuvm_loop_run root oldsz n fuel own s a l : (n < fuel)%nat ->
  vm_ready own s root l -> user_pages own s root l -> 0 <= a -> a mod 4096 = 0 ->
  Z.of_nat n = (oldsz - a + 4095) / 4096 -> oldsz <= USERTOP ->
  exists s' l', deallocuvm_loop fuel root a oldsz s = Ret tt s' /\
    dealloced own s s' root a (Z.of_nat n) l l'.
Proof.
  revert fuel s a l. induction n as [|n IH]; intros fuel s a l Hfuel Hs Hu Ha Hm Hn Ht;
    (destruct fuel as [|fuel]; [lia|]); cbn [deallocuvm_loop].
  - destruct (Z.ltb_spec a oldsz); [Z.div_mod_to_equations; lia|].
    exists s, l. split; [done|]. apply dealloced_nil; [done|done|]. intros va. lia.
  - destruct (Z.ltb_spec a oldsz); [|Z.div_mod_to_equations; lia].
    destruct (dealloc_round own s root a l Hs Hu) as (s1 & l1 & E & D); [lia|done|].
    rewrite <- bind_assoc. mret E.
    unfold USERTOP in Ht. rewrite (u64_small (a + PGSIZE)) by (unfold PGSIZE; lia).
    destruct (IH fuel s1 (a + PGSIZE) l1) as (s2 & l2 & E2 & D2);
      [lia|apply D|apply D|unfold PGSIZE; lia|unfold PGSIZE; Z.div_mod_to_equations; lia
      |unfold PGSIZE; Z.div_mod_to_equations; lia|done|].
    exists s2, l2. split; [exact E2|]. rewrite Nat2Z.inj_succ.
    apply (dealloced_cons _ _ s1 _ _ _ _ _ l1); [lia|lia| |done|done].
    unfold USERTOP, PGSIZE. Z.div_mod_to_equations. lia.
Qed.

(** The entry that shares the kernel's table. *)
Lemma kernel_pte_make t : page_ok t -> let v := Z.lor (Z.lor (V2P t) PTE_P) PTE_W in
  0 <= v < 18446744073709551616 /\ present v = true /\ P2V (PTE_ADDR v) = t.
Proof.
  intros Ht. destruct (leaf_pte t PTE_W Ht ltac:(done)) as (H1 & H2 & H3 & _).
  rewrite <- Z.lor_assoc, (Z.lor_comm PTE_P), Z.lor_assoc. auto.
Qed.

Lemma setupkvm_mem s q l : free_pages s (q :: l) -> alloc_ready s -> forall s', setupkvm s = Ret q s' ->
  k_mem s' = store64 (memset (k_mem s) q 0 PGSIZE) (entry q 256) (Z.lor (Z.lor (V2P (k_kpdpt s)) PTE_P) PTE_W).
Proof.
  intros Hl Hr s'. pose proof (fp_pages _ _ Hl) as [Hq _]%Forall_cons_1.
  unfold setupkvm. mret (kalloc_run q s (proj1 (fp_linked _ _ Hl)) ltac:(destruct Hq as (_ & _ & _ & ?); lia) Hr).
  unfold zero_page, st64. rewrite bind_modify, bind_gets, bind_modify. unfold upd_mem. cbn [set_k_mem k_mem].
  rewrite kalloced_mem. change (k_kpdpt (set_k_mem _ _)) with (k_kpdpt (kalloced q s)).
  rewrite (q_kpdpt _ _ (mem_only_kalloced q s)). by intros [= <-].
Qed.

(** A new page table: no user address is mapped. *)
Lemma setupkvm_run s q l : free_pages s (q :: l) -> alloc_ready s ->
  exists s', setupkvm s = Ret q s' /\ vm_ready {[ q := [] ]} s' q l /\ user_pages {[ q := [] ]} s' q l /\
    (forall va, 0 <= va < USERTOP -> translate (k_mem s') q va = None) /\ mem_only s s' /\
    (forall x, ~ in_page q x -> k_mem s' x = k_mem s x).
Proof.
  intros Hl Hr.
  pose proof (fp_nodup _ _ Hl) as [Hqn _]%NoDup_cons. pose proof (fp_pages _ _ Hl) as [Hq Hpl]%Forall_cons_1.
  set (v := Z.lor (Z.lor (V2P (k_kpdpt s)) PTE_P) PTE_W).
  set (m' := store64 (memset (k_mem s) q 0 PGSIZE) (entry q 256) v).
  exists (set_k_mem m' (kalloced q s)).
  assert (forall i, idx_ok [] i -> next_tbl m' q i = None) as Hnx.
  { intros i [Hi Hi']. specialize (Hi' eq_refl). unfold next_tbl, m'. destruct Hq as [Hqa _].
    rewrite load_entry_other by (done || lia || (unfold entry; lia)).
    by rewrite load_zero_page, decide_True by done. }
  assert (forall va, 0 <= va < USERTOP -> translate m' q va = None) as Htr.
  { intros va Hva. unfold translate, leaf, path. cbn [descend].
    by rewrite (Hnx (PMX va) (proj1 (path_idx_ok va Hva))). }
  assert (forall x, ~ in_page q x -> m' x = k_mem s x) as Hout.
  { intros x Hx. unfold m', store64. rewrite store_le_out.
    - rewrite memset_fill by done. unfold fill. destruct (in_range q PGSIZE x) eqn:E; [|done].
      by apply in_range_spec in E.
    - intros Hin. apply Hx, (entry_in_page q 256); [lia|done]. }
  split_and!.
  - unfold setupkvm. mret (kalloc_run q s (proj1 (fp_linked _ _ Hl)) ltac:(destruct Hq as (_ & _ & _ & ?); lia) Hr).
    unfold zero_page, st64. rewrite bind_modify, bind_gets, bind_modify. unfold upd_mem. cbn [set_k_mem k_mem k_kpdpt].
    rewrite kalloced_mem. change (k_kpdpt (set_k_mem _ _)) with (k_kpdpt (kalloced q s)).
    rewrite (q_kpdpt _ _ (mem_only_kalloced q s)). done.
  - split.
    + split; [by rewrite lookup_singleton_eq| | |].
      * intros t p [<- _]%lookup_singleton_Some. done.
      * intros t p i t' [<- <-]%lookup_singleton_Some _ Hi. by rewrite Hnx.
      * intros t p [<- <-]%lookup_singleton_Some. split_and!; [cbn; lia|done|done].
    + apply free_pages_mem; [by apply free_pages_alloced| |].
      * apply store_le_bytes, memset_bytes; [apply Hl|done].
      * intros p x Hp Hx. rewrite kalloced_mem. apply Hout. rewrite Forall_forall in Hpl.
        apply (not_in_page p); [by apply Hpl|done|congruence|done].
    + by apply kalloced_ready.
    + intros x Hx. apply lookup_singleton_ne. congruence.
  - split; intros va; [intros pte Hva|intros va' pte pte' Hva Hva'];
      change (k_mem (set_k_mem m' _)) with m'; by rewrite (Htr va Hva).
  - done.
  - eapply mem_only_trans; [apply mem_only_kalloced|apply mem_only_mem].
  - exact Hout.
Qed.

End Run.

(** ** vm.c provides what traceread needs *)

#[export] Instance vm_user_copy `{Linker} : UserCopy := {
  copyout va b :=
    i <- myproc;; p <- gets (proc_at i);; copyout_to (p_pgdir p) va b;
  user_ok s va n := is_Some (cur_proc s) /\ 0 <= va /\ va + n <= USERTOP /\
    (forall x, va <= x < va + n -> is_Some (walk (k_mem s) (cur_pgdir s) x)) /\
    exists own l, pt_ok own (k_mem s) (cur_pgdir s) /\ user_pages own s (cur_pgdir s) l;
  uread s va := if (0 <=? va) && (va <? USERTOP) then ubyte (k_mem s) (cur_pgdir s) va else None
}.

Lemma cur_proc_view s s' : same_user_view s s' -> cur_proc s' = cur_proc s.
Proof. intros (_ & Hp & Hc). unfold cur_proc. by rewrite Hp, Hc. Qed.

Lemma copyout_cur `{Linker} s va b : is_Some (cur_proc s) ->
  copyout va b s = copyout_to (cur_pgdir s) va b s.
Proof.
  intros [p Hp]. simpl. unfold cur_pgdir. rewrite Hp. unfold cur_proc in Hp. unfold bind, myproc.
  destruct (cpu_proc (k_cpu s)) as [i|]; [|done]. simpl. unfold proc_at. by rewrite Hp.
Qed.

#[export] Instance vm_user_copy_laws `{Linker} : UserCopyLaws.
Proof.
  split.
  - intros s s' va n Hv (Hp & H0 & Ht & Hw & own & l & Hok & Hu). pose proof (cur_proc_view _ _ Hv) as Ec.
    destruct Hv as (Hm & _). unfold user_ok; simpl. unfold cur_pgdir in *. rewrite Ec, Hm.
    split_and!; [done..|]. exists own, l. split; [done|]. destruct Hu as [U1 U2]. by split; rewrite Hm.
  - intros s s' va Hv. pose proof (cur_proc_view _ _ Hv) as Ec. destruct Hv as (Hm & _). simpl.
    unfold cur_pgdir. by rewrite Ec, Hm.
  - intros s va b (Hp & H0 & Ht & Hw & own & l & Hok & Hu). rewrite copyout_cur by done.
    destruct (copyout_loop_run own (cur_pgdir s) l (S (length b)) b s va) as (r & k & s' & E & C & Hr); auto.
    assert (cur_proc s' = cur_proc s) as Ec by (by rewrite (ct_frame _ _ _ _ _ _ _ _ C)).
    assert (cur_pgdir s' = cur_pgdir s) as Ed by (unfold cur_pgdir; by rewrite Ec).
    exists r, s'. split; [exact E|]. split; [tauto|].
    split_and!; try (by rewrite (ct_frame _ _ _ _ _ _ _ _ C)).
    + intros va' n' (_ & H0' & Ht' & Hw' & _). unfold user_ok; simpl. rewrite Ec, Ed. split_and!; [done..| |].
      * intros x Hx. rewrite (ct_walk _ _ _ _ _ _ _ _ C) by (unfold USERTOP in *; lia). by apply Hw'.
      * exists own, l. split; apply C.
    + intros -> i Hi. destruct Hr as [[_ ->]|[? _]]; [|done]. simpl. unfold USERTOP in *.
      destruct (Z.leb_spec 0 (va + Z.of_nat i)), (Z.ltb_spec (va + Z.of_nat i) 140737488355328); try lia.
      rewrite Ed. cbn [andb]. rewrite (ct_ubyte _ _ _ _ _ _ _ _ C) by (unfold USERTOP; lia).
      rewrite (proj2 (in_range_spec _ _ _)) by lia. f_equal. lia.
    + intros x Hx. simpl. rewrite Ed. destruct (Z.leb_spec 0 x), (Z.ltb_spec x USERTOP); try done. cbn [andb].
      rewrite (ct_ubyte _ _ _ _ _ _ _ _ C) by lia.
      destruct (in_range va (Z.of_nat k) x) eqn:Er; [|done]. apply in_range_spec in Er.
      assert (k <= length b)%nat by (destruct Hr; lia). lia.
Qed.

(** ** Properties *)

Section Props.
Context `{LK : Linker}.

(** mappages maps exactly one page: on a well-formed page table, mapping the
    physical page [p] at an unmapped page-aligned user address succeeds, the entry of
    [va] afterwards holds the address of [p] and the given permissions, every other
    user address keeps its entry and its byte, and the tables, the free list and the
    user pages stay well formed; mapping an address twice panics with remap. *)
Theorem mappages_maps_page own s root va p perm l :
  vm_ready own s root l -> user_pages own s root l -> 0 <= va < USERTOP -> va mod PGSIZE = 0 ->
  page_ok p -> own !! p = None -> p ∉ l ->
  (forall va' pte, 0 <= va' < USERTOP -> translate (k_mem s) root va' = Some pte -> frame pte <> p) ->
  0 <= perm < 4096 -> (3 <= length l)%nat ->
  match translate (k_mem s) root va with
  | Some _ => exists s', mappages root va PGSIZE (V2P p) perm s = Panic "remap" s'
  | None => exists own' s' l' pte, mappages root va PGSIZE (V2P p) perm s = Ret 0 s' /\
      mapped own own' s s' root va p perm l l' /\
      translate (k_mem s') root va = Some pte /\ frame pte = p /\ PTE_FLAGS pte = Z.lor perm PTE_P
  end.
Proof.
  intros Hs Hu Hva Ha Hp Hpo Hpl Hpu Hperm Hl. destruct (translate (k_mem s) root va) eqn:Ht.
  - by eapply mappages_remap.
  - destruct (mappages_maps own s root va p perm l) as (own' & s' & l' & E & M); try done.
    destruct (leaf_pte p perm Hp Hperm) as (_ & _ & Lf & Lfl).
    exists own', s', l', (Z.lor (Z.lor (V2P p) perm) PTE_P). split_and!; [done|done|apply M|done|done].
Qed.

(** C26: allocuvm and deallocuvm are each other's inverse on the memory a process
    sees.  allocuvm from [oldsz] to [newsz] returns [newsz] and maps the pages from
    PGROUNDUP(oldsz) to [newsz] as zeroed, writable user pages, and no other address
    changes; deallocuvm back to [oldsz] returns [oldsz] and restores every user
    address; the requests the guards reject return 0 or the old size and change
    nothing. *)
Theorem allocuvm_deallocuvm own s root oldsz newsz l :
  vm_ready own s root l -> user_pages own s root l -> 0 <= oldsz -> oldsz <= newsz <= USERTOP ->
  (4 * Z.to_nat ((newsz - PGROUNDUP oldsz + 4095) / 4096) <= length l)%nat ->
  (forall va, PGROUNDUP oldsz <= va < PGROUNDUP oldsz + PGSIZE * ((newsz - PGROUNDUP oldsz + 4095) / 4096) ->
     translate (k_mem s) root va = None) ->
  exists own' s1 s2 l1 l2,
    allocuvm root oldsz newsz s = Ret newsz s1 /\
    allocated own own' s s1 root (PGROUNDUP oldsz) ((newsz - PGROUNDUP oldsz + 4095) / 4096) l l1 /\
    (oldsz < newsz -> deallocuvm root newsz oldsz s1 = Ret oldsz s2) /\
    (oldsz < newsz -> vm_ready own' s2 root l2 /\ forall va, 0 <= va < USERTOP ->
       translate (k_mem s2) root va = translate (k_mem s) root va /\
       ubyte (k_mem s2) root va = ubyte (k_mem s) root va) /\
    (forall big, KERNBASE <= big -> allocuvm root oldsz big s = Ret 0 s) /\
    (forall small, small < oldsz -> allocuvm root oldsz small s = Ret oldsz s) /\
    deallocuvm root oldsz newsz s = Ret oldsz s.
Proof.
  intros Hs Hu H0 Hsz Hl Hnone. unfold USERTOP in Hsz.
  assert (PGROUNDUP oldsz = (oldsz + 4095) / 4096 * 4096) as Er by (apply PGROUNDUP_eq; lia).
  set (a := PGROUNDUP oldsz) in *. set (n := (newsz - a + 4095) / 4096) in *.
  assert (0 <= a /\ a mod 4096 = 0 /\ 0 <= n) as (Ha & Hm & Hn) by (unfold n; Z.div_mod_to_equations; lia).
  destruct (allocuvm_loop_run root oldsz newsz (Z.to_nat n) (S (Z.to_nat ((newsz - a) / PGSIZE + 1))) own s a l)
    as (own' & s1 & l1 & E & A); try done.
  { unfold n, PGSIZE. Z.div_mod_to_equations. lia. }
  { rewrite Z2Nat.id; done. }
  { unfold USERTOP. lia. }
  { rewrite Z2Nat.id by done. done. }
  rewrite Z2Nat.id in A by done.
  destruct (deallocuvm_loop_run root newsz (Z.to_nat n) (S (Z.to_nat ((newsz - a) / PGSIZE + 1))) own' s1 a l1)
    as (s2 & l2 & E2 & D); try done; [|apply A|apply A| |unfold USERTOP; lia|].
  { unfold n, PGSIZE. Z.div_mod_to_equations. lia. }
  { rewrite Z2Nat.id; done. }
  rewrite Z2Nat.id in D by done.
  exists own', s1, s2, l1, l2. unfold allocuvm, deallocuvm. unfold KERNBASE.
  split_and!.
  - destruct (Z.geb_spec newsz 18446603336221196288), (Z.ltb_spec newsz oldsz); [lia..|done].
  - done.
  - intros Hlt. destruct (Z.geb_spec oldsz newsz); [lia|]. by mret E2.
  - intros Hlt. split; [apply D|]. intros va Hva.
    destruct (decide (a <= va < a + PGSIZE * n)) as [Hin|Hout].
    + rewrite (de_in _ _ _ _ _ _ _ _ D va Hin), (Hnone va Hin). split; [done|].
      unfold ubyte. by rewrite (de_in _ _ _ _ _ _ _ _ D va Hin), (Hnone va Hin).
    + destruct (de_out _ _ _ _ _ _ _ _ D va Hva Hout) as [-> ->].
      by apply (al_out _ _ _ _ _ _ _ _ _ A).
  - intros big Hb. by destruct (Z.geb_spec big 18446603336221196288); [|lia].
  - intros small Hb. destruct (Z.geb_spec small 18446603336221196288); [lia|].
    by destruct (Z.ltb_spec small oldsz); [|lia].
  - by destruct (Z.geb_spec newsz oldsz); [|lia].
Qed.

(** copyout writes exactly the bytes it is given into the user memory of the
    address space, page by page, and changes nothing else of the kernel or of any user
    address: it returns 0 when all bytes are stored, and -1 after a prefix when it
    meets a page that is not mapped for the user.  This holds when every address of
    the range has a page table; for one that has none uva2ka dereferences a null
    pointer. *)
Theorem copyout_stores_bytes own s root va l b :
  pt_ok own (k_mem s) root -> user_pages own s root l -> 0 <= va ->
  va + Z.of_nat (length b) <= USERTOP ->
  ((forall x, va <= x < va + Z.of_nat (length b) -> is_Some (walk (k_mem s) root x)) ->
   exists r k s', copyout_to root va b s = Ret r s' /\ copied_to own s s' root va l b k /\
    ((r = 0 /\ k = length b) \/
     (r = -1 /\ (k < length b)%nat /\ user_pte (k_mem s) root (va + Z.of_nat k) = None))) /\
  (b <> [] -> walk (k_mem s) root va = None -> copyout_to root va b s = Undef "null pte" s).
Proof.
  intros Hok Hu Hva Htop. split.
  - intros Hw. apply copyout_loop_run; auto; lia.
  - intros Hb Hw. unfold copyout_to. cbn [copyout_loop].
    destruct (Nat.ltb_spec 0 (length b)); [|destruct b; simpl in *; [done|lia]].
    assert (PGROUNDDOWN va / 4096 = va / 4096) as Ep.
    { unfold USERTOP in Htop. rewrite PGROUNDDOWN_eq by lia. by rewrite Z.div_mul. }
    unfold uva2ka. rewrite bind_assoc. mret (walkpgdir_lookup root (PGROUNDDOWN va) s).
    by rewrite (walk_page _ _ _ _ Ep), Hw.
Qed.

(** Setupkvm makes a fresh address space: it takes one free page, in which every
    user address is unmapped while the kernel half shares the kernel's table, and
    changes no other memory; kalloc's failure case aside (it panics), it always
    succeeds. *)
Theorem setupkvm_fresh s q l : free_pages s (q :: l) -> alloc_ready s ->
  exists s', setupkvm s = Ret q s' /\ vm_ready {[ q := [] ]} s' q l /\ user_pages {[ q := [] ]} s' q l /\
    (forall va, 0 <= va < USERTOP -> translate (k_mem s') q va = None) /\
    (page_ok (k_kpdpt s) -> next_tbl (k_mem s') q 256 = Some (k_kpdpt s)) /\
    (forall x, ~ in_page q x -> k_mem s' x = k_mem s x).
Proof.
  intros Hl Hr. destruct (setupkvm_run s q l Hl Hr) as (s' & E & V & U & T & _ & O).
  exists s'. split_and!; try done. intros Hk.
  pose proof (setupkvm_mem s q l Hl Hr s' E) as Em. unfold next_tbl. rewrite Em.
  destruct (kernel_pte_make _ Hk) as (Hv & Hp & Ha). by rewrite load64_store64, Hp, Ha.
Qed.

End Props.

(** *** Witnesses *)

#[local] Existing Instance small_linker.

(** An empty address space, with seven free pages left. *)
Lemma fresh_space : exists s, setupkvm (some_pages 8) = Ret one_page s /\
  vm_ready {[ one_page := [] ]} s one_page (pages_from (one_page + PGSIZE) 7) /\
  user_pages {[ one_page := [] ]} s one_page (pages_from (one_page + PGSIZE) 7) /\
  forall va, 0 <= va < USERTOP -> translate (k_mem s) one_page va = None.
Proof.
  destruct (some_pages_free 8) as [Hl Hr]; [lia|].
  destruct (setupkvm_run (some_pages 8) one_page _ Hl Hr) as (s & E & V & U & T & _).
  exists s. split_and!; [exact E|exact V|exact U|exact T].
Qed.

(** The same with the page at 4096 allocated. *)
Lemma space_with_page : exists own s l, vm_ready own s one_page l /\ user_pages own s one_page l /\
  forall va, 4096 <= va < 8192 -> is_Some (walk (k_mem s) one_page va) /\ is_Some (user_pte (k_mem s) one_page va).
Proof.
  destruct fresh_space as (s & _ & V & U & T).
  destruct (allocuvm_loop_run one_page 4096 8192 1 2 _ s 4096 _ ltac:(lia) V U) as (own & s' & l & _ & A);
    [lia|done|done|unfold USERTOP; lia|simpl; lia| |].
  { intros va Hva. apply T. unfold USERTOP. lia. }
  exists own, s', l. split; [apply A|]. split; [apply A|]. intros va Hva.
  destruct (al_in _ _ _ _ _ _ _ _ _ A va) as (_ & pte & Ht & Hf); [unfold PGSIZE; lia|]. split.
  - unfold translate, leaf in Ht. unfold walk. by destruct (descend _ _ _).
  - unfold user_pte. rewrite Ht. exists pte.
    assert (Z.land pte PTE_U = 4) as ->; [|done]. unfold PTE_FLAGS in Hf.
    change PTE_U with (Z.land 4095 4). by rewrite Z.land_assoc, Hf.
Qed.

Lemma mappages_maps_page_witness : exists s s', mappages one_page 4096 PGSIZE (V2P (one_page + 40960)) 6 s = Ret 0 s'.
Proof.
  destruct fresh_space as (s & _ & V & U & T). exists s.
  assert (page_ok (one_page + 40960)) as Hp.
  { apply (Forall_forall page_ok (pages_from (one_page + PGSIZE * 10) 1)); [|by left].
    apply pages_from_ok; lia. }
  pose proof (mappages_maps_page _ s one_page 4096 (one_page + 40960) 6 _ V U ltac:(unfold USERTOP; lia) eq_refl Hp) as H.
  rewrite T in H by (unfold USERTOP; lia).
  destruct H as (own' & s' & l' & pte & E & _).
  - apply lookup_singleton_ne. unfold one_page. lia.
  - apply not_elem_of_pages_from. unfold PGSIZE. lia.
  - intros va' pte Hva'. by rewrite T.
  - lia.
  - simpl. lia.
  - by exists s'.
Defined.

Lemma allocuvm_deallocuvm_witness : exists s s1 s2, allocuvm one_page 4096 8192 s = Ret 8192 s1 /\
  deallocuvm one_page 8192 4096 s1 = Ret 4096 s2.
Proof.
  destruct fresh_space as (s & _ & V & U & T).
  destruct (allocuvm_deallocuvm _ s one_page 4096 8192 _ V U) as (own' & s1 & s2 & l1 & l2 & E & _ & D & _).
  - lia.
  - unfold USERTOP. lia.
  - vm_compute. lia.
  - intros va Hva. apply T. change (PGROUNDUP 4096) with 4096 in Hva.
    change ((8192 - 4096 + 4095) / 4096) with 1 in Hva. unfold PGSIZE, USERTOP in *. lia.
  - exists s, s1, s2. split; [done|]. apply D. lia.
Defined.

Lemma copyout_stores_bytes_witness : exists s s', copyout_to one_page 4097 [7; 8] s = Ret 0 s' /\
  ubyte (k_mem s') one_page 4098 = Some 8.
Proof.
  destruct space_with_page as (own & s & l & V & U & W).
  destruct (proj1 (copyout_stores_bytes own s one_page 4097 l [7; 8] (vr_pt _ _ _ _ V) U ltac:(lia)
    ltac:(unfold USERTOP; simpl; lia))) as (r & k & s' & E & C & Hr).
  - simpl. intros x Hx. apply W. lia.
  - destruct Hr as [[-> ->]|(_ & Hk & Hn)].
    + exists s, s'. split; [exact E|]. rewrite (ct_ubyte _ _ _ _ _ _ _ _ C) by (unfold USERTOP; lia). done.
    + exfalso. destruct (W (4097 + Z.of_nat k)) as [_ [pte Hp]]; [simpl in Hk; lia|congruence].
Defined.

Lemma setupkvm_fresh_witness : exists s', setupkvm (some_pages 8) = Ret one_page s' /\
  translate (k_mem s') one_page 0 = None.
Proof.
  destruct (some_pages_free 8 ltac:(lia)) as [Hl Hr].
  destruct (setupkvm_fresh (some_pages 8) one_page _ Hl Hr) as (s' & E & _ & _ & T & _).
  exists s'. split; [exact E|]. apply T. unfold USERTOP. lia.
Defined.
