(* ===== verification/Uvm.v ===== *)
(** * Uvm: address spaces beside each other, and copyuvm of vm.c

    Vm proves what the operations do to one address space.  Here the pages that an address space
    uses are its footprint: whatever does not store there leaves it alone, and copyuvm (which is
    defined in Vm) builds a second address space from free pages, outside the footprint of the
    first. *)

From S2P Require Import Prelude Machine Spinlock Cstring Ktrace Kalloc Vm.
#[local] Open Scope prog_scope.

Section Footprint.
Context `{LK : Linker}.

(** The pages of an address space: its tables, and the frames of its user pages. *)
Definition uses (own : gmap Z (list Z)) (m : mem) (root p : Z) : Prop :=
  is_Some (own !! p) \/ exists va pte, 0 <= va < USERTOP /\ translate m root va = Some pte /\ frame pte = p.

Record space (own : gmap Z (list Z)) (s : kstate) (root : Z) (l : list Z) : Prop := Space {
  sp_pt : pt_ok own (k_mem s) root;
  sp_users : user_pages own s root l;
  sp_fresh : forall x, x ∈ l -> own !! x = None
}.

Lemma vm_ready_space own s root l : vm_ready own s root l -> user_pages own s root l -> space own s root l.
Proof. intros [H1 H2 H3 H4] Hu. by split. Qed.

Lemma uses_page own s root l p : space own s root l -> uses own (k_mem s) root p -> page_ok p /\ p ∉ l.
Proof.
  intros [Hp [U1 U2] Hf] [[q Hq]|(va & pte & Hva & Ht & <-)].
  - split; [by apply (pt_page _ _ _ Hp p q)|]. intros Hin. by rewrite (Hf p Hin) in Hq.
  - by destruct (U1 va pte Hva Ht) as (? & _ & ?).
Qed.

(** The frame rule: what is not stored to the pages of an address space, and does not free them. *)
Lemma space_frame_free own s s' root l l' : space own s root l -> (forall p, p ∈ l' -> ~ uses own (k_mem s) root p) ->
  (forall p x, uses own (k_mem s) root p -> in_page p x -> k_mem s' x = k_mem s x) ->
  space own s' root l' /\ forall va, 0 <= va < USERTOP ->
    translate (k_mem s') root va = translate (k_mem s) root va /\
    walk (k_mem s') root va = walk (k_mem s) root va /\
    ubyte (k_mem s') root va = ubyte (k_mem s) root va.
Proof.
  intros [Hp [U1 U2] Hf] Hl Hm. destruct (table_ext own (k_mem s) (k_mem s') root Hp) as (Hp' & Ht & Hw).
  { intros t x Ht. apply Hm. by left. }
  split; [split; [done|split|]|].
  - intros va pte Hva. rewrite Ht by done. intros Hte. destruct (U1 va pte Hva Hte) as (? & ? & _). split_and!; [done|done|].
    intros Hin. apply (Hl _ Hin). right; eauto.
  - intros va va' pte pte' Hva Hva'. rewrite !Ht by done. by apply U2.
  - intros x Hx. destruct (own !! x) as [p|] eqn:E; [|done]. destruct (Hl x Hx). left. by exists p.
  - intros va Hva. split_and!; [by apply Ht|by apply Hw|]. unfold ubyte. rewrite Ht by done.
    destruct (translate (k_mem s) root va) as [pte|] eqn:E; [|done]. f_equal.
    apply (Hm (frame pte)); [right; by eauto|apply mod_in_page].
Qed.

Lemma space_frame own s s' root l l' : space own s root l -> l' ⊆ l ->
  (forall p x, uses own (k_mem s) root p -> in_page p x -> k_mem s' x = k_mem s x) ->
  space own s' root l' /\ forall va, 0 <= va < USERTOP ->
    translate (k_mem s') root va = translate (k_mem s) root va /\
    walk (k_mem s') root va = walk (k_mem s) root va /\
    ubyte (k_mem s') root va = ubyte (k_mem s) root va.
Proof. intros S Hl. apply (space_frame_free own s s' root l l' S). intros p Hp%Hl Hu. by destruct (uses_page _ _ _ _ _ S Hu). Qed.

Lemma space_same own s s' root l : k_mem s' = k_mem s -> space own s root l -> space own s' root l.
Proof. intros E H. apply (space_frame own s s' root l l H); [done|]. intros. by rewrite E. Qed.

(** Two address spaces without a common page. *)
Definition apart (own1 own2 : gmap Z (list Z)) (m : mem) (root1 root2 : Z) : Prop :=
  forall p, uses own1 m root1 p -> ~ uses own2 m root2 p.

(** A store to one is not seen in the other. *)
Lemma apart_store own1 own2 s root1 root2 l va pte b : space own1 s root1 l -> space own2 s root2 l ->
  apart own1 own2 (k_mem s) root1 root2 -> 0 <= va < USERTOP -> translate (k_mem s) root2 va = Some pte ->
  va mod PGSIZE + Z.of_nat (length b) <= PGSIZE ->
  forall va', 0 <= va' < USERTOP ->
    ubyte (at_list (frame pte + va mod PGSIZE) b (k_mem s)) root1 va' = ubyte (k_mem s) root1 va'.
Proof.
  intros S1 S2 A Hva Ht Hb va' Hva'. apply (space_frame own1 s (set_k_mem _ s) root1 l l S1); [done| |done].
  intros p x Hp Hx. cbn [k_mem set_k_mem]. apply at_list_out. intros Hin. pose proof (Z.mod_pos_bound va PGSIZE ltac:(done)).
  assert (uses own2 (k_mem s) root2 (frame pte)) as Hu by (right; eauto).
  destruct (uses_page _ _ _ _ _ S1 Hp) as [Hp1 _], (uses_page _ _ _ _ _ S2 Hu) as [Hp2 _].
  apply (not_in_page p (frame pte) x); [done|done| |done|unfold in_page; lia].
  intros ->. by apply (A (frame pte)).
Qed.

End Footprint.

(** ** copyuvm *)

Section Copy.
Context `{LK : Linker} (own : gmap Z (list Z)) (s0 : kstate) (root : Z) (l0 : list Z).
Context (S0 : space own s0 root l0).

(** [d] has copies of the pages of [root] from the second one up to [i], and nothing else; it was
    made from free pages, and no other memory has changed. *)
Record copying (i d : Z) (own' : gmap Z (list Z)) (s : kstate) (l : list Z) : Prop := Copying {
  cp_ready : vm_ready own' s d l;
  cp_users : user_pages own' s d l;
  cp_new : forall p, uses own' (k_mem s) d p -> p ∈ l0;
  cp_mem : forall x, (forall p, uses own' (k_mem s) d p -> ~ in_page p x) -> k_mem s x = k_mem s0 x;
  cp_in : forall va, PGSIZE <= va < i -> ubyte (k_mem s) d va = ubyte (k_mem s0) root va /\
    (PTE_FLAGS <$> translate (k_mem s) d va) = (PTE_FLAGS <$> translate (k_mem s0) root va);
  cp_out : forall va, 0 <= va < USERTOP -> ~ (PGSIZE <= va < i) -> translate (k_mem s) d va = None;
  cp_frame : mem_only s0 s;
  cp_free : l ⊆ l0;
  cp_taken : forall p, p ∈ l0 -> p ∈ l \/ uses own' (k_mem s) d p
}.

Lemma copying_apart i d own' s l : copying i d own' s l ->
  space own s root l /\ (forall va, 0 <= va < USERTOP ->
    translate (k_mem s) root va = translate (k_mem s0) root va /\
    walk (k_mem s) root va = walk (k_mem s0) root va /\
    ubyte (k_mem s) root va = ubyte (k_mem s0) root va) /\
  apart own own' (k_mem s) root d.
Proof.
  intros [C1 C2 C3 C4 C5 C6 C7 C8 C9].
  destruct (space_frame own s0 s root l0 l S0 C8) as [Hs Hv].
  { intros p x Hp Hx. apply C4. intros q Hq Hin. apply C3 in Hq as Hq'. destruct (uses_page _ _ _ _ _ S0 Hp) as [Hp1 Hp2].
    destruct (uses_page _ _ _ _ _ (vm_ready_space _ _ _ _ C1 C2) Hq) as [Hq1 _].
    apply (not_in_page p q x); [done|done|congruence|done|done]. }
  split_and!; [done|done|]. intros p Hp Hd. apply C3 in Hd. destruct Hp as [Hp|(va & pte & Hva & Ht & <-)].
  - destruct (uses_page own s0 root l0 p S0); [by left|done].
  - destruct (uses_page own s0 root l0 (frame pte) S0); [|done]. right. exists va, pte. by rewrite <- (proj1 (Hv va Hva)).
Qed.

(** The page of [va] is read into the fresh page [q]. *)
Lemma copy_page_mem m q p x : bytes_ok m ->
  memmove m q p PGSIZE x = if in_range q PGSIZE x then m (p + (x - q)) else m x.
Proof. intros Hb. rewrite memmove_blit by done. unfold blit. destruct (in_range q PGSIZE x); [f_equal; lia|done]. Qed.

Lemma pte_flags_range pte : 0 <= PTE_FLAGS pte < 4096.
Proof. unfold PTE_FLAGS. change 4095 with (Z.ones 12). rewrite Z.land_ones by lia. by apply Z.mod_pos_bound. Qed.

Lemma present_flags pte : present pte = true -> Z.lor (PTE_FLAGS pte) PTE_P = PTE_FLAGS pte.
Proof.
  rewrite present_odd. intros Hp. unfold PTE_FLAGS, PTE_P. apply Z.bits_inj'. intros n Hn. rewrite Z.lor_spec, Z.land_spec.
  destruct (decide (n = 0)) as [->|Hne].
  - change (Z.testbit 1 0) with true. rewrite Z.bit0_odd, Hp. done.
  - replace (Z.testbit 1 n) with false; [by rewrite orb_false_r|]. symmetry. apply (Z.bits_above_log2 1); [lia|].
    change (Z.log2 1) with 0. lia.
Qed.

Lemma translate_present m r va pte : translate m r va = Some pte -> present pte = true.
Proof. unfold translate, leaf. destruct (descend _ _ _) as [t|]; [|done]. destruct (present _) eqn:E; [|done]. by intros [= <-]. Qed.

Section Round.
Context (i d q : Z) (own' : gmap Z (list Z)) (s : kstate) (l : list Z) (pte : Z).
Context (C : copying i d own' s (q :: l)) (Hi : PGSIZE <= i) (Ht : i + PGSIZE <= USERTOP) (Hm : i mod 4096 = 0).
Context (Hpte : translate (k_mem s0) root i = Some pte).

Let s1 : kstate := set_k_mem (memmove (k_mem s) q (frame pte) PGSIZE) (kalloced q s).
Let perm : Z := PTE_FLAGS pte.

(** The state after mappages. *)
Context (own2 : gmap Z (list Z)) (s2 : kstate) (l2 : list Z).
Context (M : mapped own' own2 s1 s2 d i q perm l l2) (Hq : page_ok q) (Hql : q ∉ l).
Context (Hsame : forall va, 0 <= va < USERTOP -> translate (k_mem s1) d va = translate (k_mem s) d va /\
  ubyte (k_mem s1) d va = ubyte (k_mem s) d va).

Lemma round_page x : in_page q x -> k_mem s2 x = k_mem s0 (frame pte + (x - q)).
Proof.
  intros Hx. destruct (copying_apart _ _ _ _ _ C) as (Hsp & Hv & Ha). assert (0 <= i < USERTOP) as Hiu by (unfold PGSIZE in *; lia).
  rewrite (mp_page _ _ _ _ _ _ _ _ _ _ M) by done. cbn [s1 k_mem set_k_mem].
  rewrite copy_page_mem by apply (cp_ready _ _ _ _ _ C). rewrite (proj2 (in_range_spec _ _ _)) by done.
  apply (cp_mem _ _ _ _ _ C). intros p Hp Hin. apply (cp_new _ _ _ _ _ C) in Hp as Hp'.
  assert (uses own (k_mem s0) root (frame pte)) as Hu by (right; eauto).
  destruct (uses_page _ _ _ _ _ S0 Hu) as [Hf1 Hf2].
  destruct (uses_page _ _ _ _ _ (vm_ready_space _ _ _ _ (cp_ready _ _ _ _ _ C) (cp_users _ _ _ _ _ C)) Hp) as [Hp1 _].
  apply (not_in_page (frame pte) p (frame pte + (x - q))); [done|done|congruence|unfold in_page in *; lia|done].
Qed.

Lemma round_here va : i <= va < i + PGSIZE -> translate (k_mem s2) d va = Some (Z.lor (Z.lor (V2P q) perm) PTE_P).
Proof.
  intros Hva. rewrite (translate_page _ _ va i); [apply M|]. unfold PGSIZE in *. Z.div_mod_to_equations. lia.
Qed.

Lemma round_there va : 0 <= va < USERTOP -> ~ (i <= va < i + PGSIZE) ->
  translate (k_mem s2) d va = translate (k_mem s) d va /\ ubyte (k_mem s2) d va = ubyte (k_mem s) d va.
Proof.
  intros Hva Hout. destruct (mp_there _ _ _ _ _ _ _ _ _ _ M va Hva) as [-> ->]; [|by apply Hsame].
  unfold PGSIZE in *. Z.div_mod_to_equations. lia.
Qed.

Lemma round_uses p : uses own2 (k_mem s2) d p -> p = q \/ uses own' (k_mem s) d p \/ p ∈ l.
Proof.
  destruct (leaf_pte q perm Hq (pte_flags_range pte)) as (_ & _ & Lf & _).
  intros [Hp|(va & pte' & Hva & Htr & <-)].
  - destruct (mp_new _ _ _ _ _ _ _ _ _ _ M p Hp); [right; left; by left|by right; right].
  - destruct (decide (i <= va < i + PGSIZE)) as [Hin|Hout].
    + rewrite round_here in Htr by done. injection Htr as <-. by left.
    + rewrite (proj1 (round_there va Hva Hout)) in Htr. right; left; right; eauto.
Qed.

Lemma uses_round p : p = q \/ uses own' (k_mem s) d p -> uses own2 (k_mem s2) d p.
Proof.
  assert (0 <= i < USERTOP) as Hiu by (unfold PGSIZE in *; lia).
  destruct (leaf_pte q perm Hq (pte_flags_range pte)) as (_ & _ & Lf & _).
  intros [->|[[ix Hp]|(va & pte' & Hva & Htr & <-)]].
  - right. exists i, (Z.lor (Z.lor (V2P q) perm) PTE_P). split_and!; [lia|lia|apply M|done].
  - left. exists ix. by apply (lookup_weaken own'); [|apply M].
  - right. exists va, pte'. split_and!; [lia|lia| |done]. rewrite (proj1 (round_there va Hva ltac:(
      intros Hin; rewrite (translate_page _ _ va i), (cp_out _ _ _ _ _ C i) in Htr by (unfold PGSIZE in *; Z.div_mod_to_equations; lia); done))). done.
Qed.

Lemma round_copies va : i <= va < i + PGSIZE -> ubyte (k_mem s2) d va = ubyte (k_mem s0) root va /\
  (PTE_FLAGS <$> translate (k_mem s2) d va) = (PTE_FLAGS <$> translate (k_mem s0) root va).
Proof.
  intros Hva. destruct (leaf_pte q perm Hq (pte_flags_range pte)) as (_ & _ & Lf & Lfl).
  assert (translate (k_mem s0) root va = Some pte) as E0.
  { rewrite (translate_page _ _ va i); [done|]. unfold PGSIZE in *. Z.div_mod_to_equations. lia. }
  unfold ubyte. rewrite (round_here va Hva), E0, Lf. cbn [fmap option_fmap option_map]. rewrite Lfl. split.
  - f_equal. rewrite round_page by apply mod_in_page. f_equal. lia.
  - f_equal. apply present_flags. by apply (translate_present (k_mem s0) root i).
Qed.

Lemma round_copying : mem_only s s1 -> copying (i + PGSIZE) d own2 s2 l2.
Proof.
  intros Hf. destruct C as [C1 C2 C3 C4 C5 C6 C7 C8 C9]. assert (q ∈ l0 /\ l ⊆ l0) as [Hq0 Hl0] by set_solver. split; try apply M.
  - intros p [->|[?%C3|?]]%round_uses; [done|done|by apply Hl0].
  - intros x Hx. rewrite (mp_mem _ _ _ _ _ _ _ _ _ _ M) by (intros t Hto; apply Hx; by left). cbn [s1 k_mem set_k_mem].
    rewrite copy_page_mem by apply C1. destruct (in_range q PGSIZE x) eqn:E.
    + apply in_range_spec in E. destruct (Hx q); [apply uses_round; by left|done].
    + apply C4. intros p Hp. apply Hx, uses_round. by right.
  - intros va Hva. destruct (decide (i <= va < i + PGSIZE)) as [Hin|Hout]; [by apply round_copies|].
    destruct (round_there va) as [-> ->]; [unfold PGSIZE in *; lia|done|]. apply C5. lia.
  - intros va Hva Hout. rewrite (proj1 (round_there va Hva ltac:(lia))). apply C6; [done|]. unfold PGSIZE in *. lia.
  - eapply mem_only_trans; [exact C7|]. eapply mem_only_trans; [exact Hf|apply M].
  - pose proof (mp_free _ _ _ _ _ _ _ _ _ _ M). set_solver.
  - intros p [[->|Hp]%elem_of_cons|Hp]%C9; [right; apply uses_round; by left| |right; apply uses_round; by right].
    destruct (mp_taken _ _ _ _ _ _ _ _ _ _ M p Hp); [by left|right; by left].
Qed.

End Round.

Lemma translate_walk m r va pte : translate m r va = Some pte -> exists a, walk m r va = Some a /\ load64 m a = pte.
Proof.
  unfold translate, leaf, walk. destruct (descend m r (path va)) as [t|]; [|done]. intros E. exists (entry t (PTX va)).
  split; [done|]. destruct (present _); [|done]. by injection E.
Qed.

Lemma copyuvm_loop_run sz n fuel i d own' s l : (n < fuel)%nat -> copying i d own' s l ->
  PGSIZE <= i -> i mod 4096 = 0 -> Z.of_nat n = Z.max 0 ((sz - i + 4095) / 4096) -> i + PGSIZE * Z.of_nat n <= USERTOP ->
  (4 * n <= length l)%nat -> (forall va, i <= va < i + PGSIZE * Z.of_nat n -> is_Some (translate (k_mem s0) root va)) ->
  exists own2 s' l', copyuvm_loop fuel root d i sz s = Ret d s' /\ copying (i + PGSIZE * Z.of_nat n) d own2 s' l'.
Proof.
  revert fuel i own' s l. induction n as [|n IH]; intros fuel i own' s l Hfuel C Hi Hm Hn Ht Hl Hall;
    (destruct fuel as [|fuel]; [lia|]); cbn [copyuvm_loop]; unfold PGSIZE in *.
  - destruct (Z.ltb_spec i sz); [Z.div_mod_to_equations; lia|]. exists own', s, l. rewrite Z.mul_0_r, Z.add_0_r. done.
  - destruct (Z.ltb_spec i sz); [|Z.div_mod_to_equations; lia]. destruct l as [|q l]; [simpl in Hl; lia|]. simpl in Hl.
    destruct (Hall i ltac:(lia)) as [pte Hpte]. assert (0 <= i < USERTOP) as Hiu by lia.
    destruct (copying_apart _ _ _ _ _ C) as (_ & Hv & _). destruct (Hv i Hiu) as (Etr & Ewalk & _).
    rewrite <- Etr in Hpte. destruct (translate_walk _ _ _ _ Hpte) as (a & Ea & Eload).
    mret (walkpgdir_lookup root i s). rewrite Ea. unfold ld64. rewrite bind_gets, Eload, (translate_present _ _ _ _ Hpte). cbn [negb].
    rewrite Etr in Hpte. destruct (taken_page own' s d q l (memmove (k_mem s) q (frame pte) PGSIZE) (cp_ready _ _ _ _ _ C) (cp_users _ _ _ _ _ C))
      as ([Ek Hq0] & T1 & T2 & T3 & T4 & T5 & T6 & T7 & T8).
    { apply memmove_bytes; [apply (cp_ready _ _ _ _ _ C)|done]. }
    { intros x Hx. rewrite copy_page_mem by apply (cp_ready _ _ _ _ _ C). destruct (in_range q PGSIZE x) eqn:E; [|done].
      by apply in_range_spec in E. }
    mret Ek. destruct (Z.eqb_spec q 0) as [|_]; [done|]. rewrite bind_modify. unfold upd_mem. rewrite kalloced_mem.
    fold (frame pte). set (s1 := set_k_mem _ _) in *. pose proof (pte_flags_range pte) as Hfl. rewrite i32_small by lia.
    destruct (mappages_maps own' s1 d i q (PTE_FLAGS pte) l T1 T2 Hiu Hm) as (own2 & s2 & l2 & Em & M); try done; [|lia|].
    { rewrite (proj1 (T7 i Hiu)). apply (cp_out _ _ _ _ _ C); [done|lia]. }
    mret Em. cbn [Z.ltb Z.compare]. pose proof (mp_count _ _ _ _ _ _ _ _ _ _ M).
    rewrite u64_small by (unfold USERTOP in *; lia).
    destruct (IH fuel (i + PGSIZE) own2 s2 l2) as (own3 & s3 & l3 & E3 & C3); unfold PGSIZE in *.
    + lia.
    + apply (round_copying i d q own' s l pte C); unfold PGSIZE in *; (done || lia).
    + lia.
    + Z.div_mod_to_equations. lia.
    + Z.div_mod_to_equations. lia.
    + lia.
    + lia.
    + intros va Hva. apply Hall. lia.
    + exists own3, s3, l3. split; [done|]. by replace (i + 4096 * Z.of_nat (S n)) with (i + 4096 + 4096 * Z.of_nat n) by lia.
Qed.

(** How many pages are copied for a process of size [sz]. *)
Definition copied_pages (sz : Z) : nat := Z.to_nat ((sz - PGSIZE + 4095) / 4096).

Lemma copyuvm_run sz q l : free_pages s0 l0 -> alloc_ready s0 -> l0 = q :: l -> 0 <= sz < 4294967296 ->
  (4 * copied_pages sz <= length l)%nat ->
  (forall va, PGSIZE <= va < PGSIZE + PGSIZE * Z.of_nat (copied_pages sz) -> is_Some (translate (k_mem s0) root va)) ->
  exists own' s' l', copyuvm root sz s0 = Ret q s' /\ copying (PGSIZE + PGSIZE * Z.of_nat (copied_pages sz)) q own' s' l'.
Proof.
  intros Hf Hr El Hsz Hl Hall. rewrite El in Hf. destruct (setupkvm_run s0 q l Hf Hr) as (s1 & E1 & V1 & U1 & T1 & F1 & M1).
  assert (q <> 0) as Hq0 by (pose proof (fp_pages _ _ Hf) as [(_ & _ & _ & ?) _]%Forall_cons_1; lia).
  unfold copyuvm. rewrite u32_small by done. mret E1. destruct (Z.eqb_spec q 0) as [|_]; [done|].
  unfold copied_pages, PGSIZE in *. apply (copyuvm_loop_run _ _ _ 4096 q {[q := []]} s1 l); try done.
  - Z.div_mod_to_equations. lia.
  - split; try done.
    + intros p [[ix [<- _]%lookup_singleton_Some]|(va & pte & Hva & Ht & _)]; [rewrite El; by left|]. by rewrite T1 in Ht.
    + intros x Hx. apply M1. apply Hx. left. by rewrite lookup_singleton_eq.
    + intros va Hva. unfold PGSIZE in *. lia.
    + intros va Hva _. by apply T1.
    + rewrite El. set_solver.
    + rewrite El. intros p [->|Hp]%elem_of_cons; [right; left; by rewrite lookup_singleton_eq|by left].
  - Z.div_mod_to_equations. lia.
  - unfold USERTOP, PGSIZE. Z.div_mod_to_equations. lia.
Qed.

End Copy.

(** ** freevm *)

Lemma elem_of_rev {A} (x : A) l : x ∈ rev l <-> x ∈ l.
Proof. rewrite !list_elem_of_In. symmetry. apply in_rev. Qed.

Section Free.
Context `{LK : Linker} (m : mem).

(** The pages below the entries [ixs] of the table [t], and the pages of a whole subtree of
    height [n], in the order in which they are freed. *)
Definition below (sub : Z -> list Z) (t : Z) (ixs : list Z) : list Z :=
  flat_map (fun i => match next_tbl m t i with Some t' => sub t' | None => [] end) ixs.
Fixpoint tree (n : nat) (t : Z) : list Z :=
  match n with
  | O => [t]
  | S n => below (tree n) t (seqZ 0 (Z.of_nat NPDENTRIES)) ++ [t]
  end.

Fixpoint free_tree (n : nat) (t : Z) : kprog unit :=
  match n with
  | O => kfree t
  | S n => free_level NPDENTRIES t (free_tree n);;; kfree t
  end.

(** The pages that are not free are as they were in [m]. *)
Record freeing (s : kstate) (l : list Z) : Prop := Freeing {
  fr_free : free_pages s l;
  fr_ready : alloc_ready s;
  fr_mem : forall x, (forall p, p ∈ l -> ~ in_page p x) -> k_mem s x = m x
}.

(** A list of pages that can be freed. *)
Definition freeable (ps l : list Z) : Prop := Forall page_ok ps /\ NoDup ps /\ forall p, p ∈ ps -> p ∉ l.

Lemma freeable_app ps qs l : freeable (ps ++ qs) l -> freeable ps l /\ freeable qs (rev ps ++ l).
Proof.
  intros (H1 & H2 & H3). apply Forall_app in H1 as [? ?]. apply NoDup_app in H2 as (? & Hd & ?). split; split_and!; try done.
  - intros p Hp. apply H3. set_solver.
  - intros p Hp [Hr|Hr]%elem_of_app; [|apply (H3 p); [set_solver|done]]. rewrite elem_of_rev in Hr. exact (Hd p Hr Hp).
Qed.

Definition frees (c : kprog unit) (ps : list Z) : Prop :=
  forall s l, freeing s l -> freeable ps l -> exists s', c s = Ret tt s' /\ freeing s' (rev ps ++ l) /\ mem_only s s'.

Lemma kfree_frees t : frees (kfree t) [t].
Proof.
  intros s l [F1 F2 F3] (H1 & _ & H3). apply Forall_cons_1 in H1 as [Ht _]. assert (t ∉ l) as Hn by (apply H3; by left).
  exists (kfreed t s). split; [by apply kfree_run|]. split; [|apply mem_only_kfreed]. cbn [rev app]. split.
  - by apply free_pages_freed.
  - by apply kfreed_ready.
  - intros x Hx. rewrite kfreed_mem, freed_mem_out by (apply (Hx t); by left). apply F3. intros p Hp. apply Hx. by right.
Qed.

Lemma frees_nil : frees (ret tt) [].
Proof. intros s l H _. exists s. split_and!; [done|done|apply mem_only_refl]. Qed.

Lemma frees_seq c d ps qs : frees c ps -> frees d qs -> frees (c;;; d) (ps ++ qs).
Proof.
  intros Hc Hd s l F H. apply freeable_app in H as [H1 H2]. destruct (Hc s l F H1) as (s1 & E1 & F1 & M1).
  destruct (Hd s1 _ F1 H2) as (s2 & E2 & F2 & M2). exists s2. mret E1. split_and!; [done| |by eapply mem_only_trans].
  by rewrite rev_app_distr, <- app_assoc.
Qed.

(** The entries of a table are read before the table is freed. *)
Lemma free_entries sub subfree t ixs : page_ok t -> (forall i, i ∈ ixs -> 0 <= i < 512) -> (forall t', frees (subfree t') (sub t')) ->
  forall s l, freeing s l -> freeable (below sub t ixs) l -> t ∉ below sub t ixs -> t ∉ l ->
  exists s', for_each ixs (fun i => e <- ld64 (entry t i);; when present e do subfree (P2V (PTE_ADDR e))) s = Ret tt s' /\
    freeing s' (rev (below sub t ixs) ++ l) /\ mem_only s s'.
Proof.
  intros Ht Hi Hsub. induction ixs as [|i ixs IH]; intros s l F H Hn Hl; [by apply frees_nil|].
  change (below sub t (i :: ixs)) with ((match next_tbl m t i with Some t' => sub t' | None => [] end) ++ below sub t ixs) in *.
  set (ps := match next_tbl m t i with Some t' => sub t' | None => [] end) in *. apply freeable_app in H as [H1 H2].
  assert (load64 (k_mem s) (entry t i) = load64 m (entry t i)) as Eld.
  { apply load64_other. intros x Hx. apply (fr_mem _ _ F). intros p Hp. pose proof (fp_pages _ _ (fr_free _ _ F)) as Hpl.
    rewrite Forall_forall in Hpl. apply (not_in_page t); [done|by apply Hpl|congruence|]. apply (entry_in_page t i); [apply Hi; by left|done]. }
  assert (exists s1, (e <- ld64 (entry t i);; when present e do subfree (P2V (PTE_ADDR e))) s = Ret tt s1 /\ freeing s1 (rev ps ++ l) /\ mem_only s s1)
    as (s1 & E1 & F1 & M1).
  { unfold ld64. rewrite bind_gets, Eld. unfold next_tbl in ps. subst ps. destruct (present _); [by apply Hsub|by apply frees_nil]. }
  destruct (IH ltac:(intros; apply Hi; by right) s1 (rev ps ++ l) F1 H2) as (s2 & E2 & F2 & M2).
  - set_solver.
  - intros [Hr|?]%elem_of_app; [|done]. rewrite elem_of_rev in Hr. set_solver.
  - exists s2. cbn [for_each]. mret E1. split_and!; [done| |by eapply mem_only_trans]. by rewrite rev_app_distr, <- app_assoc.
Qed.

Lemma free_level_frees n k sub subfree t : (k <= 512)%nat -> (forall t', frees (subfree t') (sub t')) ->
  n = Z.of_nat k -> frees (free_level k t subfree;;; kfree t) (below sub t (seqZ 0 n) ++ [t]).
Proof.
  intros Hk Hsub -> s l F H. apply freeable_app in H as Hs. destruct Hs as [H1 H2]. destruct H as (Hpg & Hnd & Hl).
  assert (page_ok t) as Ht by (apply Forall_app in Hpg as [_ [? _]%Forall_cons_1]; done).
  apply NoDup_app in Hnd as (_ & Hd & _).
  destruct (free_entries sub subfree t (seqZ 0 (Z.of_nat k)) Ht ltac:(intros i ?%elem_of_seqZ; lia) Hsub s l F H1) as (s1 & E1 & F1 & M1).
  - intros Hin. apply (Hd t Hin). by left.
  - apply Hl. set_solver.
  - destruct (kfree_frees t s1 _ F1 H2) as (s2 & E2 & F2 & M2). exists s2. unfold free_level. mret E1. split_and!; [done| |by eapply mem_only_trans].
    by rewrite rev_app_distr, <- app_assoc.
Qed.

Lemma free_tree_frees n t : frees (free_tree n t) (tree n t).
Proof. revert t. induction n as [|n IH]; intros t; [apply kfree_frees|]. by apply free_level_frees; [unfold NPDENTRIES; lia|..]. Qed.

Lemma freevm_frees root : root <> 0 -> frees (freevm root) (below (tree 3) root (seqZ 0 256) ++ [root]).
Proof.
  intros Hr. unfold freevm. destruct (Z.eqb_spec root 0); [done|].
  apply (free_level_frees 256 256 (tree 3) free_pdp root); [lia|exact (free_tree_frees 3)|done].
Qed.

(** *** Which pages these are *)

(** The page [p] is reached from [t], which is at the end of the path [q], through at most [n]
    entries. *)
Definition reaches (q : list Z) (t : Z) (n : nat) (p : Z) : Prop :=
  exists ix, (length ix <= n)%nat /\ idxs_ok q ix /\ descend m t ix = Some p.

Lemma idx_ok_below q i : q <> [] -> idx_ok q i <-> 0 <= i < 512.
Proof. unfold idx_ok. naive_solver. Qed.

Lemma elem_of_below sub t ixs p : p ∈ below sub t ixs <-> exists i t', i ∈ ixs /\ next_tbl m t i = Some t' /\ p ∈ sub t'.
Proof.
  unfold below. rewrite list_elem_of_In, in_flat_map. split.
  - intros (i & Hi & Hp). destruct (next_tbl m t i) as [t'|] eqn:E; [|done]. exists i, t'. by rewrite !list_elem_of_In.
  - intros (i & t' & Hi & E & Hp). exists i. rewrite E. by rewrite <- !list_elem_of_In.
Qed.

Lemma elem_of_tree n q t p : q <> [] -> p ∈ tree n t <-> reaches q t n p.
Proof.
  revert q t. induction n as [|n IH]; intros q t Hq.
  - cbn. rewrite list_elem_of_singleton. split; [intros ->; by exists []|]. intros ([|] & Hl & _ & E); [|cbn in Hl; lia]. by injection E.
  - cbn [tree]. rewrite elem_of_app, elem_of_below, list_elem_of_singleton. split.
    + intros [(i & t' & Hi & E & Hp)| ->]; [|exists []; split_and!; [cbn; lia|done|done]].
      apply (IH (q ++ [i])) in Hp as (ix & Hl & Hx & Hd); [|by destruct q]. exists (i :: ix). cbn. rewrite E. split_and!; [lia| |done|done].
      apply idx_ok_below; [done|]. apply elem_of_seqZ in Hi. unfold NPDENTRIES in Hi. lia.
    + intros ([|i ix] & Hl & Hx & Hd); [right; by injection Hd|left]. cbn in Hl, Hx, Hd. destruct Hx as [Hi Hx].
      destruct (next_tbl m t i) as [t'|] eqn:E; [|done]. exists i, t'. split_and!; [|done|].
      * apply elem_of_seqZ. apply idx_ok_below in Hi; [|done]. unfold NPDENTRIES. lia.
      * apply (IH (q ++ [i])); [by destruct q|]. exists ix. split_and!; [lia|done|done].
Qed.

(** Different paths lead to different pages. *)
Definition injective (q : list Z) (t : Z) (n : nat) : Prop :=
  forall ix ix' p, (length ix <= n)%nat -> (length ix' <= n)%nat -> idxs_ok q ix -> idxs_ok q ix' ->
    descend m t ix = Some p -> descend m t ix' = Some p -> ix = ix'.

Lemma injective_next q t n i t' : injective q t (S n) -> idx_ok q i -> next_tbl m t i = Some t' -> injective (q ++ [i]) t' n.
Proof.
  intros Hinj Hi E ix ix' p H1 H2 H3 H4 H5 H6. assert (i :: ix = i :: ix') as Eq; [|by injection Eq].
  apply (Hinj _ _ p); cbn; try lia; try done; by rewrite E.
Qed.

Lemma NoDup_below n q t ixs : injective q t (S n) -> NoDup ixs -> (forall i, i ∈ ixs -> idx_ok q i) ->
  (forall i t', i ∈ ixs -> next_tbl m t i = Some t' -> NoDup (tree n t')) -> NoDup (below (tree n) t ixs).
Proof.
  intros Hinj. induction ixs as [|i ixs IH]; intros Hnd Hok Hsub; [constructor|]. apply NoDup_cons in Hnd as [Hni Hnd].
  change (below (tree n) t (i :: ixs)) with ((match next_tbl m t i with Some t' => tree n t' | None => [] end) ++ below (tree n) t ixs).
  apply NoDup_app. split_and!.
  - destruct (next_tbl m t i) eqn:E; [apply (Hsub i); [by left|done]|constructor].
  - intros p Hp Hb. destruct (next_tbl m t i) as [t1|] eqn:E; [|by inversion Hp]. apply elem_of_below in Hb as (j & t2 & Hj & E2 & Hp2).
    apply (elem_of_tree n (q ++ [i])) in Hp as (ix & Hl & Hx & Hd); [|by destruct q].
    apply (elem_of_tree n (q ++ [j])) in Hp2 as (ix2 & Hl2 & Hx2 & Hd2); [|by destruct q].
    assert (i :: ix = j :: ix2) as Eq; [|injection Eq as -> _; done].
    apply (Hinj _ _ p); cbn; try lia; [split; [apply Hok; by left|done]|split; [apply Hok; by right|done]|by rewrite E|by rewrite E2].
  - apply IH; [done|intros; apply Hok; by right|]. intros j t' Hj. apply Hsub. by right.
Qed.

Lemma NoDup_snoc_root n q t ixs : injective q t (S n) -> NoDup (below (tree n) t ixs) -> (forall i, i ∈ ixs -> idx_ok q i) ->
  NoDup (below (tree n) t ixs ++ [t]).
Proof.
  intros Hinj Hnd Hok. apply NoDup_app. split_and!; [done| |apply NoDup_singleton]. intros p Hp ->%list_elem_of_singleton.
  apply elem_of_below in Hp as (i & t' & Hi & E & Hp). apply (elem_of_tree n (q ++ [i])) in Hp as (ix & Hl & Hx & Hd); [|by destruct q].
  assert ([] = i :: ix) as Eq; [|done]. apply (Hinj _ _ t); cbn; [lia|lia|done|split; [by apply Hok|done]|done|by rewrite E].
Qed.

Lemma NoDup_tree n q t : q <> [] -> injective q t n -> NoDup (tree n t).
Proof.
  revert q t. induction n as [|n IH]; intros q t Hq Hinj; [apply NoDup_singleton|]. cbn [tree].
  assert (forall i, i ∈ seqZ 0 (Z.of_nat NPDENTRIES) -> idx_ok q i) as Hok.
  { intros i Hi%elem_of_seqZ. apply idx_ok_below; [done|]. unfold NPDENTRIES in Hi. lia. }
  apply (NoDup_snoc_root n q); [done| |done]. apply (NoDup_below n q); [done|apply NoDup_seqZ|done|].
  intros i t' Hi E. apply (IH (q ++ [i])); [by destruct q|]. apply (injective_next q t n i t'); [done|by apply Hok|done].
Qed.

End Free.

(** The four indices of a user address, and back. *)
Lemma indices_of_va va : 0 <= va < USERTOP -> idxs_ok [] (path va ++ [PTX va]).
Proof. intros Hva. apply idxs_ok_app. split; [by apply path_idxs_ok|]. split; [|done]. split; [apply idx_range|done]. Qed.

Lemma va_of_indices a b c d : idxs_ok [] [a; b; c; d] -> exists va, 0 <= va < USERTOP /\ path va = [a; b; c] /\ PTX va = d.
Proof.
  intros ([Ha Ha'] & [Hb _] & [Hc _] & [Hd _] & _). specialize (Ha' eq_refl).
  exists ((((a * 512 + b) * 512 + c) * 512 + d) * 4096). unfold USERTOP, path, PMX, PDPX, PDX, PTX. rewrite !idx_mod by lia.
  change (2 ^ 39) with 549755813888. change (2 ^ 30) with 1073741824. change (2 ^ 21) with 2097152. change (2 ^ 12) with 4096.
  split; [lia|]. split; [f_equal; [|f_equal; [|f_equal]]|]; Z.div_mod_to_equations; lia.
Qed.

Lemma next_leaf m root va : descend m root (path va ++ [PTX va]) = frame <$> translate m root va.
Proof.
  rewrite descend_app. unfold translate, leaf. destruct (descend m root (path va)) as [t|]; [|done]. cbn. unfold next_tbl, frame.
  by destruct (present _).
Qed.

Section Reach.
Context `{LK : Linker} (own : gmap Z (list Z)) (s : kstate) (root : Z) (l : list Z) (S : space own s root l).

(** A path of four entries ends at a user page, a shorter one at a table. *)
Lemma reach_cases ix p : (length ix <= 4)%nat -> idxs_ok [] ix -> descend (k_mem s) root ix = Some p ->
  own !! p = Some ix \/
  exists va pte, 0 <= va < USERTOP /\ ix = path va ++ [PTX va] /\ translate (k_mem s) root va = Some pte /\ frame pte = p.
Proof.
  intros Hl Hix Hd. destruct (decide (length ix <= 3)%nat) as [H3|H3].
  - left. apply (descend_own own (k_mem s) root ix root [] p); [apply S|apply S|done|done|done].
  - right. destruct ix as [|a [|b [|c [|d [|]]]]]; cbn in Hl, H3; try lia. destruct (va_of_indices a b c d Hix) as (va & Hva & Ep & Ex).
    exists va. change [a; b; c; d] with ([a; b; c] ++ [d]) in *. rewrite <- Ep, <- Ex in *. rewrite next_leaf in Hd.
    apply fmap_Some in Hd as (pte & E & ->). by exists pte.
Qed.

Lemma uses_reaches p : uses own (k_mem s) root p <-> reaches (k_mem s) [] root 4 p.
Proof.
  split.
  - intros [[ix Hix]|(va & pte & Hva & Ht & <-)].
    + destruct (pt_linked _ _ _ (sp_pt _ _ _ _ S) p ix Hix) as (L1 & L2 & L3). exists ix. split_and!; [lia|done|done].
    + exists (path va ++ [PTX va]). split_and!; [done|by apply indices_of_va|]. by rewrite next_leaf, Ht.
  - intros (ix & Hl & Hix & Hd). destruct (reach_cases ix p Hl Hix Hd) as [Ho|(va & pte & Hva & _ & Ht & E)]; [left; by exists ix|right; eauto].
Qed.

Lemma space_injective : injective (k_mem s) [] root 4.
Proof.
  intros ix ix' p H1 H2 H3 H4 H5 H6. destruct S as [Hp [U1 U2] Hf].
  destruct (reach_cases ix p H1 H3 H5) as [Ho|(va & pte & Hva & Ei & Ht & Ef)], (reach_cases ix' p H2 H4 H6) as [Ho'|(va' & pte' & Hva' & Ei' & Ht' & Ef')].
  - congruence.
  - destruct (U1 va' pte' Hva' Ht') as (_ & Hn & _). congruence.
  - destruct (U1 va pte Hva Ht) as (_ & Hn & _). congruence.
  - assert (va / PGSIZE = va' / PGSIZE) as Ev by (apply (U2 va va' pte pte'); [done|done|done|done|congruence]).
    apply translate_page_path in Ev as [E1 E2]. congruence.
Qed.

Lemma elem_of_space p : p ∈ below (k_mem s) (tree (k_mem s) 3) root (seqZ 0 256) ++ [root] <-> uses own (k_mem s) root p.
Proof.
  rewrite uses_reaches, elem_of_app, elem_of_below, list_elem_of_singleton. split.
  - intros [(i & t' & Hi & E & Hp)| ->]; [|exists []; split_and!; [cbn; lia|done|done]].
    apply (elem_of_tree _ 3 [i]) in Hp as (ix & Hl & Hx & Hd); [|done]. exists (i :: ix). cbn. rewrite E.
    apply elem_of_seqZ in Hi. split_and!; [lia| |done|done]. split; [lia|]. intros _. lia.
  - intros ([|i ix] & Hl & Hx & Hd); [right; by injection Hd|left]. cbn in Hl, Hx, Hd. destruct Hx as [[Hi Hi'] Hx].
    destruct (next_tbl (k_mem s) root i) as [t'|] eqn:E; [|done]. exists i, t'. specialize (Hi' eq_refl). split_and!; [|done|].
    + apply elem_of_seqZ. lia.
    + apply (elem_of_tree _ 3 [i]); [done|]. exists ix. split_and!; [lia|done|done].
Qed.

Lemma space_freeable : freeable (below (k_mem s) (tree (k_mem s) 3) root (seqZ 0 256) ++ [root]) l.
Proof.
  assert (forall i, i ∈ seqZ 0 256 -> idx_ok [] i) as Hok by (intros i Hi%elem_of_seqZ; split; lia). split_and!.
  - apply Forall_forall. intros p Hp%elem_of_space. by apply (uses_page own s root l p).
  - apply (NoDup_snoc_root _ _ []); [apply space_injective| |done].
    apply (NoDup_below _ _ []); [apply space_injective|apply NoDup_seqZ|done|]. intros i t' Hi E.
    apply (NoDup_tree _ 3 [i]); [done|]. apply (injective_next _ [] root 3 i t'); [apply space_injective|by apply Hok|done].
  - intros p Hp%elem_of_space. by apply (uses_page own s root l p).
Qed.

Lemma freevm_run : free_pages s l -> alloc_ready s -> exists s' l', freevm root s = Ret tt s' /\
  free_pages s' l' /\ alloc_ready s' /\ (forall p, p ∈ l' <-> p ∈ l \/ uses own (k_mem s) root p) /\
  (forall x, (forall p, p ∈ l' -> ~ in_page p x) -> k_mem s' x = k_mem s x) /\ mem_only s s'.
Proof.
  intros Hf Hr. assert (root <> 0) as H0.
  { pose proof (pt_page _ _ _ (sp_pt _ _ _ _ S) root [] (pt_root _ _ _ (sp_pt _ _ _ _ S))) as (_ & _ & _ & ?). lia. }
  destruct (freevm_frees (k_mem s) root H0 s l) as (s' & E & [F1 F2 F3] & M); [by split|apply space_freeable|].
  exists s', (rev (below (k_mem s) (tree (k_mem s) 3) root (seqZ 0 256) ++ [root]) ++ l). split_and!; try done.
  intros p. rewrite elem_of_app, elem_of_rev, elem_of_space. tauto.
Qed.

End Reach.

(** ** Property *)

Section Props.
Context `{LK : Linker}.

Lemma copying_freed own s root l0 : space own s root l0 -> forall i d own' s' l', free_pages s l0 -> copying s root l0 i d own' s' l' ->
  exists s'' l'', freevm d s' = Ret tt s'' /\ free_pages s'' l'' /\ l'' ≡ₚ l0 /\ space own s'' root l'' /\
    forall va, 0 <= va < USERTOP -> ubyte (k_mem s'') root va = ubyte (k_mem s) root va.
Proof.
  intros Hsp i d own' s' l' Hf C. destruct (copying_apart _ _ _ _ Hsp _ _ _ _ _ C) as (Hsp' & Hv & Ha). pose proof C as [C1 C2 C3 C4 C5 C6 C7 C8 C9].
  destruct (freevm_run own' s' d l' (vm_ready_space _ _ _ _ C1 C2)) as (s2 & l2 & E & F2 & R2 & Hl2 & Hm & M); [apply C1|apply C1|].
  assert (l2 ≡ₚ l0) as Hperm.
  { apply NoDup_Permutation; [apply F2|apply Hf|]. intros p. rewrite Hl2. split; [intros [?|?]; [by apply C8|by apply C3]|apply C9]. }
  assert (forall p x, uses own (k_mem s) root p -> in_page p x -> k_mem s2 x = k_mem s x) as Hsame.
  { intros p x Hp Hx. destruct (uses_page _ _ _ _ _ Hsp Hp) as [Hp1 Hp2].
    assert (forall q, q ∈ l0 -> ~ in_page q x) as Hout.
    { intros q Hq. pose proof (fp_pages _ _ Hf) as Hpg. rewrite Forall_forall in Hpg. apply (not_in_page p); [done|by apply Hpg|congruence|done]. }
    rewrite Hm by (intros q Hq; apply Hout; by rewrite <- Hperm). apply C4. intros q Hq. by apply Hout, C3. }
  exists s2, l2. split_and!; [done|done|done| |].
  - apply (space_frame own s s2 root l0 l2 Hsp); [|done]. intros p Hp. by rewrite <- Hperm.
  - intros va Hva. by apply (space_frame own s s2 root l0 l0 Hsp).
Qed.

(** C17: copyuvm gives a child the memory of its parent.  With enough free pages it returns a new
    address space in which the pages of the parent from the second one up to [sz] are mapped with
    the same contents and the same flags, and nothing else; the parent's mappings and bytes
    are as before, the two have no page in common, and what is later stored through one
    of them is not seen through the other.  freevm of the copy gives back exactly the pages that it
    was made of, and leaves the parent alone: no page is lost or freed twice. *)
Theorem copyuvm_freevm_roundtrip own s root sz q l :
  space own s root (q :: l) -> free_pages s (q :: l) -> alloc_ready s -> 0 <= sz < 4294967296 ->
  (4 * copied_pages sz <= length l)%nat ->
  (forall va, PGSIZE <= va < PGSIZE + PGSIZE * Z.of_nat (copied_pages sz) -> is_Some (translate (k_mem s) root va)) ->
  exists own' s' l', copyuvm root sz s = Ret q s' /\ vm_ready own' s' q l' /\ space own' s' q l' /\ space own s' root l' /\
    (forall va, 0 <= va < USERTOP -> translate (k_mem s') root va = translate (k_mem s) root va /\
       ubyte (k_mem s') root va = ubyte (k_mem s) root va /\
       ubyte (k_mem s') q va = (if in_range PGSIZE (PGSIZE * Z.of_nat (copied_pages sz)) va then ubyte (k_mem s) root va else None)) /\
    (forall va, PGSIZE <= va < PGSIZE + PGSIZE * Z.of_nat (copied_pages sz) ->
       (PTE_FLAGS <$> translate (k_mem s') q va) = (PTE_FLAGS <$> translate (k_mem s) root va)) /\
    (forall va pte b va', 0 <= va < USERTOP -> 0 <= va' < USERTOP -> va mod PGSIZE + Z.of_nat (length b) <= PGSIZE ->
       (translate (k_mem s') q va = Some pte ->
        ubyte (at_list (frame pte + va mod PGSIZE) b (k_mem s')) root va' = ubyte (k_mem s') root va') /\
       (translate (k_mem s') root va = Some pte ->
        ubyte (at_list (frame pte + va mod PGSIZE) b (k_mem s')) q va' = ubyte (k_mem s') q va')) /\
    exists s'' l'', freevm q s' = Ret tt s'' /\ free_pages s'' l'' /\ l'' ≡ₚ q :: l /\ space own s'' root l'' /\
      forall va, 0 <= va < USERTOP -> ubyte (k_mem s'') root va = ubyte (k_mem s) root va.
Proof.
  intros Hsp Hf Hr Hsz Hl Hall. destruct (copyuvm_run own s root (q :: l) Hsp sz q l Hf Hr eq_refl Hsz Hl Hall) as (own' & s' & l' & E & C).
  destruct (copying_apart _ _ _ _ Hsp _ _ _ _ _ C) as (Hsp' & Hv & Ha). pose proof C as [C1 C2 C3 C4 C5 C6 C7 C8 C9].
  pose proof (vm_ready_space _ _ _ _ C1 C2) as Hd. exists own', s', l'. split_and!; try done.
  - intros va Hva. destruct (Hv va Hva) as (-> & _ & ->). split_and!; [done|done|]. destruct (in_range _ _ _) eqn:Er.
    + apply in_range_spec in Er. by apply C5.
    + unfold ubyte. rewrite C6; [done|done|]. intros Hin. apply (in_range_spec PGSIZE) in Hin. congruence.
  - intros va Hva. by apply C5.
  - intros va pte b va' Hva Hva' Hb. split; intros Ht; [by eapply (apart_store own own')|].
    apply (apart_store own' own s' q root l' va pte b); try done. intros p H1 H2. by apply (Ha p).
  - by apply (copying_freed own s root (q :: l) Hsp _ _ own' s' l' Hf C).
Qed.

End Props.

(** *** Witness *)

#[local] Existing Instance small_linker.

(** An address space with the page at 4096 mapped, and free pages. *)
Lemma space_to_copy : exists own s q l, space own s one_page (q :: l) /\ free_pages s (q :: l) /\ alloc_ready s /\ (10 <= length l)%nat /\
  forall va, 4096 <= va < 8192 -> is_Some (translate (k_mem s) one_page va) /\ ubyte (k_mem s) one_page va = Some 0.
Proof.
  destruct (some_pages_free 20) as [Hl Hr]; [lia|].
  destruct (setupkvm_run (some_pages 20) one_page _ Hl Hr) as (s & _ & V & U & T & _).
  destruct (alloc_round _ s one_page 4096 _ _ V U) as (own & s' & l & _ & _ & _ & A & Hc); [unfold USERTOP; lia|done|apply T; unfold USERTOP; lia|cbn; lia|].
  destruct l as [|q l]; [cbn in Hc; lia|]. exists own, s', q, l. destruct A as [A1 A2 A3 A4 A5 A6]. split_and!.
  - by apply vm_ready_space.
  - apply A1.
  - apply A1.
  - cbn in Hc. lia.
  - intros va Hva. destruct (A3 va) as (E & pte & Ht & _); [unfold PGSIZE; lia|]. split; [by exists pte|done].
Qed.

Lemma copyuvm_freevm_roundtrip_witness : exists s q s' s'', copyuvm one_page 5000 s = Ret q s' /\ ubyte (k_mem s') q 4999 = Some 0 /\
  freevm q s' = Ret tt s''.
Proof.
  destruct space_to_copy as (own & s & q & l & Hsp & Hf & Hr & Hl & Hv). assert (copied_pages 5000 = 1%nat) as E1 by reflexivity.
  destruct (copyuvm_freevm_roundtrip own s one_page 5000 q l Hsp Hf Hr) as (own' & s' & l' & E & _ & _ & _ & Hub & _ & _ & s2 & l2 & E2 & _).
  - lia.
  - rewrite E1. lia.
  - rewrite E1. intros va Hva. apply Hv. unfold PGSIZE in Hva. lia.
  - exists s, q, s', s2. split_and!; [exact E| |exact E2]. destruct (Hub 4999) as (_ & _ & ->); [unfold USERTOP; lia|].
    rewrite E1. change (in_range PGSIZE (PGSIZE * Z.of_nat 1) 4999) with true. apply Hv. lia.
Defined.
