(* ===== verification/Sched.v ===== *)
(** * Sched: the scheduling half of proc.c

    [sched], [yield], [sleep], [wakeup], [kill] and the per-CPU [scheduler].  A
    swtch() is the outcome [Swtch]: the thread's continuation waits for the state in
    which the scheduler, or the thread, gets the CPU back. *)

From S2P Require Import Prelude Machine Spinlock Cstring Ktrace Kalloc Vm.
#[local] Open Scope prog_scope.

Definition pinit : kprog unit := initlock LKptable "ptable".

Definition swtch : kprog unit := fun s => Swtch s (fun s' => Ret tt s').

Definition sched : kprog unit :=
  h <- holding LKptable;;
  if negb h then panic "sched ptable.lock" else
  ncli <- gets (fun s => cpu_ncli (k_cpu s));;
  if negb (ncli =? 1) then panic "sched locks" else
  i <- myproc;;
  p <- gets (proc_at i);;
  if bool_decide (p_state p = RUNNING) then panic "sched running" else
  fl <- gets (fun s => cpu_if (k_cpu s));;
  if (fl : bool) then panic "sched interruptible" else
  intena <- gets (fun s => cpu_intena (k_cpu s));;
  swtch;;;
  modify (upd_cpu (set_cpu_intena intena)).

Definition yield : kprog unit :=
  acquire LKptable;;;
  i <- myproc;;
  modify (upd_proc i (set_p_state RUNNABLE));;;
  sched;;;
  release LKptable.

Definition sleep (ch : chan) (lk : lockid) : kprog unit :=
  c <- gets k_cpu;;
  match cpu_proc c with
  | None => panic "sleep"
  | Some i =>
    (when negb (bool_decide (lk = LKptable)) do (acquire LKptable;;; release lk));;;
    modify (upd_proc i (set_p_chan ch));;;
    modify (upd_proc i (set_p_state SLEEPING));;;
    sched;;;
    i <- myproc;;
    modify (upd_proc i (set_p_chan ChNull));;;
    when negb (bool_decide (lk = LKptable)) do (release LKptable;;; acquire lk)
  end.

Definition wakeup1 (ch : chan) : kprog unit :=
  for_each (seq 0 NPROC) (fun i =>
    p <- gets (proc_at i);;
    when bool_decide (p_state p = SLEEPING) && bool_decide (p_chan p = ch) do
      modify (upd_proc i (set_p_state RUNNABLE))).

Definition wakeup (ch : chan) : kprog unit :=
  acquire LKptable;;;
  wakeup1 ch;;;
  release LKptable.

(** The entry with the given pid has been found. *)
Definition kill_found (i : nat) : kprog (option Z) :=
  modify (upd_proc i (set_p_killed 1));;;
  p <- gets (proc_at i);;
  (when bool_decide (p_state p = SLEEPING) do modify (upd_proc i (set_p_state RUNNABLE)));;;
  release LKptable;;;
  ret (Some 0).
Definition kill (pid : Z) : kprog Z :=
  acquire LKptable;;;
  r <- for_break (seq 0 NPROC) (fun i =>
    p <- gets (proc_at i);;
    if p_pid p =? pid then kill_found i else ret None);;
  match r with
  | Some v => ret v
  | None => release LKptable;;; ret (-1)
  end.

(** The scan of the process table, from the entries [l] on, with the count of entries
    skipped since a process last ran. *)
Fixpoint sched_scan (l : list nat) (skipped : Z) : kprog Z :=
  match l with
  | [] => ret skipped
  | i :: l =>
    p <- gets (proc_at i);;
    if negb (bool_decide (p_state p = RUNNABLE)) then sched_scan l (skipped + 1) else
    modify (upd_cpu (set_cpu_proc (Some i)));;;
    switchuvm i;;;
    modify (upd_proc i (set_p_state RUNNING));;;
    swtch;;;
    switchkvm;;;
    modify (upd_cpu (set_cpu_proc None));;;
    sched_scan l 0
  end.

(** One round of the scheduler's loop; hlt() waits for an interrupt and changes
    nothing. *)
Definition scheduler_round (skipped : Z) : kprog Z :=
  sti;;;
  acquire LKptable;;;
  skipped <- sched_scan (seq 0 NPROC) skipped;;
  release LKptable;;;
  if skipped >? Z.of_nat NPROC then ret 0 else ret skipped.

(** The scheduler never returns: [fuel] bounds the rounds shown. *)
Fixpoint scheduler (fuel : nat) (skipped : Z) : kprog unit :=
  match fuel with
  | O => fun s => NoFuel s
  | S fuel => skipped <- scheduler_round skipped;; scheduler fuel skipped
  end.

(** ** The process table *)

Lemma proc_at_upd i f s : (i < length (k_ptable s))%nat -> proc_at i (upd_proc i f s) = f (proc_at i s).
Proof.
  intros [p Hp]%lookup_lt_is_Some. unfold proc_at, upd_proc; simpl. by rewrite list_lookup_alter_eq, Hp.
Qed.

Lemma proc_at_upd_ne i j f s : i <> j -> proc_at j (upd_proc i f s) = proc_at j s.
Proof. intros Hne. unfold proc_at, upd_proc; simpl. by rewrite list_lookup_alter_ne. Qed.

Lemma length_upd i f s : length (k_ptable (upd_proc i f s)) = length (k_ptable s).
Proof. apply length_alter. Qed.

Lemma set_ptable_same s : set_k_ptable (k_ptable s) s = s.
Proof. by destruct s. Qed.

#[export] Instance stable_set_ptable v : Stable (set_k_ptable v).
Proof. by split. Qed.
#[export] Instance stable_upd_proc i f : Stable (upd_proc i f).
Proof. by split. Qed.

(** A loop over the table that updates each entry by itself. *)
Lemma table_loop (c : proc -> bool) (f : proc -> proc) (s : kstate) (pre post : list proc) :
  k_ptable s = pre ++ post ->
  for_each (seq (length pre) (length post)) (fun i =>
    p <- gets (proc_at i);; when c p do modify (upd_proc i f)) s =
  Ret tt (set_k_ptable (pre ++ map (fun p => if c p then f p else p) post) s).
Proof.
  revert s pre. induction post as [|p post IH]; intros s pre Hs; simpl.
  - rewrite app_nil_r in *. by rewrite <- Hs, set_ptable_same.
  - rewrite bind_assoc, bind_gets.
    assert (proc_at (length pre) s = p) as -> by (unfold proc_at; by rewrite Hs, list_lookup_middle).
    assert (forall q s', k_ptable s' = (pre ++ [q]) ++ post ->
      for_each (seq (S (length pre)) (length post)) (fun i =>
        p <- gets (proc_at i);; when c p do modify (upd_proc i f)) s' =
      Ret tt (set_k_ptable (pre ++ q :: map (fun p => if c p then f p else p) post) s')) as IH'.
    { intros q s' Hs'. rewrite <- (Nat.add_1_r (length pre)).
      change 1%nat with (length [q]). rewrite <- length_app. rewrite IH by done. by rewrite <- app_assoc. }
    destruct (c p).
    + rewrite bind_modify. rewrite (IH' (f p)); [done|]. unfold upd_proc; simpl.
      by rewrite Hs, alter_app_r_alt, Nat.sub_diag, <- app_assoc by lia.
    + rewrite bind_ret. rewrite (IH' p); [done|]. by rewrite <- app_assoc.
Qed.

(** What wakeup1 does to an entry. *)
Definition wake (ch : chan) (p : proc) : proc :=
  if bool_decide (p_state p = SLEEPING) && bool_decide (p_chan p = ch) then set_p_state RUNNABLE p else p.

Lemma wakeup1_run ch s : length (k_ptable s) = NPROC ->
  wakeup1 ch s = Ret tt (set_k_ptable (map (wake ch) (k_ptable s)) s).
Proof. intros Hl. unfold wakeup1. rewrite <- Hl. by apply (table_loop _ _ s []). Qed.

Lemma leave_enter_ptable t s : lock_free LKptable s -> cpu_ok (k_cpu s) ->
  leave LKptable (set_k_ptable t (enter LKptable s)) = set_k_ptable t (sync s).
Proof.
  intros Hf Hc. change (leave LKptable (set_k_ptable t (enter LKptable s)))
    with (set_k_ptable t (leave LKptable (enter LKptable s))). by rewrite leave_enter.
Qed.

Lemma wakeup_run ch s : length (k_ptable s) = NPROC -> lock_free LKptable s -> cpu_ok (k_cpu s) ->
  wakeup ch s = Ret tt (set_k_ptable (map (wake ch) (k_ptable s)) (sync s)).
Proof.
  intros Hl Hf Hc. unfold wakeup. mret (acquire_run LKptable s Hf).
  mret (wakeup1_run ch (enter LKptable s) Hl).
  change (k_ptable (enter LKptable s)) with (k_ptable s). set (t := map _ _).
  rewrite (release_after LKptable s (set_k_ptable t (enter LKptable s)) Hc eq_refl eq_refl).
  by rewrite leave_enter_ptable.
Qed.

(** The same call inside the critical section of another lock, after an update. *)
Lemma wakeup_inside ch lk u s : Stable u -> lk <> LKptable -> length (k_ptable (u (enter lk s))) = NPROC ->
  lock_free LKptable s -> cpu_ok (k_cpu s) ->
  wakeup ch (u (enter lk s)) =
    Ret tt (set_k_ptable (map (wake ch) (k_ptable (u (enter lk s)))) (u (enter lk s))).
Proof.
  intros U Hne Hl Hf Hc. rewrite wakeup_run; [|done| |].
  - by rewrite sync_stable, sync_enter by done.
  - apply lock_free_stable; [done|]. by apply enter_free_ne.
  - rewrite stable_cpu. by apply cpu_ok_push.
Qed.

(** The running thread is process [i], and [lk] is the one lock it holds. *)
Record holds_only (i : nat) (lk : lockid) (s : kstate) : Prop := Holds_only {
  ho_proc : cpu_proc (k_cpu s) = Some i;
  ho_lock : lock_mine lk s;
  ho_ncli : cpu_ncli (k_cpu s) = 1;
  ho_if : cpu_if (k_cpu s) = false
}.

Lemma sched_run i s : holds_only i LKptable s -> p_state (proc_at i s) <> RUNNING ->
  sched s = Swtch s (modify (upd_cpu (set_cpu_intena (cpu_intena (k_cpu s))))).
Proof.
  intros [Hp [nm Hl] Hn Hi] Hr. unfold sched, holding. rewrite bind_gets. unfold lock_of. rewrite Hl. simpl.
  rewrite bool_decide_true by done. cbn [negb]. rewrite bind_gets, Hn. simpl.
  rewrite (bind_myproc i), bind_gets, bool_decide_false by done.
  rewrite bind_gets, Hi, bind_gets. done.
Qed.

(** The state in which a sleeping thread gives the CPU away, and what it does when it
    gets it back. *)
Definition asleep (i : nat) (ch : chan) (lk : lockid) (s : kstate) : kstate :=
  upd_proc i (set_p_state SLEEPING) (upd_proc i (set_p_chan ch)
    (if decide (lk = LKptable) then s else leave lk (enter LKptable s))).
Definition awake (lk : lockid) (intena : bool) : kprog unit :=
  modify (upd_cpu (set_cpu_intena intena));;;
  i <- myproc;;
  modify (upd_proc i (set_p_chan ChNull));;;
  when negb (bool_decide (lk = LKptable)) do (release LKptable;;; acquire lk).

Lemma holds_switch i lk s : lk <> LKptable -> holds_only i lk s -> lock_free LKptable s ->
  release lk (enter LKptable s) = Ret tt (leave lk (enter LKptable s)) /\
  holds_only i LKptable (leave lk (enter LKptable s)).
Proof.
  intros Hne [Hp Hl Hn Hi] Hf. split.
  - apply release_run; [by apply enter_mine_ne|done|]. simpl. lia.
  - split; [done| | |].
    + apply leave_mine_ne; [done|apply enter_mine].
    + simpl. lia.
    + simpl. rewrite Hn. done.
Qed.

Lemma holds_upd i j lk f s : holds_only i lk s -> holds_only i lk (upd_proc j f s).
Proof. intros []. by split. Qed.

Lemma asleep_holds i ch lk s : holds_only i lk s -> lock_free LKptable s \/ lk = LKptable ->
  holds_only i LKptable (asleep i ch lk s).
Proof.
  intros Hh Hf. unfold asleep. apply holds_upd, holds_upd. destruct (decide (lk = LKptable)) as [-> |Hne]; [done|].
  apply holds_switch; [done|done|]. by destruct Hf.
Qed.

Lemma asleep_proc i ch lk s : (i < length (k_ptable s))%nat ->
  proc_at i (asleep i ch lk s) = set_p_state SLEEPING (set_p_chan ch (proc_at i s)).
Proof.
  intros Hi. unfold asleep. rewrite !proc_at_upd; [|by destruct (decide _)|].
  - by destruct (decide _).
  - rewrite length_upd. by destruct (decide _).
Qed.

Lemma sleep_run i ch lk s : (i < length (k_ptable s))%nat -> holds_only i lk s ->
  lock_free LKptable s \/ lk = LKptable ->
  sleep ch lk s = Swtch (asleep i ch lk s) (awake lk (cpu_intena (k_cpu (asleep i ch lk s)))).
Proof.
  intros Hi Hh Hf. pose proof (asleep_holds i ch lk s Hh Hf) as Ha. pose proof (asleep_proc i ch lk s Hi) as Hs.
  assert (sched (asleep i ch lk s) = _) as E by (apply (sched_run i); [done|by rewrite Hs]).
  unfold sleep. rewrite bind_gets, (ho_proc _ _ _ Hh).
  unfold asleep in *. destruct (decide (lk = LKptable)) as [-> |Hne].
  - rewrite (bool_decide_true (LKptable = LKptable)) by done. cbn [negb].
    rewrite bind_ret, !bind_modify, (bind_Swtch _ _ _ _ _ E). unfold awake.
    by rewrite bool_decide_true.
  - destruct Hf as [Hf|]; [|done]. rewrite bool_decide_false by done. cbn [negb].
    rewrite bind_assoc. mret (acquire_run LKptable s Hf).
    destruct (holds_switch i lk s Hne Hh Hf) as [Er _]. mret Er.
    rewrite !bind_modify, (bind_Swtch _ _ _ _ _ E). unfold awake. by rewrite bool_decide_false.
Qed.

Definition awakened (i : nat) (lk : lockid) (intena : bool) (s : kstate) : kstate :=
  let s1 := upd_proc i (set_p_chan ChNull) (upd_cpu (set_cpu_intena intena) s) in
  if decide (lk = LKptable) then s1 else enter lk (leave LKptable s1).

Lemma awake_run i lk b s : holds_only i LKptable s -> lock_free lk s \/ lk = LKptable ->
  awake lk b s = Ret tt (awakened i lk b s) /\ holds_only i lk (awakened i lk b s).
Proof.
  intros [Hp Hl Hn Hi] Hf. unfold awake, awakened. rewrite bind_modify, (bind_myproc i), bind_modify by done.
  set (s1 := upd_proc i _ _). destruct (decide (lk = LKptable)) as [-> |Hne].
  - rewrite bool_decide_true by done. split; [done|]. by split.
  - rewrite bool_decide_false by done. cbn [negb].
    destruct Hf as [Hf|]; [|done]. rewrite (bind_Ret _ _ _ tt (leave LKptable s1)).
    2: { apply release_run; [done|done|]. simpl. lia. }
    rewrite acquire_run by (by apply leave_free_ne). split; [done|].
    split; [done|apply enter_mine| |done]. simpl. lia.
Qed.

(** ** Loops that sleep

    [waiting]: the thread of process [i] holds [lk] and nothing else.  [parked]: the
    state in which a thread that slept with [lk] gets the CPU back. *)
Record waiting (i : nat) (lk : lockid) (s : kstate) : Prop := Waiting {
  wa_holds : holds_only i lk s;
  wa_ptable : lock_free LKptable s;
  wa_table : length (k_ptable s) = NPROC
}.
Record parked (i : nat) (lk : lockid) (s : kstate) : Prop := Parked {
  pk_holds : holds_only i LKptable s;
  pk_lock : lock_free lk s;
  pk_table : length (k_ptable s) = NPROC
}.

Lemma awakened_waiting i lk b s : lk <> LKptable -> parked i lk s -> waiting i lk (awakened i lk b s).
Proof.
  intros Hne [Hh Hf Hl]. destruct (awake_run i lk b s Hh (or_introl Hf)) as [_ Hh'].
  split; [done| |]; unfold awakened; rewrite decide_False by done.
  - apply enter_free_ne; [done|]. apply leave_free.
  - etransitivity; [apply (length_upd i _ (upd_cpu _ s))|exact Hl].
Qed.

(** A loop each round of which either sleeps or ends in [Q], whatever happens while the
    thread sleeps, as long as [I] is restored. *)
Lemma wait_loop_runs {A} i lk ch (round : kprog (option A)) (I : kstate -> Prop) Q n s :
  lk <> LKptable -> (i < NPROC)%nat ->
  (forall s, waiting i lk s -> I s ->
     round s = (sleep ch lk;;; ret None) s \/ exists a s', round s = Ret (Some a) s' /\ Q a s') ->
  waiting i lk s -> I s ->
  runs n (fun _ s' => parked i lk s' /\ forall b, I (awakened i lk b s')) (repeat_until (S n) round s) Q.
Proof.
  intros Hne Hi Hround. revert s. induction n as [|n IH]; intros s Hw HI; cbn [repeat_until];
    (destruct (Hround s Hw HI) as [E|(a & s' & E & HQ)]; [|mret E; exact HQ]);
    unfold bind at 1; rewrite E;
    pose proof (sleep_run i ch lk s ltac:(rewrite (wa_table _ _ _ Hw); done) (wa_holds _ _ _ Hw)
      (or_introl (wa_ptable _ _ _ Hw))) as Es;
    rewrite (bind_Swtch _ _ _ _ _ Es); cbn [obind runs]; [done|].
  intros s2 [Hp HI2]. set (b := cpu_intena _).
  destruct (awake_run i lk b s2 (pk_holds _ _ _ Hp) (or_introl (pk_lock _ _ _ Hp))) as [Ea _].
  unfold bind at 1. rewrite Ea. cbn. apply IH; [by apply awakened_waiting|apply HI2].
Qed.

(** The first entry of the table that satisfies [c]. *)
Lemma table_find {R} (c : proc -> bool) (hit : nat -> kprog (option R)) s pre post :
  k_ptable s = pre ++ post ->
  let body i := p <- gets (proc_at i);; if c p then hit i else ret None in
  match list_find c post with
  | None => for_break (seq (length pre) (length post)) body s = Ret None s
  | Some (j, p) => forall v s', hit (length pre + j)%nat s = Ret (Some v) s' ->
      for_break (seq (length pre) (length post)) body s = Ret (Some v) s'
  end.
Proof.
  intros Hs body. revert pre Hs. induction post as [|p post IH]; intros pre Hs; simpl; [done|].
  assert (proc_at (length pre) s = p) as E by (unfold proc_at; by rewrite Hs, list_lookup_middle).
  assert (forall B (k : option R -> kprog B), bind (body (length pre)) k s =
    if c p then bind (hit (length pre)) k s else k None s) as Hb.
  { intros B k. unfold body. rewrite bind_assoc, bind_gets, E. by destruct (c p). }
  rewrite Hb. destruct (c p) eqn:Ec; simpl.
  - intros v s' Hh. rewrite Nat.add_0_r in Hh. by mret Hh.
  - specialize (IH (pre ++ [p])). rewrite length_app in IH; simpl in IH. rewrite Nat.add_1_r in IH.
    rewrite <- app_assoc in IH. specialize (IH Hs). destruct (list_find c post) as [[j q]|] eqn:Ef; simpl; [|done].
    intros v s' Hh. apply IH. by rewrite Nat.add_succ_l, <- Nat.add_succ_r.
Qed.

Definition has_pid (pid : Z) (p : proc) : bool := p_pid p =? pid.

(** What kill does to the entry it finds. *)
Definition killp (p : proc) : proc :=
  let p := set_p_killed 1 p in
  if bool_decide (p_state p = SLEEPING) then set_p_state RUNNABLE p else p.

Lemma alter_at {A} (f g : A -> A) (l : list A) i x : l !! i = Some x -> f x = g x -> alter f i l = alter g i l.
Proof.
  intros Hi E. apply list_eq. intros j. destruct (decide (i = j)) as [<-|];
    [by rewrite !list_lookup_alter_eq, Hi; simpl; rewrite E|by rewrite !list_lookup_alter_ne].
Qed.

(** Leaving the critical section of the process table. *)
Lemma release_ptable t s : lock_free LKptable s -> cpu_ok (k_cpu s) ->
  release LKptable (set_k_ptable t (enter LKptable s)) = Ret tt (set_k_ptable t (sync s)).
Proof.
  intros Hf Hc. rewrite (release_after LKptable s (set_k_ptable t (enter LKptable s)) Hc eq_refl eq_refl).
  by rewrite leave_enter_ptable.
Qed.

Lemma kill_found_run i p s : k_ptable s !! i = Some p -> lock_free LKptable s -> cpu_ok (k_cpu s) ->
  kill_found i (enter LKptable s) = Ret (Some 0) (set_k_ptable (alter killp i (k_ptable s)) (sync s)).
Proof.
  intros Hi Hf Hc. unfold kill_found. rewrite bind_modify, bind_gets, proc_at_upd by (by eapply lookup_lt_Some).
  assert (proc_at i (enter LKptable s) = p) as -> by (unfold proc_at; simpl; by rewrite Hi).
  change (p_state (set_p_killed 1 p)) with (p_state p).
  destruct (bool_decide (p_state p = SLEEPING)) eqn:Es.
  - rewrite bind_modify. unfold upd_proc; simpl. rewrite list_alter_alter_eq.
    rewrite (alter_at killp (set_p_state RUNNABLE ∘ set_p_killed 1) _ _ _ Hi) by (unfold killp; simpl; by rewrite Es).
    by mret (release_ptable (alter (set_p_state RUNNABLE ∘ set_p_killed 1) i (k_ptable s)) s Hf Hc).
  - rewrite bind_ret. rewrite (alter_at killp (set_p_killed 1) _ _ _ Hi) by (unfold killp; simpl; by rewrite Es).
    by mret (release_ptable (alter (set_p_killed 1) i (k_ptable s)) s Hf Hc).
Qed.

Lemma kill_run pid s : length (k_ptable s) = NPROC -> lock_free LKptable s -> cpu_ok (k_cpu s) ->
  kill pid s = match list_find (has_pid pid) (k_ptable s) with
               | Some (i, _) => Ret 0 (set_k_ptable (alter killp i (k_ptable s)) (sync s))
               | None => Ret (-1) (sync s)
               end.
Proof.
  intros Hl Hf Hc. unfold kill. mret (acquire_run LKptable s Hf). rewrite <- Hl.
  pose proof (table_find (has_pid pid) kill_found (enter LKptable s) [] (k_ptable s) eq_refl) as Hfind.
  simpl in Hfind. destruct (list_find (has_pid pid) (k_ptable s)) as [[i p]|] eqn:Ef.
  - apply list_find_Some in Ef as (Hi & _). by mret (Hfind _ _ (kill_found_run i p s Hi Hf Hc)).
  - mret Hfind. rewrite <- (set_ptable_same (enter LKptable s)).
    mret (release_ptable (k_ptable s) s Hf Hc). change (k_ptable s) with (k_ptable (sync s)).
    by rewrite set_ptable_same.
Qed.

(** The task state segment switchuvm writes. *)
Definition tss_mem (local kstack : Z) (m : mem) : mem :=
  store_le 4 (store_le 4 m (local + 1024 + 4 * 1) (u32 (u64 (kstack + KSTACKSIZE))))
    (local + 1024 + 4 * 2) (u32 (Z.shiftr (u64 (kstack + KSTACKSIZE)) 32)).

Definition switched (i : nat) (s : kstate) : kstate :=
  upd_cpu (fun c => set_cpu_cr3 (V2P (p_pgdir (proc_at i s))) (sync_cpu c))
    (upd_mem (tss_mem (cpu_local (k_cpu s)) (p_kstack (proc_at i s))) s).

Lemma switchuvm_run i s : p_pgdir (proc_at i s) <> 0 -> cpu_ok (k_cpu s) ->
  switchuvm i s = Ret tt (switched i s).
Proof.
  intros Hp Hc. unfold switchuvm. mret (pushcli_run s). rewrite bind_gets.
  change (proc_at i (upd_cpu push_cpu s)) with (proc_at i s).
  destruct (Z.eqb_spec (p_pgdir (proc_at i s)) 0); [done|]. rewrite bind_gets.
  unfold st32, lcr3. rewrite !bind_modify. rewrite popcli_run.
  - unfold switched, upd_cpu, upd_mem; simpl. rewrite <- pop_push by done. done.
  - done.
  - simpl. destruct Hc. lia.
Qed.

Definition runnable (p : proc) : bool := bool_decide (p_state p = RUNNABLE).

(** The scan passes over the entries that cannot run. *)
Lemma scan_skip s pre post sk : k_ptable s = pre ++ post ->
  sched_scan (seq (length pre) (length post)) sk s =
  match list_find runnable post with
  | None => Ret (sk + Z.of_nat (length post)) s
  | Some (j, _) => sched_scan (seq (length pre + j) (length post - j)) (sk + Z.of_nat j) s
  end.
Proof.
  revert pre sk. induction post as [|p post IH]; intros pre sk Hs; simpl; [by rewrite Z.add_0_r|].
  assert (proc_at (length pre) s = p) as E by (unfold proc_at; by rewrite Hs, list_lookup_middle).
  destruct (runnable p) eqn:Er.
  - rewrite decide_True by done. by rewrite Nat.add_0_r, Z.add_0_r.
  - rewrite decide_False by (by intros []). rewrite bind_gets, E. unfold runnable in Er. rewrite Er. cbn [negb].
    specialize (IH (pre ++ [p]) (sk + 1)). rewrite length_app in IH; simpl in IH. rewrite Nat.add_1_r in IH.
    rewrite IH by (by rewrite <- app_assoc). fold runnable. destruct (list_find runnable post) as [[j q]|]; simpl.
    + rewrite Nat.add_succ_r. f_equal. lia.
    + f_equal. lia.
Qed.

(** What the scheduler does when the chosen process gives the CPU back. *)
Definition sched_rest (l : list nat) : kprog Z :=
  switchkvm;;; modify (upd_cpu (set_cpu_proc None));;; sched_scan l 0.

Definition dispatched (i : nat) (s : kstate) : kstate :=
  upd_proc i (set_p_state RUNNING) (switched i (upd_cpu (set_cpu_proc (Some i)) s)).

Lemma scan_dispatch i l sk s : runnable (proc_at i s) = true -> p_pgdir (proc_at i s) <> 0 ->
  cpu_ok (k_cpu s) -> sched_scan (i :: l) sk s = Swtch (dispatched i s) (sched_rest l).
Proof.
  intros Hr Hp Hc. cbn [sched_scan]. rewrite bind_gets. unfold runnable in Hr. rewrite Hr. cbn [negb].
  rewrite bind_modify. mret (switchuvm_run i (upd_cpu (set_cpu_proc (Some i)) s) Hp Hc). done.
Qed.

(** ** Properties *)

(** C4: sleep(chan, lk) gives lk up and goes to sleep as one step with respect to
    wakeup: when it leaves the CPU the process is marked SLEEPING on chan, lk is free and
    ptable.lock is still held, so no wakeup can come between; a wakeup(chan) issued in
    any later state in which it still sleeps makes it RUNNABLE; and when the scheduler
    resumes it, sleep returns with lk held again, ptable.lock free and chan cleared. *)
Theorem sleep_is_atomic i ch lk s :
  length (k_ptable s) = NPROC -> (i < NPROC)%nat -> lk <> LKptable -> holds_only i lk s -> lock_free LKptable s ->
  exists s1 k, sleep ch lk s = Swtch s1 k /\
    lock_free lk s1 /\ holds_only i LKptable s1 /\
    proc_at i s1 = set_p_state SLEEPING (set_p_chan ch (proc_at i s)) /\
    (forall j, j <> i -> proc_at j s1 = proc_at j s) /\
    (forall s2, length (k_ptable s2) = NPROC -> lock_free LKptable s2 -> cpu_ok (k_cpu s2) ->
       p_state (proc_at i s2) = SLEEPING -> p_chan (proc_at i s2) = ch ->
       exists s3, wakeup ch s2 = Ret tt s3 /\ p_state (proc_at i s3) = RUNNABLE) /\
    (forall s2, length (k_ptable s2) = NPROC -> holds_only i LKptable s2 -> lock_free lk s2 ->
       exists s3, k s2 = Ret tt s3 /\ holds_only i lk s3 /\ lock_free LKptable s3 /\
         p_chan (proc_at i s3) = ChNull /\ forall j, j <> i -> proc_at j s3 = proc_at j s2).
Proof.
  intros Hl Hi Hne Hh Hf. eexists _, _. split; [apply (sleep_run i); [by rewrite Hl|done|by left]|].
  split_and!.
  - unfold asleep. rewrite decide_False by done. apply leave_free.
  - apply asleep_holds; [done|by left].
  - apply asleep_proc. by rewrite Hl.
  - intros j Hj. unfold asleep. rewrite !proc_at_upd_ne by done. by destruct (decide _).
  - intros s2 Hl2 Hf2 Hc2 Hs2 Hch. eexists. split; [by apply wakeup_run|].
    unfold proc_at in *; simpl. rewrite list_lookup_fmap.
    destruct (k_ptable s2 !! i) as [p|] eqn:Ep; [|done]. simpl in *. unfold wake.
    by rewrite !bool_decide_true.
  - intros s2 Hl2 Hh2 Hf2. destruct (awake_run i lk (cpu_intena (k_cpu (asleep i ch lk s))) s2 Hh2) as [E Hh3];
      [by left|]. eexists. split; [exact E|]. split; [done|]. unfold awakened. rewrite decide_False by done.
    split; [apply enter_free_ne; [done|]; apply leave_free|]. split.
    + change (proc_at i (enter lk _)) with (proc_at i (upd_proc i (set_p_chan ChNull)
        (upd_cpu (set_cpu_intena (cpu_intena (k_cpu (asleep i ch lk s)))) s2))).
      rewrite proc_at_upd; [done|]. change (i < length (k_ptable s2))%nat. by rewrite Hl2.
    + intros j Hj. by apply (proc_at_upd_ne i j _ (upd_cpu _ s2)).
Qed.

(** kill(pid) marks the first entry of the process table with that pid, and only
    it: the process is flagged killed and, if it slept, made RUNNABLE so that it can
    notice; the call returns 0, or -1 with the table unchanged when no entry has the
    pid.  The entry may be an unused one: a free slot has pid 0, so kill(0) flags a
    process that does not exist. *)
Theorem kill_marks_process pid s :
  length (k_ptable s) = NPROC -> lock_free LKptable s -> cpu_ok (k_cpu s) ->
  match list_find (has_pid pid) (k_ptable s) with
  | None => (forall i, (i < NPROC)%nat -> p_pid (proc_at i s) <> pid) /\
      exists s', kill pid s = Ret (-1) s' /\ k_ptable s' = k_ptable s
  | Some (i, p) => p_pid p = pid /\ exists s', kill pid s = Ret 0 s' /\
      proc_at i s' = (if decide (p_state p = SLEEPING)
                      then set_p_state RUNNABLE (set_p_killed 1 p) else set_p_killed 1 p) /\
      (forall j, j <> i -> proc_at j s' = proc_at j s) /\ lock_free LKptable s' /\
      (pid = 0 -> p_state p = UNUSED -> p_state (proc_at i s') = UNUSED /\ p_killed (proc_at i s') = 1)
  end.
Proof.
  intros Hl Hf Hc. rewrite (kill_run pid s Hl Hf Hc).
  destruct (list_find (has_pid pid) (k_ptable s)) as [[i p]|] eqn:Ef.
  - apply list_find_Some in Ef as (Hi & Hp & _). apply Is_true_true, Z.eqb_eq in Hp. split; [done|].
    eexists. split; [done|].
    assert (proc_at i (set_k_ptable (alter killp i (k_ptable s)) (sync s)) = killp p) as E.
    { unfold proc_at; simpl. by rewrite list_lookup_alter_eq, Hi. }
    split_and!.
    + rewrite E. unfold killp; simpl. destruct (decide (p_state p = SLEEPING)) as [Es|Es];
        [by rewrite bool_decide_true|by rewrite bool_decide_false].
    + intros j Hj. by apply (proc_at_upd_ne i j killp (sync s)).
    + exact Hf.
    + intros _ Hu. rewrite E. unfold killp; simpl. rewrite bool_decide_false by congruence. done.
  - split; [|by eexists]. intros i Hi Hp. apply list_find_None in Ef. rewrite Forall_forall in Ef.
    rewrite <- Hl in Hi. apply lookup_lt_is_Some in Hi as [p Hi]. unfold proc_at in Hp. rewrite Hi in Hp.
    apply (Ef p); [by eapply list_elem_of_lookup_2|]. apply Is_true_true, Z.eqb_eq. done.
Qed.

(** C27: One round of the scheduler runs the first RUNNABLE process of the table: it
    switches to it with the process marked RUNNING, its page table loaded, and
    ptable.lock held with interrupts off, no other entry changed; when the CPU comes
    back the scan goes on with the entries after it (so each RUNNABLE process gets a
    turn before any gets a second one).  Without a RUNNABLE process the round ends
    with the table unchanged and the lock free. *)
Theorem scheduler_round_dispatches sk s :
  length (k_ptable s) = NPROC -> lock_free LKptable s -> cpu_ncli (k_cpu s) = 0 ->
  match list_find runnable (k_ptable s) with
  | None => exists r s', scheduler_round sk s = Ret r s' /\ k_ptable s' = k_ptable s /\ lock_free LKptable s' /\
      cpu_if (k_cpu s') = true /\ r = (if Z.of_nat NPROC <? sk + Z.of_nat NPROC then 0 else sk + Z.of_nat NPROC)
  | Some (i, p) => p_pgdir p <> 0 ->
      exists s1 k, scheduler_round sk s = Swtch s1 k /\ holds_only i LKptable s1 /\
        proc_at i s1 = set_p_state RUNNING p /\ (forall j, j <> i -> proc_at j s1 = proc_at j s) /\
        cpu_cr3 (k_cpu s1) = V2P (p_pgdir p) /\
        forall s2, k s2 = (skipped <- sched_rest (seq (S i) (NPROC - S i));;
          release LKptable;;; if skipped >? Z.of_nat NPROC then ret 0 else ret skipped) s2
  end.
Proof.
  intros Hl Hf Hn. set (s0 := upd_cpu (set_cpu_if true) s).
  assert (cpu_ok (k_cpu s0)) as Hc by (split; simpl; lia).
  assert (lock_free LKptable s0) as Hf0 by done.
  assert (forall A (k : kprog A), (sti;;; acquire LKptable;;; k) s = k (enter LKptable s0)) as Eh.
  { intros A k. unfold sti. rewrite bind_modify. by mret (acquire_run LKptable s0 Hf0). }
  unfold scheduler_round. rewrite Eh.
  pose proof (scan_skip (enter LKptable s0) [] (k_ptable s) sk eq_refl) as Hs.
  cbn [length Nat.add] in Hs. rewrite Hl in Hs.
  destruct (list_find runnable (k_ptable s)) as [[i p]|] eqn:Ef.
  - intros Hp. apply list_find_Some in Ef as (Hi & Hr & _). assert (i < length (k_ptable s))%nat as Hlt
      by (by eapply lookup_lt_Some).
    assert (proc_at i (enter LKptable s0) = p) as Ep by (unfold proc_at; simpl; by rewrite Hi).
    replace (NPROC - i)%nat with (S (NPROC - S i)) in Hs by lia. cbn [seq] in Hs.
    rewrite (scan_dispatch i) in Hs; [|rewrite Ep; by apply Is_true_true|by rewrite Ep|by apply cpu_ok_push].
    rewrite (bind_Swtch _ _ _ _ _ Hs). eexists _, _. split; [done|]. split_and!.
    + unfold dispatched. apply holds_upd. split; simpl.
      * by rewrite sync_cpu_proc.
      * unfold lock_mine, switched; simpl. rewrite sync_cpu_id. eexists. apply lookup_insert_eq.
      * unfold sync_cpu; simpl. rewrite Hn; simpl. by rewrite Hn.
      * unfold sync_cpu; simpl. rewrite Hn. done.
    + unfold dispatched. rewrite proc_at_upd by done. by rewrite <- Ep.
    + intros j Hj. unfold dispatched. by rewrite proc_at_upd_ne.
    + unfold dispatched, switched; simpl. by rewrite <- Ep.
    + done.
  - mret Hs. rewrite <- (set_ptable_same (enter LKptable s0)). mret (release_ptable (k_ptable s) s0 Hf0 Hc).
    exists (if sk + Z.of_nat NPROC >? Z.of_nat NPROC then 0 else sk + Z.of_nat NPROC), (set_k_ptable (k_ptable s) (sync s0)).
    split; [by destruct (_ >? _)|]. split_and!; [done|done| |].
    + simpl. unfold sync_cpu; simpl. by rewrite Hn.
    + rewrite Z.gtb_ltb. by destruct (_ <? _).
Qed.

(** *** Witnesses *)

(** Process 1 runs and holds the ticks lock; process 2 is RUNNABLE; the others are
    unused. *)
Definition two_procs : kstate :=
  set_k_ptable (<[2%nat := set_p_pgdir one_page (set_p_pid 2 (set_p_state RUNNABLE zero_proc))]>
      (<[1%nat := set_p_pid 1 (set_p_state RUNNING zero_proc)]> (replicate NPROC zero_proc)))
    (set_k_cpu (Cpu 0 0 false false (Some 1%nat) 0 0) booted).

Lemma two_procs_free lk : bool_decide (is_Some (boot_locks !! lk)) = true -> lock_free lk two_procs.
Proof. by apply booted_free. Qed.

Lemma two_procs_len : length (k_ptable two_procs) = NPROC.
Proof. reflexivity. Qed.

Lemma sleep_is_atomic_witness : exists s1 k, sleep ChTicks LKtick (enter LKtick two_procs) = Swtch s1 k /\
  p_state (proc_at 1 s1) = SLEEPING /\ lock_free LKtick s1.
Proof.
  destruct (sleep_is_atomic 1 ChTicks LKtick (enter LKtick two_procs)) as (s1 & k & E & Hf & _ & Hp & _).
  - reflexivity.
  - unfold NPROC. lia.
  - done.
  - split; [done|apply enter_mine|done|done].
  - apply enter_free_ne; [done|]. apply two_procs_free. vm_compute. reflexivity.
  - exists s1, k. split_and!; [exact E|by rewrite Hp|exact Hf].
Defined.

Lemma kill_marks_process_witness : exists s1 s2, kill 2 two_procs = Ret 0 s1 /\ p_killed (proc_at 2 s1) = 1 /\
  kill 0 two_procs = Ret 0 s2 /\ p_killed (proc_at 0 s2) = 1 /\ p_state (proc_at 0 s2) = UNUSED.
Proof.
  assert (lock_free LKptable two_procs) as Hf by (apply two_procs_free; vm_compute; reflexivity).
  assert (cpu_ok (k_cpu two_procs)) as Hc by (split; simpl; lia).
  pose proof (kill_marks_process 2 two_procs two_procs_len Hf Hc) as H2.
  pose proof (kill_marks_process 0 two_procs two_procs_len Hf Hc) as H0.
  destruct H2 as (_ & s1 & E1 & P1 & _), H0 as (_ & s2 & E2 & _ & _ & _ & P2).
  destruct (P2 eq_refl eq_refl) as [P2a P2b].
  exists s1, s2. split_and!; [exact E1|exact (f_equal p_killed P1)|exact E2|exact P2b|exact P2a].
Defined.

Lemma scheduler_round_dispatches_witness : exists s1 k, scheduler_round 0 two_procs = Swtch s1 k /\
  cpu_proc (k_cpu s1) = Some 2%nat /\ p_state (proc_at 2 s1) = RUNNING.
Proof.
  assert (lock_free LKptable two_procs) as Hf by (apply two_procs_free; vm_compute; reflexivity).
  destruct (scheduler_round_dispatches 0 two_procs two_procs_len Hf eq_refl) as (s1 & k & E & Hh & Hp & _);
    [done|].
  exists s1, k. split_and!; [exact E|exact (ho_proc _ _ _ Hh)|exact (f_equal p_state Hp)].
Defined.
