(* ===== verification/Sleeplock.v ===== *)
(** * Sleeplock: sleeplock.c, the locks that are held across sleeps

    A sleep lock is part of a disk buffer or of an in-memory inode; its inner spin
    lock is the entry [LKsleep] of the lock map. *)

From S2P Require Import Prelude Machine Spinlock Cstring Ktrace Kalloc Vm Sched.
#[local] Open Scope prog_scope.

Definition buf_at (i : nat) (s : kstate) : buf := default zero_buf (bc_buf (k_bcache s) !! i).
Definition upd_buf (i : nat) (f : buf -> buf) (s : kstate) : kstate :=
  set_k_bcache (set_bc_buf (alter f i (bc_buf (k_bcache s))) (k_bcache s)) s.
Definition inode_at (i : nat) (s : kstate) : inode := default zero_inode (k_icache s !! i).
Definition upd_inode (i : nat) (f : inode -> inode) (s : kstate) : kstate :=
  set_k_icache (alter f i (k_icache s)) s.

(** The struct sleeplock, and an assignment to it. *)
Definition sleep_of (sl : sleepid) (s : kstate) : sleeplock :=
  match sl with SLbuf i => b_lock (buf_at i s) | SLinode i => i_lock (inode_at i s) end.
Definition upd_sleep (sl : sleepid) (f : sleeplock -> sleeplock) (s : kstate) : kstate :=
  match sl with
  | SLbuf i => upd_buf i (fun b => set_b_lock (f (b_lock b)) b) s
  | SLinode i => upd_inode i (fun ip => set_i_lock (f (i_lock ip)) ip) s
  end.

Definition initsleeplock (sl : sleepid) (name : string) : kprog unit :=
  initlock (LKsleep sl) "sleep lock";;;
  modify (upd_sleep sl (set_sl_name name));;;
  modify (upd_sleep sl (set_sl_locked 0));;;
  modify (upd_sleep sl (set_sl_pid 0)).

Definition acquiresleep (fuel : nat) (sl : sleepid) : kprog unit :=
  acquire (LKsleep sl);;;
  repeat_until fuel (
    l <- gets (sleep_of sl);;
    if negb (sl_locked l =? 0) then sleep (ChSleep sl) (LKsleep sl);;; ret None
    else ret (Some tt));;;
  modify (upd_sleep sl (set_sl_locked 1));;;
  i <- myproc;;
  modify (fun s => upd_sleep sl (set_sl_pid (p_pid (proc_at i s))) s);;;
  release (LKsleep sl).

Definition releasesleep (sl : sleepid) : kprog unit :=
  acquire (LKsleep sl);;;
  modify (upd_sleep sl (set_sl_locked 0));;;
  modify (upd_sleep sl (set_sl_pid 0));;;
  wakeup (ChSleep sl);;;
  release (LKsleep sl).

Definition holdingsleep (sl : sleepid) : kprog Z :=
  acquire (LKsleep sl);;;
  r <- gets (fun s => sl_locked (sleep_of sl s));;
  release (LKsleep sl);;;
  ret r.

(** ** Lemmas *)

#[export] Instance stable_upd_buf i f : Stable (upd_buf i f).
Proof. by split. Qed.
#[export] Instance stable_upd_inode i f : Stable (upd_inode i f).
Proof. by split. Qed.
#[export] Instance stable_upd_sleep sl f : Stable (upd_sleep sl f).
Proof. destruct sl; by split. Qed.

(** The lock is part of an entry of its table. *)
Definition sleep_ok (sl : sleepid) (s : kstate) : Prop :=
  match sl with
  | SLbuf i => (i < length (bc_buf (k_bcache s)))%nat
  | SLinode i => (i < length (k_icache s))%nat
  end.

Lemma sleep_of_upd sl f s : sleep_ok sl s -> sleep_of sl (upd_sleep sl f s) = f (sleep_of sl s).
Proof.
  destruct sl as [i|i]; simpl; intros [x Hx]%lookup_lt_is_Some.
  - unfold buf_at, upd_buf; simpl. by rewrite list_lookup_alter_eq, Hx.
  - unfold inode_at, upd_inode; simpl. by rewrite list_lookup_alter_eq, Hx.
Qed.

Lemma sleep_ok_upd sl f s : sleep_ok sl s -> sleep_ok sl (upd_sleep sl f s).
Proof. destruct sl as [i|i]; simpl; by rewrite length_alter. Qed.

(** The state with the lock taken by the process with the given pid. *)
Definition sl_taken (sl : sleepid) (pid : Z) (s : kstate) : kstate :=
  upd_sleep sl (set_sl_pid pid) (upd_sleep sl (set_sl_locked 1) s).

#[export] Instance stable_sl_taken sl pid : Stable (sl_taken sl pid).
Proof. destruct sl; by split. Qed.

Lemma sleep_of_taken sl pid s : sleep_ok sl s ->
  sl_locked (sleep_of sl (sl_taken sl pid s)) = 1 /\ sl_pid (sleep_of sl (sl_taken sl pid s)) = pid.
Proof. intros Hs. unfold sl_taken. rewrite !sleep_of_upd by auto using sleep_ok_upd. done. Qed.

(** Between two turns of a thread of process [i] that waits for [sl]. *)
Record resumes (i : nat) (sl : sleepid) (s : kstate) : Prop := Resumes {
  rs_holds : holds_only i LKptable s;
  rs_inner : lock_free (LKsleep sl) s;
  rs_table : length (k_ptable s) = NPROC;
  rs_ok : sleep_ok sl s
}.

(** What follows the loop of acquiresleep, with the inner lock held. *)
Definition take_sleep (sl : sleepid) : kprog unit :=
  modify (upd_sleep sl (set_sl_locked 1));;;
  i <- myproc;;
  modify (fun s => upd_sleep sl (set_sl_pid (p_pid (proc_at i s))) s);;;
  release (LKsleep sl).

Lemma take_sleep_run i sl s : holds_only i (LKsleep sl) s -> sleep_ok sl s ->
  exists s', take_sleep sl s = Ret tt s' /\ sl_locked (sleep_of sl s') = 1 /\
    sl_pid (sleep_of sl s') = p_pid (proc_at i s) /\ lock_free (LKsleep sl) s' /\
    k_ptable s' = k_ptable s /\ cpu_ncli (k_cpu s') = 0.
Proof.
  intros [Hp Hl Hn Hi] Hs. unfold take_sleep. rewrite bind_modify, (bind_myproc i).
  2: { by rewrite stable_cpu. }
  rewrite bind_modify. set (s1 := upd_sleep sl _ _).
  assert (s1 = sl_taken sl (p_pid (proc_at i s)) s) as -> by (unfold s1, sl_taken; by destruct sl).
  eexists. split.
  { apply release_run; [by apply lock_mine_stable; [apply _|]|by rewrite stable_cpu|rewrite stable_cpu; lia]. }
  rewrite leave_stable by apply _. destruct (sleep_of_taken sl (p_pid (proc_at i s)) (leave (LKsleep sl) s)) as [E1 E2].
  { by destruct sl. }
  split_and!; [done|done|apply lock_free_stable; [apply _|apply leave_free]|by destruct sl|].
  rewrite stable_cpu. simpl. lia.
Qed.

(** The thread of process [i] holds the inner lock of [sl] and nothing else. *)
Record inside (i : nat) (sl : sleepid) (s : kstate) : Prop := Inside {
  in_holds : holds_only i (LKsleep sl) s;
  in_ptable : lock_free LKptable s;
  in_table : length (k_ptable s) = NPROC;
  in_ok : sleep_ok sl s
}.

Lemma awakened_inside i sl b s : resumes i sl s ->
  inside i sl (awakened i (LKsleep sl) b s) /\
  sleep_of sl (awakened i (LKsleep sl) b s) = sleep_of sl s.
Proof.
  intros [Hh Hf Hl Hs]. destruct (awake_run i (LKsleep sl) b s Hh) as [_ Hh']; [by left|].
  split; [|by destruct sl]. split; [done| | |by destruct sl].
  - unfold awakened. rewrite decide_False by done. apply enter_free_ne; [done|]. apply leave_free.
  - unfold awakened. rewrite decide_False by done. etransitivity; [apply (length_upd i _ (upd_cpu _ s))|exact Hl].
Qed.

Definition wait_round (sl : sleepid) : kprog (option unit) :=
  l <- gets (sleep_of sl);;
  if negb (sl_locked l =? 0) then sleep (ChSleep sl) (LKsleep sl);;; ret None else ret (Some tt).

Lemma acquiresleep_eq fuel sl :
  acquiresleep fuel sl = (acquire (LKsleep sl);;; repeat_until fuel (wait_round sl);;; take_sleep sl).
Proof. done. Qed.

(** The loop of acquiresleep through [n] sleeps: [P] is what is known of the field
    [locked] whenever the thread looks at it. *)
Lemma acquire_loop_runs i sl (P : Z -> Prop) (Q : unit -> kstate -> Prop) n s :
  (i < NPROC)%nat ->
  (forall s s', P 0 -> take_sleep sl s = Ret tt s' -> sl_locked (sleep_of sl s') = 1 ->
     sl_pid (sleep_of sl s') = p_pid (proc_at i s') -> lock_free (LKsleep sl) s' ->
     cpu_ncli (k_cpu s') = 0 -> Q tt s') ->
  inside i sl s -> P (sl_locked (sleep_of sl s)) ->
  runs n (fun _ s' => resumes i sl s' /\ P (sl_locked (sleep_of sl s')))
    ((repeat_until (S n) (wait_round sl);;; take_sleep sl) s) Q.
Proof.
  intros Hi HQ. revert s. induction n as [|n IH]; intros s Hs HP; cbn [repeat_until];
    rewrite bind_assoc; unfold wait_round at 1; rewrite bind_assoc, bind_gets;
    destruct (Z.eqb_spec (sl_locked (sleep_of sl s)) 0) as [E|Hne]; cbn [negb].
  1, 3: rewrite !bind_ret; destruct (take_sleep_run i sl s) as (s' & Et & E1 & E2 & E3 & E4 & E5);
    [apply Hs|apply Hs|]; rewrite Et; apply (HQ s); [congruence|done|done| |done|done];
    rewrite E2; unfold proc_at; by rewrite E4.
  all: rewrite bind_assoc, (bind_Swtch _ _ _ _ _ (sleep_run i _ _ s ltac:(rewrite (in_table _ _ _ Hs); lia)
    (in_holds _ _ _ Hs) (or_introl (in_ptable _ _ _ Hs)))); cbn [runs].
  1: done.
  intros s2 [Hr HP2]. set (b := cpu_intena _).
  destruct (awake_run i (LKsleep sl) b s2 (rs_holds _ _ _ Hr)) as [Ea _]; [by left; apply Hr|].
  mret Ea. rewrite bind_ret. destruct (awakened_inside i sl b s2 Hr) as [Hin Eq].
  apply IH; [done|]. by rewrite Eq.
Qed.

Lemma acquiresleep_runs i sl (P : Z -> Prop) (Q : unit -> kstate -> Prop) n s :
  (i < NPROC)%nat ->
  (forall s s', P 0 -> take_sleep sl s = Ret tt s' -> sl_locked (sleep_of sl s') = 1 ->
     sl_pid (sleep_of sl s') = p_pid (proc_at i s') -> lock_free (LKsleep sl) s' ->
     cpu_ncli (k_cpu s') = 0 -> Q tt s') ->
  cpu_proc (k_cpu s) = Some i -> cpu_ncli (k_cpu s) = 0 -> lock_free (LKsleep sl) s -> lock_free LKptable s ->
  length (k_ptable s) = NPROC -> sleep_ok sl s -> P (sl_locked (sleep_of sl s)) ->
  runs n (fun _ s' => resumes i sl s' /\ P (sl_locked (sleep_of sl s'))) (acquiresleep (S n) sl s) Q.
Proof.
  intros Hi HQ Hp Hn Hf Hf' Hl Hs HP. rewrite acquiresleep_eq. mret (acquire_run (LKsleep sl) s Hf).
  apply (acquire_loop_runs i); [done|done| |by destruct sl]. split; [|by apply enter_free_ne|done|by destruct sl].
  split; [done|apply enter_mine| |done]. simpl. lia.
Qed.

Lemma sleep_of_ptable sl t s : sleep_of sl (set_k_ptable t s) = sleep_of sl s.
Proof. by destruct sl. Qed.
Lemma ptable_upd_sleep sl f s : k_ptable (upd_sleep sl f s) = k_ptable s.
Proof. by destruct sl. Qed.
Lemma sleep_of_sync sl s : sleep_of sl (sync s) = sleep_of sl s.
Proof. by destruct sl. Qed.

(** The three operations when nobody else holds the lock. *)
Lemma acquiresleep_free_run i sl n s : cpu_proc (k_cpu s) = Some i -> cpu_ok (k_cpu s) ->
  lock_free (LKsleep sl) s -> sl_locked (sleep_of sl s) = 0 ->
  acquiresleep (S n) sl s = Ret tt (sl_taken sl (p_pid (proc_at i s)) (sync s)).
Proof.
  intros Hp Hc Hf H0. rewrite acquiresleep_eq. mret (acquire_run (LKsleep sl) s Hf). cbn [repeat_until].
  rewrite bind_assoc. unfold wait_round at 1. rewrite bind_assoc, bind_gets.
  assert (sleep_of sl (enter (LKsleep sl) s) = sleep_of sl s) as -> by (by destruct sl).
  rewrite H0. cbn [negb Z.eqb]. rewrite !bind_ret. unfold take_sleep.
  rewrite bind_modify, (bind_myproc i), bind_modify by (by rewrite stable_cpu).
  rewrite <- (release_stable (LKsleep sl) (sl_taken sl (p_pid (proc_at i s))) s _ Hf Hc).
  by destruct sl.
Qed.

Lemma holdingsleep_run sl s : lock_free (LKsleep sl) s -> cpu_ok (k_cpu s) ->
  holdingsleep sl s = Ret (sl_locked (sleep_of sl s)) (sync s).
Proof.
  intros Hf Hc. unfold holdingsleep. mret (acquire_run (LKsleep sl) s Hf). rewrite bind_gets.
  pose proof (release_stable (LKsleep sl) id s _ Hf Hc) as E. simpl in E. mret E. by destruct sl.
Qed.

Definition sl_released (sl : sleepid) (s : kstate) : kstate :=
  set_k_ptable (map (wake (ChSleep sl)) (k_ptable s))
    (upd_sleep sl (set_sl_pid 0) (upd_sleep sl (set_sl_locked 0) s)).

Lemma releasesleep_run sl s : lock_free (LKsleep sl) s -> lock_free LKptable s -> cpu_ok (k_cpu s) ->
  length (k_ptable s) = NPROC -> releasesleep sl s = Ret tt (sl_released sl (sync s)).
Proof.
  intros Hf Hf' Hc Hl. unfold releasesleep. mret (acquire_run (LKsleep sl) s Hf). rewrite !bind_modify.
  set (u := upd_sleep sl (set_sl_pid 0) ∘ upd_sleep sl (set_sl_locked 0)).
  change (upd_sleep sl (set_sl_pid 0) _) with (u (enter (LKsleep sl) s)).
  assert (forall x, k_ptable (u x) = k_ptable x) as Ep by (intros x; unfold u; simpl; by rewrite !ptable_upd_sleep).
  mret (wakeup_inside (ChSleep sl) (LKsleep sl) u s _ ltac:(done) ltac:(by rewrite Ep) Hf' Hc). rewrite Ep.
  change (k_ptable (enter (LKsleep sl) s)) with (k_ptable s). set (t := map _ _).
  apply (release_stable (LKsleep sl) (set_k_ptable t ∘ u) s _ Hf Hc).
Qed.

(** ** Properties *)

(** Sleep locks exclude: a free sleep lock is taken at once; a thread that finds
    it held sleeps, and in whatever states it is resumed, when acquiresleep returns the
    lock is held under the caller's pid with the inner spin lock free again; and as
    long as every state it is resumed in has the lock held by someone, it does not
    return.  ([n] counts the times the thread is woken.) *)
Theorem acquiresleep_excludes i sl n s :
  (i < NPROC)%nat -> cpu_proc (k_cpu s) = Some i -> cpu_ncli (k_cpu s) = 0 ->
  lock_free (LKsleep sl) s -> lock_free LKptable s -> length (k_ptable s) = NPROC -> sleep_ok sl s ->
  (sl_locked (sleep_of sl s) = 0 -> exists s', acquiresleep (S n) sl s = Ret tt s' /\
     sl_locked (sleep_of sl s') = 1 /\ sl_pid (sleep_of sl s') = p_pid (proc_at i s)) /\
  runs n (fun _ s' => resumes i sl s') (acquiresleep (S n) sl s)
    (fun _ s' => sl_locked (sleep_of sl s') = 1 /\ sl_pid (sleep_of sl s') = p_pid (proc_at i s') /\
       lock_free (LKsleep sl) s' /\ cpu_ncli (k_cpu s') = 0) /\
  (sl_locked (sleep_of sl s) <> 0 ->
   runs n (fun _ s' => resumes i sl s' /\ sl_locked (sleep_of sl s') <> 0) (acquiresleep (S n) sl s)
     (fun _ _ => False)).
Proof.
  intros Hi Hp Hn Hf Hf' Hl Hs. split_and!.
  - intros H0. eexists. split; [apply (acquiresleep_free_run i); [done|split; lia|done|done]|].
    destruct (sleep_of_taken sl (p_pid (proc_at i s)) (sync s)) as [E1 E2]; [by destruct sl|done].
  - apply (runs_rely _ (fun _ s' => resumes i sl s' /\ True)); [by auto|].
    by apply (acquiresleep_runs i sl (fun _ => True)).
  - intros Hne. by apply (acquiresleep_runs i sl (fun v => v <> 0)).
Qed.

(** Releasesleep frees the lock and wakes exactly the processes that sleep on it:
    afterwards the lock is free with no owner, every process that slept on the lock is
    RUNNABLE, and no other entry of the process table changed; holdingsleep reports the
    lock's flag and changes nothing. *)
Theorem releasesleep_wakes sl s :
  lock_free (LKsleep sl) s -> lock_free LKptable s -> cpu_ok (k_cpu s) -> length (k_ptable s) = NPROC ->
  sleep_ok sl s ->
  (exists s', releasesleep sl s = Ret tt s' /\ sl_locked (sleep_of sl s') = 0 /\ sl_pid (sleep_of sl s') = 0 /\
     lock_free (LKsleep sl) s' /\
     forall i, proc_at i s' = if decide (p_state (proc_at i s) = SLEEPING /\ p_chan (proc_at i s) = ChSleep sl)
                              then set_p_state RUNNABLE (proc_at i s) else proc_at i s) /\
  exists s', holdingsleep sl s = Ret (sl_locked (sleep_of sl s)) s' /\ s' = sync s.
Proof.
  intros Hf Hf' Hc Hl Hs. split; [|eexists; split; [by apply holdingsleep_run|done]].
  eexists. split; [by apply releasesleep_run|]. unfold sl_released. rewrite sleep_of_ptable.
  rewrite !sleep_of_upd by (by apply (sleep_ok_upd sl _ (sync s)) || (by destruct sl)).
  split_and!; [done|done| |].
  - apply (lock_free_stable _ (set_k_ptable _ ∘ upd_sleep sl (set_sl_pid 0) ∘ upd_sleep sl (set_sl_locked 0)));
      [apply _|done].
  - intros i. unfold proc_at; simpl. rewrite list_lookup_fmap.
    change (k_ptable (sync s)) with (k_ptable s).
    destruct (k_ptable s !! i) as [p|] eqn:E; simpl; [|done]. unfold wake.
    destruct (decide _) as [[-> ->]|Hn]; [by rewrite !bool_decide_true|].
    destruct (bool_decide_reflect (p_state p = SLEEPING)), (bool_decide_reflect (p_chan p = ChSleep sl)); naive_solver.
Qed.

(** *** Witnesses *)

Definition with_sleeplock : kstate :=
  set_k_locks (<[LKsleep (SLbuf 3) := Spinlock 0 "sleep lock" None]> boot_locks) two_procs.

Lemma with_sleeplock_free : lock_free (LKsleep (SLbuf 3)) with_sleeplock /\ lock_free LKptable with_sleeplock.
Proof.
  split; [eexists; apply lookup_insert_eq|]. unfold lock_free; simpl. rewrite lookup_insert_ne by done.
  apply (two_procs_free LKptable). vm_compute. reflexivity.
Qed.

Lemma acquiresleep_excludes_witness : exists s', acquiresleep 1 (SLbuf 3) with_sleeplock = Ret tt s' /\
  sl_pid (sleep_of (SLbuf 3) s') = 1.
Proof.
  destruct with_sleeplock_free as [Hf Hp].
  destruct (acquiresleep_excludes 1 (SLbuf 3) 0 with_sleeplock) as [H _]; try done.
  - unfold NPROC. lia.
  - simpl. unfold NBUF. lia.
  - destruct (H eq_refl) as (s' & E & _ & E2). by exists s'.
Defined.

Lemma releasesleep_wakes_witness : exists s', releasesleep (SLbuf 3) with_sleeplock = Ret tt s' /\
  sl_locked (sleep_of (SLbuf 3) s') = 0.
Proof.
  destruct with_sleeplock_free as [Hf Hp].
  destruct (releasesleep_wakes (SLbuf 3) with_sleeplock Hf Hp) as [(s' & E & E1 & _) _].
  - split; simpl; lia.
  - done.
  - simpl. unfold NBUF. lia.
  - by exists s'.
Defined.
