(* ===== verification/Pipe.v ===== *)
(** * Pipe: pipe.c

    [pipewrite], [piperead] and [pipeclose]; [pipealloc], which allocates files, is in
    File.  A pipe occupies a page of its own, and [k_pipes] holds it under the address
    of the page.  A blocked reader or writer is resumed in whatever state the others
    have made. *)

From S2P Require Import Prelude Machine Spinlock Cstring Ktrace Kalloc Vm Sched.
#[local] Open Scope prog_scope.

Definition PIPESIZE : Z := 512.

Definition get_pipe (p : Z) : kprog pipe :=
  fun s => match k_pipes s !! p with Some pi => Ret pi s | None => Undef "freed pipe" s end.
Definition upd_pipe (p : Z) (f : pipe -> pipe) (s : kstate) : kstate :=
  set_k_pipes (alter f p (k_pipes s)) s.

(** [p->data[p->nwrite++ % PIPESIZE] = b] and [p->data[p->nread++ % PIPESIZE]]. *)
Definition pipe_put (b : Z) (pi : pipe) : pipe :=
  set_pi_nwrite (u32 (pi_nwrite pi + 1))
    (set_pi_data (<[Z.to_nat (pi_nwrite pi mod PIPESIZE) := b]> (pi_data pi)) pi).
Definition pipe_head (pi : pipe) : Z := nth (Z.to_nat (pi_nread pi mod PIPESIZE)) (pi_data pi) 0.
Definition pipe_drop (pi : pipe) : pipe := set_pi_nread (u32 (pi_nread pi + 1)) pi.

Definition pipe_full (pi : pipe) : bool := pi_nwrite pi =? u32 (pi_nread pi + PIPESIZE).
Definition pipe_empty (pi : pipe) : bool := pi_nread pi =? pi_nwrite pi.

(** The wait loop of pipewrite: [false] stands for the return of -1. *)
Definition write_round (p : Z) : kprog (option bool) :=
  pi <- get_pipe p;;
  if pipe_full pi then
    i <- myproc;;
    pr <- gets (proc_at i);;
    if (pi_readopen pi =? 0) || negb (p_killed pr =? 0) then release (LKpipe p);;; ret (Some false) else
    wakeup (ChPipeR p);;;
    sleep (ChPipeW p) (LKpipe p);;;
    ret None
  else ret (Some true).

(** [fuel] is how often the writer may be woken for one byte. *)
Fixpoint write_bytes (fuel : nat) (p addr : Z) (n : nat) (i : Z) : kprog bool :=
  match n with
  | O => ret true
  | S n =>
    ok <- repeat_until fuel (write_round p);;
    if negb ok then ret false else
    b <- uload (addr + i);;
    modify (upd_pipe p (pipe_put (u8 b)));;;
    write_bytes fuel p addr n (i + 1)
  end.
Definition pipewrite (fuel : nat) (p addr n : Z) : kprog Z :=
  acquire (LKpipe p);;;
  ok <- write_bytes fuel p addr (Z.to_nat n) 0;;
  if negb ok then ret (-1) else
  wakeup (ChPipeR p);;;
  release (LKpipe p);;;
  ret n.

(** The wait loop of piperead, and its copy loop, which counts the bytes. *)
Definition read_round (p : Z) : kprog (option bool) :=
  pi <- get_pipe p;;
  if pipe_empty pi && negb (pi_writeopen pi =? 0) then
    i <- myproc;;
    pr <- gets (proc_at i);;
    if negb (p_killed pr =? 0) then release (LKpipe p);;; ret (Some false) else
    sleep (ChPipeR p) (LKpipe p);;;
    ret None
  else ret (Some true).
Fixpoint read_bytes (p addr : Z) (n : nat) (i : Z) : kprog Z :=
  match n with
  | O => ret i
  | S n =>
    pi <- get_pipe p;;
    if pipe_empty pi then ret i else
    modify (upd_pipe p pipe_drop);;;
    ustore (addr + i) (pipe_head pi);;;
    read_bytes p addr n (i + 1)
  end.
Definition piperead (fuel : nat) (p addr n : Z) : kprog Z :=
  acquire (LKpipe p);;;
  ok <- repeat_until fuel (read_round p);;
  if negb ok then ret (-1) else
  i <- read_bytes p addr (Z.to_nat n) 0;;
  wakeup (ChPipeW p);;;
  release (LKpipe p);;;
  ret i.

(** The page is gone after kfree, and the pipe with it. *)
Definition pipeclose `{Linker} (p writable : Z) : kprog unit :=
  acquire (LKpipe p);;;
  (if negb (writable =? 0) then
     modify (upd_pipe p (set_pi_writeopen 0));;; wakeup (ChPipeR p)
   else
     modify (upd_pipe p (set_pi_readopen 0));;; wakeup (ChPipeW p));;;
  pi <- get_pipe p;;
  if (pi_readopen pi =? 0) && (pi_writeopen pi =? 0) then
    release (LKpipe p);;;
    modify (fun s => set_k_pipes (delete p (k_pipes s)) s);;;
    kfree p
  else release (LKpipe p).

(** ** The queue of a pipe *)

(** [q] are the bytes in the pipe, oldest first. *)
Record pipe_repr (pi : pipe) (q : list Z) : Prop := Pipe_repr {
  pr_data : length (pi_data pi) = 512%nat;
  pr_len : (length q <= 512)%nat;
  pr_nread : 0 <= pi_nread pi < 4294967296;
  pr_nwrite : pi_nwrite pi = u32 (pi_nread pi + Z.of_nat (length q));
  pr_bytes : forall j x, q !! j = Some x -> pi_data pi !! Z.to_nat ((pi_nread pi + Z.of_nat j) mod 512) = Some x
}.

Lemma pipe_full_spec pi q : pipe_repr pi q -> pipe_full pi = bool_decide (length q = 512%nat).
Proof.
  intros [_ Hl Hr Hw _]. unfold pipe_full. rewrite Hw. unfold PIPESIZE.
  destruct (Z.eqb_spec (u32 (pi_nread pi + Z.of_nat (length q))) (u32 (pi_nread pi + 512)));
    case_bool_decide; try done; exfalso; word_lia.
Qed.

Lemma pipe_empty_spec pi q : pipe_repr pi q -> pipe_empty pi = bool_decide (q = []).
Proof.
  intros [_ Hl Hr Hw _]. unfold pipe_empty. rewrite Hw.
  destruct (Z.eqb_spec (pi_nread pi) (u32 (pi_nread pi + Z.of_nat (length q)))); case_bool_decide as Hq; try done; exfalso.
  - apply Hq. apply length_zero_iff_nil. word_lia.
  - subst q. simpl in *. word_lia.
Qed.

Lemma pipe_put_repr pi q b : pipe_repr pi q -> (length q < 512)%nat -> pipe_repr (pipe_put b pi) (q ++ [b]).
Proof.
  intros [Hd Hl Hr Hw Hb] Hq. split; simpl.
  - by rewrite length_insert.
  - rewrite length_app; simpl; lia.
  - done.
  - rewrite Hw, length_app; simpl. word_lia.
  - assert (pi_nwrite pi mod PIPESIZE = (pi_nread pi + Z.of_nat (length q)) mod 512) as Em.
    { rewrite Hw. unfold PIPESIZE. apply u32_mod_ring; [lia|]. by exists 8388608. }
    rewrite Em. intros j x Hx. destruct (decide (j = length q)) as [-> |Hne].
    + rewrite lookup_app_r, Nat.sub_diag in Hx by lia. simplify_eq/=. apply list_lookup_insert_eq.
      rewrite Hd. pose proof (Z.mod_pos_bound (pi_nread pi + Z.of_nat (length q)) 512). lia.
    + assert (j < length q)%nat as Hj by (apply lookup_lt_Some in Hx; rewrite length_app in Hx; simpl in Hx; lia).
      rewrite lookup_app_l in Hx by done. rewrite list_lookup_insert_ne; [by apply Hb|].
      Z.div_mod_to_equations. lia.
Qed.

Lemma pipe_drop_repr pi q x : pipe_repr pi (x :: q) -> pipe_head pi = x /\ pipe_repr (pipe_drop pi) q.
Proof.
  intros [Hd Hl Hr Hw Hb]. simpl in *. split.
  - pose proof (Hb 0%nat x eq_refl) as H0. rewrite Z.add_0_r in H0. unfold pipe_head, PIPESIZE.
    by apply nth_lookup_Some.
  - split; simpl; [done|lia|apply u32_range| |].
    + rewrite Hw. word_lia.
    + intros j y Hy. specialize (Hb (S j) y Hy). rewrite Nat2Z.inj_succ in Hb.
      replace ((u32 (pi_nread pi + 1) + Z.of_nat j) mod 512) with ((pi_nread pi + Z.succ (Z.of_nat j)) mod 512); [done|].
      word_lia.
Qed.

(** ** A writer among other threads *)

Definition pipe_holds (p : Z) (s : kstate) (q : list Z) : Prop :=
  exists pi, k_pipes s !! p = Some pi /\ pipe_repr pi q.

(** The bytes at the user address [base] of process [i]. *)
Definition user_bytes (i : nat) (base : Z) (s : kstate) (bytes : list Z) : Prop :=
  forall j b, bytes !! j = Some b -> 0 <= b < 256 /\
    exists a, user_addr (k_mem s) (p_pgdir (proc_at i s)) (base + Z.of_nat j) = Some a /\ k_mem s a = b.

(** Process [i] holds the lock of the pipe [p], which holds [q]. *)
Record at_pipe (i : nat) (p : Z) (s : kstate) (q : list Z) : Prop := At_pipe {
  ap_holds : holds_only i (LKpipe p) s;
  ap_ptable : lock_free LKptable s;
  ap_table : length (k_ptable s) = NPROC;
  ap_queue : pipe_holds p s q
}.

(** A state in which process [i], which waits for the pipe [p], gets the CPU back. *)
Record woken (i : nat) (p : Z) (s : kstate) (q : list Z) : Prop := Woken {
  wk_holds : holds_only i LKptable s;
  wk_lock : lock_free (LKpipe p) s;
  wk_table : length (k_ptable s) = NPROC;
  wk_queue : pipe_holds p s q
}.

(** The writer's protocol through [m] turns: whenever it gives the CPU away the pipe is
    full, the writer sleeps on it with the lock free, and it has appended the next bytes
    of [todo] to the queue [q] it found; when it gets the CPU back, with the pipe
    holding any [q'] the others have left, it goes on with the rest of [todo].  It
    returns [n] with all bytes appended, or -1. *)
Fixpoint sends (m : nat) (i : nat) (p base n : Z) (o : outcome kstate Z) (q todo : list Z) {struct o} : Prop :=
  match o with
  | Ret r s => exists k, pipe_holds p s (q ++ take k todo) /\ lock_free (LKpipe p) s /\
      ((r = n /\ take k todo = todo) \/ r = -1)
  | Swtch s k => exists j, pipe_holds p s (q ++ take j todo) /\ length (q ++ take j todo) = 512%nat /\
      lock_free (LKpipe p) s /\ p_state (proc_at i s) = SLEEPING /\ p_chan (proc_at i s) = ChPipeW p /\
      match m with
      | O => True
      | S m => forall s' q', woken i p s' q' -> user_bytes i (base + Z.of_nat j) s' (drop j todo) ->
          sends m i p (base + Z.of_nat j) n (k s') q' (drop j todo)
      end
  | NoFuel _ => m = O
  | Panic _ _ | Spin _ | Undef _ _ => False
  end.

Lemma sends_cons m i p base n o q b todo : sends m i p (base + 1) n o (q ++ [b]) todo ->
  sends m i p base n o q (b :: todo).
Proof.
  destruct o as [r s| | | |s k|]; simpl; try done.
  - intros (k & Hq & Hl & Hr). exists (S k). simpl. rewrite <- app_assoc in Hq.
    split_and!; [done|done|]. destruct Hr as [[-> Hr]|Hr]; [left|by right]. by rewrite Hr.
  - intros (j & Hq & Hlen & Hl & H1 & H2 & Hk). exists (S j). simpl. rewrite <- app_assoc in *.
    split_and!; [done..|]. destruct m as [|m]; [done|].
    replace (base + Z.of_nat (S j)) with (base + 1 + Z.of_nat j) by lia. exact Hk.
Qed.

#[export] Instance stable_upd_pipe p f : Stable (upd_pipe p f).
Proof. by split. Qed.

Lemma holds_cpu_ok i lk s : holds_only i lk s -> cpu_ok (k_cpu s).
Proof. intros [_ _ Hn Hi]. split; [lia|done]. Qed.

Lemma bind_get_pipe {A} p pi (f : pipe -> kprog A) s : k_pipes s !! p = Some pi -> bind (get_pipe p) f s = f pi s.
Proof. intros E. unfold bind, get_pipe. by rewrite E. Qed.

Lemma at_pipe_put i p s q b : at_pipe i p s q -> (length q < 512)%nat ->
  at_pipe i p (upd_pipe p (pipe_put b) s) (q ++ [b]).
Proof.
  intros [Hh Hp Hl (pi & Hpi & Hr)] Hq. split; [by destruct Hh; split|done|done|].
  exists (pipe_put b pi). split; [|by apply pipe_put_repr]. simpl. by rewrite lookup_alter_eq, Hpi.
Qed.

Lemma at_pipe_wakeup i p s q ch : at_pipe i p s q -> exists s', wakeup ch s = Ret tt s' /\
  at_pipe i p s' q /\ k_mem s' = k_mem s /\ p_pgdir (proc_at i s') = p_pgdir (proc_at i s) /\
  p_killed (proc_at i s') = p_killed (proc_at i s) /\
  (forall base bytes, user_bytes i base s bytes -> user_bytes i base s' bytes).
Proof.
  intros [Hh Hp Hl Hq]. eexists. split; [apply wakeup_run; [done|done|by eapply holds_cpu_ok]|].
  rewrite sync_held by (rewrite (ho_ncli _ _ _ Hh); lia). set (t := map _ _).
  assert (p_pgdir (proc_at i (set_k_ptable t s)) = p_pgdir (proc_at i s) /\
    p_killed (proc_at i (set_k_ptable t s)) = p_killed (proc_at i s)) as [E1 E2].
  { unfold proc_at, t; simpl. rewrite list_lookup_fmap. destruct (k_ptable s !! i); [|done]; simpl.
    unfold wake. by destruct (_ && _). }
  split_and!; [|done|done|done|].
  - split; [by destruct Hh; split|done| |done]. simpl. unfold t. by rewrite length_map.
  - intros base bytes Hb j b Hj. rewrite E1. by apply Hb.
Qed.

Lemma woken_at i p s q b : woken i p s q -> at_pipe i p (awakened i (LKpipe p) b s) q /\
  (forall base bytes, user_bytes i base s bytes -> user_bytes i base (awakened i (LKpipe p) b s) bytes).
Proof.
  intros [Hh Hl Ht Hq]. destruct (awake_run i (LKpipe p) b s Hh) as [_ Hh']; [by left|].
  unfold awakened in *. rewrite decide_False in * by done. split.
  - split; [done| | |done].
    + apply enter_free_ne; [done|]. apply leave_free.
    + etransitivity; [apply (length_upd i _ (upd_cpu _ s))|exact Ht].
  - intros base bytes Hb j c Hj. destruct (Hb j c Hj) as (Hc & a & Ha & Hm). split; [done|]. exists a. split; [|done].
    rewrite <- Ha. f_equal. unfold proc_at; simpl. destruct (k_ptable s !! i) as [pr|] eqn:E.
    + by rewrite list_lookup_alter_eq, E.
    + by rewrite list_lookup_alter_eq, E.
Qed.

Lemma at_pipe_release i p s q : at_pipe i p s q -> exists s', release (LKpipe p) s = Ret tt s' /\
  pipe_holds p s' q /\ lock_free (LKpipe p) s' /\ k_mem s' = k_mem s /\ k_ptable s' = k_ptable s.
Proof.
  intros [[Hp Hl Hn Hi] _ _ Hq]. eexists. split; [apply release_run; [done|done|lia]|].
  split_and!; [done|apply leave_free|done|done].
Qed.

Lemma uload_run i base s b bytes : cpu_proc (k_cpu s) = Some i -> user_bytes i base s (b :: bytes) ->
  uload base s = Ret b s /\ 0 <= b < 256.
Proof.
  intros Hp Hb. destruct (Hb 0%nat b eq_refl) as (Hr & a & Ha & Hm). split; [|done].
  unfold uload. rewrite (cur_pgdir_at i s Hp). rewrite Z.add_0_r in Ha. by rewrite Ha, Hm.
Qed.

Lemma user_bytes_tail i base s b bytes : user_bytes i base s (b :: bytes) -> user_bytes i (base + 1) s bytes.
Proof.
  intros Hb j c Hj. destruct (Hb (S j) c Hj) as (Hc & a & Ha & Hm). split; [done|]. exists a. split; [|done].
  rewrite <- Ha. f_equal. lia.
Qed.

Section Writer.
Context (i : nat) (p addr n : Z) (fuel : nat) (Hi : (i < NPROC)%nat).

Definition write_tail (ok : bool) : kprog Z :=
  if negb ok then ret (-1) else wakeup (ChPipeR p);;; release (LKpipe p);;; ret n.
Definition write_rest (k : nat) (ix : Z) (ok : bool) : kprog Z :=
  if negb ok then ret (-1) else
  b <- uload (addr + ix);;
  modify (upd_pipe p (pipe_put (u8 b)));;;
  (ok <- write_bytes fuel p addr k (ix + 1);; write_tail ok).

Lemma write_bytes_cons k ix s :
  (ok <- write_bytes fuel p addr (S k) ix;; write_tail ok) s =
  (ok <- repeat_until fuel (write_round p);; write_rest k ix ok) s.
Proof.
  cbn [write_bytes]. rewrite bind_assoc. apply bind_ext. intros ok s'. unfold write_rest.
  destruct ok; cbn [negb]; [|done]. by rewrite bind_assoc.
Qed.

Lemma write_tail_sends m base s q : at_pipe i p s q -> sends m i p base n (write_tail true s) q [].
Proof.
  intros Ha. unfold write_tail. cbn [negb].
  destruct (at_pipe_wakeup i p s q (ChPipeR p) Ha) as (s1 & E1 & Ha1 & _). mret E1.
  destruct (at_pipe_release i p s1 q Ha1) as (s2 & E2 & Hq & Hl & _). mret E2.
  exists 0%nat. rewrite app_nil_r. auto.
Qed.

(** One round of the wait loop. *)
Lemma write_wait_sends m f base K s q t : at_pipe i p s q -> user_bytes i base s t -> K false = ret (-1) ->
  ((length q < 512)%nat -> sends m i p base n (K true s) q t) ->
  (forall m' s' q', m = S m' -> at_pipe i p s' q' -> user_bytes i base s' t ->
     sends m' i p base n ((ok <- repeat_until f (write_round p);; K ok) s') q' t) ->
  sends m i p base n ((ok <- repeat_until (S f) (write_round p);; K ok) s) q t.
Proof.
  intros Ha Hu HK Hgo Hagain. cbn [repeat_until]. rewrite bind_assoc. unfold write_round at 1.
  rewrite bind_assoc. destruct (ap_queue _ _ _ _ Ha) as (pi & Hpi & Hr). rewrite (bind_get_pipe p pi) by done.
  rewrite (pipe_full_spec pi q Hr). case_bool_decide as Hq.
  2: { rewrite !bind_ret. apply Hgo. destruct Hr. lia. }
  rewrite bind_assoc, (bind_myproc i) by apply Ha. rewrite bind_assoc, bind_gets.
  destruct ((pi_readopen pi =? 0) || negb (p_killed (proc_at i s) =? 0)).
  { rewrite bind_assoc. destruct (at_pipe_release i p s q Ha) as (s2 & E2 & Hq2 & Hl2 & _). mret E2.
    rewrite !bind_ret, HK. exists 0%nat. rewrite app_nil_r. auto. }
  rewrite bind_assoc. destruct (at_pipe_wakeup i p s q (ChPipeR p) Ha) as (s1 & E1 & Ha1 & _ & _ & _ & Hu1). mret E1.
  rewrite bind_assoc.
  rewrite (bind_Swtch _ _ _ _ _ (sleep_run i (ChPipeW p) (LKpipe p) s1
    ltac:(rewrite (ap_table _ _ _ _ Ha1); lia) (ap_holds _ _ _ _ Ha1) (or_introl (ap_ptable _ _ _ _ Ha1)))).
  cbn [sends]. exists 0%nat. rewrite take_0, drop_0, app_nil_r. change (Z.of_nat 0) with 0. rewrite Z.add_0_r.
  rewrite asleep_proc by (rewrite (ap_table _ _ _ _ Ha1); lia). split_and!; [| | |done|done|].
  - unfold asleep. rewrite decide_False by done. apply Ha1.
  - done.
  - unfold asleep. rewrite decide_False by done. apply (lock_free_stable _ (upd_proc i _ ∘ upd_proc i _)); [apply _|].
    apply leave_free.
  - destruct m as [|m]; [done|]. intros s' q' Hw Hu'. set (b := cpu_intena _).
    destruct (awake_run i (LKpipe p) b s' (wk_holds _ _ _ _ Hw)) as [Ea _]; [left; apply Hw|].
    destruct (woken_at i p s' q' b Hw) as [Ha' Hub]. mret Ea. rewrite bind_ret. apply Hagain; auto.
Qed.

Lemma write_loop_sends m : (m < fuel)%nat -> forall todo b f ix s q, (m < f)%nat ->
  at_pipe i p s q -> user_bytes i (addr + ix) s (b :: todo) ->
  sends m i p (addr + ix) n
    ((ok <- repeat_until f (write_round p);; write_rest (length todo) ix ok) s) q (b :: todo).
Proof.
  induction m as [m IHm] using lt_wf_ind. intros Hm todo. induction todo as [|c todo IHt];
    intros b f ix s q Hf Ha Hu; (destruct f as [|f]; [lia|]).
  all: apply write_wait_sends; [done|done|done| |intros m' s' q' -> Ha' Hu'; apply IHm; auto; lia].
  all: intros Hq; unfold write_rest; cbn [negb];
    destruct (uload_run i (addr + ix) s b _ (ho_proc _ _ _ (ap_holds _ _ _ _ Ha)) Hu) as [El Hb];
    mret El; rewrite bind_modify; replace (u8 b) with b by word_lia;
    pose proof (at_pipe_put i p s q b Ha Hq) as Ha'; apply sends_cons.
  - cbn [length write_bytes]. rewrite bind_ret. by apply write_tail_sends.
  - cbn [length]. rewrite write_bytes_cons. replace (addr + ix + 1) with (addr + (ix + 1)) by lia.
    apply IHt; [done|done|]. replace (addr + (ix + 1)) with (addr + ix + 1) by lia.
    by apply user_bytes_tail in Hu.
Qed.

Lemma pipewrite_sends_from m todo s q : (m < fuel)%nat -> n = Z.of_nat (length todo) ->
  cpu_proc (k_cpu s) = Some i -> cpu_ncli (k_cpu s) = 0 -> lock_free (LKpipe p) s -> lock_free LKptable s ->
  length (k_ptable s) = NPROC -> pipe_holds p s q -> user_bytes i addr s todo ->
  sends m i p addr n (pipewrite fuel p addr n s) q todo.
Proof.
  intros Hm Hn Hp Hc Hl Hl' Ht Hq Hu. unfold pipewrite. mret (acquire_run (LKpipe p) s Hl).
  assert (at_pipe i p (enter (LKpipe p) s) q) as Ha.
  { split; [|by apply enter_free_ne|done|done]. split; [done|apply enter_mine| |done]. simpl. lia. }
  rewrite Hn at 2. rewrite Nat2Z.id.
  change (sends m i p addr n ((ok <- write_bytes fuel p addr (length todo) 0;; write_tail ok) (enter (LKpipe p) s)) q todo).
  destruct todo as [|b todo].
  - cbn [length write_bytes]. rewrite bind_ret. by apply write_tail_sends.
  - cbn [length]. rewrite write_bytes_cons. rewrite <- (Z.add_0_r addr) at 1.
    apply write_loop_sends; [done|done|done|]. rewrite Z.add_0_r. exact Hu.
Qed.

End Writer.

(** ** A reader among other threads *)

Section Reader.
Context `{LK : Linker} (i : nat) (p root : Z) (Hi : (i < NPROC)%nat).

(** The [n] bytes at [base] are user memory of the reader. *)
Record room (own : gmap Z (list Z)) (l : list Z) (base n : Z) (s : kstate) : Prop := Room {
  rm_root : p_pgdir (proc_at i s) = root;
  rm_pt : pt_ok own (k_mem s) root;
  rm_users : user_pages own s root l;
  rm_range : 0 <= base /\ base + n <= USERTOP;
  rm_mapped : forall va, base <= va < base + n -> is_Some (translate (k_mem s) root va)
}.

Lemma room_awakened own l base n b s : room own l base n s -> room own l base n (awakened i (LKpipe p) b s).
Proof.
  intros [R1 R2 [R3 R3'] R4 R5]. unfold awakened. rewrite decide_False by done. split; [|done|by split|done|done].
  etransitivity; [|exact R1]. unfold proc_at; simpl.
  destruct (k_ptable s !! i) as [pr|] eqn:E; by rewrite list_lookup_alter_eq, E.
Qed.

(** The copy loop takes the oldest bytes of the queue, in order. *)
Lemma read_bytes_run own l addr n : forall ix s q, at_pipe i p s q -> room own l (addr + ix) (Z.of_nat n) s ->
  Forall (fun b => 0 <= b < 256) q ->
  let k := (n `min` length q)%nat in
  exists s', read_bytes p addr n ix s = Ret (ix + Z.of_nat k) s' /\ at_pipe i p s' (drop k q) /\
    k_ptable s' = k_ptable s /\ k_cpu s' = k_cpu s /\
    (k_pipes s' !! p = None <-> k_pipes s !! p = None) /\
    copied_to own s (set_k_mem (k_mem s') s) root (addr + ix) l q k.
Proof.
  induction n as [|n IH]; intros ix s q Ha Hr Hq; cbn [read_bytes].
  - exists s. simpl. rewrite Z.add_0_r, drop_0. split_and!; try done.
    assert (set_k_mem (k_mem s) s = s) as -> by (by destruct s). apply copied_nil; apply Hr.
  - destruct (ap_queue _ _ _ _ Ha) as (pi & Hpi & Hrp). rewrite (bind_get_pipe p pi) by done.
    rewrite (pipe_empty_spec pi q Hrp). destruct q as [|x q].
    { rewrite bool_decide_true by done. exists s. simpl. rewrite Z.add_0_r. split_and!; try done.
      assert (set_k_mem (k_mem s) s = s) as -> by (by destruct s). apply copied_nil; apply Hr. }
    rewrite bool_decide_false by done. apply Forall_cons_1 in Hq as [Hx Hq].
    destruct (pipe_drop_repr pi q x Hrp) as [Ehd Hrp']. rewrite bind_modify, Ehd.
    destruct Hr as [R1 R2 R3 R4 R5]. destruct (R5 (addr + ix)) as [pte Ht]; [lia|].
    set (s1 := upd_pipe p pipe_drop s).
    assert (0 <= addr + ix < USERTOP) as Hva by lia.
    rewrite (bind_Ret _ _ _ _ _ (ustore_run i (addr + ix) x s1 pte (ho_proc _ _ _ (ap_holds _ _ _ _ Ha))
      (proj2 Hva) Hx ltac:(change (proc_at i s1) with (proc_at i s); rewrite R1; exact Ht))).
    set (s2 := upd_mem _ s1).
    pose proof (copied_chunk own s root (addr + ix) l (x :: q) 1 pte R2 R3 Hva Ht ltac:(simpl; lia)
      ltac:(unfold PGSIZE; pose proof (Z.mod_pos_bound (addr + ix) 4096); lia)) as C1.
    destruct (IH (ix + 1) s2 q) as (s' & E & Ha' & E1 & E2 & E3 & C2).
    + destruct Ha as [[] Hp2 Hp3 _]. split; [by split|done|done|]. exists (pipe_drop pi). split; [|done].
      simpl. by rewrite lookup_alter_eq, Hpi.
    + destruct C1 as [D1 [D2 D2'] D3 _ _ _]. split; [exact R1|exact D1| |lia|].
      * by split.
      * intros va Hv. change (k_mem s2) with (k_mem (upd_mem (at_list (frame pte + (addr + ix) mod PGSIZE) (take 1 (x :: q))) s)).
        rewrite D3 by lia. apply R5. lia.
    + done.
    + exists s'. cbn [length Nat.min drop]. split_and!; [|done|done|done| |].
      * rewrite E. f_equal. lia.
      * rewrite E3. simpl. by rewrite lookup_alter_eq, Hpi.
      * eapply (copied_app own s (set_k_mem (k_mem s2) s) _ root (addr + ix) l (x :: q) 1).
        -- simpl; lia.
        -- by eapply copied_re; [exact C1| | |].
        -- eapply copied_re; [replace (addr + ix + Z.of_nat 1) with (addr + (ix + 1)) by lia; exact C2|done|done|done].
Qed.

(** The reader's protocol: whenever it gives the CPU away the pipe is empty and the
    reader sleeps on it with the lock free; when it returns it has taken the oldest
    bytes of the queue [q] it found last, as many as there were up to [n], and they
    stand at [base] in its memory; it takes none only if none was asked for or the pipe
    is empty with its write end closed.  -1 is returned only with the queue as it was. *)
Definition at_eof (s : kstate) : Prop := exists pi, k_pipes s !! p = Some pi /\ pi_writeopen pi = 0.

Fixpoint receives (m : nat) (base : Z) (n : nat) (o : outcome kstate Z) (q : list Z) {struct o} : Prop :=
  match o with
  | Ret r s => lock_free (LKpipe p) s /\
      ((r = -1 /\ pipe_holds p s q) \/
       let k := (n `min` length q)%nat in
       r = Z.of_nat k /\ pipe_holds p s (drop k q) /\
       (forall j x, take k q !! j = Some x -> ubyte (k_mem s) root (base + Z.of_nat j) = Some x) /\
       (r = 0 -> n = 0%nat \/ at_eof s))
  | Swtch s k => q = [] /\ pipe_holds p s [] /\ lock_free (LKpipe p) s /\
      p_state (proc_at i s) = SLEEPING /\ p_chan (proc_at i s) = ChPipeR p /\
      match m with
      | O => True
      | S m => forall s' q' own l, woken i p s' q' -> Forall (fun b => 0 <= b < 256) q' ->
          room own l base (Z.of_nat n) s' -> receives m base n (k s') q'
      end
  | NoFuel _ => m = O
  | Panic _ _ | Spin _ | Undef _ _ => False
  end.

Definition read_tail (addr : Z) (n : nat) (ok : bool) : kprog Z :=
  if negb ok then ret (-1) else
  k <- read_bytes p addr n 0;; wakeup (ChPipeW p);;; release (LKpipe p);;; ret k.

Lemma read_tail_receives m own l addr n s q : at_pipe i p s q -> room own l addr (Z.of_nat n) s ->
  Forall (fun b => 0 <= b < 256) q -> (q = [] -> at_eof s) -> receives m addr n (read_tail addr n true s) q.
Proof.
  intros Ha Hr Hq Heof. unfold read_tail. cbn [negb]. pose proof Hr as [R1 R2 R3 R4 R5].
  destruct (read_bytes_run own l addr n 0 s q) as (s1 & E1 & Ha1 & _ & _ & _ & C); [done|by rewrite Z.add_0_r|done|].
  assert (q = [] -> s1 = s) as Hs1.
  { intros ->. destruct n as [|n]; cbn [read_bytes] in E1; [unfold ret in E1; by injection E1|].
    destruct (ap_queue _ _ _ _ Ha) as (pi & Hpi & Hrp). rewrite (bind_get_pipe p pi) in E1 by done.
    rewrite (pipe_empty_spec pi [] Hrp), bool_decide_true in E1 by done. by injection E1. }
  set (k := (n `min` length q)%nat) in *. mret E1.
  destruct (at_pipe_wakeup i p s1 _ (ChPipeW p) Ha1) as (s2 & E2 & Ha2 & M2 & _). mret E2.
  assert (k_pipes s2 = k_pipes s1) as P2.
  { rewrite wakeup_run in E2; [by injection E2 as <-|apply Ha1|apply Ha1|]. eapply holds_cpu_ok, Ha1. }
  destruct (at_pipe_release i p s2 _ Ha2) as (s3 & E3 & Hq3 & Hl3 & M3 & _). mret E3.
  assert (k_pipes s3 = k_pipes s2) as P3.
  { rewrite release_run in E3; [by injection E3 as <-|apply Ha2|apply Ha2|].
    rewrite (ho_ncli _ _ _ (ap_holds _ _ _ _ Ha2)). lia. }
  rewrite Z.add_0_l in *. rewrite Z.add_0_r in C. cbn [receives]. split; [done|]. right. fold k.
  split_and!; [done|done| |].
  - intros j x Hx. rewrite M3, M2. change (k_mem s1) with (k_mem (set_k_mem (k_mem s1) s)).
    assert (j < k)%nat as Hj by (apply lookup_lt_Some in Hx; rewrite length_take in Hx; lia).
    assert (k <= n)%nat by (unfold k; lia).
    rewrite (ct_ubyte _ _ _ _ _ _ _ _ C) by lia. rewrite (proj2 (in_range_spec _ _ _)) by lia.
    rewrite lookup_take_lt in Hx by done. rewrite <- Hx. f_equal. lia.
  - intros H0. destruct n as [|n']; [by left|right]. assert (q = []) as Eq.
    { destruct q; [done|]. unfold k in H0. simpl in H0. lia. }
    destruct (Heof Eq) as (pi & Hpi & Hw). exists pi. by rewrite P3, P2, (Hs1 Eq).
Qed.

Lemma piperead_receives_loop m : forall f own l addr n s q, (m < f)%nat -> at_pipe i p s q ->
  room own l addr (Z.of_nat n) s -> Forall (fun b => 0 <= b < 256) q ->
  receives m addr n ((ok <- repeat_until f (read_round p);; read_tail addr n ok) s) q.
Proof.
  induction m as [m IHm] using lt_wf_ind. intros f own l addr n s q Hf Ha Hr Hq.
  destruct f as [|f]; [lia|]. cbn [repeat_until]. rewrite bind_assoc. unfold read_round at 1.
  rewrite bind_assoc. destruct (ap_queue _ _ _ _ Ha) as (pi & Hpi & Hrp). rewrite (bind_get_pipe p pi) by done.
  rewrite (pipe_empty_spec pi q Hrp).
  destruct (bool_decide (q = []) && negb (pi_writeopen pi =? 0)) eqn:Ewait.
  2: { rewrite !bind_ret. eapply read_tail_receives; [done|done|done|]. intros ->. exists pi. split; [done|].
       simpl in Ewait. destruct (Z.eqb_spec (pi_writeopen pi) 0); [done|]. done. }
  apply andb_true_iff in Ewait as [->%bool_decide_eq_true Hopen].
  rewrite bind_assoc, (bind_myproc i) by apply Ha. rewrite bind_assoc, bind_gets.
  destruct (negb (p_killed (proc_at i s) =? 0)).
  { rewrite bind_assoc. destruct (at_pipe_release i p s [] Ha) as (s2 & E2 & Hq2 & Hl2 & _). mret E2.
    rewrite !bind_ret. cbn. split; [done|]. by left. }
  rewrite bind_assoc.
  rewrite (bind_Swtch _ _ _ _ _ (sleep_run i (ChPipeR p) (LKpipe p) s
    ltac:(rewrite (ap_table _ _ _ _ Ha); lia) (ap_holds _ _ _ _ Ha) (or_introl (ap_ptable _ _ _ _ Ha)))).
  cbn [receives]. rewrite asleep_proc by (rewrite (ap_table _ _ _ _ Ha); lia).
  split_and!; [done| | |done|done|].
  - unfold asleep. rewrite decide_False by done. apply Ha.
  - unfold asleep. rewrite decide_False by done. apply (lock_free_stable _ (upd_proc i _ ∘ upd_proc i _)); [apply _|].
    apply leave_free.
  - destruct m as [|m]; [done|]. intros s' q' own' l' Hw Hq' Hr'. set (b := cpu_intena _).
    destruct (awake_run i (LKpipe p) b s' (wk_holds _ _ _ _ Hw)) as [Ea _]; [left; apply Hw|].
    destruct (woken_at i p s' q' b Hw) as [Ha' _]. mret Ea. rewrite bind_ret.
    eapply (IHm m); [lia|lia|done| |done]. eapply room_awakened. exact Hr'.
Qed.

End Reader.

(** ** Closing an end *)

Definition closed (writable : Z) (pi : pipe) : pipe :=
  if negb (writable =? 0) then set_pi_writeopen 0 pi else set_pi_readopen 0 pi.
Definition peer (p writable : Z) : chan := if negb (writable =? 0) then ChPipeR p else ChPipeW p.

#[export] Instance stable_set_pipes v : Stable (set_k_pipes v).
Proof. by split. Qed.

(** The state after the end is closed and the other side woken, lock released. *)
Definition end_closed (p writable : Z) (s : kstate) : kstate :=
  set_k_ptable (map (wake (peer p writable)) (k_ptable s)) (upd_pipe p (closed writable) (sync s)).

Lemma pipeclose_run `{Linker} p writable pi s : k_pipes s !! p = Some pi -> lock_free (LKpipe p) s ->
  lock_free LKptable s -> cpu_ok (k_cpu s) -> length (k_ptable s) = NPROC ->
  pipeclose p writable s =
    (if (pi_readopen (closed writable pi) =? 0) && (pi_writeopen (closed writable pi) =? 0) then
       modify (fun s => set_k_pipes (delete p (k_pipes s)) s);;; kfree p
     else ret tt) (end_closed p writable s).
Proof.
  intros Hpi Hl Hp Hc Ht. unfold pipeclose. mret (acquire_run (LKpipe p) s Hl).
  assert ((if negb (writable =? 0) then modify (upd_pipe p (set_pi_writeopen 0));;; wakeup (ChPipeR p)
           else modify (upd_pipe p (set_pi_readopen 0));;; wakeup (ChPipeW p)) (enter (LKpipe p) s) =
    Ret tt (set_k_ptable (map (wake (peer p writable)) (k_ptable s)) (upd_pipe p (closed writable) (enter (LKpipe p) s)))) as E.
  { unfold peer. pose proof (fun ch => wakeup_inside ch (LKpipe p) (upd_pipe p (closed writable)) s _
      ltac:(done) Ht Hp Hc) as Hw. unfold closed in *.
    destruct (negb (writable =? 0)); rewrite bind_modify; apply Hw. }
  mret E. rewrite (bind_get_pipe p (closed writable pi)) by (simpl; by rewrite lookup_alter_eq, Hpi).
  set (u := set_k_ptable (map (wake (peer p writable)) (k_ptable s)) ∘ upd_pipe p (closed writable)).
  pose proof (release_stable (LKpipe p) u s _ Hl Hc) as Er. unfold u in Er; simpl in Er.
  destruct (_ && _); [by mret Er|exact Er].
Qed.

(** ** Properties *)



(** pipeclose marks its end closed and wakes the threads that wait at the other
    end; the second of the two closes frees the page, exactly once: the pipe is gone
    and its page is back on the free list. *)
Theorem pipeclose_frees_last `{Linker} p writable pi s l :
  k_pipes s !! p = Some pi -> lock_free (LKpipe p) s -> lock_free LKptable s -> alloc_ready s ->
  length (k_ptable s) = NPROC -> free_pages s l -> page_ok p -> p ∉ l ->
  exists s', pipeclose p writable s = Ret tt s' /\
    (forall j, p_state (proc_at j s) = SLEEPING -> p_chan (proc_at j s) = peer p writable ->
       p_state (proc_at j s') = RUNNABLE) /\
    if decide (pi_readopen (closed writable pi) = 0 /\ pi_writeopen (closed writable pi) = 0)
    then k_pipes s' !! p = None /\ free_pages s' (p :: l)
    else k_pipes s' !! p = Some (closed writable pi) /\ free_pages s' l /\ lock_free (LKpipe p) s'.
Proof.
  intros Hpi Hl Hp Hr Ht Hf Hpg Hpl. rewrite (pipeclose_run p writable pi s) by (done || apply Hr).
  assert (forall j, p_state (proc_at j s) = SLEEPING -> p_chan (proc_at j s) = peer p writable ->
    p_state (proc_at j (end_closed p writable s)) = RUNNABLE) as Hwake.
  { intros j Hs Hc. unfold proc_at in *; simpl. rewrite list_lookup_fmap.
    destruct (k_ptable s !! j) as [pr|]; [|done]. simpl in *. unfold wake. by rewrite !bool_decide_true. }
  destruct (decide (pi_readopen (closed writable pi) = 0 /\ pi_writeopen (closed writable pi) = 0)) as [[-> ->]|Hn].
  2: { destruct (Z.eqb_spec (pi_readopen (closed writable pi)) 0), (Z.eqb_spec (pi_writeopen (closed writable pi)) 0);
         [tauto|..]; (eexists; split; [done|]; split; [done|]; split_and!;
         [simpl; by rewrite lookup_alter_eq, Hpi|by destruct Hf; split|done]). }
  cbn [andb Z.eqb]. rewrite bind_modify. set (s1 := set_k_pipes _ _).
  assert (alloc_ready s1) as Hr1 by (destruct Hr as (? & ? & ?); split_and!; [done|done|by apply cpu_ok_sync]).
  rewrite (kfree_run p s1 Hpg Hr1). eexists. split; [done|]. split; [|split].
  - intros j Hs Hc. rewrite <- (Hwake j Hs Hc). unfold proc_at. f_equal. f_equal. f_equal.
    exact (q_ptable _ _ (mem_only_kfreed p s1)).
  - rewrite (q_pipes _ _ (mem_only_kfreed p s1)). simpl. apply lookup_delete_eq.
  - apply free_pages_freed; [done|done|]. by destruct Hf; split.
Qed.

(** *** Witnesses *)

#[local] Existing Instance small_linker.

Definition the_pipe : Z := one_page + 40960.

(** [s] with process 1 running in the address space [one_page], all locks free, and a
    pipe that holds the byte 7. *)
Definition pipe_state (s : kstate) : kstate :=
  set_k_pipes {[ the_pipe := Pipe (7 :: replicate 511 0) 0 1 1 1 ]}
    (set_k_locks (<[LKpipe the_pipe := Spinlock 0 "pipe" None]> boot_locks)
      (set_k_ptable (<[1%nat := set_p_pgdir one_page (set_p_pid 1 (set_p_state RUNNING zero_proc))]>
          (replicate NPROC zero_proc))
        (set_k_cpu (Cpu 0 0 false false (Some 1%nat) 0 0) s))).

Lemma pipe_state_locks s : lock_free (LKpipe the_pipe) (pipe_state s) /\
  (forall lk, lk <> LKpipe the_pipe -> bool_decide (is_Some (boot_locks !! lk)) = true -> lock_free lk (pipe_state s)).
Proof.
  split; [eexists; apply lookup_insert_eq|]. intros lk Hne Hb. unfold lock_free; simpl. rewrite lookup_insert_ne by done.
  by apply (booted_free lk booted).
Qed.

Lemma pipe_state_holds s : pipe_holds the_pipe (pipe_state s) [7].
Proof.
  eexists. split; [apply lookup_singleton_eq|]. split; simpl; [done|lia|lia|done|].
  intros [|j] x Hx; [by simplify_eq/=|done].
Qed.

Lemma pipe_state_free s l : free_pages s l -> free_pages (pipe_state s) l.
Proof. intros []. by split. Qed.



Lemma pipeclose_frees_last_witness : exists s s1, pipeclose the_pipe 1 s = Ret tt s1 /\
  k_pipes s1 !! the_pipe = Some (Pipe (7 :: replicate 511 0) 0 1 1 0).
Proof.
  destruct (some_pages_free 2 ltac:(lia)) as [Hf Hr]. exists (pipe_state (some_pages 2)).
  destruct (pipe_state_locks (some_pages 2)) as [Hl Hls].
  assert (page_ok the_pipe) as Hp.
  { apply (Forall_forall page_ok (pages_from (one_page + PGSIZE * 10) 1)); [|by left]. apply pages_from_ok; lia. }
  destruct (pipeclose_frees_last the_pipe 1 (Pipe (7 :: replicate 511 0) 0 1 1 1) (pipe_state (some_pages 2))
    (pages_from one_page 2)) as (s1 & E & _ & Hs1).
  - apply lookup_singleton_eq.
  - done.
  - apply Hls; [done|]. vm_compute. reflexivity.
  - split_and!; [apply Hls; [done|]; vm_compute; reflexivity|apply Hls; [done|]; vm_compute; reflexivity|].
    split; simpl; lia.
  - done.
  - by apply pipe_state_free.
  - exact Hp.
  - apply not_elem_of_pages_from. unfold the_pipe, PGSIZE. lia.
  - exists s1. split; [exact E|]. apply Hs1.
Defined.
