(* ===== verification/Bio.v ===== *)
(** * Bio: bio.c, memide.c and ide.c, the buffer cache and the disk drivers

    A buffer is named by its index in [bcache.buf]; the doubly linked list through
    [prev] and [next] is the list [bc_lru].  What the cache needs of a driver is the
    class [BlockDriver]; memide.c (the disk is an image in memory) and ide.c (a queue
    served by interrupts) are its two instances. *)

From S2P Require Import Prelude Machine Spinlock Cstring Ktrace Kalloc Vm Sched Sleeplock.
#[local] Open Scope prog_scope.

Definition B_VALID : Z := 2.
Definition B_DIRTY : Z := 4.

Class BlockDriver := { iderw : nat -> kprog unit }.

(** ** memide.c *)

(** A block reaches the disk. *)
Definition disk_write (blockno : Z) (data : list Z) (s : kstate) : kstate :=
  set_k_dwrites (k_dwrites s ++ [(blockno, data)])
    (set_k_disk (fun b => if b =? blockno then data else k_disk s b) s).

Definition or_flags (i : nat) (f : Z) : kprog unit :=
  modify (upd_buf i (fun b => set_b_flags (Z.lor (b_flags b) f) b)).
Definition clear_flags (i : nat) (f : Z) : kprog unit :=
  modify (upd_buf i (fun b => set_b_flags (Z.land (b_flags b) (i32 (Z.lnot f))) b)).

Definition memide_rw (disksize : Z) (i : nat) : kprog unit :=
  h <- holdingsleep (SLbuf i);;
  if h =? 0 then panic "iderw: buf not locked" else
  b <- gets (buf_at i);;
  if Z.land (b_flags b) (Z.lor B_VALID B_DIRTY) =? B_VALID then panic "iderw: nothing to do" else
  if negb (b_dev b =? 1) then panic "iderw: request not for disk 1" else
  if b_blockno b >=? disksize then panic "iderw: block out of range" else
  (if negb (Z.land (b_flags b) B_DIRTY =? 0) then
     clear_flags i B_DIRTY;;;
     modify (disk_write (b_blockno b) (b_data b))
   else modify (fun s => upd_buf i (set_b_data (k_disk s (b_blockno b))) s));;;
  or_flags i B_VALID.

(** ** ide.c

    The controller is the disk [k_disk]: a write command with its data stores the
    block, and the data port delivers the block of the active read command; the accesses
    to its registers are in Ports.  [havedisk1] is what ideinit found. *)

(** outsl sends the data with the write command, insl fetches the block read. *)
Definition idestart (i : nat) : kprog unit :=
  b <- gets (buf_at i);;
  if b_blockno b >=? FSSIZE then panic "incorrect blockno" else
  when negb (Z.land (b_flags b) B_DIRTY =? 0) do modify (disk_write (b_blockno b) (b_data b)).

(** [err]: the status register reports an error for the request. *)
Definition ideintr (err : bool) : kprog unit :=
  acquire LKide;;;
  q <- gets k_ideq;;
  match q with
  | [] => release LKide
  | i :: q =>
    modify (set_k_ideq q);;;
    b <- gets (buf_at i);;
    (when (Z.land (b_flags b) B_DIRTY =? 0) && negb err do
       modify (fun s => upd_buf i (set_b_data (k_disk s (b_blockno b))) s));;;
    or_flags i B_VALID;;;
    clear_flags i B_DIRTY;;;
    wakeup (ChBuf i);;;
    q <- gets k_ideq;;
    (match q with [] => ret tt | j :: _ => idestart j end);;;
    release LKide
  end.

Definition ide_rw (havedisk1 : bool) (fuel : nat) (i : nat) : kprog unit :=
  h <- holdingsleep (SLbuf i);;
  if h =? 0 then panic "iderw: buf not locked" else
  b <- gets (buf_at i);;
  if Z.land (b_flags b) (Z.lor B_VALID B_DIRTY) =? B_VALID then panic "iderw: nothing to do" else
  if negb (b_dev b =? 0) && negb havedisk1 then panic "iderw: ide disk 1 not present" else
  acquire LKide;;;
  modify (fun s => set_k_ideq (k_ideq s ++ [i]) s);;;
  q <- gets k_ideq;;
  (when bool_decide (head q = Some i) do idestart i);;;
  repeat_until fuel (
    b <- gets (buf_at i);;
    if negb (Z.land (b_flags b) (Z.lor B_VALID B_DIRTY) =? B_VALID)
    then sleep (ChBuf i) LKide;;; ret None
    else ret (Some tt));;;
  release LKide.

(** ** bio.c *)

Definition upd_lru (f : list nat -> list nat) (s : kstate) : kstate :=
  set_k_bcache (set_bc_lru (f (bc_lru (k_bcache s))) (k_bcache s)) s.

Definition binit : kprog unit :=
  initlock LKbcache "bcache";;;
  modify (upd_lru (fun _ => []));;;
  for_each (seq 0 NBUF) (fun i =>
    initsleeplock (SLbuf i) "buffer";;;
    modify (upd_lru (cons i))).

Section Cache.
Context `{DR : BlockDriver} (fuel : nat).

(** The first loop of bget looks for the block, the second for a buffer to recycle. *)
Definition bget_hit (dev blockno : Z) (i : nat) : kprog (option nat) :=
  b <- gets (buf_at i);;
  if (b_dev b =? dev) && (b_blockno b =? blockno) then
    modify (upd_buf i (fun b => set_b_refcnt (u32 (b_refcnt b + 1)) b));;;
    release LKbcache;;;
    acquiresleep fuel (SLbuf i);;;
    ret (Some i)
  else ret None.
Definition bget_recycle (dev blockno : Z) (i : nat) : kprog (option nat) :=
  b <- gets (buf_at i);;
  if (b_refcnt b =? 0) && (Z.land (b_flags b) B_DIRTY =? 0) then
    modify (upd_buf i (set_b_dev dev));;;
    modify (upd_buf i (set_b_blockno blockno));;;
    modify (upd_buf i (set_b_flags 0));;;
    modify (upd_buf i (set_b_refcnt 1));;;
    release LKbcache;;;
    acquiresleep fuel (SLbuf i);;;
    ret (Some i)
  else ret None.
Definition bget (dev blockno : Z) : kprog nat :=
  acquire LKbcache;;;
  lru <- gets (fun s => bc_lru (k_bcache s));;
  r <- for_break lru (bget_hit dev blockno);;
  match r with
  | Some i => ret i
  | None =>
    r <- for_break (rev lru) (bget_recycle dev blockno);;
    match r with Some i => ret i | None => panic "bget: no buffers" end
  end.

Definition bread (dev blockno : Z) : kprog nat :=
  i <- bget dev blockno;;
  b <- gets (buf_at i);;
  (when Z.land (b_flags b) B_VALID =? 0 do iderw i);;;
  ret i.

Definition bwrite (i : nat) : kprog unit :=
  h <- holdingsleep (SLbuf i);;
  if h =? 0 then panic "bwrite" else
  or_flags i B_DIRTY;;;
  iderw i.

Definition brelse (i : nat) : kprog unit :=
  h <- holdingsleep (SLbuf i);;
  if h =? 0 then panic "brelse" else
  releasesleep (SLbuf i);;;
  acquire LKbcache;;;
  modify (upd_buf i (fun b => set_b_refcnt (u32 (b_refcnt b - 1)) b));;;
  b <- gets (buf_at i);;
  (when b_refcnt b =? 0 do
     modify (upd_lru (fun lru => i :: filter (fun j => j <> i) lru)));;;
  release LKbcache.

End Cache.

(** ** What a driver promises

    A request for a locked buffer: a buffer without contents is filled from the disk, a
    dirty one is written to it, and no other part of the kernel changes. *)
Class BlockDriverLaws `{BlockDriver} (disksize : Z) : Prop := {
  rw_read : forall i s, (i < length (bc_buf (k_bcache s)))%nat ->
    lock_free (LKsleep (SLbuf i)) s -> cpu_ok (k_cpu s) -> sl_locked (b_lock (buf_at i s)) <> 0 ->
    b_dev (buf_at i s) = 1 -> 0 <= b_blockno (buf_at i s) < disksize -> b_flags (buf_at i s) = 0 ->
    iderw i s = Ret tt (upd_buf i (fun b => set_b_flags B_VALID (set_b_data (k_disk s (b_blockno b)) b)) (sync s));
  rw_write : forall i s, (i < length (bc_buf (k_bcache s)))%nat ->
    lock_free (LKsleep (SLbuf i)) s -> cpu_ok (k_cpu s) -> sl_locked (b_lock (buf_at i s)) <> 0 ->
    b_dev (buf_at i s) = 1 -> 0 <= b_blockno (buf_at i s) < disksize ->
    b_flags (buf_at i s) = Z.lor B_VALID B_DIRTY ->
    iderw i s = Ret tt (upd_buf i (set_b_flags B_VALID)
      (disk_write (b_blockno (buf_at i s)) (b_data (buf_at i s)) (sync s)))
}.

Lemma buf_at_upd i f s : (i < length (bc_buf (k_bcache s)))%nat -> buf_at i (upd_buf i f s) = f (buf_at i s).
Proof. intros [b Hb]%lookup_lt_is_Some. unfold buf_at, upd_buf; simpl. by rewrite list_lookup_alter_eq, Hb. Qed.

Lemma buf_at_upd_ne i j f s : i <> j -> buf_at j (upd_buf i f s) = buf_at j s.
Proof. intros Hne. unfold buf_at, upd_buf; simpl. by rewrite list_lookup_alter_ne. Qed.

Lemma length_upd_buf i f s : length (bc_buf (k_bcache (upd_buf i f s))) = length (bc_buf (k_bcache s)).
Proof. apply length_alter. Qed.

Lemma upd_buf_twice i f g s : upd_buf i f (upd_buf i g s) = upd_buf i (f ∘ g) s.
Proof. unfold upd_buf; simpl. by rewrite list_alter_alter_eq. Qed.

(** Two updates that agree on the buffer are the same. *)
Lemma upd_buf_eq i f g s : f (buf_at i s) = g (buf_at i s) -> upd_buf i f s = upd_buf i g s.
Proof.
  intros E. unfold upd_buf. do 2 f_equal. unfold buf_at in E.
  destruct (bc_buf (k_bcache s) !! i) as [b|] eqn:Eb; [by apply (alter_at f g _ _ b)|].
  apply list_eq. intros j. destruct (decide (i = j)) as [<-|]; [by rewrite !list_lookup_alter_eq, Eb|
    by rewrite !list_lookup_alter_ne].
Qed.

#[export] Instance memide_driver (disksize : Z) : BlockDriver := { iderw := memide_rw disksize }.

(** memide.c keeps the promise. *)
#[export] Instance memide_laws disksize : BlockDriverLaws (H := memide_driver disksize) disksize.
Proof.
  split; intros i s Hi Hf Hc Hl Hd Hb Hfl; simpl; unfold memide_rw;
    mret (holdingsleep_run (SLbuf i) s Hf Hc); cbn [sleep_of];
    (destruct (Z.eqb_spec (sl_locked (b_lock (buf_at i s))) 0) as [|_]; [done|]);
    rewrite bind_gets; change (buf_at i (sync s)) with (buf_at i s); rewrite Hfl, Hd;
    (destruct (Z.geb_spec (b_blockno (buf_at i s)) disksize) as [|_]; [lia|]).
  - change (Z.land 0 (Z.lor B_VALID B_DIRTY) =? B_VALID) with false.
    change (negb (Z.land 0 B_DIRTY =? 0)) with false. cbn [negb Z.eqb Pos.eqb]. rewrite bind_modify.
    unfold or_flags, modify. rewrite upd_buf_twice. f_equal. apply upd_buf_eq. simpl.
    change (buf_at i (sync s)) with (buf_at i s). by rewrite Hfl.
  - change (Z.land (Z.lor B_VALID B_DIRTY) (Z.lor B_VALID B_DIRTY) =? B_VALID) with false.
    change (negb (Z.land (Z.lor B_VALID B_DIRTY) B_DIRTY =? 0)) with true. cbn [negb Z.eqb Pos.eqb].
    unfold clear_flags, or_flags. rewrite bind_assoc, !bind_modify. unfold modify.
    set (g := fun b => set_b_flags (Z.land _ _) b). set (h := fun b => set_b_flags (Z.lor _ _) b).
    change (disk_write ?n ?d (upd_buf i g ?x)) with (upd_buf i g (disk_write n d x)).
    rewrite upd_buf_twice. f_equal. apply upd_buf_eq. unfold h, g; simpl.
    change (buf_at i (disk_write _ _ (sync s))) with (buf_at i s). by rewrite Hfl.
Qed.

(** ** The cache as a view of the disk

    [c b] is the content of block [b] of disk 1 as the file system sees it, [d] the set
    of the pinned blocks, those with [B_DIRTY] whose content has not reached the disk,
    and [held] the buffers that the running thread of process [pi] has locked; what is
    in the data of those is the thread's own business until it releases them. *)
Record bio_inv (pi : nat) (s : kstate) (c : Z -> list Z) (d : gset Z) (held : list nat) : Prop := Bio_inv {
  bi_proc : cpu_proc (k_cpu s) = Some pi;
  bi_ncli : cpu_ncli (k_cpu s) = 0;
  bi_table : length (k_ptable s) = NPROC;
  bi_ptable : lock_free LKptable s;
  bi_bcache : lock_free LKbcache s;
  bi_inner : forall i, (i < NBUF)%nat -> lock_free (LKsleep (SLbuf i)) s;
  bi_len : length (bc_buf (k_bcache s)) = NBUF;
  bi_lru : bc_lru (k_bcache s) ≡ₚ seq 0 NBUF;
  bi_nodup : NoDup held;
  bi_held : forall i, i ∈ held -> (i < NBUF)%nat /\ b_dev (buf_at i s) = 1;
  bi_lock : forall i, (i < NBUF)%nat -> sl_locked (b_lock (buf_at i s)) = if decide (i ∈ held) then 1 else 0;
  bi_ref : forall i, (i < NBUF)%nat -> b_refcnt (buf_at i s) = if decide (i ∈ held) then 1 else 0;
  bi_flags : forall i, (i < NBUF)%nat -> b_flags (buf_at i s) =
    if decide (b_dev (buf_at i s) = 1) then
      if decide (b_blockno (buf_at i s) ∈ d) then Z.lor B_VALID B_DIRTY else B_VALID
    else 0;
  bi_uniq : forall i j, (i < NBUF)%nat -> (j < NBUF)%nat -> b_dev (buf_at i s) = 1 -> b_dev (buf_at j s) = 1 ->
    b_blockno (buf_at i s) = b_blockno (buf_at j s) -> i = j;
  bi_pinned : forall b, b ∈ d -> exists i, (i < NBUF)%nat /\ b_dev (buf_at i s) = 1 /\ b_blockno (buf_at i s) = b;
  bi_data : forall i, (i < NBUF)%nat -> i ∉ held -> b_dev (buf_at i s) = 1 ->
    b_data (buf_at i s) = c (b_blockno (buf_at i s));
  bi_disk : forall b, b ∉ d -> k_disk s b = c b
}.

Lemma bio_cpu_ok pi s c d held : bio_inv pi s c d held -> cpu_ok (k_cpu s).
Proof. intros Hb. pose proof (bi_ncli _ _ _ _ _ Hb). split; lia. Qed.

(** What the operations of the cache leave alone. *)
Record bio_frame (s s' : kstate) : Prop := Bio_frame {
  bf_proc : cpu_proc (k_cpu s') = cpu_proc (k_cpu s);
  bf_ncli : cpu_ncli (k_cpu s') = cpu_ncli (k_cpu s);
  bf_locks : k_locks s' = k_locks s;
  bf_table : length (k_ptable s') = length (k_ptable s);
  bf_log : k_log s' = k_log s;
  bf_sb : k_sb s' = k_sb s;
  bf_icache : k_icache s' = k_icache s;
  bf_mem : k_mem s' = k_mem s
}.

Lemma bio_frame_refl s : bio_frame s s.
Proof. by split. Qed.
Lemma bio_frame_trans s1 s2 s3 : bio_frame s1 s2 -> bio_frame s2 s3 -> bio_frame s1 s3.
Proof. intros [] []. split; congruence. Qed.
Lemma bio_frame_sync s : bio_frame s (sync s).
Proof. split; try done; simpl; unfold sync_cpu; by destruct (_ =? 0). Qed.
Lemma bio_frame_upd i f s : bio_frame s (upd_buf i f s).
Proof. by split. Qed.
Lemma bio_frame_taken i pid s : bio_frame s (sl_taken (SLbuf i) pid s).
Proof. by split. Qed.
Lemma bio_frame_write b x s : bio_frame s (disk_write b x s).
Proof. by split. Qed.

(** One buffer, [i], its place in the list and the disk block of its number change. *)
Lemma bio_inv_upd pi s s' c c' d d' held held' i :
  bio_inv pi s c d held -> bio_frame s s' -> (i < NBUF)%nat ->
  length (bc_buf (k_bcache s')) = NBUF -> bc_lru (k_bcache s') ≡ₚ seq 0 NBUF ->
  (forall j, j <> i -> buf_at j s' = buf_at j s) -> NoDup held' ->
  (forall j, j <> i -> j ∈ held' <-> j ∈ held) ->
  b_dev (buf_at i s') = 1 ->
  b_flags (buf_at i s') = (if decide (b_blockno (buf_at i s') ∈ d') then Z.lor B_VALID B_DIRTY else B_VALID) ->
  sl_locked (b_lock (buf_at i s')) = (if decide (i ∈ held') then 1 else 0) ->
  b_refcnt (buf_at i s') = (if decide (i ∈ held') then 1 else 0) ->
  (forall j, (j < NBUF)%nat -> j <> i -> b_dev (buf_at j s) = 1 -> b_blockno (buf_at j s) <> b_blockno (buf_at i s')) ->
  (i ∉ held' -> b_data (buf_at i s') = c' (b_blockno (buf_at i s'))) ->
  (b_blockno (buf_at i s') ∉ d' -> k_disk s' (b_blockno (buf_at i s')) = c' (b_blockno (buf_at i s'))) ->
  (forall b, b <> b_blockno (buf_at i s') -> c' b = c b /\ k_disk s' b = k_disk s b /\ (b ∈ d' <-> b ∈ d)) ->
  (b_dev (buf_at i s) = 1 -> b_blockno (buf_at i s) <> b_blockno (buf_at i s') -> b_blockno (buf_at i s) ∉ d) ->
  bio_inv pi s' c' d' held'.
Proof.
  intros [B0 B1 B2 B3 B4 B5 B6 B7 B8 B9 B10 B11 B12 B13 B14 B15 B16] [F1 F2 F3 F4 _ _ _ _] Hi Hlen Hlru Hbuf Hnd Hheld
    Hdev Hfl Hlk Href Hun Hdata Hdisk Hc Hold.
  assert (forall lk, lock_free lk s -> lock_free lk s') as Hlf by (unfold lock_free; by rewrite F3).
  split; auto; try congruence.
  - intros j Hj. destruct (decide (j = i)) as [-> |Hne]; [done|]. rewrite Hbuf by done. apply B9. by apply Hheld.
  - intros j Hj. destruct (decide (j = i)) as [-> |Hne]; [done|]. rewrite Hbuf, B10 by done. specialize (Hheld j Hne).
    destruct (decide (j ∈ held)), (decide (j ∈ held')); naive_solver.
  - intros j Hj. destruct (decide (j = i)) as [-> |Hne]; [done|]. rewrite Hbuf, B11 by done. specialize (Hheld j Hne).
    destruct (decide (j ∈ held)), (decide (j ∈ held')); naive_solver.
  - intros j Hj. destruct (decide (j = i)) as [-> |Hne]; [by rewrite decide_True|]. rewrite Hbuf, B12 by done.
    destruct (decide (b_dev (buf_at j s) = 1)) as [Hd|]; [|done].
    destruct (Hc _ (Hun j Hj Hne Hd)) as (_ & _ & E).
    destruct (decide (b_blockno (buf_at j s) ∈ d)), (decide (b_blockno (buf_at j s) ∈ d')); naive_solver.
  - intros j k Hj Hk. destruct (decide (j = i)) as [-> |Hji], (decide (k = i)) as [-> |Hki]; [done| | |].
    + rewrite (Hbuf k) by done. intros _ Hd E. by destruct (Hun k Hk Hki Hd).
    + rewrite (Hbuf j) by done. intros Hd _ E. by destruct (Hun j Hj Hji Hd).
    + rewrite !Hbuf by done. by apply B13.
  - intros b Hb. destruct (decide (b = b_blockno (buf_at i s'))) as [-> |Hne]; [by exists i|].
    apply (Hc b Hne) in Hb. destruct (B14 b Hb) as (j & Hj & Hd & <-). exists j.
    destruct (decide (j = i)) as [-> |]; [|by rewrite Hbuf]. by destruct (Hold Hd).
  - intros j Hj Hnj. destruct (decide (j = i)) as [-> |Hne]; [by intros _; apply Hdata|].
    rewrite Hbuf by done. intros Hd. destruct (Hc _ (Hun j Hj Hne Hd)) as (-> & _).
    apply B15; [done| |done]. by rewrite <- Hheld.
  - intros b Hb. destruct (decide (b = b_blockno (buf_at i s'))) as [-> |Hne]; [by apply Hdisk|].
    destruct (Hc b Hne) as (-> & -> & E). apply B16. by rewrite <- E.
Qed.

(** With fewer locked and pinned buffers than there are, one can be recycled. *)
Lemma bio_room pi s c d held : bio_inv pi s c d held -> (size d + length held < NBUF)%nat ->
  exists i, (i < NBUF)%nat /\ i ∉ held /\ b_flags (buf_at i s) <> Z.lor B_VALID B_DIRTY.
Proof.
  intros Hb Hroom. set (P i := b_flags (buf_at i s) = Z.lor B_VALID B_DIRTY).
  set (L1 := filter P (seq 0 NBUF)). set (L2 := filter (fun i => ~ P i) (seq 0 NBUF)).
  assert (length L1 + length L2 = NBUF)%nat as Hlen.
  { rewrite <- length_app, <- (length_seq NBUF 0). unfold L1, L2. apply Permutation_length, filter_app_complement. }
  assert (length L1 <= size d)%nat as H1.
  { rewrite <- (length_fmap (fun i => b_blockno (buf_at i s)) L1).
    assert (forall i, i ∈ L1 -> (i < NBUF)%nat /\ b_dev (buf_at i s) = 1 /\ b_blockno (buf_at i s) ∈ d) as HL.
    { intros i [HP Hi]%list_elem_of_filter. apply elem_of_seq in Hi. assert (i < NBUF)%nat as Hi' by lia.
      unfold P in HP. rewrite (bi_flags _ _ _ _ _ Hb i Hi') in HP. by repeat case_decide. }
    unfold size, set_size; simpl. apply submseteq_length, NoDup_submseteq.
    - apply NoDup_fmap_2_strong; [|apply NoDup_filter, NoDup_seq].
      intros i j Hi Hj. apply (bi_uniq _ _ _ _ _ Hb); by apply HL.
    - intros b (i & -> & Hi)%list_elem_of_fmap. apply elem_of_elements. by apply HL. }
  destruct (decide (Exists (fun i => i ∉ held) L2)) as [(i & Hi & Hn)%Exists_exists|Hall].
  - apply list_elem_of_filter in Hi as [HP Hi]. apply elem_of_seq in Hi. exists i. split_and!; [lia|done|done].
  - exfalso. assert (length L2 <= length held)%nat; [|lia]. apply submseteq_length, NoDup_submseteq.
    + apply NoDup_filter, NoDup_seq.
    + intros i Hi. destruct (decide (i ∈ held)) as [|Hn]; [done|]. destruct Hall. apply Exists_exists. by exists i.
Qed.

(** A buffer that was found and locked. *)
Definition got (pid : Z) (i : nat) (g : buf -> buf) (s : kstate) : kstate :=
  sl_taken (SLbuf i) pid (sync (upd_buf i g (sync s))).

Lemma got_run pi i g n pid s : cpu_proc (k_cpu s) = Some pi -> cpu_ok (k_cpu s) -> pid = p_pid (proc_at pi s) ->
  lock_free LKbcache s -> lock_free (LKsleep (SLbuf i)) s ->
  (i < length (bc_buf (k_bcache s)))%nat -> sl_locked (b_lock (g (buf_at i s))) = 0 ->
  (release LKbcache;;; acquiresleep (S n) (SLbuf i);;; ret (Some i)) (upd_buf i g (enter LKbcache s)) =
  Ret (Some i) (got pid i g s).
Proof.
  intros Hp Hc -> Hf Hf' Hi Hl. mret (release_stable LKbcache (upd_buf i g) s _ Hf Hc).
  assert (acquiresleep (S n) (SLbuf i) (upd_buf i g (sync s)) = Ret tt (got (p_pid (proc_at pi s)) i g s)) as E.
  { apply (acquiresleep_free_run pi).
    - change (cpu_proc (sync_cpu (k_cpu s)) = Some pi). by rewrite sync_cpu_proc.
    - by apply cpu_ok_sync.
    - done.
    - simpl. by rewrite buf_at_upd. }
  by mret E.
Qed.

Lemma got_facts pid i g s : (i < length (bc_buf (k_bcache s)))%nat ->
  bio_frame s (got pid i g s) /\ length (bc_buf (k_bcache (got pid i g s))) = length (bc_buf (k_bcache s)) /\
  (forall j, j <> i -> buf_at j (got pid i g s) = buf_at j s) /\
  buf_at i (got pid i g s) =
    let b := g (buf_at i s) in set_b_lock (set_sl_pid pid (set_sl_locked 1 (b_lock b))) b.
Proof.
  intros Hi. unfold got, sl_taken. cbn [upd_sleep]. split_and!.
  - eapply bio_frame_trans; [apply (bio_frame_sync s)|]. eapply bio_frame_trans; [apply (bio_frame_upd i g)|].
    eapply bio_frame_trans; [apply bio_frame_sync|]. apply bio_frame_taken.
  - rewrite !length_upd_buf. apply (length_upd_buf i g (sync s)).
  - intros j Hj. rewrite !buf_at_upd_ne by done. by apply (buf_at_upd_ne i j g (sync s)).
  - rewrite upd_buf_twice, buf_at_upd by (apply (eq_ind_r (fun n => (i < n)%nat) Hi); apply (length_upd_buf i g (sync s))).
    change (buf_at i (sync (upd_buf i g (sync s)))) with (buf_at i (upd_buf i g (sync s))).
    by rewrite buf_at_upd.
Qed.

(** The result of bread: buffer [i] holds block [b], locked; nothing else that the
    thread can see has changed. *)
Record loaded (pi : nat) (s : kstate) (c : Z -> list Z) (d : gset Z) (held : list nat) (b : Z)
  (i : nat) (s' : kstate) : Prop := Loaded {
  ld_inv : bio_inv pi s' c d (i :: held);
  ld_new : i ∉ held;
  ld_block : b_blockno (buf_at i s') = b;
  ld_data : b_data (buf_at i s') = c b;
  ld_frame : bio_frame s s';
  ld_disk : k_disk s' = k_disk s;
  ld_writes : k_dwrites s' = k_dwrites s;
  ld_others : forall j, j ∈ held -> buf_at j s' = buf_at j s
}.

Definition cached (b : Z) (s : kstate) (i : nat) : Prop := b_dev (buf_at i s) = 1 /\ b_blockno (buf_at i s) = b.
#[export] Instance cached_dec b s i : Decision (cached b s i) := and_dec _ _.

Lemma lru_lt pi s c d held i : bio_inv pi s c d held -> i ∈ bc_lru (k_bcache s) -> (i < NBUF)%nat.
Proof. intros Hb. rewrite (bi_lru _ _ _ _ _ Hb). intros Hi%elem_of_seq. lia. Qed.

Lemma lru_in pi s c d held i : bio_inv pi s c d held -> (i < NBUF)%nat -> i ∈ bc_lru (k_bcache s).
Proof. intros Hb Hi. rewrite (bi_lru _ _ _ _ _ Hb). apply elem_of_seq. lia. Qed.

Lemma not_cached b s i : ~ cached b s i -> (b_dev (buf_at i s) =? 1) && (b_blockno (buf_at i s) =? b) = false.
Proof.
  intros Hn. apply andb_false_iff. destruct (Z.eqb_spec (b_dev (buf_at i s)) 1) as [E1|]; [|by left].
  right. apply Z.eqb_neq. intros E2. by destruct Hn.
Qed.

(** The two ways a buffer is taken. *)
Definition take_hit (b : buf) : buf := set_b_refcnt (u32 (b_refcnt b + 1)) b.
Definition take_new (blockno : Z) (b : buf) : buf :=
  set_b_refcnt 1 (set_b_flags 0 (set_b_blockno blockno (set_b_dev 1 b))).

(** The contents of the blocks with [x] in block [b]. *)
Definition blk_set (b : Z) (x : list Z) (c : Z -> list Z) : Z -> list Z := fun b' => if b' =? b then x else c b'.

Definition same_block (b b' : buf) : Prop := b_blockno b' = b_blockno b /\ b_data b' = b_data b.

Section Operations.
Context `{DL : BlockDriverLaws} (pi n : nat).

Lemma bget_hit_run s c d held b : bio_inv pi s c d held -> Exists (cached b s) (seq 0 NBUF) ->
  (forall j, j ∈ held -> b_blockno (buf_at j s) <> b) ->
  exists i, (i < NBUF)%nat /\ i ∉ held /\ cached b s i /\
    bget (S n) 1 b s = Ret i (got (p_pid (proc_at pi s)) i take_hit s).
Proof.
  intros Hb (i0 & Hi0 & Hc0)%Exists_exists Hh.
  destruct (exists_first (cached b s) (bc_lru (k_bcache s)) i0) as (l1 & i & l2 & El & Hc & Hl1); [|done|].
  { apply (lru_in _ _ _ _ _ _ Hb). apply elem_of_seq in Hi0. lia. }
  assert (i < NBUF)%nat as Hi by (apply (lru_lt _ _ _ _ _ _ Hb); rewrite El; set_solver).
  assert (i ∉ held) as Hni by (intros Hih; by apply (Hh i Hih), Hc).
  exists i. split_and!; [done|done|done|]. unfold bget. mret (acquire_run LKbcache s (bi_bcache _ _ _ _ _ Hb)).
  rewrite bind_gets. change (bc_lru (k_bcache (enter LKbcache s))) with (bc_lru (k_bcache s)). rewrite El.
  erewrite bind_Ret; [|apply for_break_first].
  2: { intros j Hj. unfold bget_hit. rewrite bind_gets. change (buf_at j (enter LKbcache s)) with (buf_at j s).
       by rewrite not_cached by (by apply Hl1). }
  2: { unfold bget_hit. rewrite bind_gets. change (buf_at i (enter LKbcache s)) with (buf_at i s).
       destruct Hc as [-> ->]. rewrite !Z.eqb_refl. cbn [andb]. rewrite bind_modify.
       apply (got_run pi); [apply Hb|by apply (bio_cpu_ok _ _ _ _ _ Hb)|done|apply Hb|by apply Hb| |].
       - by rewrite (bi_len _ _ _ _ _ Hb).
       - simpl. rewrite (bi_lock _ _ _ _ _ Hb) by done. by rewrite decide_False. }
  done.
Qed.

Lemma bget_new_run s c d held b : bio_inv pi s c d held -> ~ Exists (cached b s) (seq 0 NBUF) ->
  (size d + length held < NBUF)%nat ->
  exists i, (i < NBUF)%nat /\ i ∉ held /\ b_flags (buf_at i s) <> Z.lor B_VALID B_DIRTY /\
    bget (S n) 1 b s = Ret i (got (p_pid (proc_at pi s)) i (take_new b) s).
Proof.
  intros Hb Hno Hroom.
  set (P i := b_refcnt (buf_at i s) = 0 /\ Z.land (b_flags (buf_at i s)) B_DIRTY = 0).
  assert (forall i, Decision (P i)) as HPd by (intros i; apply and_dec; apply _).
  destruct (bio_room _ _ _ _ _ Hb Hroom) as (i0 & Hi0 & Hn0 & Hf0).
  destruct (exists_first P (rev (bc_lru (k_bcache s))) i0) as (l1 & i & l2 & El & HP & Hl1).
  { apply list_elem_of_In, in_rev. rewrite rev_involutive. apply list_elem_of_In. by apply (lru_in _ _ _ _ _ _ Hb). }
  { split; [rewrite (bi_ref _ _ _ _ _ Hb) by done; by rewrite decide_False|].
    rewrite (bi_flags _ _ _ _ _ Hb) in * by done. by repeat case_decide. }
  assert (i < NBUF)%nat as Hi.
  { apply (lru_lt _ _ _ _ _ _ Hb), list_elem_of_In, in_rev. rewrite El. apply list_elem_of_In. set_solver. }
  destruct HP as [Hr Hfl]. assert (i ∉ held) as Hni.
  { intros Hih. rewrite (bi_ref _ _ _ _ _ Hb) in Hr by done. by rewrite decide_True in Hr. }
  exists i. split_and!; [done|done|by intros E; rewrite E in Hfl|]. unfold bget.
  mret (acquire_run LKbcache s (bi_bcache _ _ _ _ _ Hb)).
  rewrite bind_gets. change (bc_lru (k_bcache (enter LKbcache s))) with (bc_lru (k_bcache s)).
  erewrite bind_Ret; [|apply for_break_none].
  2: { intros j Hj. unfold bget_hit. rewrite bind_gets. change (buf_at j (enter LKbcache s)) with (buf_at j s).
       rewrite not_cached; [done|]. intros Hc. apply Hno, Exists_exists. exists j. split; [|done].
       apply elem_of_seq. apply (lru_lt _ _ _ _ _ _ Hb) in Hj. lia. }
  cbv beta iota. rewrite El. erewrite bind_Ret; [|apply for_break_first].
  2: { intros j Hj. unfold bget_recycle. rewrite bind_gets. change (buf_at j (enter LKbcache s)) with (buf_at j s).
       specialize (Hl1 j Hj). unfold P in Hl1. destruct (Z.eqb_spec (b_refcnt (buf_at j s)) 0); [|done].
       destruct (Z.eqb_spec (Z.land (b_flags (buf_at j s)) B_DIRTY) 0); naive_solver. }
  2: { unfold bget_recycle. rewrite bind_gets. change (buf_at i (enter LKbcache s)) with (buf_at i s).
       rewrite Hr, Hfl. cbn [andb Z.eqb]. rewrite !bind_modify, !upd_buf_twice.
       change (_ ∘ _) with (take_new b).
       apply (got_run pi); [apply Hb|by apply (bio_cpu_ok _ _ _ _ _ Hb)|done|apply Hb|by apply Hb| |].
       - by rewrite (bi_len _ _ _ _ _ Hb).
       - simpl. rewrite (bi_lock _ _ _ _ _ Hb) by done. by rewrite decide_False. }
  done.
Qed.

Lemma got_disk pid i g s : k_disk (got pid i g s) = k_disk s /\ k_dwrites (got pid i g s) = k_dwrites s /\
  bc_lru (k_bcache (got pid i g s)) = bc_lru (k_bcache s).
Proof. done. Qed.

Lemma bread_hit_run s c d held b : bio_inv pi s c d held -> Exists (cached b s) (seq 0 NBUF) ->
  (forall j, j ∈ held -> b_blockno (buf_at j s) <> b) ->
  exists i s', bread (S n) 1 b s = Ret i s' /\ loaded pi s c d held b i s'.
Proof.
  intros Hb Hex Hh. destruct (bget_hit_run s c d held b Hb Hex Hh) as (i & Hi & Hni & [Hdev Hbl] & E).
  revert E. set (pid := p_pid _). intros E. exists i, (got pid i take_hit s).
  destruct (got_facts pid i take_hit s) as (Hfr & Hlen & Hne & Heq); [by rewrite (bi_len _ _ _ _ _ Hb)|].
  pose proof (bi_flags _ _ _ _ _ Hb i Hi) as Hfl. rewrite Hdev, Hbl, decide_True in Hfl by done.
  split.
  - unfold bread. mret E. rewrite bind_gets, Heq. simpl. rewrite Hfl.
    assert (Z.land (if decide (b ∈ d) then Z.lor B_VALID B_DIRTY else B_VALID) B_VALID =? 0 = false) as ->
      by (by case_decide). done.
  - split; [|done| | |done|done|done|]; try (rewrite Heq; simpl).
    + apply (bio_inv_upd pi s _ c c d d held (i :: held) i); try done; try rewrite Heq; simpl.
      * etransitivity; [exact Hlen|apply Hb].
      * apply (bi_lru _ _ _ _ _ Hb).
      * constructor; [done|apply Hb].
      * intros j Hj. rewrite elem_of_cons. naive_solver.
      * done.
      * by rewrite Hbl.
      * rewrite decide_True by set_solver. done.
      * rewrite (bi_ref _ _ _ _ _ Hb) by done. rewrite decide_False, decide_True by set_solver. done.
      * intros j Hj Hji Hd Ej. by apply Hji, (bi_uniq _ _ _ _ _ Hb).
      * intros Hx. destruct Hx. set_solver.
      * apply (bi_disk _ _ _ _ _ Hb).
      * by intros _ [].
    + done.
    + rewrite <- Hbl. by apply (bi_data _ _ _ _ _ Hb).
    + intros j Hj. apply Hne. by intros ->.
Qed.

Lemma bread_new_run s c d held b : bio_inv pi s c d held -> ~ Exists (cached b s) (seq 0 NBUF) ->
  0 <= b < disksize -> (size d + length held < NBUF)%nat ->
  exists i s', bread (S n) 1 b s = Ret i s' /\ loaded pi s c d held b i s'.
Proof.
  intros Hb Hno Hrg Hroom. destruct (bget_new_run s c d held b Hb Hno Hroom) as (i & Hi & Hni & Hnd & E).
  revert E. set (pid := p_pid _). intros E. set (s1 := got pid i (take_new b) s) in E.
  destruct (got_facts pid i (take_new b) s) as (Hfr & Hlen & Hne & Heq); [by rewrite (bi_len _ _ _ _ _ Hb)|].
  fold s1 in Hfr, Hlen, Hne, Heq. rewrite (bi_len _ _ _ _ _ Hb) in Hlen.
  assert (forall j, (j < NBUF)%nat -> b_dev (buf_at j s) = 1 -> b_blockno (buf_at j s) <> b) as Hnc.
  { intros j Hj Hd Ej. apply Hno, Exists_exists. exists j. rewrite elem_of_seq. split; [lia|done]. }
  assert (b ∉ d) as Hbd by (intros Hx; destruct (bi_pinned _ _ _ _ _ Hb b Hx) as (j & Hj & Hd & Ej); by apply (Hnc j)).
  pose proof (rw_read (disksize := disksize) i s1) as Er. rewrite Heq, Hlen in Er. simpl in Er.
  assert (lock_free (LKsleep (SLbuf i)) s1) as Hlf.
  { unfold lock_free. rewrite (bf_locks _ _ Hfr). by apply (bi_inner _ _ _ _ _ Hb). }
  assert (cpu_ok (k_cpu s1)) as Hck by (split; rewrite (bf_ncli _ _ Hfr), (bi_ncli _ _ _ _ _ Hb); lia).
  specialize (Er Hi Hlf Hck ltac:(done) eq_refl Hrg eq_refl).
  set (h := fun x => _) in Er. set (s2 := upd_buf i h (sync s1)) in Er. exists i, s2.
  assert (buf_at i s2 = h (buf_at i s1)) as Hi2 by (apply (buf_at_upd i h (sync s1)); by rewrite <- Hlen in Hi).
  assert (forall j, j <> i -> buf_at j s2 = buf_at j s) as Hj2.
  { intros j Hj. rewrite <- Hne by done. by apply (buf_at_upd_ne i j h (sync s1)). }
  rewrite Heq in Hi2. cbv [h] in Hi2. simpl in Hi2.
  split.
  - unfold bread. mret E. rewrite bind_gets, Heq. simpl. by mret Er.
  - split; [|done|by rewrite Hi2| |by eapply bio_frame_trans; [exact Hfr|apply (bio_frame_trans _ (sync s1));
      [apply bio_frame_sync|apply bio_frame_upd]]|done|done|].
    + apply (bio_inv_upd pi s s2 c c d d held (i :: held) i); try done; try rewrite Hi2; simpl.
      * eapply bio_frame_trans; [exact Hfr|]. apply (bio_frame_trans _ (sync s1)); [apply bio_frame_sync|apply bio_frame_upd].
      * etransitivity; [apply (length_upd_buf i h (sync s1))|done].
      * apply (bi_lru _ _ _ _ _ Hb).
      * constructor; [done|apply Hb].
      * intros j Hj. rewrite elem_of_cons. naive_solver.
      * done.
      * by rewrite decide_False.
      * rewrite decide_True by set_solver. done.
      * rewrite decide_True by set_solver. done.
      * intros j Hj _. by apply Hnc.
      * intros Hx. destruct Hx. set_solver.
      * apply (bi_disk _ _ _ _ _ Hb).
      * intros Hd _ Hx. apply Hnd. rewrite (bi_flags _ _ _ _ _ Hb) by done. by rewrite !decide_True.
    + rewrite Hi2. simpl. by apply (bi_disk _ _ _ _ _ Hb).
    + intros j Hj. apply Hj2. by intros ->.
Qed.

(** bread, whether or not the block is cached; a pinned block always is. *)
Lemma bread_run s c d held b : bio_inv pi s c d held -> 0 <= b < disksize ->
  b ∈ d \/ (size d + length held < NBUF)%nat -> (forall j, j ∈ held -> b_blockno (buf_at j s) <> b) ->
  exists i s', bread (S n) 1 b s = Ret i s' /\ loaded pi s c d held b i s'.
Proof.
  intros Hb Hr Hroom Hh. destruct (decide (Exists (cached b s) (seq 0 NBUF))) as [Hex|Hno].
  - by apply bread_hit_run.
  - destruct Hroom as [Hd|Hroom]; [|by apply bread_new_run].
    destruct (bi_pinned _ _ _ _ _ Hb b Hd) as (j & Hj & Hc). destruct Hno. apply Exists_exists. exists j.
    rewrite elem_of_seq. split; [lia|exact Hc].
Qed.

(** bwrite puts the buffer's data on the disk and unpins the block. *)
Record written (pi : nat) (s : kstate) (c : Z -> list Z) (d : gset Z) (held : list nat) (i : nat)
  (s' : kstate) : Prop := Written {
  wr_inv : bio_inv pi s' (blk_set (b_blockno (buf_at i s)) (b_data (buf_at i s)) c)
             (d ∖ {[b_blockno (buf_at i s)]}) held;
  wr_frame : bio_frame s s';
  wr_disk : k_disk s' = blk_set (b_blockno (buf_at i s)) (b_data (buf_at i s)) (k_disk s);
  wr_writes : k_dwrites s' = k_dwrites s ++ [(b_blockno (buf_at i s), b_data (buf_at i s))];
  wr_same : forall j, same_block (buf_at j s) (buf_at j s')
}.

Lemma bwrite_run s c d held i : bio_inv pi s c d held -> i ∈ held -> 0 <= b_blockno (buf_at i s) < disksize ->
  exists s', bwrite i s = Ret tt s' /\ written pi s c d held i s'.
Proof.
  intros Hb Hih Hr. destruct (bi_held _ _ _ _ _ Hb i Hih) as [Hi Hdev].
  pose proof (bio_cpu_ok _ _ _ _ _ Hb) as Hc. pose proof (bi_len _ _ _ _ _ Hb) as Hlen.
  pose proof (bi_lock _ _ _ _ _ Hb i Hi) as Hl. rewrite decide_True in Hl by done.
  set (g := fun b => set_b_flags (Z.lor (b_flags b) B_DIRTY) b). set (s1 := upd_buf i g (sync s)).
  assert (buf_at i s1 = g (buf_at i s)) as Hi1 by (apply (buf_at_upd i g (sync s)); by rewrite <- Hlen in Hi).
  assert (length (bc_buf (k_bcache s1)) = NBUF) as Hlen1 by (etransitivity; [apply (length_upd_buf i g (sync s))|done]).
  pose proof (rw_write (disksize := disksize) i s1) as Er. rewrite Hi1, Hlen1 in Er. simpl in Er.
  assert (Z.lor (b_flags (buf_at i s)) B_DIRTY = Z.lor B_VALID B_DIRTY) as Hfl.
  { rewrite (bi_flags _ _ _ _ _ Hb) by done. rewrite Hdev. simpl. by case_decide. }
  specialize (Er Hi ltac:(by apply Hb) ltac:(by apply cpu_ok_sync) ltac:(by rewrite Hl) Hdev Hr Hfl).
  set (s2 := upd_buf i (set_b_flags B_VALID) _) in Er. exists s2.
  assert (buf_at i s2 = set_b_flags B_VALID (buf_at i s)) as Hi2.
  { etransitivity; [apply (buf_at_upd i (set_b_flags B_VALID) (sync s1)); by rewrite <- Hlen1 in Hi|].
    by rewrite (Hi1 : buf_at i (sync s1) = _). }
  assert (forall j, j <> i -> buf_at j s2 = buf_at j s) as Hj2.
  { intros j Hj. etransitivity; [by apply (buf_at_upd_ne i j (set_b_flags B_VALID) (sync s1))|].
    by apply (buf_at_upd_ne i j g (sync s)). }
  assert (bio_frame s s2) as Hfr.
  { apply (bio_frame_trans _ (sync s)), (bio_frame_trans _ s1), (bio_frame_trans _ (sync s1)); 
      [apply bio_frame_sync|apply bio_frame_upd|apply bio_frame_sync|by split]. }
  split; [|split; [|done|done|done|]].
  - unfold bwrite. mret (holdingsleep_run (SLbuf i) s (bi_inner _ _ _ _ _ Hb i Hi) Hc). cbn [sleep_of]. rewrite Hl.
    cbn [Z.eqb]. unfold or_flags. rewrite bind_modify. exact Er.
  - apply (bio_inv_upd pi s s2 c _ d _ held held i); try done; try rewrite Hi2; simpl.
    + etransitivity; [apply (length_upd_buf i (set_b_flags B_VALID) (sync s1))|done].
    + apply (bi_lru _ _ _ _ _ Hb).
    + apply Hb.
    + done.
    + by rewrite decide_False by set_solver.
    + by rewrite Hl, decide_True.
    + by apply (bi_ref _ _ _ _ _ Hb).
    + intros j Hj Hne Hd E. by apply Hne, (bi_uniq _ _ _ _ _ Hb).
    + intros _. unfold blk_set. by rewrite Z.eqb_refl.
    + intros b Hne. unfold blk_set. rewrite (proj2 (Z.eqb_neq _ _) Hne). split_and!; [done|done|set_solver].
    + by intros _ [].
  - intros j. destruct (decide (j = i)) as [-> |Hj]; [by rewrite Hi2|by rewrite Hj2].
Qed.

(** brelse unlocks a buffer whose data is what the file system is to see in the block. *)
Record released (pi : nat) (s : kstate) (c : Z -> list Z) (d : gset Z) (held : list nat) (i : nat)
  (s' : kstate) : Prop := Released {
  rl_inv : bio_inv pi s' c d (filter (fun j => j <> i) held);
  rl_frame : bio_frame s s';
  rl_disk : k_disk s' = k_disk s;
  rl_writes : k_dwrites s' = k_dwrites s;
  rl_same : forall j, same_block (buf_at j s) (buf_at j s')
}.

Definition to_front (i : nat) (lru : list nat) : list nat := i :: filter (fun j => j <> i) lru.

Lemma to_front_perm i lru : NoDup lru -> i ∈ lru -> to_front i lru ≡ₚ lru.
Proof.
  intros Hnd Hi. apply NoDup_Permutation; [|done|].
  - constructor; [rewrite list_elem_of_filter; naive_solver|by apply NoDup_filter].
  - intros j. unfold to_front. rewrite elem_of_cons, list_elem_of_filter. destruct (decide (j = i)); naive_solver.
Qed.

Definition let_go (i : nat) (s : kstate) : kstate :=
  upd_lru (to_front i) (upd_buf i (fun b => set_b_refcnt (u32 (b_refcnt b - 1)) b)
    (sync (sl_released (SLbuf i) (sync (sync s))))).

Lemma let_go_buf i s : (i < length (bc_buf (k_bcache s)))%nat ->
  (forall j, j <> i -> buf_at j (let_go i s) = buf_at j s) /\
  buf_at i (let_go i s) = set_b_refcnt (u32 (b_refcnt (buf_at i s) - 1))
    (set_b_lock (set_sl_pid 0 (set_sl_locked 0 (b_lock (buf_at i s)))) (buf_at i s)).
Proof.
  intros Hi. set (g1 := fun b => set_b_lock (set_sl_locked 0 (b_lock b)) b).
  set (g2 := fun b => set_b_lock (set_sl_pid 0 (b_lock b)) b).
  set (g3 := fun b => set_b_refcnt (u32 (b_refcnt b - 1)) b).
  change (buf_at i (let_go i s)) with (buf_at i (upd_buf i g3 (upd_buf i g2 (upd_buf i g1 s)))).
  rewrite !upd_buf_twice, buf_at_upd by done. split; [|done].
  intros j Hj. change (buf_at j (let_go i s)) with (buf_at j (upd_buf i g3 (upd_buf i g2 (upd_buf i g1 s)))).
  rewrite !buf_at_upd_ne by done. done.
Qed.

Lemma let_go_frame i s : bio_frame s (let_go i s).
Proof.
  split; try done; simpl.
  - by rewrite !sync_cpu_proc.
  - unfold sync_cpu. by destruct (cpu_ncli (k_cpu s) =? 0) eqn:E; simpl; rewrite ?E; simpl; rewrite ?E.
  - by rewrite length_map.
Qed.

Lemma brelse_let_go s c d held i : bio_inv pi s c d held -> i ∈ held -> brelse i s = Ret tt (let_go i s).
Proof.
  intros Hb Hih. destruct (bi_held _ _ _ _ _ Hb i Hih) as [Hi Hdev].
  pose proof (bio_cpu_ok _ _ _ _ _ Hb) as Hc. pose proof (bi_len _ _ _ _ _ Hb) as Hlen.
  pose proof (bi_inner _ _ _ _ _ Hb i Hi) as Hf. pose proof (bi_lock _ _ _ _ _ Hb i Hi) as Hl.
  unfold brelse. mret (holdingsleep_run (SLbuf i) s Hf Hc). cbn [sleep_of]. rewrite Hl, decide_True by done. cbn [Z.eqb].
  mret (releasesleep_run (SLbuf i) (sync s) Hf (bi_ptable _ _ _ _ _ Hb) (cpu_ok_sync _ Hc) (bi_table _ _ _ _ _ Hb)).
  set (s1 := sl_released (SLbuf i) (sync (sync s))).
  assert (lock_free LKbcache s1) as Hf1 by apply (bi_bcache _ _ _ _ _ Hb).
  assert (cpu_ok (k_cpu s1)) as Hc1 by (by apply cpu_ok_sync, cpu_ok_sync).
  mret (acquire_run LKbcache s1 Hf1). rewrite bind_modify, bind_gets. set (g := fun b => set_b_refcnt _ b).
  assert (b_refcnt (buf_at i (upd_buf i g (enter LKbcache s1))) = 0) as ->.
  { rewrite buf_at_upd by (unfold s1; simpl; rewrite !length_alter; lia). unfold g; simpl.
    change (buf_at i (enter LKbcache s1)) with (buf_at i s1). unfold s1, sl_released. simpl.
    set (g1 := fun b => set_b_lock _ b). set (g2 := fun b => set_b_lock _ b).
    change (buf_at i _) with (buf_at i (upd_buf i g1 (upd_buf i g2 s))). rewrite upd_buf_twice, buf_at_upd by lia.
    simpl. rewrite (bi_ref _ _ _ _ _ Hb) by done. by rewrite decide_True. }
  cbn [Z.eqb]. rewrite bind_modify. apply (release_stable LKbcache (upd_lru (to_front i) ∘ upd_buf i g)); [|done|done].
  by split.
Qed.

Lemma brelse_run s c d held i : bio_inv pi s c d held -> i ∈ held ->
  b_data (buf_at i s) = c (b_blockno (buf_at i s)) ->
  exists s', brelse i s = Ret tt s' /\ released pi s c d held i s'.
Proof.
  intros Hb Hih Hdata. destruct (bi_held _ _ _ _ _ Hb i Hih) as [Hi Hdev].
  pose proof (bi_len _ _ _ _ _ Hb) as Hlen. destruct (let_go_buf i s) as [Hne Heq]; [lia|].
  exists (let_go i s). split; [by apply (brelse_let_go s c d held)|].
  split; [|apply let_go_frame|done|done|].
  - apply (bio_inv_upd pi s _ c c d d held _ i); try done; try rewrite Heq; simpl.
    + apply let_go_frame.
    + by rewrite !length_alter.
    + etransitivity; [apply to_front_perm|apply (bi_lru _ _ _ _ _ Hb)].
      * eapply NoDup_Permutation_proper; [apply (bi_lru _ _ _ _ _ Hb)|apply NoDup_seq].
      * by apply (lru_in _ _ _ _ _ _ Hb).
    + apply NoDup_filter, Hb.
    + intros j Hj. rewrite list_elem_of_filter. naive_solver.
    + done.
    + rewrite (bi_flags _ _ _ _ _ Hb) by done. by rewrite Hdev.
    + rewrite decide_False; [done|]. rewrite list_elem_of_filter. naive_solver.
    + rewrite (bi_ref _ _ _ _ _ Hb) by done. rewrite decide_True, decide_False; [done| |done].
      rewrite list_elem_of_filter. naive_solver.
    + intros j Hj Hji Hd E. by apply Hji, (bi_uniq _ _ _ _ _ Hb).
    + done.
    + apply (bi_disk _ _ _ _ _ Hb).
    + by intros _ [].
  - intros j. destruct (decide (j = i)) as [-> |Hj]; [by rewrite Heq|by rewrite Hne].
Qed.

End Operations.

(** The holder of a buffer changes its data. *)
Lemma bio_inv_data pi s c d held i x : bio_inv pi s c d held -> i ∈ held ->
  bio_inv pi (upd_buf i (set_b_data x) s) c d held.
Proof.
  intros Hb Hih. destruct (bi_held _ _ _ _ _ Hb i Hih) as [Hi Hdev]. pose proof (bi_len _ _ _ _ _ Hb) as Hlen.
  assert (buf_at i (upd_buf i (set_b_data x) s) = set_b_data x (buf_at i s)) as Heq by (apply buf_at_upd; lia).
  apply (bio_inv_upd pi s _ c c d d held held i); try done; try rewrite Heq; simpl.
  - by rewrite length_alter.
  - apply Hb.
  - intros j Hj. by apply buf_at_upd_ne.
  - apply Hb.
  - done.
  - rewrite (bi_flags _ _ _ _ _ Hb) by done. by rewrite Hdev.
  - by apply Hb.
  - by apply Hb.
  - intros j Hj Hne Hd E. by apply Hne, (bi_uniq _ _ _ _ _ Hb).
  - apply (bi_disk _ _ _ _ _ Hb).
  - by intros _ [].
Qed.

(** The holder of a buffer pins it: its data is what the file system sees from now on. *)
Definition pin (b : buf) : buf := set_b_flags (Z.lor (b_flags b) B_DIRTY) b.

Lemma bio_inv_pin pi s c d held i : bio_inv pi s c d held -> i ∈ held ->
  bio_inv pi (upd_buf i pin s) (blk_set (b_blockno (buf_at i s)) (b_data (buf_at i s)) c)
    (d ∪ {[b_blockno (buf_at i s)]}) held.
Proof.
  intros Hb Hih. destruct (bi_held _ _ _ _ _ Hb i Hih) as [Hi Hdev]. pose proof (bi_len _ _ _ _ _ Hb) as Hlen.
  assert (buf_at i (upd_buf i pin s) = pin (buf_at i s)) as Heq by (apply buf_at_upd; lia).
  apply (bio_inv_upd pi s _ c _ d _ held held i); try done; try rewrite Heq; simpl.
  - by rewrite length_alter.
  - apply Hb.
  - intros j Hj. by apply buf_at_upd_ne.
  - apply Hb.
  - done.
  - rewrite (bi_flags _ _ _ _ _ Hb) by done. rewrite Hdev, (decide_True (P := _ ∈ d ∪ _)) by set_solver. simpl.
    by case_decide.
  - by apply Hb.
  - by apply Hb.
  - intros j Hj Hne Hd E. by apply Hne, (bi_uniq _ _ _ _ _ Hb).
  - set_solver.
  - intros b Hb'. unfold blk_set. rewrite (proj2 (Z.eqb_neq _ _) Hb'). split_and!; [done|done|set_solver].
  - by intros _ [].
Qed.

Lemma bio_inv_set_log pi s c d held v : bio_inv pi s c d held -> bio_inv pi (set_k_log v s) c d held.
Proof. intros []. by split. Qed.

Lemma bio_inv_sync pi s c d held : bio_inv pi s c d held -> bio_inv pi (sync s) c d held.
Proof.
  intros []. split; try done; simpl; [by rewrite sync_cpu_proc|]. unfold sync_cpu. by destruct (_ =? 0).
Qed.

(** The invariant speaks of the contents pointwise. *)
Lemma bio_inv_ext pi s c c' d d' held : (forall b, c b = c' b) -> d ≡ d' ->
  bio_inv pi s c d held -> bio_inv pi s c' d' held.
Proof.
  intros Hc Hd%leibniz_equiv. subst d'. intros []. split; try done.
  - intros i H1 H2 H3. rewrite <- Hc. auto.
  - intros b Hb. rewrite <- Hc. auto.
Qed.

(** ** binit *)

(** A buffer that holds no block. *)
Definition blank (b : buf) : Prop := b_dev b = 0 /\ b_flags b = 0 /\ b_refcnt b = 0 /\ sl_locked (b_lock b) = 0.

(** What one pass of the loop of binit does. *)
Definition init_buf (i : nat) (s : kstate) : kstate :=
  upd_lru (cons i) (upd_buf i (fun b => set_b_lock (set_sl_pid 0 (set_sl_locked 0 (set_sl_name "buffer" (b_lock b)))) b)
    (put_lock (LKsleep (SLbuf i)) (Spinlock 0 "sleep lock" None) s)).

Lemma init_buf_run i s : (initsleeplock (SLbuf i) "buffer";;; modify (upd_lru (cons i))) s = Ret tt (init_buf i s).
Proof.
  unfold initsleeplock, initlock. rewrite !bind_assoc, !bind_modify. cbn [upd_sleep].
  unfold modify. rewrite !upd_buf_twice. done.
Qed.

Lemma blank_init i j s : blank (buf_at j s) -> blank (buf_at j (init_buf i s)).
Proof.
  intros (H1 & H2 & H3 & H4). unfold init_buf. set (s0 := put_lock _ _ s). set (g := fun b => set_b_lock _ b).
  change (buf_at j (upd_lru _ ?x)) with (buf_at j x). destruct (decide (i = j)) as [<-|Hne].
  - destruct (decide (i < length (bc_buf (k_bcache s0)))%nat) as [Hi|Hi]; [by rewrite buf_at_upd by done|].
    unfold buf_at, upd_buf; simpl. rewrite list_lookup_alter_eq, lookup_ge_None_2 by (simpl in Hi; lia). done.
  - by rewrite buf_at_upd_ne.
Qed.

Lemma lock_free_init lk i s : lock_free lk s -> lock_free lk (init_buf i s).
Proof.
  intros [nm H]. unfold lock_free; simpl. destruct (decide (lk = LKsleep (SLbuf i))) as [-> |Hne].
  - rewrite lookup_insert_eq. by eexists.
  - rewrite lookup_insert_ne by done. by exists nm.
Qed.

Lemma init_loop_run k m s : exists s', for_each (seq m k) (fun i =>
    initsleeplock (SLbuf i) "buffer";;; modify (upd_lru (cons i))) s = Ret tt s' /\
  bc_lru (k_bcache s') = rev (seq m k) ++ bc_lru (k_bcache s) /\
  length (bc_buf (k_bcache s')) = length (bc_buf (k_bcache s)) /\
  (forall j, blank (buf_at j s) -> blank (buf_at j s')) /\
  (forall lk, lock_free lk s -> lock_free lk s') /\
  (forall j, (m <= j < m + k)%nat -> lock_free (LKsleep (SLbuf j)) s') /\
  k_cpu s' = k_cpu s /\ k_ptable s' = k_ptable s /\ k_disk s' = k_disk s /\ k_dwrites s' = k_dwrites s /\
  k_log s' = k_log s.
Proof.
  revert m s. induction k as [|k IH]; intros m s.
  { exists s. split_and!; try done. intros j Hj. lia. }
  cbn [seq for_each]. mret (init_buf_run m s).
  destruct (IH (S m) (init_buf m s)) as (s' & E & H1 & H2 & H3 & H4 & H5 & H6 & H7 & H8 & H9 & H10).
  exists s'. split_and!; try done.
  - rewrite H1. cbn [rev]. by rewrite <- app_assoc.
  - rewrite H2. apply length_alter.
  - intros j Hj. by apply H3, blank_init.
  - intros lk Hl. by apply H4, lock_free_init.
  - intros j Hj. destruct (decide (j = m)) as [-> |Hne]; [|apply H5; lia].
    apply H4. eexists. apply lookup_insert_eq.
Qed.

(** After binit no block is cached: the file system sees the disk. *)
Lemma binit_run pi s : cpu_proc (k_cpu s) = Some pi -> cpu_ncli (k_cpu s) = 0 -> length (k_ptable s) = NPROC ->
  lock_free LKptable s -> length (bc_buf (k_bcache s)) = NBUF -> (forall i, (i < NBUF)%nat -> blank (buf_at i s)) ->
  exists s', binit s = Ret tt s' /\ bio_inv pi s' (k_disk s) ∅ [] /\ k_disk s' = k_disk s /\
    k_dwrites s' = k_dwrites s /\ k_log s' = k_log s /\ forall lk, lock_free lk s -> lock_free lk s'.
Proof.
  intros Hp Hn Hl Hf Hlen Hbl. unfold binit, initlock. rewrite !bind_modify.
  set (s1 := upd_lru _ _).
  destruct (init_loop_run NBUF 0 s1) as (s' & E & H1 & H2 & H3 & H4 & H5 & H6 & H7 & H8 & H9 & H10).
  assert (forall lk, lock_free lk s -> lock_free lk s') as Hfr.
  { intros lk [nm Hlk]. apply H4. unfold lock_free; simpl. destruct (decide (lk = LKbcache)) as [-> |Hne].
    - rewrite lookup_insert_eq. by eexists.
    - rewrite lookup_insert_ne by done. by eexists. }
  assert (forall i, (i < NBUF)%nat -> blank (buf_at i s')) as Hb by (intros i Hi; by apply H3, Hbl).
  exists s'. split_and!; [exact E| |done|done|done|done].
  split; try done; try congruence.
  - by rewrite H6.
  - by rewrite H6.
  - by rewrite H7.
  - auto.
  - apply H4. eexists. apply lookup_insert_eq.
  - intros i Hi. apply H5. lia.
  - by rewrite H2.
  - rewrite H1. simpl bc_lru. rewrite app_nil_r. symmetry. apply Permutation_rev.
  - apply NoDup_nil_2.
  - by intros i ?%not_elem_of_nil.
  - intros i Hi. by apply Hb.
  - intros i Hi. by apply Hb.
  - intros i Hi. destruct (Hb i Hi) as (Hd & Hfl & _). by rewrite Hd, Hfl.
  - intros i j Hi _ Hd. destruct (Hb i Hi) as (Hd' & _). congruence.
  - intros i Hi _ Hd. destruct (Hb i Hi) as (Hd' & _). congruence.
  - intros b _. by rewrite H8.
Qed.

(** Every buffer locked or pinned, and none holds the block. *)
Lemma bget_full `{BlockDriver} pi n s c d held b : bio_inv pi s c d held -> ~ Exists (cached b s) (seq 0 NBUF) ->
  (forall i, (i < NBUF)%nat -> i ∈ held \/ b_flags (buf_at i s) = Z.lor B_VALID B_DIRTY) ->
  bget (S n) 1 b s = Panic "bget: no buffers" (enter LKbcache s).
Proof.
  intros Hb Hno Hall. unfold bget. mret (acquire_run LKbcache s (bi_bcache _ _ _ _ _ Hb)). rewrite bind_gets.
  change (bc_lru (k_bcache (enter LKbcache s))) with (bc_lru (k_bcache s)).
  erewrite bind_Ret; [|apply for_break_none].
  2: { intros j Hj. unfold bget_hit. rewrite bind_gets. change (buf_at j (enter LKbcache s)) with (buf_at j s).
       rewrite not_cached; [done|]. intros Hc. apply Hno, Exists_exists. exists j. split; [|done].
       apply elem_of_seq. apply (lru_lt _ _ _ _ _ _ Hb) in Hj. lia. }
  cbv beta iota. erewrite bind_Ret; [|apply for_break_none]; [done|].
  intros j Hj. apply list_elem_of_In, in_rev, list_elem_of_In, (lru_lt _ _ _ _ _ _ Hb) in Hj.
  unfold bget_recycle. rewrite bind_gets. change (buf_at j (enter LKbcache s)) with (buf_at j s).
  destruct (Hall j Hj) as [Hh| ->].
  - rewrite (bi_ref _ _ _ _ _ Hb) by done. by rewrite decide_True.
  - by rewrite andb_false_r.
Qed.

(** ** Properties *)

(** Reading through the cache: binit leaves a cache through which the file system
    sees the disk; and whenever the cache represents contents [c], bread of a block
    returns a buffer, locked by the caller, with the content of that block, whether it
    was cached (as every pinned block is) or had to be fetched into a recycled buffer; the contents, the pinned
    blocks, the disk and the buffers the caller already holds do not change.  When every
    buffer is locked or pinned and the block is not cached, bread panics. *)
Theorem bread_reads_block `{DL : BlockDriverLaws} pi n s :
  cpu_proc (k_cpu s) = Some pi -> cpu_ncli (k_cpu s) = 0 -> length (k_ptable s) = NPROC -> lock_free LKptable s ->
  length (bc_buf (k_bcache s)) = NBUF -> (forall i, (i < NBUF)%nat -> blank (buf_at i s)) ->
  (exists s', binit s = Ret tt s' /\ bio_inv pi s' (k_disk s) ∅ []) /\
  forall s c d held b, bio_inv pi s c d held -> 0 <= b < disksize ->
    (forall j, j ∈ held -> b_blockno (buf_at j s) <> b) ->
    (b ∈ d \/ (size d + length held < NBUF)%nat ->
       exists i s', bread (S n) 1 b s = Ret i s' /\ loaded pi s c d held b i s') /\
    (~ Exists (cached b s) (seq 0 NBUF) ->
     (forall i, (i < NBUF)%nat -> i ∈ held \/ b_flags (buf_at i s) = Z.lor B_VALID B_DIRTY) ->
     exists s', bread (S n) 1 b s = Panic "bget: no buffers" s').
Proof.
  intros Hp Hn Hl Hf Hlen Hbl. split.
  - destruct (binit_run pi s) as (s' & E & Hb & _); try done. by exists s'.
  - intros s1 c d held b Hb Hr Hh. split; [intros Hroom; by apply bread_run|].
    intros Hno Hall. eexists. unfold bread. by rewrite (bind_Panic _ _ _ _ _ (bget_full pi n s1 c d held b Hb Hno Hall)).
Qed.

(** A client that overwrites one block and then reads another. *)
Definition overwrite_then_read `{BlockDriver} (n : nat) (b : Z) (x : list Z) (b' : Z) : kprog (list Z) :=
  i <- bread n 1 b;;
  modify (upd_buf i (set_b_data x));;;
  bwrite i;;;
  brelse i;;;
  j <- bread n 1 b';;
  gets (fun s => b_data (buf_at j s)).

(** C30: Write-through coherence: after bread, an update of the data, bwrite and brelse
    of block [b], every block reads through the cache as before except [b], which reads
    as the new data; the disk has the new data in [b] and is otherwise unchanged, and
    exactly one block was written to it. *)
Theorem bwrite_coherent `{DL : BlockDriverLaws} pi n s c d b x b' :
  bio_inv pi s c d [] -> 0 <= b < disksize -> 0 <= b' < disksize -> (size d < NBUF)%nat ->
  exists s', overwrite_then_read (S n) b x b' s = Ret (if b' =? b then x else c b') s' /\
    k_disk s' = blk_set b x (k_disk s) /\ k_dwrites s' = k_dwrites s ++ [(b, x)].
Proof.
  intros Hb Hr Hr' Hroom. unfold overwrite_then_read.
  destruct (bread_run pi n s c d [] b) as (i & s1 & E1 & L); [done|done|right; simpl; lia|by intros j ?%not_elem_of_nil|].
  mret E1. rewrite bind_modify. set (s2 := upd_buf i _ s1).
  destruct (bi_held _ _ _ _ _ (ld_inv _ _ _ _ _ _ _ _ L) i) as [Hi Hdev]; [by left|].
  pose proof (bio_inv_data pi s1 c d [i] i x (ld_inv _ _ _ _ _ _ _ _ L) ltac:(by left)) as Hb2. fold s2 in Hb2.
  assert (buf_at i s2 = set_b_data x (buf_at i s1)) as Hi2.
  { apply buf_at_upd. by rewrite (bi_len _ _ _ _ _ (ld_inv _ _ _ _ _ _ _ _ L)). }
  destruct (bwrite_run pi s2 c d [i] i) as (s3 & E3 & W); [done|by left|rewrite Hi2; simpl; by rewrite (ld_block _ _ _ _ _ _ _ _ L)|].
  mret E3. destruct W as [W1 W2 W3 W4 W5]. rewrite Hi2 in *. simpl in *. rewrite (ld_block _ _ _ _ _ _ _ _ L) in *.
  destruct (W5 i) as [S1 S2]. rewrite Hi2 in *. simpl in *. rewrite (ld_block _ _ _ _ _ _ _ _ L) in *.
  destruct (brelse_run pi s3 _ _ [i] i W1) as (s4 & E4 & [R1 R2 R3 R4 R5]); [by left| |].
  { rewrite S1, S2. unfold blk_set. by rewrite Z.eqb_refl. }
  mret E4. rewrite filter_cons_False in R1 by naive_solver.
  destruct (bread_run pi n s4 _ _ [] b' R1 Hr') as (j & s5 & E5 & L5); [|by intros k ?%not_elem_of_nil|].
  { right. simpl. pose proof (subseteq_size (d ∖ {[b]}) d ltac:(set_solver)). lia. }
  mret E5. exists s5. unfold gets. rewrite (ld_data _ _ _ _ _ _ _ _ L5). split_and!; [done| |].
  - rewrite (ld_disk _ _ _ _ _ _ _ _ L5), R3, W3. by rewrite (ld_disk _ _ _ _ _ _ _ _ L).
  - rewrite (ld_writes _ _ _ _ _ _ _ _ L5), R4, W4. by rewrite (ld_writes _ _ _ _ _ _ _ _ L).
Qed.

(** *** Witnesses *)

Lemma two_procs_binit : exists s, binit two_procs = Ret tt s /\ bio_inv 1 s (k_disk two_procs) ∅ [].
Proof.
  destruct (binit_run 1 two_procs) as (s & E & Hb & _); try done.
  - apply two_procs_free. vm_compute. reflexivity.
  - intros i Hi. unfold buf_at. change (bc_buf _) with (replicate NBUF zero_buf). by rewrite lookup_replicate_2.
  - by exists s.
Qed.

Lemma bread_reads_block_witness : exists s s' i, binit two_procs = Ret tt s /\
  bread (DR := memide_driver 1000) 1 1 5 s = Ret i s' /\ b_data (buf_at i s') = replicate 512 0.
Proof.
  destruct (bread_reads_block (H := memide_driver 1000) (disksize := 1000) 1 0 two_procs) as [(s & E & Hb) H]; try done.
  - apply two_procs_free. vm_compute. reflexivity.
  - intros i Hi. unfold buf_at. change (bc_buf _) with (replicate NBUF zero_buf). by rewrite lookup_replicate_2.
  - destruct (H s _ ∅ [] 5 Hb) as [H1 _]; [lia|by intros j ?%not_elem_of_nil|].
    destruct H1 as (i & s' & E' & L); [right; unfold NBUF; rewrite size_empty; simpl; lia|].
    exists s, s', i. split_and!; [exact E|exact E'|exact (ld_data _ _ _ _ _ _ _ _ L)].
Defined.

Lemma bwrite_coherent_witness : exists s s', binit two_procs = Ret tt s /\
  overwrite_then_read (H := memide_driver 1000) 1 7 [1; 2; 3] 7 s = Ret [1; 2; 3] s'.
Proof.
  destruct two_procs_binit as (s & E & Hb).
  destruct (bwrite_coherent (H := memide_driver 1000) (disksize := 1000) 1 0 s _ ∅ 7 [1; 2; 3] 7 Hb) as (s' & E' & _);
    [lia|lia|rewrite size_empty; unfold NBUF; lia|].
  exists s, s'. split; [exact E|exact E'].
Defined.
