(* ===== verification/Ide.v ===== *)
(** * Ide: the disk driver ide.c

    Bio defines the queue of requests on the disk as the kernel sees it; here is its
    theory: what the interrupts make of the queued requests, and how iderw waits for one.
    The accesses to the registers of the controller are in Ports. *)

From S2P Require Import Prelude Machine Spinlock Cstring Ktrace Layout Kalloc Vm Sched Sleeplock Bio.
#[local] Open Scope prog_scope.

(** ** The queue *)

Definition dirty (b : buf) : bool := negb (Z.land (b_flags b) B_DIRTY =? 0).

(** The contents of the disk after the request in [b], and [b] when it is done. *)
Definition issue (b : buf) (d : Z -> list Z) : Z -> list Z :=
  if dirty b then (fun k => if k =? b_blockno b then b_data b else d k) else d.
Definition served (d : Z -> list Z) (b : buf) : buf :=
  set_b_flags B_VALID (if dirty b then b else set_b_data (d (b_blockno b)) b).

(** A request that the driver accepts: a buffer to be read, or a modified one to be written. *)
Definition request_ok (s : kstate) (i : nat) : Prop :=
  (i < length (bc_buf (k_bcache s)))%nat /\ 0 <= b_blockno (buf_at i s) < FSSIZE /\
  (b_flags (buf_at i s) = 0 \/ b_flags (buf_at i s) = Z.lor B_VALID B_DIRTY).

(** The head of the queue is what the controller works on. *)
Record ide_ok (s : kstate) : Prop := Ide_ok {
  io_nodup : NoDup (k_ideq s);
  io_requests : forall i, i ∈ k_ideq s -> request_ok s i;
  io_head : forall i, head (k_ideq s) = Some i -> issue (buf_at i s) (k_disk s) = k_disk s;
  io_lock : lock_free LKide s;
  io_ptable : lock_free LKptable s;
  io_cpu : cpu_ok (k_cpu s);
  io_table : length (k_ptable s) = NPROC
}.

(** The controller starts on the head of the queue. *)
Definition start_next (s : kstate) : kstate :=
  match k_ideq s with
  | [] => s
  | j :: _ => if dirty (buf_at j s) then disk_write (b_blockno (buf_at j s)) (b_data (buf_at j s)) s else s
  end.

#[export] Instance stable_disk_write k d : Stable (disk_write k d).
Proof. by split. Qed.
#[export] Instance stable_start_next : Stable start_next.
Proof.
  split; [intros s|intros s|intros c l s]; unfold start_next; cbn [k_ideq set_k_locks set_k_cpu]; (destruct (k_ideq s); [done|]);
    [by destruct (dirty _)|by destruct (dirty _)|].
  change (buf_at n (set_k_locks l (set_k_cpu c s))) with (buf_at n s). by destruct (dirty _).
Qed.

#[export] Instance stable_set_ideq q : Stable (set_k_ideq q).
Proof. by split. Qed.

(** The interrupt for the request [i], with [q] behind it. *)
Definition completed (i : nat) (q : list nat) (s : kstate) : kstate :=
  start_next (set_k_ptable (map (wake (ChBuf i)) (k_ptable s)) (upd_buf i (served (k_disk s)) (set_k_ideq q s))).

Lemma served_flags d b : b_flags b = 0 \/ b_flags b = Z.lor B_VALID B_DIRTY ->
  set_b_flags (Z.land (Z.lor (b_flags b) B_VALID) (i32 (Z.lnot B_DIRTY))) (if dirty b then b else set_b_data (d (b_blockno b)) b) = served d b.
Proof. unfold served, dirty. intros [-> | ->]; reflexivity. Qed.

Lemma idestart_run j q s : k_ideq s = j :: q -> b_blockno (buf_at j s) < FSSIZE -> idestart j s = Ret tt (start_next s).
Proof.
  intros Eq Hb. unfold idestart. rewrite bind_gets. replace (b_blockno (buf_at j s) >=? FSSIZE) with false by lia.
  unfold start_next. rewrite Eq. unfold dirty. by destruct (negb _).
Qed.

(** From the wakeup on. *)
Lemma intr_tail i q s : ide_ok s -> k_ideq s = i :: q ->
  (wakeup (ChBuf i);;; q <- gets k_ideq;; (match q with [] => ret tt | j :: _ => idestart j end);;; release LKide)
    (upd_buf i (served (k_disk s)) (set_k_ideq q (enter LKide s))) = Ret tt (completed i q (sync s)).
Proof.
  intros [H1 H2 H3 H4 H5 H6 H7] Eq. set (u := upd_buf i (served (k_disk s)) ∘ set_k_ideq q).
  change (upd_buf i _ (set_k_ideq q (enter LKide s))) with (u (enter LKide s)).
  mret (wakeup_inside (ChBuf i) LKide u s _ ltac:(done) H7 H5 H6). rewrite bind_gets.
  change (k_ptable (u (enter LKide s))) with (k_ptable s). set (t := map (wake (ChBuf i)) (k_ptable s)).
  change (k_ideq (set_k_ptable t (u (enter LKide s)))) with q.
  assert ((match q with [] => ret tt | j :: _ => idestart j end) (set_k_ptable t (u (enter LKide s))) = Ret tt (start_next (set_k_ptable t (u (enter LKide s))))) as E3.
  { destruct q as [|j q]; [done|]. apply (idestart_run j q); [done|]. destruct (H2 j ltac:(rewrite Eq; set_solver)) as (_ & Hb & _).
    change (buf_at j (set_k_ptable t (u (enter LKide s)))) with (buf_at j (upd_buf i (served (k_disk s)) s)).
    rewrite buf_at_upd_ne; [lia|]. intros ->. rewrite Eq in H1. apply NoDup_cons in H1 as [H1 _]. apply H1. by left. }
  mret E3. exact (release_stable LKide (start_next ∘ set_k_ptable t ∘ u) s _ H4 H6).
Qed.

Lemma ideintr_run i q s : ide_ok s -> k_ideq s = i :: q -> ideintr false s = Ret tt (completed i q (sync s)).
Proof.
  intros H Eq. unfold ideintr. mret (acquire_run LKide s (io_lock _ H)). rewrite bind_gets.
  change (k_ideq (enter LKide s)) with (k_ideq s). rewrite Eq, bind_modify, bind_gets.
  destruct (io_requests _ H i ltac:(rewrite Eq; by left)) as (Hi & _ & Hfl). rewrite <- (intr_tail i q s H Eq).
  change (buf_at i (set_k_ideq q (enter LKide s))) with (buf_at i s). unfold or_flags, clear_flags.
  pose proof (served_flags (k_disk s) _ Hfl) as Es. unfold dirty in Es.
  destruct (Z.land (b_flags (buf_at i s)) B_DIRTY =? 0); cbn [andb negb] in *; rewrite ?bind_ret, !bind_modify; f_equal;
    rewrite !upd_buf_twice; apply upd_buf_eq; exact Es.
Qed.

(** ** Requests in order *)

(** What a disk that does one request after the other makes of the disk and the buffers. *)
Fixpoint serve_all (q : list nat) (d : Z -> list Z) (b : nat -> buf) : (Z -> list Z) * (nat -> buf) :=
  match q with
  | [] => (d, b)
  | i :: q => serve_all q (issue (b i) d) (fun j => if bool_decide (j = i) then served d (b i) else b j)
  end.

(** The write command of the first request is with the controller. *)
Definition issue_head (q : list nat) (b : nat -> buf) (d : Z -> list Z) : Z -> list Z :=
  match q with [] => d | i :: _ => issue (b i) d end.

Lemma issue_issue b d : issue b (issue b d) = issue b d.
Proof.
  unfold issue. destruct (dirty b); [|done]. apply functional_extensionality. intros k. by destruct (k =? _).
Qed.

Lemma buf_at_start i s : buf_at i (start_next s) = buf_at i s.
Proof. unfold start_next. destruct (k_ideq s); [done|]. by destruct (dirty _). Qed.

Lemma start_next_frame s : k_ideq (start_next s) = k_ideq s /\ k_bcache (start_next s) = k_bcache s /\ k_ptable (start_next s) = k_ptable s /\
  k_disk (start_next s) = issue_head (k_ideq s) (fun i => buf_at i s) (k_disk s).
Proof.
  unfold start_next, issue_head, issue. destruct (k_ideq s) as [|j q] eqn:E; [by rewrite ?E|]. destruct (dirty _); split_and!; try done.
Qed.

Section Complete.
Context (i : nat) (q : list nat) (s : kstate) (H : ide_ok s) (Eq : k_ideq s = i :: q).

Lemma completed_buf j : buf_at j (completed i q s) = if bool_decide (j = i) then served (k_disk s) (buf_at i s) else buf_at j s.
Proof using H Eq.
  unfold completed. rewrite buf_at_start. change (buf_at j (set_k_ptable _ (upd_buf i (served (k_disk s)) (set_k_ideq q s)))) with (buf_at j (upd_buf i (served (k_disk s)) s)).
  destruct (io_requests _ H i ltac:(rewrite Eq; by left)) as (Hi & _). case_bool_decide as E; [subst j; by apply buf_at_upd|by apply buf_at_upd_ne].
Qed.

Lemma completed_frame : k_ideq (completed i q s) = q /\ k_ptable (completed i q s) = map (wake (ChBuf i)) (k_ptable s) /\
  k_disk (completed i q s) = issue_head q (fun j => buf_at j s) (k_disk s) /\ length (bc_buf (k_bcache (completed i q s))) = length (bc_buf (k_bcache s)).
Proof using H Eq.
  unfold completed. set (s1 := set_k_ptable _ _). destruct (start_next_frame s1) as (-> & -> & -> & ->). cbn [s1 k_ideq]. split_and!; try done.
  - change (k_ideq s1) with q. change (k_disk s1) with (k_disk s). destruct q as [|j q']; [done|]. cbn. f_equal.
    change (buf_at j s1) with (buf_at j (upd_buf i (served (k_disk s)) s)). apply buf_at_upd_ne. pose proof (io_nodup _ H) as Hnd. rewrite Eq in Hnd.
    apply NoDup_cons in Hnd as [Hni _]. intros ->. apply Hni. by left.
  - cbn. apply length_alter.
Qed.

Lemma completed_ok : ide_ok (completed i q s).
Proof using H Eq.
  destruct completed_frame as (E1 & E2 & E3 & E4). pose proof H as [H1 H2 H3 H4 H5 H6 H7]. rewrite Eq in H1. apply NoDup_cons in H1 as [Hni Hnd].
  assert (Stable (fun s' => set_k_ptable (map (wake (ChBuf i)) (k_ptable s)) (upd_buf i (served (k_disk s)) (set_k_ideq q s')))) as Hst by (by split).
  assert (Stable (start_next ∘ (fun s' => set_k_ptable (map (wake (ChBuf i)) (k_ptable s)) (upd_buf i (served (k_disk s)) (set_k_ideq q s'))))) as Hst' by apply _.
  assert (forall j, j ∈ q -> buf_at j (completed i q s) = buf_at j s) as Eb.
  { intros j Hj. rewrite completed_buf, bool_decide_false; [done|]. intros ->. done. }
  split; rewrite ?E1, ?E2, ?E3.
  - done.
  - intros j Hj. unfold request_ok. rewrite E4, Eb by done. apply H2. rewrite Eq. by right.
  - intros j Hj. destruct q as [|j' q']; [done|]. injection Hj as ->. rewrite Eb by (by left). cbn. apply issue_issue.
  - by apply (lock_free_stable LKide _ s Hst').
  - by apply (lock_free_stable LKptable _ s Hst').
  - pose proof (@stable_cpu _ Hst' s) as Ec. cbn in Ec. unfold completed. by rewrite Ec.
  - by rewrite length_map.
Qed.

End Complete.

Definition interrupts (n : nat) : kprog unit := for_each (replicate n tt) (fun _ => ideintr false).

Lemma served_issue b d : served (issue b d) b = served d b.
Proof. unfold served, issue. by destruct (dirty b). Qed.

Lemma ide_ok_sync s : ide_ok s -> ide_ok (sync s).
Proof. intros [H1 H2 H3 H4 H5 H6 H7]. split; try done. by apply cpu_ok_sync. Qed.

Lemma serve_run q1 q2 d s : ide_ok s -> k_ideq s = q1 ++ q2 -> k_disk s = issue_head (k_ideq s) (fun j => buf_at j s) d ->
  let '(d', b') := serve_all q1 d (fun j => buf_at j s) in
  exists s', interrupts (length q1) s = Ret tt s' /\ ide_ok s' /\ k_ideq s' = q2 /\ (forall j, buf_at j s' = b' j) /\
    k_disk s' = issue_head q2 (fun j => buf_at j s') d' /\
    k_ptable s' = foldl (fun t i => map (wake (ChBuf i)) t) (k_ptable s) q1.
Proof.
  revert d s. induction q1 as [|i q1 IH]; intros d s H Eq Ed; cbn [serve_all].
  - cbn in Eq. exists s. rewrite Eq in Ed. split_and!; done.
  - cbn [app] in Eq. rewrite Eq in Ed. cbn in Ed. pose proof (ide_ok_sync s H) as Hs. set (s1 := completed i (q1 ++ q2) (sync s)).
    destruct (completed_frame i (q1 ++ q2) (sync s) Hs Eq) as (E1 & E2 & E3 & _). fold s1 in E1, E2, E3.
    assert (forall j, buf_at j s1 = if bool_decide (j = i) then served d (buf_at i s) else buf_at j s) as Eb.
    { intros j. unfold s1. rewrite (completed_buf i (q1 ++ q2) (sync s) Hs Eq). change (k_disk (sync s)) with (k_disk s).
      change (buf_at i (sync s)) with (buf_at i s). by rewrite Ed, served_issue. }
    assert ((fun j => buf_at j s1) = (fun j => if bool_decide (j = i) then served d (buf_at i s) else buf_at j s)) as Efun
      by (by apply functional_extensionality).
    specialize (IH (issue (buf_at i s) d) s1 (completed_ok i _ (sync s) Hs Eq) E1). rewrite Efun in IH.
    destruct (serve_all q1 _ _) as [d' b']. destruct IH as (s' & F1 & F2 & F3 & F4 & F5 & F6).
    { rewrite E3. change (k_disk (sync s)) with (k_disk s). rewrite <- Ed, E1. destruct (q1 ++ q2) as [|j q'] eqn:Eqq; [done|]. cbn.
      rewrite bool_decide_false; [done|]. intros ->. pose proof (io_nodup _ H) as Hnd. rewrite Eq in Hnd. apply NoDup_cons in Hnd as [Hni _].
      apply Hni. by left. }
    exists s'. split_and!; try done.
    + unfold interrupts. cbn [length replicate for_each]. mret (ideintr_run i (q1 ++ q2) s H Eq). exact F1.
    + rewrite F6, E2. done.
Qed.

(** A process that sleeps on one of the buffers is made to run. *)
Lemma woken_fold q t k p : t !! k = Some p -> p_state p = SLEEPING -> (exists i, i ∈ q /\ p_chan p = ChBuf i) ->
  exists p', foldl (fun t i => map (wake (ChBuf i)) t) t q !! k = Some p' /\ p_state p' = RUNNABLE.
Proof.
  revert t p. induction q as [|i q IH]; intros t p Ht Hs (j & Hj & Hc); [by inversion Hj|]. cbn [foldl].
  assert (map (wake (ChBuf i)) t !! k = Some (wake (ChBuf i) p)) as Ht' by (change (map ?f t) with (f <$> t); by rewrite list_lookup_fmap, Ht).
  destruct (decide (i = j)) as [->|Hne].
  - assert (wake (ChBuf j) p = set_p_state RUNNABLE p) as Ew by (unfold wake; by rewrite Hs, Hc, !bool_decide_true).
    rewrite Ew in Ht'. clear -Ht'. revert Ht'. generalize (map (wake (ChBuf j)) t) as t'. induction q as [|i q IH]; intros t' Ht'; [by eexists|].
    cbn [foldl]. apply IH. change (map ?f t') with (f <$> t'). rewrite list_lookup_fmap, Ht'. cbn. f_equal.
  - apply (IH _ p); [|done|]; [|exists j; split; [set_solver|done]]. rewrite Ht'. f_equal. unfold wake. rewrite Hc.
    rewrite (bool_decide_false (ChBuf j = ChBuf i)) by congruence. by rewrite andb_false_r.
Qed.

(** ** iderw *)

Definition wait_done (i : nat) : kprog (option unit) :=
  b <- gets (buf_at i);;
  if negb (Z.land (b_flags b) (Z.lor B_VALID B_DIRTY) =? B_VALID) then sleep (ChBuf i) LKide;;; ret None else ret (Some tt).

(** The request is in the queue, and with the controller when it is the only one. *)
Definition queued (i : nat) (s : kstate) : kstate :=
  let s1 := set_k_ideq (k_ideq s ++ [i]) s in if bool_decide (k_ideq s = []) then start_next s1 else s1.

#[export] Instance stable_queued i : Stable (queued i).
Proof.
  assert (forall s, Stable (if bool_decide (k_ideq s = []) then start_next else id)) as Hi by (intros s; case_bool_decide; apply _).
  assert (forall s, queued i s = (if bool_decide (k_ideq s = []) then start_next else id) (set_k_ideq (k_ideq s ++ [i]) s)) as Eq
    by (intros s; unfold queued; by case_bool_decide).
  split; intros; rewrite !Eq; [by rewrite stable_cpu|by rewrite stable_locks|]. by rewrite stable_set.
Qed.

Lemma queued_frame i s : let s' := queued i s in
  k_ideq s' = k_ideq s ++ [i] /\ k_bcache s' = k_bcache s /\ k_ptable s' = k_ptable s /\
  k_disk s' = (if bool_decide (k_ideq s = []) then issue (buf_at i s) (k_disk s) else k_disk s).
Proof.
  cbn zeta. unfold queued. case_bool_decide as E; [|done]. destruct (start_next_frame (set_k_ideq (k_ideq s ++ [i]) s)) as (-> & -> & -> & ->).
  cbn. rewrite E. done.
Qed.

Section Rw.
Context (havedisk1 : bool) (i : nat) (s : kstate) (H : ide_ok s).
Context (Hr : request_ok s i) (Hni : i ∉ k_ideq s).

Lemma queued_ok : ide_ok (queued i s).
Proof using H Hr Hni.
  destruct (queued_frame i s) as (E1 & E2 & E3 & E4), H as [H1 H2 H3 H4 H5 H6 H7].
  assert (forall j, buf_at j (queued i s) = buf_at j s) as Eb by (intros j; unfold buf_at; by rewrite E2).
  split; rewrite ?E1, ?E3, ?E4.
  - apply NoDup_app. split_and!; [done| |apply NoDup_singleton]. by intros j Hj ->%list_elem_of_singleton.
  - intros j Hj. unfold request_ok. rewrite E2, Eb. apply elem_of_app in Hj as [Hj| ->%list_elem_of_singleton]; [by apply H2|exact Hr].
  - intros j Hj. rewrite Eb. case_bool_decide as E; [|apply H3; by destruct (k_ideq s)]. rewrite E in Hj. injection Hj as ->. apply issue_issue.
  - by apply (lock_free_stable LKide (queued i) s (stable_queued i)).
  - by apply (lock_free_stable LKptable (queued i) s (stable_queued i)).
  - by rewrite stable_cpu.
  - done.
Qed.

Context (Hin : lock_free (LKsleep (SLbuf i)) s) (Hlk : sl_locked (b_lock (buf_at i s)) <> 0).
Context (Hdev : b_dev (buf_at i s) = 0 \/ havedisk1 = true).

Lemma rw_enqueues fuel : ide_rw havedisk1 fuel i s =
  (repeat_until fuel (wait_done i);;; release LKide) (queued i (enter LKide (sync s))).
Proof using H Hr Hni Hin Hlk Hdev.
  destruct Hr as (Hi & Hb & Hfl), H as [H1 H2 H3 H4 H5 H6 H7]. unfold ide_rw. mret (holdingsleep_run (SLbuf i) s Hin H6). cbn [sleep_of].
  destruct (Z.eqb_spec (sl_locked (b_lock (buf_at i s))) 0) as [|_]; [done|]. rewrite bind_gets. change (buf_at i (sync s)) with (buf_at i s).
  assert (Z.land (b_flags (buf_at i s)) (Z.lor B_VALID B_DIRTY) =? B_VALID = false) as -> by (destruct Hfl as [-> | ->]; reflexivity).
  assert (negb (b_dev (buf_at i s) =? 0) && negb havedisk1 = false) as ->.
  { destruct Hdev as [-> | ->]; [done|]. by rewrite andb_false_r. }
  mret (acquire_run LKide (sync s) H4). rewrite bind_modify, bind_gets. set (s0 := enter LKide (sync s)). set (s1 := set_k_ideq (k_ideq s0 ++ [i]) s0).
  change (queued i s0) with (if bool_decide (k_ideq s = []) then start_next s1 else s1). change (k_ideq s1) with (k_ideq s ++ [i]).
  assert (k_ideq s1 = k_ideq s ++ [i]) as Es by done. destruct (k_ideq s) as [|j q] eqn:Eq; cbn [app head hd_error] in *.
  - rewrite !bool_decide_true by done. assert (idestart i s1 = Ret tt (start_next s1)) as Ei.
    { apply (idestart_run i []); [done|]. change (buf_at i s1) with (buf_at i s). lia. }
    mret Ei. done.
  - rewrite !bool_decide_false; [done|done|]. intros [= Ej]. apply Hni. subst j; by left.
Qed.

Context (p : nat) (Hp : cpu_proc (k_cpu s) = Some p) (Hps : (p < NPROC)%nat) (Hn : cpu_ncli (k_cpu s) = 0).

Lemma rw_waiting : waiting p LKide (queued i (enter LKide (sync s))).
Proof using H Hp Hps Hn.
  destruct H as [H1 H2 H3 H4 H5 H6 H7]. rewrite <- enter_stable by apply _.
  assert (lock_free LKptable (queued i (sync s))) as Hf by (by apply (lock_free_stable LKptable (queued i) (sync s) (stable_queued i))).
  split; [split| |].
  - change (cpu_proc (k_cpu (queued i (sync s))) = Some p). rewrite stable_cpu. cbn. unfold sync_cpu. by rewrite Hn.
  - apply enter_mine.
  - change (cpu_ncli (k_cpu (queued i (sync s))) + 1 = 1). rewrite stable_cpu. cbn. unfold sync_cpu. rewrite Hn. cbn. lia.
  - done.
  - by apply enter_free_ne.
  - change (length (k_ptable (queued i (sync s))) = NPROC). unfold queued. case_bool_decide; [|done].
    destruct (start_next_frame (set_k_ideq (k_ideq (sync s) ++ [i]) (sync s))) as (_ & _ & -> & _). done.
Qed.

Lemma done_round s1 : waiting p LKide s1 ->
  wait_done i s1 = (sleep (ChBuf i) LKide;;; ret None) s1 \/ exists a s', wait_done i s1 = Ret (Some a) s' /\
    waiting p LKide s' /\ Z.land (b_flags (buf_at i s')) (Z.lor B_VALID B_DIRTY) = B_VALID.
Proof.
  intros Hw. unfold wait_done. rewrite bind_gets. destruct (Z.eqb_spec (Z.land (b_flags (buf_at i s1)) (Z.lor B_VALID B_DIRTY)) B_VALID) as [E|_];
    [right|by left]. by exists tt, s1.
Qed.

(** iderw returns only when the request is done. *)
Lemma rw_runs n : runs n (fun _ s' => parked p LKide s') (ide_rw havedisk1 (S n) i s)
  (fun _ s' => Z.land (b_flags (buf_at i s')) (Z.lor B_VALID B_DIRTY) = B_VALID /\ lock_free LKide s').
Proof using H Hr Hni Hin Hlk Hdev Hp Hps Hn.
  rewrite rw_enqueues. apply runs_bind.
  apply (runs_rely _ (fun _ s' => parked p LKide s' /\ forall b : bool, True)); [done|].
  apply (wait_loop_runs p LKide (ChBuf i) (wait_done i) (fun _ => True)); [done|done| |apply rw_waiting|done].
  intros s1 Hw _. destruct (done_round s1 Hw) as [E|(a & s' & E & [[h1 h2 h3 h4] _ _] & Hd)]; [by left|right]. exists a, s'. split; [done|].
  intros n' _. rewrite (release_run LKide s' h2 h4) by lia. split; [done|apply leave_free].
Qed.

(** The thread sleeps with its request in the queue, and whoever runs next finds the driver in order. *)
Lemma rw_sleeps n : let s1 := asleep p (ChBuf i) LKide (queued i (enter LKide (sync s))) in
  (exists k, ide_rw havedisk1 (S n) i s = Swtch s1 k) /\ holds_only p LKptable s1 /\ ide_ok (leave LKptable s1).
Proof using H Hr Hni Hin Hlk Hdev Hp Hps Hn.
  cbn zeta. set (t := queued i (enter LKide (sync s))). pose proof rw_waiting as [Hw1 Hw2 Hw3]. fold t in Hw1, Hw2, Hw3.
  pose proof (asleep_holds p (ChBuf i) LKide t Hw1 (or_introl Hw2)) as Ha.
  assert (buf_at i t = buf_at i s) as Eb by (unfold t, buf_at; by destruct (queued_frame i (enter LKide (sync s))) as (_ & -> & _)).
  split_and!.
  - rewrite rw_enqueues. fold t. cbn [repeat_until]. rewrite bind_assoc. unfold wait_done at 1. rewrite bind_assoc, bind_gets, Eb.
    assert (negb (Z.land (b_flags (buf_at i s)) (Z.lor B_VALID B_DIRTY) =? B_VALID) = true) as -> by (by destruct Hr as (_ & _ & [-> | ->])).
    rewrite bind_assoc, (bind_Swtch _ _ _ _ _ (sleep_run p (ChBuf i) LKide t ltac:(rewrite Hw3; done) Hw1 (or_introl Hw2))). by eexists.
  - done.
  - pose proof (queued_ok) as [Q1 Q2 Q3 Q4 Q5 Q6 Q7]. assert (t = enter LKide (sync (queued i s))) as Et.
    { unfold t. by rewrite <- (enter_stable LKide (queued i)), <- (sync_stable (queued i)) by apply _. }
    destruct Ha as [h1 h2 h3 h4]. rewrite Et in *. split; try done.
    + unfold asleep. rewrite decide_False by done. apply leave_free_ne; [done|]. apply (lock_free_stable _ (upd_proc p _ ∘ upd_proc p _)); [apply _|].
      apply leave_free.
    + apply leave_free.
    + split; cbn -[asleep]; rewrite ?h3; lia.
    + change (length (k_ptable (asleep p (ChBuf i) LKide (enter LKide (sync (queued i s))))) = NPROC). unfold asleep. rewrite decide_False, !length_upd by done. done.
Qed.

End Rw.

(** ** The driver as a queue of requests *)

Lemma serve_all_bufs q d b : NoDup q ->
  (forall i, i ∈ q -> b_flags ((serve_all q d b).2 i) = B_VALID) /\ (forall i, i ∉ q -> (serve_all q d b).2 i = b i).
Proof.
  revert d b. induction q as [|i q IH]; intros d b Hnd; cbn [serve_all]; [split; [by intros i ?%not_elem_of_nil|done]|].
  apply NoDup_cons in Hnd as [Hni Hnd]. destruct (IH (issue (b i) d) (fun j => if bool_decide (j = i) then served d (b i) else b j) Hnd) as [I1 I2].
  split; intros j Hj; rewrite ?not_elem_of_cons in Hj.
  - apply elem_of_cons in Hj as [->|Hj]; [|by apply I1]. rewrite I2, bool_decide_true by done. done.
  - rewrite I2, bool_decide_false by tauto. done.
Qed.



(** *** Witnesses *)

(** Buffer 0 is to be written to block 5, buffer 1 is to be read from there. *)
Definition ide_machine : kstate :=
  upd_buf 1 (fun _ => Buf 0 0 5 (Sleeplock 1 "buffer" 1) 1 (replicate 512 0))
    (upd_buf 0 (fun _ => Buf (Z.lor B_VALID B_DIRTY) 0 5 (Sleeplock 1 "buffer" 1) 1 (replicate 512 7))
      (put_lock (LKsleep (SLbuf 1)) (Spinlock 0 "sleep lock" None) (set_k_disk (fun _ => replicate 512 0) two_procs))).

Lemma ide_machine_ok : ide_ok ide_machine /\ request_ok ide_machine 0 /\ request_ok ide_machine 1.
Proof.
  split_and!; [split|..].
  - constructor.
  - by intros i ?%not_elem_of_nil.
  - done.
  - by eexists.
  - by eexists.
  - done.
  - by rewrite <- two_procs_len.
  - split_and!; [|done|done|by right]. vm_compute. lia.
  - split_and!; [|done|done|by left]. vm_compute. lia.
Qed.

Lemma ide_queued : let s := queued 1 (queued 0 ide_machine) in ide_ok s /\ k_ideq s = [0%nat] ++ [1%nat].
Proof.
  destruct ide_machine_ok as (H & H0 & H1). cbn zeta. split; [|done].
  apply queued_ok; [by apply queued_ok; [..|apply not_elem_of_nil]|exact H1|]. by intros ?%list_elem_of_singleton.
Qed.


