(* ===== verification/Log.v ===== *)
(** * Log: log.c, the redo log that makes file system transactions atomic

    The definitions follow log.c operation by operation.  A crash is the loss of
    everything but the disk: since [k_dwrites] records the blocks in the order they
    reached the disk, the disks a crash can leave are those of its prefixes, and the
    theorems are about the recovery of each of them. *)

From S2P Require Import Prelude Machine Spinlock Cstring Ktrace Layout Kalloc Vm Sched Sleeplock Bio.
#[local] Open Scope prog_scope.

Definition upd_log (f : log_t -> log_t) (s : kstate) : kstate := set_k_log (f (k_log s)) s.
Definition upd_lh (f : logheader -> logheader) : kstate -> kstate :=
  upd_log (fun l => set_log_lh (f (log_lh l)) l).

(** The struct superblock at the start of block 1. *)
Definition decode_sb (l : list Z) : superblock :=
  Superblock (get32 0 l) (get32 4 l) (get32 8 l) (get32 12 l) (get32 16 l) (get32 20 l) (get32 24 l).

(** [for(i = start; i < bound; i++)] where the bound is read again in every round. *)
Fixpoint for_lt (k i : nat) (bound : kstate -> Z) (body : nat -> kprog unit) : kprog unit :=
  match k with
  | O => ret tt
  | S k =>
    b <- gets bound;;
    if Z.of_nat i <? b then body i;;; for_lt k (S i) bound body else ret tt
  end.

(** The loops over [log.lh.block]: past the end of the array they are undefined, so
    one round more than its length is all of them. *)
Definition for_blocks (body : nat -> Z -> kprog unit) : kprog unit :=
  for_lt (S (Z.to_nat LOGSIZE)) 0 (fun s => lh_n (log_lh (k_log s))) (fun i =>
    l <- gets (fun s => lh_block (log_lh (k_log s)));;
    match l !! i with
    | Some b => body i b
    | None => undef "log.lh.block: index out of bounds"
    end).

Section Log.
Context `{DR : BlockDriver} (fuel : nat).

Definition readsb (dev : Z) : kprog superblock :=
  bp <- bread fuel dev 1;;
  sb <- gets (fun s => decode_sb (b_data (buf_at bp s)));;
  brelse bp;;;
  ret sb.

(** memmove of a whole block from one buffer to another. *)
Definition copy_data (dst src : nat) : kprog unit :=
  modify (fun s => upd_buf dst (set_b_data (b_data (buf_at src s))) s).

Definition log_block (tail : nat) (l : log_t) : Z := u32 (log_start l + Z.of_nat tail + 1).

Definition install_trans : kprog unit :=
  for_blocks (fun tail block =>
    l <- gets k_log;;
    lbuf <- bread fuel (u32 (log_dev l)) (log_block tail l);;
    dbuf <- bread fuel (u32 (log_dev l)) (u32 block);;
    copy_data dbuf lbuf;;;
    bwrite dbuf;;;
    brelse lbuf;;;
    brelse dbuf).

Definition read_head : kprog unit :=
  l <- gets k_log;;
  buf <- bread fuel (u32 (log_dev l)) (u32 (log_start l));;
  modify (fun s => upd_lh (set_lh_n (i32 (get32 0 (b_data (buf_at buf s))))) s);;;
  for_blocks (fun i _ =>
    modify (fun s => upd_lh (fun h =>
      set_lh_block (<[i := i32 (get32 (4 + 4 * i) (b_data (buf_at buf s)))]> (lh_block h)) h) s));;;
  brelse buf.

Definition write_head : kprog unit :=
  l <- gets k_log;;
  buf <- bread fuel (u32 (log_dev l)) (u32 (log_start l));;
  modify (fun s => upd_buf buf (fun b => set_b_data (put32 0 (u32 (lh_n (log_lh (k_log s)))) (b_data b)) b) s);;;
  for_blocks (fun i block =>
    modify (upd_buf buf (fun b => set_b_data (put32 (4 + 4 * i) (u32 block) (b_data b)) b)));;;
  bwrite buf;;;
  brelse buf.

Definition recover_from_log : kprog unit :=
  read_head;;;
  install_trans;;;
  modify (upd_lh (set_lh_n 0));;;
  write_head.

(** sizeof(struct logheader) *)
Definition logheader_size : Z := 4 * (1 + LOGSIZE).

Definition initlog (dev : Z) : kprog unit :=
  if logheader_size >=? BSIZE then panic "initlog: too big logheader" else
  initlock LKlog "log";;;
  sb <- readsb dev;;
  modify (upd_log (set_log_start (i32 (sb_logstart sb))));;;
  modify (upd_log (set_log_size (i32 (sb_nlog sb))));;;
  modify (upd_log (set_log_dev (i32 dev)));;;
  recover_from_log.

Definition begin_op : kprog unit :=
  acquire LKlog;;;
  repeat_until fuel (
    l <- gets k_log;;
    if negb (log_committing l =? 0) then sleep ChLog LKlog;;; ret None
    else if lh_n (log_lh l) + (log_outstanding l + 1) * MAXOPBLOCKS >? LOGSIZE
    then sleep ChLog LKlog;;; ret None
    else
      modify (upd_log (fun l => set_log_outstanding (i32 (log_outstanding l + 1)) l));;;
      release LKlog;;;
      ret (Some tt)).

Definition write_log : kprog unit :=
  for_blocks (fun tail block =>
    l <- gets k_log;;
    to <- bread fuel (u32 (log_dev l)) (log_block tail l);;
    from <- bread fuel (u32 (log_dev l)) (u32 block);;
    copy_data to from;;;
    bwrite to;;;
    brelse from;;;
    brelse to).

Definition commit : kprog unit :=
  l <- gets k_log;;
  when lh_n (log_lh l) >? 0 do
    write_log;;;
    write_head;;;
    install_trans;;;
    modify (upd_lh (set_lh_n 0));;;
    write_head.

Definition end_op : kprog unit :=
  acquire LKlog;;;
  modify (upd_log (fun l => set_log_outstanding (i32 (log_outstanding l - 1)) l));;;
  l <- gets k_log;;
  if negb (log_committing l =? 0) then panic "log.committing" else
  do_commit <- (if log_outstanding l =? 0
                then modify (upd_log (set_log_committing 1));;; ret true
                else wakeup ChLog;;; ret false);;
  release LKlog;;;
  when do_commit do
    commit;;;
    acquire LKlog;;;
    modify (upd_log (set_log_committing 0));;;
    wakeup ChLog;;;
    release LKlog.

(** The index at which log_write records a block: its old place (log absorption) or
    the end. *)
Fixpoint log_slot (blocks : list Z) (n : nat) (blockno : Z) : nat :=
  match n, blocks with
  | S n, b :: blocks => if u32 b =? blockno then O else S (log_slot blocks n blockno)
  | _, _ => O
  end.

Definition log_write (b : nat) : kprog unit :=
  l <- gets k_log;;
  if (lh_n (log_lh l) >=? LOGSIZE) || (lh_n (log_lh l) >=? log_size l - 1)
  then panic "too big a transaction" else
  if log_outstanding l <? 1 then panic "log_write outside of trans" else
  acquire LKlog;;;
  bno <- gets (fun s => b_blockno (buf_at b s));;
  h <- gets (fun s => log_lh (k_log s));;
  let i := log_slot (lh_block h) (Z.to_nat (lh_n h)) bno in
  if (Z.of_nat i >=? LOGSIZE) then undef "log.lh.block: index out of bounds" else
  modify (upd_lh (fun h => set_lh_block (<[i := i32 bno]> (lh_block h)) h));;;
  (when Z.of_nat i =? lh_n h do modify (upd_lh (fun h => set_lh_n (i32 (lh_n h + 1)) h)));;;
  or_flags b B_DIRTY;;;
  release LKlog.

End Log.

(** ** Writes to the disk *)

Notation disk := (Z -> list Z).

(** The disk after some of the writes. *)
Fixpoint apply_writes (ws : list (Z * list Z)) (D : disk) : disk :=
  match ws with [] => D | (b, x) :: ws => apply_writes ws (blk_set b x D) end.

Lemma apply_writes_app ws ws' D : apply_writes (ws ++ ws') D = apply_writes ws' (apply_writes ws D).
Proof. revert D. induction ws as [|[b x] ws IH]; intros D; simpl; [done|apply IH]. Qed.

Lemma blk_set_eq b x c : blk_set b x c b = x.
Proof. unfold blk_set. by rewrite Z.eqb_refl. Qed.
Lemma blk_set_ne b b' x c : b' <> b -> blk_set b x c b' = c b'.
Proof. intros Hne. unfold blk_set. by rewrite (proj2 (Z.eqb_neq _ _) Hne). Qed.

Lemma apply_writes_other ws D b : b ∉ ws.*1 -> apply_writes ws D b = D b.
Proof.
  revert D. induction ws as [|[b' x] ws IH]; intros D; simpl; [done|].
  intros [Hne Hni]%not_elem_of_cons. rewrite IH by done. by apply blk_set_ne.
Qed.

(** Distinct blocks: each ends up with what was written to it. *)
Lemma apply_writes_in ws D b x : NoDup ws.*1 -> (b, x) ∈ ws -> apply_writes ws D b = x.
Proof.
  revert D. induction ws as [|[b' x'] ws IH]; intros D; simpl; [by intros _ ?%not_elem_of_nil|].
  intros [Hni Hnd]%NoDup_cons [[= <- <-]|Hin]%elem_of_cons; [|by apply IH].
  rewrite apply_writes_other by done. apply blk_set_eq.
Qed.

(** From [s] to [s'] the writes [ws] reached the disk; the rest of what log.c and fs.c
    see, the cache apart, is the same. *)
Record wrote (ws : list (Z * list Z)) (s s' : kstate) : Prop := Wrote {
  wt_frame : bio_frame s s';
  wt_writes : k_dwrites s' = k_dwrites s ++ ws;
  wt_disk : k_disk s' = apply_writes ws (k_disk s)
}.

Lemma wrote_trans ws ws' s1 s2 s3 : wrote ws s1 s2 -> wrote ws' s2 s3 -> wrote (ws ++ ws') s1 s3.
Proof.
  intros [F1 W1 D1] [F2 W2 D2]. split.
  - by eapply bio_frame_trans.
  - by rewrite W2, W1, app_assoc.
  - by rewrite D2, D1, apply_writes_app.
Qed.

Lemma wrote_nothing s s' : bio_frame s s' -> k_disk s' = k_disk s -> k_dwrites s' = k_dwrites s -> wrote [] s s'.
Proof. intros Hf Hd Hw. split; [done|by rewrite app_nil_r|done]. Qed.

Lemma loaded_wrote pi s c d held b i s' : loaded pi s c d held b i s' -> wrote [] s s'.
Proof. intros []. by apply wrote_nothing. Qed.
Lemma released_wrote pi s c d held i s' : released pi s c d held i s' -> wrote [] s s'.
Proof. intros []. by apply wrote_nothing. Qed.
Lemma written_wrote pi s c d held i s' : written pi s c d held i s' ->
  wrote [(b_blockno (buf_at i s), b_data (buf_at i s))] s s'.
Proof. by intros []. Qed.
Lemma upd_buf_wrote i f s : wrote [] s (upd_buf i f s).
Proof. by apply wrote_nothing. Qed.

Section Moves.
Context `{DL : BlockDriverLaws} (pi n : nat).

(** The body of the loops of write_log ([back]: from the second block to the first)
    and of install_trans (from the first to the second). *)
Definition move_block (back : bool) (x y : Z) : kprog unit :=
  a <- bread (S n) 1 x;;
  b <- bread (S n) 1 y;;
  let dst := if back then a else b in let src := if back then b else a in
  copy_data dst src;;;
  bwrite dst;;;
  brelse src;;;
  brelse dst.

Lemma copy_write_run s c d a b dst src : bio_inv pi s c d [b; a] ->
  (dst = a /\ src = b \/ dst = b /\ src = a) ->
  b_blockno (buf_at dst s) <> b_blockno (buf_at src s) -> 0 <= b_blockno (buf_at dst s) < disksize ->
  b_data (buf_at src s) = c (b_blockno (buf_at src s)) ->
  let x := b_blockno (buf_at dst s) in let v := b_data (buf_at src s) in
  exists s', (copy_data dst src;;; bwrite dst;;; brelse src;;; brelse dst) s = Ret tt s' /\
    bio_inv pi s' (blk_set x v c) (d ∖ {[x]}) [] /\ wrote [(x, v)] s s'.
Proof.
  intros Hb Hds Hne Hr Hsrc x v. pose proof (bi_nodup _ _ _ _ _ Hb) as Hnd. apply NoDup_cons in Hnd as [Hab _].
  assert (dst ∈ [b; a] /\ src ∈ [b; a] /\ dst <> src) as (Hd & Hs & Hdiff) by set_solver.
  destruct (bi_held _ _ _ _ _ Hb dst Hd) as [Hlt _].
  unfold copy_data. rewrite bind_modify. set (s1 := upd_buf dst _ s).
  pose proof (bio_inv_data pi s c d [b; a] dst v Hb Hd) as Hb1. fold s1 in Hb1.
  assert (buf_at dst s1 = set_b_data v (buf_at dst s)) as Ed by (apply buf_at_upd; by rewrite (bi_len _ _ _ _ _ Hb)).
  assert (buf_at src s1 = buf_at src s) as Es by (by apply buf_at_upd_ne).
  destruct (bwrite_run pi s1 c d [b; a] dst Hb1 Hd) as (s2 & E2 & W); [by rewrite Ed|]. mret E2.
  pose proof (written_wrote _ _ _ _ _ _ _ W) as Hw. rewrite Ed in Hw. cbn in Hw.
  destruct W as [W1 _ _ _ W5]. rewrite Ed in W1. cbn in W1.
  destruct (W5 src) as [S1 S2], (W5 dst) as [T1 T2]. rewrite Es in S1, S2. rewrite Ed in T1, T2. cbn in T1, T2.
  destruct (brelse_run pi s2 _ _ [b; a] src W1 Hs) as (s3 & E3 & R3).
  { rewrite S1, S2, blk_set_ne by done. done. }
  mret E3. assert (filter (fun j : nat => j <> src) [b; a] = [dst]) as Ef.
  { destruct Hds as [[-> ->]|[-> ->]]; rewrite !filter_cons; repeat case_decide; naive_solver. }
  pose proof (released_wrote _ _ _ _ _ _ _ R3) as Hw3. destruct R3 as [R1 _ _ _ R5]. rewrite Ef in R1.
  destruct (R5 dst) as [U1 U2].
  destruct (brelse_run pi s3 _ _ [dst] dst R1) as (s4 & E4 & R4); [by left| |].
  { rewrite U1, U2, T1, T2. by rewrite blk_set_eq. }
  exists s4. split; [exact E4|]. pose proof (released_wrote _ _ _ _ _ _ _ R4) as Hw4.
  destruct R4 as [R4 _ _ _ _]. rewrite filter_cons_False in R4 by naive_solver. split; [exact R4|].
  change [(x, v)] with ([] ++ ([(x, v)] ++ ([] ++ []))). eapply wrote_trans; [apply (upd_buf_wrote dst)|].
  eapply wrote_trans; [exact Hw|]. by eapply wrote_trans.
Qed.

Lemma move_block_run (back : bool) x y s c d : bio_inv pi s c d [] -> 0 <= x < disksize -> 0 <= y < disksize -> x <> y ->
  (size d < NBUF)%nat -> (y ∈ d \/ size d + 1 < NBUF)%nat ->
  let dst := if back then x else y in let src := if back then y else x in
  exists s', move_block back x y s = Ret tt s' /\
    bio_inv pi s' (blk_set dst (c src) c) (d ∖ {[dst]}) [] /\ wrote [(dst, c src)] s s'.
Proof.
  intros Hb Hx Hy Hne Hr1 Hr2 dst src. unfold move_block.
  destruct (bread_run pi n s c d [] x Hb Hx) as (a & s1 & E1 & L1); [right; simpl; lia|by intros j ?%not_elem_of_nil|].
  mret E1. destruct (bread_run pi n s1 c d [a] y (ld_inv _ _ _ _ _ _ _ _ L1) Hy) as (b & s2 & E2 & L2); [done| |].
  { intros j ->%list_elem_of_singleton. by rewrite (ld_block _ _ _ _ _ _ _ _ L1). }
  mret E2. pose proof (ld_others _ _ _ _ _ _ _ _ L2 a ltac:(by left)) as Ea.
  pose proof (ld_block _ _ _ _ _ _ _ _ L1) as Bx. pose proof (ld_block _ _ _ _ _ _ _ _ L2) as By.
  pose proof (ld_data _ _ _ _ _ _ _ _ L1) as Dx. pose proof (ld_data _ _ _ _ _ _ _ _ L2) as Dy.
  rewrite <- Ea in Bx, Dx.
  destruct (copy_write_run s2 c d a b (if back then a else b) (if back then b else a) (ld_inv _ _ _ _ _ _ _ _ L2))
    as (s3 & E3 & Hb3 & W3).
  - destruct back; auto.
  - destruct back; by rewrite ?Bx, ?By.
  - destruct back; by rewrite ?Bx, ?By.
  - destruct back; by rewrite ?Bx, ?By.
  - exists s3. split; [exact E3|]. unfold dst, src. destruct back; rewrite ?Bx, ?By, ?Dx, ?Dy in *;
      (split; [done|]); change [(?p, ?q)] with ([] ++ ([] ++ [(p, q)]));
      (eapply wrote_trans; [by eapply loaded_wrote|]; eapply wrote_trans; [by eapply loaded_wrote|done]).
Qed.

End Moves.

(** ** The loops over the header *)

Notation lh_of s := (log_lh (k_log s)).

Lemma for_lt_run bound body (m : nat) (I : nat -> kstate -> Prop) k i s :
  (forall i s, I i s -> bound s = Z.of_nat m) ->
  (forall i s, (i < m)%nat -> I i s -> exists s', body i s = Ret tt s' /\ I (S i) s') ->
  (i <= m)%nat -> (m - i < k)%nat -> I i s -> exists s', for_lt k i bound body s = Ret tt s' /\ I m s'.
Proof.
  intros Hbd Hbody. revert i s. induction k as [|k IH]; intros i s Hi Hk HI; [lia|].
  cbn [for_lt]. rewrite bind_gets, (Hbd _ _ HI). destruct (Z.ltb_spec (Z.of_nat i) (Z.of_nat m)) as [Hlt|Hge].
  - destruct (Hbody i s ltac:(lia) HI) as (s' & E & HI'). mret E. apply IH; [lia|lia|done].
  - exists s. split; [done|]. by replace m with i by lia.
Qed.

Lemma for_blocks_run body (m : nat) (I : nat -> kstate -> Prop) s :
  (Z.of_nat m <= LOGSIZE) ->
  (forall i s, I i s -> lh_n (lh_of s) = Z.of_nat m /\ length (lh_block (lh_of s)) = Z.to_nat LOGSIZE) ->
  (forall i b s, (i < m)%nat -> I i s -> lh_block (lh_of s) !! i = Some b ->
     exists s', body i b s = Ret tt s' /\ I (S i) s') ->
  I O s -> exists s', for_blocks body s = Ret tt s' /\ I m s'.
Proof.
  intros Hm Hlh Hbody HI. apply (for_lt_run _ _ m I); [|intros i s1 Hi HI1|lia|lia|done].
  - intros i s1 HI1. by apply (Hlh i s1).
  - destruct (Hlh i s1 HI1) as [_ Hlen]. rewrite bind_gets.
    destruct (lookup_lt_is_Some_2 (lh_block (lh_of s1)) i) as [b Eb]; [lia|]. rewrite Eb. by apply Hbody.
Qed.

(** The in-memory log at rest: it lives on disk 1, in the [sz] blocks from [st] on, and
    its header lists the blocks [bs]. *)
Record log_is (st sz : Z) (bs : list Z) (l : log_t) : Prop := Log_is {
  li_dev : log_dev l = 1;
  li_start : log_start l = st;
  li_size : log_size l = sz;
  li_n : lh_n (log_lh l) = Z.of_nat (length bs);
  li_len : length (lh_block (log_lh l)) = Z.to_nat LOGSIZE;
  li_blocks : take (length bs) (lh_block (log_lh l)) = bs
}.

Lemma log_is_lookup st sz bs l i b : log_is st sz bs l -> (i < length bs)%nat ->
  lh_block (log_lh l) !! i = Some b -> bs !! i = Some b.
Proof. intros Hl Hi Hb. rewrite <- (li_blocks _ _ _ _ Hl), lookup_take_lt by done. exact Hb. Qed.

(** Where the blocks of a transaction may be: on the disk, outside the log. *)
Record layout_ok (disksize st sz : Z) (bs : list Z) : Prop := Layout_ok {
  lo_start : 0 <= st;
  lo_end : st + sz <= disksize;
  lo_max : disksize <= 2147483647;
  lo_fits : Z.of_nat (length bs) < sz;
  lo_header : Z.of_nat (length bs) <= LOGSIZE;
  lo_cache : (length bs < NBUF)%nat;
  lo_nodup : NoDup bs;
  lo_blocks : forall b, b ∈ bs -> 0 <= b < disksize /\ ~ (st <= b < st + sz)
}.

(** Contents and writes of the copying loops. *)
Definition log_copies (st : Z) (c : disk) (i : nat) (bs : list Z) : list (Z * list Z) :=
  imap (fun j b => (st + Z.of_nat (i + j) + 1, c b)) bs.
Definition installs (st : Z) (c : disk) (i : nat) (bs : list Z) : list (Z * list Z) :=
  imap (fun j b => (b, c (st + Z.of_nat (i + j) + 1))) bs.

Lemma log_copies_snoc st c i bs b : log_copies st c i (bs ++ [b]) =
  log_copies st c i bs ++ [(st + Z.of_nat (i + length bs) + 1, c b)].
Proof. unfold log_copies. rewrite imap_app. simpl. by rewrite Nat.add_0_r. Qed.
Lemma installs_snoc st c i bs b : installs st c i (bs ++ [b]) =
  installs st c i bs ++ [(b, c (st + Z.of_nat (i + length bs) + 1))].
Proof. unfold installs. rewrite imap_app. simpl. by rewrite Nat.add_0_r. Qed.

Lemma elem_of_log_copies st c bs b x : (b, x) ∈ log_copies st c 0 bs <->
  exists j b', bs !! j = Some b' /\ b = st + Z.of_nat j + 1 /\ x = c b'.
Proof.
  unfold log_copies. rewrite list_elem_of_lookup. setoid_rewrite list_lookup_imap.
  setoid_rewrite fmap_Some. naive_solver.
Qed.
Lemma elem_of_installs st c bs b x : (b, x) ∈ installs st c 0 bs <->
  exists j, bs !! j = Some b /\ x = c (st + Z.of_nat j + 1).
Proof.
  unfold installs. rewrite list_elem_of_lookup. setoid_rewrite list_lookup_imap.
  setoid_rewrite fmap_Some. naive_solver.
Qed.

Lemma installs_fst st c bs : (installs st c 0 bs).*1 = bs.
Proof. unfold installs. apply list_eq. intros j. rewrite list_lookup_fmap, list_lookup_imap. by destruct (bs !! j). Qed.
Lemma log_copies_fst st c bs b : b ∈ (log_copies st c 0 bs).*1 <-> st < b <= st + Z.of_nat (length bs).
Proof.
  rewrite list_elem_of_fmap. split.
  - intros ([b' x] & -> & Hin). apply elem_of_log_copies in Hin as (j & b2 & Hj & -> & _).
    apply lookup_lt_Some in Hj. simpl. lia.
  - intros Hb. destruct (lookup_lt_is_Some_2 bs (Z.to_nat (b - st - 1))) as [b' Hb']; [lia|].
    exists (b, c b'). split; [done|]. apply elem_of_log_copies. exists (Z.to_nat (b - st - 1)), b'.
    split_and!; [done|lia|done].
Qed.
Lemma log_copies_nodup st c bs : NoDup (log_copies st c 0 bs).*1.
Proof.
  apply NoDup_alt. intros i j b. rewrite !list_lookup_fmap. unfold log_copies. rewrite !list_lookup_imap.
  destruct (bs !! i), (bs !! j); simpl; try done. intros [= <-] [= E]. lia.
Qed.

Section Phases.
Context `{DL : BlockDriverLaws} (pi n : nat) (st sz : Z) (bs : list Z) (LO : layout_ok disksize st sz bs).

Lemma take_snoc (i : nat) (b : Z) : bs !! i = Some b -> take (S i) bs = take i bs ++ [b].
Proof. apply take_S_r. Qed.

Lemma block_at (i : nat) (b : Z) l : log_is st sz bs l -> bs !! i = Some b ->
  u32 (log_dev l) = 1 /\ log_block i l = st + Z.of_nat i + 1 /\ u32 b = b /\
  0 <= b < disksize /\ 0 <= st + Z.of_nat i + 1 < disksize /\ st + Z.of_nat i + 1 <> b /\
  st <= st + Z.of_nat i + 1 < st + sz.
Proof.
  intros Hl Hi. destruct LO as [L1 L2 L3 L4 L5 _ L6 L7].
  destruct (L7 b) as [Hb Hn]; [by eapply list_elem_of_lookup_2|]. apply lookup_lt_Some in Hi.
  unfold log_block. rewrite (li_dev _ _ _ _ Hl), (li_start _ _ _ _ Hl), !u32_small by lia. lia.
Qed.

(** A home block is not touched by the copies, nor a log block by the installs. *)
Lemma home_not_copied c (i : nat) b : b ∈ bs -> b ∉ (log_copies st c 0 (take i bs)).*1.
Proof.
  intros Hb. rewrite log_copies_fst, length_take. destruct LO as [L1 L2 L3 L4 L5 _ L6 L7]. destruct (L7 b Hb). lia.
Qed.
Lemma log_not_installed c (i : nat) b : st <= b < st + sz -> b ∉ (installs st c 0 (take i bs)).*1.
Proof.
  intros Hb Hin. rewrite installs_fst in Hin. apply subseteq_take in Hin.
  destruct LO as [L1 L2 L3 L4 L5 _ L6 L7]. by destruct (L7 b Hin).
Qed.

Lemma write_log_run s c d : bio_inv pi s c d [] -> log_is st sz bs (k_log s) ->
  (forall b, b ∈ bs -> b ∈ d) -> (forall b, st <= b < st + sz -> b ∉ d) -> (size d < NBUF)%nat ->
  let W := log_copies st c 0 bs in
  exists s', write_log (S n) s = Ret tt s' /\ bio_inv pi s' (apply_writes W c) d [] /\ wrote W s s'.
Proof.
  intros Hb Hl Hpin Hlog Hroom W.
  set (I (i : nat) s1 := let Wi := log_copies st c 0 (take i bs) in
         bio_inv pi s1 (apply_writes Wi c) d [] /\ wrote Wi s s1).
  assert (forall i s1, I i s1 -> k_log s1 = k_log s) as HIl by (intros i s1 [_ [F _ _]]; apply F).
  destruct (for_blocks_run (fun tail block =>
    l <- gets k_log;; to <- bread (S n) (u32 (log_dev l)) (log_block tail l);;
    from <- bread (S n) (u32 (log_dev l)) (u32 block);;
    copy_data to from;;; bwrite to;;; brelse from;;; brelse to) (length bs) I s) as (s' & E & HI).
  - apply LO.
  - intros i s1 HI. rewrite (HIl _ _ HI). split; apply Hl.
  - intros i b s1 Hi HI Hlk. rewrite bind_gets. rewrite (HIl _ _ HI) in Hlk |- *.
    pose proof (log_is_lookup _ _ _ _ _ _ Hl Hi Hlk) as Hbs.
    destruct (block_at i b _ Hl Hbs) as (-> & -> & -> & Hbr & Hlr & Hne & Hin).
    assert (b ∈ bs) as Hbb by (by eapply list_elem_of_lookup_2).
    destruct HI as [Hb1 W1]. destruct (move_block_run pi n true _ b s1 _ d Hb1 Hlr Hbr Hne Hroom) as (s2 & E2 & Hb2 & W2);
      [left; by apply Hpin|].
    exists s2. split; [exact E2|]. cbn in Hb2, W2. rewrite apply_writes_other in Hb2, W2 by (by apply home_not_copied).
    unfold I. cbn zeta. rewrite (take_snoc i b Hbs), log_copies_snoc, length_take.
    replace (0 + i `min` length bs)%nat with i by lia. split; [|by eapply wrote_trans].
    rewrite apply_writes_app. eapply bio_inv_ext; [| |exact Hb2]; [done|]. specialize (Hlog _ Hin). set_solver.
  - split; [|by apply wrote_nothing]. done.
  - exists s'. split; [exact E|]. unfold I in HI. by rewrite firstn_all in HI.
Qed.

Lemma install_trans_run s c d : bio_inv pi s c d [] -> log_is st sz bs (k_log s) ->
  (forall b, b ∈ bs -> b ∈ d) \/ d = ∅ -> (size d < NBUF)%nat ->
  let W := installs st c 0 bs in
  exists s', install_trans (S n) s = Ret tt s' /\ bio_inv pi s' (apply_writes W c) (d ∖ list_to_set bs) [] /\ wrote W s s'.
Proof.
  intros Hb Hl Hpin Hroom W.
  set (I (i : nat) s1 := let Wi := installs st c 0 (take i bs) in
         bio_inv pi s1 (apply_writes Wi c) (d ∖ list_to_set (take i bs)) [] /\ wrote Wi s s1).
  assert (forall i s1, I i s1 -> k_log s1 = k_log s) as HIl by (intros i s1 [_ [F _ _]]; apply F).
  destruct (for_blocks_run (fun tail block =>
    l <- gets k_log;; lbuf <- bread (S n) (u32 (log_dev l)) (log_block tail l);;
    dbuf <- bread (S n) (u32 (log_dev l)) (u32 block);;
    copy_data dbuf lbuf;;; bwrite dbuf;;; brelse lbuf;;; brelse dbuf) (length bs) I s) as (s' & E & HI).
  - apply LO.
  - intros i s1 HI. rewrite (HIl _ _ HI). split; apply Hl.
  - intros i b s1 Hi HI Hlk. rewrite bind_gets. rewrite (HIl _ _ HI) in Hlk |- *.
    pose proof (log_is_lookup _ _ _ _ _ _ Hl Hi Hlk) as Hbs.
    destruct (block_at i b _ Hl Hbs) as (-> & -> & -> & Hbr & Hlr & Hne & Hin).
    destruct HI as [Hb1 W1].
    assert (size (d ∖ list_to_set (take i bs)) <= size d)%nat as Hsz by (apply subseteq_size; set_solver).
    destruct (move_block_run pi n false _ b s1 _ _ Hb1 Hlr Hbr Hne) as (s2 & E2 & Hb2 & W2); [lia| |].
    { destruct Hpin as [Hpin| ->]; [left|right; rewrite size_empty in Hsz; unfold NBUF; lia].
      apply elem_of_difference. split; [apply Hpin; by eapply list_elem_of_lookup_2|].
      rewrite elem_of_list_to_set. intros (j & Hj)%list_elem_of_lookup.
      apply lookup_take_Some in Hj as [Hj Hji]. pose proof (NoDup_lookup _ _ _ _ (lo_nodup _ _ _ _ LO) Hj Hbs). lia. }
    exists s2. split; [exact E2|]. cbn in Hb2, W2. rewrite apply_writes_other in Hb2, W2 by (by apply log_not_installed).
    unfold I. cbn zeta. rewrite (take_snoc i b Hbs), installs_snoc, length_take.
    replace (0 + i `min` length bs)%nat with i by lia. split; [|by eapply wrote_trans].
    rewrite apply_writes_app. eapply bio_inv_ext; [| |exact Hb2]; [done|]. rewrite list_to_set_app. set_solver.
  - split; [|by apply wrote_nothing]. eapply bio_inv_ext; [| |exact Hb]; [done|]. simpl. set_solver.
  - exists s'. split; [exact E|]. unfold I in HI. by rewrite firstn_all in HI.
Qed.

End Phases.

(** ** The header block *)

Definition head_n (l : list Z) : Z := i32 (get32 0 l).
Definition head_blocks (l : list Z) : list Z :=
  map (fun i => i32 (get32 (4 + 4 * i) l)) (seq 0 (Z.to_nat (head_n l))).

Fixpoint put_blocks (i : nat) (bs : list Z) (l : list Z) : list Z :=
  match bs with [] => l | b :: bs => put_blocks (S i) bs (put32 (4 + 4 * i) (u32 b) l) end.
(** The header block with the list [bs]; what is behind the list stays. *)
Definition head_bytes (bs : list Z) (old : list Z) : list Z :=
  put_blocks 0 bs (put32 0 (u32 (Z.of_nat (length bs))) old).

Lemma put_blocks_snoc i bs b l : put_blocks i (bs ++ [b]) l =
  put32 (4 + 4 * (i + length bs)) (u32 b) (put_blocks i bs l).
Proof.
  revert i l. induction bs as [|b' bs IH]; intros i l; cbn [app put_blocks length]; [by rewrite Nat.add_0_r|].
  rewrite IH. f_equal. lia.
Qed.

Lemma length_put_blocks i bs l : (4 + 4 * (i + length bs) <= length l)%nat -> length (put_blocks i bs l) = length l.
Proof.
  revert i l. induction bs as [|b bs IH]; intros i l Hl; cbn [put_blocks]; [done|]. cbn [length] in Hl.
  assert (length (put32 (4 + 4 * i) (u32 b) l) = length l) as E by (apply length_put; lia).
  rewrite IH; [exact E|rewrite E; lia].
Qed.

Lemma get32_put_blocks_before i bs l off : (4 + 4 * (i + length bs) <= length l)%nat -> (off + 4 <= 4 + 4 * i)%nat ->
  get32 off (put_blocks i bs l) = get32 off l.
Proof.
  revert i l. induction bs as [|b bs IH]; intros i l Hl Ho; cbn [put_blocks]; [done|]. cbn [length] in Hl.
  assert (length (put32 (4 + 4 * i) (u32 b) l) = length l) as E by (apply length_put; lia).
  rewrite IH by (rewrite ?E; lia). apply get_put_other; lia.
Qed.

Lemma get32_put_blocks i bs l j b : (4 + 4 * (i + length bs) <= length l)%nat -> bs !! j = Some b ->
  get32 (4 + 4 * (i + j)) (put_blocks i bs l) = u32 b.
Proof.
  revert i l j. induction bs as [|b' bs IH]; intros i l j Hl; [done|]. cbn [length] in Hl. cbn [put_blocks].
  assert (length (put32 (4 + 4 * i) (u32 b') l) = length l) as E by (apply length_put; lia).
  destruct j as [|j]; simpl lookup.
  - intros [= ->]. rewrite get32_put_blocks_before by (rewrite ?E; lia). rewrite Nat.add_0_r.
    apply get32_put32; [lia|apply u32_range].
  - intros Hj. rewrite <- (IH (S i) (put32 (4 + 4 * i) (u32 b') l) j) by (rewrite ?E; done || lia). f_equal. lia.
Qed.

Lemma length_head_bytes bs old : length old = Z.to_nat BSIZE -> Z.of_nat (length bs) <= LOGSIZE ->
  length (head_bytes bs old) = Z.to_nat BSIZE.
Proof.
  intros Hl Hn. change (Z.to_nat BSIZE) with 512%nat in *. change LOGSIZE with 30 in Hn. unfold head_bytes.
  assert (length (put32 0 (u32 (Z.of_nat (length bs))) old) = length old) as E by (apply length_put; lia).
  rewrite length_put_blocks; rewrite E; lia.
Qed.

(** The header reads back as it was written. *)
Lemma head_n_bytes bs old : length old = Z.to_nat BSIZE -> Z.of_nat (length bs) <= LOGSIZE ->
  head_n (head_bytes bs old) = Z.of_nat (length bs).
Proof.
  intros Hl Hn. change (Z.to_nat BSIZE) with 512%nat in *. change LOGSIZE with 30 in Hn. unfold head_n, head_bytes.
  assert (length (put32 0 (u32 (Z.of_nat (length bs))) old) = length old) as E by (apply length_put; lia).
  rewrite get32_put_blocks_before, get32_put32; [|lia|apply u32_range|rewrite E; lia|lia].
  rewrite u32_small, i32_small; lia.
Qed.

Lemma head_blocks_bytes bs old : length old = Z.to_nat BSIZE -> Z.of_nat (length bs) <= LOGSIZE ->
  (forall b, b ∈ bs -> 0 <= b < 2147483648) -> head_blocks (head_bytes bs old) = bs.
Proof.
  intros Hl Hn Hr. unfold head_blocks. rewrite head_n_bytes by done. rewrite Nat2Z.id.
  change (Z.to_nat BSIZE) with 512%nat in *. change LOGSIZE with 30 in Hn.
  assert (length (put32 0 (u32 (Z.of_nat (length bs))) old) = length old) as E by (apply length_put; lia).
  apply list_eq. intros j. rewrite list_lookup_fmap. destruct (bs !! j) as [b|] eqn:Eb.
  - pose proof (lookup_lt_Some _ _ _ Eb). rewrite lookup_seq_lt by done. simpl. f_equal.
    specialize (Hr b ltac:(by eapply list_elem_of_lookup_2)).
    unfold head_bytes. rewrite (get32_put_blocks 0 bs _ j b); [rewrite u32_small, i32_small; lia|rewrite E; lia|done].
  - apply lookup_ge_None in Eb. by rewrite lookup_seq_ge.
Qed.

Section Header.
Context `{DL : BlockDriverLaws} (pi n : nat) (st sz : Z) (ST : 0 <= st < disksize) (DS : disksize <= 2147483647).

(** The holder of a buffer changes its data, and nothing else. *)
Lemma set_data_facts s c d i f : bio_inv pi s c d [i] ->
  let s' := upd_buf i (fun b => set_b_data (f (b_data b)) b) s in
  bio_inv pi s' c d [i] /\ wrote [] s s' /\ b_blockno (buf_at i s') = b_blockno (buf_at i s) /\
  b_data (buf_at i s') = f (b_data (buf_at i s)).
Proof.
  intros Hb s'. destruct (bi_held _ _ _ _ _ Hb i ltac:(by left)) as [Hi _].
  assert (s' = upd_buf i (set_b_data (f (b_data (buf_at i s)))) s) as -> by (by apply upd_buf_eq).
  split_and!; [apply bio_inv_data; [done|by left]|apply upd_buf_wrote| |];
    rewrite buf_at_upd; by rewrite ?(bi_len _ _ _ _ _ Hb).
Qed.

(** A locked buffer is written and released. *)
Lemma finish_run s c d i b : bio_inv pi s c d [i] -> b_blockno (buf_at i s) = b -> 0 <= b < disksize -> b ∉ d ->
  exists s', (bwrite i;;; brelse i) s = Ret tt s' /\
    bio_inv pi s' (blk_set b (b_data (buf_at i s)) c) d [] /\ wrote [(b, b_data (buf_at i s))] s s'.
Proof.
  intros Hb Eb Hr Hd. destruct (bwrite_run pi s c d [i] i Hb) as (s1 & E1 & W1); [by left|by rewrite Eb|].
  pose proof (written_wrote _ _ _ _ _ _ _ W1) as Hw. destruct W1 as [V1 _ _ _ V5]. rewrite Eb in Hw, V1.
  destruct (V5 i) as [S1 S2].
  destruct (brelse_run pi s1 _ _ [i] i V1) as (s2 & E2 & R2); [by left|by rewrite S1, S2, Eb, blk_set_eq|].
  exists s2. mret E1. split; [exact E2|]. pose proof (released_wrote _ _ _ _ _ _ _ R2) as Hw2.
  destruct R2 as [R1 _ _ _ _]. rewrite filter_cons_False in R1 by naive_solver. split.
  - eapply bio_inv_ext; [| |exact R1]; [done|set_solver].
  - rewrite <- (app_nil_r [_]). by eapply wrote_trans.
Qed.

Lemma write_head_run bs s c d : bio_inv pi s c d [] -> log_is st sz bs (k_log s) ->
  Z.of_nat (length bs) <= LOGSIZE -> st ∉ d -> (size d < NBUF)%nat ->
  let h := head_bytes bs (c st) in
  exists s', write_head (S n) s = Ret tt s' /\ bio_inv pi s' (blk_set st h c) d [] /\ wrote [(st, h)] s s'.
Proof.
  intros Hb Hl Hn Hd Hroom h. unfold write_head. rewrite bind_gets, (li_dev _ _ _ _ Hl), (li_start _ _ _ _ Hl).
  rewrite (u32_small 1), (u32_small st) by lia.
  destruct (bread_run pi n s c d [] st Hb ST) as (i & s1 & E1 & L1); [right; simpl; lia|by intros j ?%not_elem_of_nil|].
  mret E1. rewrite bind_modify. pose proof (bf_log _ _ (ld_frame _ _ _ _ _ _ _ _ L1)) as Hk.
  destruct (set_data_facts s1 c d i (put32 0 (u32 (lh_n (lh_of s1)))) (ld_inv _ _ _ _ _ _ _ _ L1)) as (B2 & W2 & N2 & D2).
  set (s2 := upd_buf i _ s1) in *. rewrite Hk, (li_n _ _ _ _ Hl), (ld_data _ _ _ _ _ _ _ _ L1) in D2.
  rewrite (ld_block _ _ _ _ _ _ _ _ L1) in N2.
  set (I (k : nat) s3 := bio_inv pi s3 c d [i] /\ wrote [] s s3 /\ b_blockno (buf_at i s3) = st /\
    b_data (buf_at i s3) = put_blocks 0 (take k bs) (put32 0 (u32 (Z.of_nat (length bs))) (c st))).
  assert (forall k s3, I k s3 -> k_log s3 = k_log s) as HIl by (intros k s3 (_ & [F _ _] & _); apply F).
  destruct (for_blocks_run (fun k block => modify (upd_buf i (fun b =>
    set_b_data (put32 (4 + 4 * k) (u32 block) (b_data b)) b))) (length bs) I s2) as (s4 & E4 & B4 & W4 & N4 & D4).
  - done.
  - intros k s3 HI. rewrite (HIl _ _ HI). split; apply Hl.
  - intros k b s3 Hk' HI Hlk. pose proof HI as (B3 & W3 & N3 & D3). eexists. split; [reflexivity|].
    destruct (set_data_facts s3 c d i (put32 (4 + 4 * k) (u32 b)) B3) as (B5 & W5 & N5 & D5).
    unfold I. split_and!; [done|by eapply (wrote_trans [] [])|by rewrite N5|]. rewrite D5, D3.
    rewrite (HIl _ _ HI) in Hlk. pose proof (log_is_lookup _ _ _ _ _ _ Hl Hk' Hlk) as Hbs.
    rewrite (take_S_r _ _ _ Hbs), put_blocks_snoc, length_take. do 3 f_equal. lia.
  - unfold I. split_and!; [done| |done|by rewrite D2]. eapply (wrote_trans [] []); [by eapply loaded_wrote|done].
  - mret E4. rewrite firstn_all in D4. destruct (finish_run s4 c d i st B4 N4 ST Hd) as (s5 & E5 & B5 & W5).
    exists s5. split; [exact E5|]. rewrite D4 in *. split; [exact B5|]. by eapply (wrote_trans []).
Qed.

(** The same up to the in-memory log. *)
Definition wrote_log ws s s' := wrote ws (set_k_log (k_log s') s) s'.

Lemma wrote_log_upd ws s s' v : wrote_log ws s s' -> wrote_log ws s (set_k_log v s').
Proof. intros [[] W D]. by split; [split|..]. Qed.
Lemma wrote_log_trans ws ws' s1 s2 s3 : wrote_log ws s1 s2 -> wrote_log ws' s2 s3 -> wrote_log (ws ++ ws') s1 s3.
Proof.
  intros [[] W D] [[] W' D']. simpl in *. split; [split; simpl; congruence| |]; simpl.
  - by rewrite W', W, app_assoc.
  - by rewrite D', D, apply_writes_app.
Qed.
Lemma wrote_wrote_log ws s s' : wrote ws s s' -> wrote_log ws s s'.
Proof. intros [[] W D]. by split; [split|..]. Qed.

Lemma read_head_run s c d : bio_inv pi s c d [] -> log_dev (k_log s) = 1 -> log_start (k_log s) = st ->
  log_size (k_log s) = sz -> length (lh_block (lh_of s)) = Z.to_nat LOGSIZE ->
  0 <= head_n (c st) <= LOGSIZE -> (size d < NBUF)%nat ->
  exists s', read_head (S n) s = Ret tt s' /\ bio_inv pi s' c d [] /\ wrote_log [] s s' /\
    log_is st sz (head_blocks (c st)) (k_log s').
Proof.
  intros Hb Hdev Hst Hsz Hlen Hn Hroom. unfold read_head. rewrite bind_gets, Hdev, Hst.
  rewrite (u32_small 1), (u32_small st) by lia.
  destruct (bread_run pi n s c d [] st Hb ST) as (i & s1 & E1 & L1); [right; simpl; lia|by intros j ?%not_elem_of_nil|].
  mret E1. rewrite bind_modify, (ld_data _ _ _ _ _ _ _ _ L1). fold (head_n (c st)).
  set (m := Z.to_nat (head_n (c st))). set (hb := head_blocks (c st)).
  assert (length hb = m) as Hhb by (unfold hb, head_blocks; by rewrite length_map, length_seq).
  set (I (k : nat) s2 := bio_inv pi s2 c d [i] /\ wrote_log [] s s2 /\ b_blockno (buf_at i s2) = st /\
    b_data (buf_at i s2) = c st /\ log_dev (k_log s2) = 1 /\ log_start (k_log s2) = st /\ log_size (k_log s2) = sz /\
    lh_n (lh_of s2) = Z.of_nat m /\ length (lh_block (lh_of s2)) = Z.to_nat LOGSIZE /\
    take k (lh_block (lh_of s2)) = take k hb).
  set (s2 := upd_lh _ s1).
  destruct (for_blocks_run (fun k _ => modify (fun s => upd_lh (fun h => set_lh_block (<[k :=
      i32 (get32 (4 + 4 * k) (b_data (buf_at i s)))]> (lh_block h)) h) s)) m I s2)
    as (s4 & E4 & B4 & W4 & N4 & D4 & I1 & I2 & I3 & I4 & I5 & I6).
  - lia.
  - intros k s3 HI. split; apply HI.
  - intros k b s3 Hk (B3 & W3 & N3 & D3 & J1 & J2 & J3 & J4 & J5 & J6) Hlk. eexists. split; [reflexivity|].
    unfold I. split_and!; try done; [by apply bio_inv_set_log|by apply wrote_log_upd| |].
    + simpl. by rewrite length_insert.
    + simpl. rewrite D3. change (k_log s3) with (k_log s3) in J6.
      rewrite (take_S_r (<[k := _]> _) k (i32 (get32 (4 + 4 * k) (c st)))) by (apply list_lookup_insert_eq; lia).
      rewrite (take_S_r hb k (i32 (get32 (4 + 4 * k) (c st)))).
      * f_equal. rewrite <- J6. by rewrite take_insert_ge.
      * unfold hb, head_blocks. rewrite list_lookup_fmap, lookup_seq_lt by done. done.
  - pose proof (bf_log _ _ (ld_frame _ _ _ _ _ _ _ _ L1)) as Hk.
    unfold I, s2. split_and!; simpl; rewrite ?Hk; try done.
    + apply bio_inv_set_log, L1.
    + apply wrote_log_upd, wrote_wrote_log. by eapply loaded_wrote.
    + apply L1.
    + apply L1.
    + lia.
  - mret E4. destruct (brelse_run pi s4 c d [i] i B4) as (s5 & E5 & R5); [by left|by rewrite N4, D4|].
    exists s5. split; [exact E5|]. pose proof (released_wrote _ _ _ _ _ _ _ R5) as W5.
    destruct R5 as [R1 R2 _ _ _]. rewrite filter_cons_False in R1 by naive_solver. split_and!; [done| |].
    + eapply (wrote_log_trans [] []); [done|by apply wrote_wrote_log].
    + rewrite (bf_log _ _ R2). split; try done; rewrite Hhb; [done|]. by rewrite I6, <- Hhb, firstn_all.
Qed.

End Header.

(** ** Recovery and commit *)

(** The writes of recover_from_log from the disk [D], and the disk they lead to. *)
Definition recovery_writes (st : Z) (D : disk) : list (Z * list Z) :=
  installs st D 0 (head_blocks (D st)) ++ [(st, head_bytes [] (D st))].
Definition recovered (st : Z) (D : disk) : disk := apply_writes (recovery_writes st D) D.

(** The writes of commit: the copies into the log, the header, the home blocks, and
    the header again. *)
Definition commit_writes (st : Z) (c : disk) (bs : list Z) : list (Z * list Z) :=
  log_copies st c 0 bs ++ [(st, head_bytes bs (c st))] ++ map (fun b => (b, c b)) bs ++
  [(st, head_bytes [] (head_bytes bs (c st)))].

(** A header recovery can read. *)
Record head_ok (disksize st sz : Z) (l : list Z) : Prop := Head_ok {
  ho_len : length l = Z.to_nat BSIZE;
  ho_n : 0 <= head_n l;
  ho_layout : layout_ok disksize st sz (head_blocks l)
}.

Lemma length_head_blocks l : 0 <= head_n l -> Z.of_nat (length (head_blocks l)) = head_n l.
Proof. intros H. unfold head_blocks. rewrite length_map, length_seq. lia. Qed.

Lemma log_is_erase st sz bs s : log_is st sz bs (k_log s) -> log_is st sz [] (k_log (upd_lh (set_lh_n 0) s)).
Proof. by intros []. Qed.

Section Runs.
Context `{DL : BlockDriverLaws} (pi n : nat) (st sz : Z).

Lemma recover_run s D : bio_inv pi s D ∅ [] -> log_dev (k_log s) = 1 -> log_start (k_log s) = st ->
  log_size (k_log s) = sz -> length (lh_block (lh_of s)) = Z.to_nat LOGSIZE -> head_ok disksize st sz (D st) ->
  exists s', recover_from_log (S n) s = Ret tt s' /\ bio_inv pi s' (recovered st D) ∅ [] /\
    wrote_log (recovery_writes st D) s s' /\ log_is st sz [] (k_log s').
Proof.
  intros Hb Hdev Hst Hsz Hlen [Hhl Hhn LO]. pose proof LO as [L1 L2 L3 L4 L5 L6 _ _].
  assert (0 <= st < disksize) as Hr by lia. pose proof (length_head_blocks _ Hhn) as Hhb.
  unfold recover_from_log. destruct (read_head_run pi n st sz Hr L3 s D ∅ Hb) as (s1 & E1 & B1 & W1 & I1); try done;
    [lia|rewrite size_empty; unfold NBUF; lia|].
  mret E1. destruct (install_trans_run pi n st sz _ LO s1 D ∅ B1 I1) as (s2 & E2 & B2 & W2);
    [by right|rewrite size_empty; unfold NBUF; lia|].
  mret E2. rewrite bind_modify. set (s3 := upd_lh _ s2).
  assert (log_is st sz [] (k_log s3)) as I3.
  { eapply log_is_erase. rewrite (bf_log _ _ (wt_frame _ _ _ W2)). exact I1. }
  destruct (write_head_run pi n st sz Hr L3 [] s3 (apply_writes (installs st D 0 (head_blocks (D st))) D) ∅)
    as (s4 & E4 & B4 & W4).
  - apply bio_inv_set_log. eapply bio_inv_ext; [| |exact B2]; [done|set_solver].
  - done.
  - simpl. unfold LOGSIZE, MAXOPBLOCKS. lia.
  - set_solver.
  - rewrite size_empty; unfold NBUF; lia.
  - assert (apply_writes (installs st D 0 (head_blocks (D st))) D st = D st) as Est.
    { apply apply_writes_other. rewrite installs_fst. intros Hin. destruct (lo_blocks _ _ _ _ LO _ Hin). lia. }
    rewrite Est in *. exists s4. split; [exact E4|]. unfold recovered, recovery_writes. rewrite apply_writes_app.
    split_and!; [exact B4| |by rewrite (bf_log _ _ (wt_frame _ _ _ W4))].
    eapply (wrote_log_trans [] _ s s1); [exact W1|]. eapply (wrote_log_trans _ _ s1 s3).
    + apply wrote_log_upd, wrote_wrote_log, W2.
    + by apply wrote_wrote_log.
Qed.

Lemma installs_map c c' bs : (forall j b, bs !! j = Some b -> c (st + Z.of_nat j + 1) = c' b) ->
  installs st c 0 bs = map (fun b => (b, c' b)) bs.
Proof.
  intros Hc. apply list_eq. intros j. unfold installs. rewrite list_lookup_imap, list_lookup_fmap.
  destruct (bs !! j) as [b|] eqn:E; [|done]. simpl. by rewrite (Hc j b).
Qed.

(** What is in the log after the copies and the header. *)
Lemma logged_block c bs hd j b : bs !! j = Some b ->
  apply_writes (log_copies st c 0 bs ++ [(st, hd)]) c (st + Z.of_nat j + 1) = c b.
Proof.
  intros Hj. rewrite apply_writes_app. simpl. rewrite blk_set_ne by lia.
  apply apply_writes_in; [apply log_copies_nodup|]. apply elem_of_log_copies. by exists j, b.
Qed.

Lemma commit_run s c bs : bio_inv pi s c (list_to_set bs) [] -> log_is st sz bs (k_log s) ->
  layout_ok disksize st sz bs -> bs <> [] ->
  exists s', commit (S n) s = Ret tt s' /\ bio_inv pi s' (apply_writes (commit_writes st c bs) c) ∅ [] /\
    wrote_log (commit_writes st c bs) s s' /\ k_log s' = k_log (upd_lh (set_lh_n 0) s).
Proof.
  intros Hb Hl LO Hne. pose proof LO as [L1 L2 L3 L4 L5 L6 L7 L8].
  assert (0 <= st < disksize) as Hr by lia.
  assert (size (list_to_set bs : gset Z) = length bs) as Hsz by (by apply size_list_to_set).
  assert (forall b, st <= b < st + sz -> b ∉ (list_to_set bs : gset Z)) as Hlog.
  { intros b Hb'. rewrite elem_of_list_to_set. intros Hin. by destruct (L8 b Hin). }
  unfold commit. rewrite bind_gets, (li_n _ _ _ _ Hl).
  assert (Z.of_nat (length bs) >? 0 = true) as -> by (by destruct bs).
  destruct (write_log_run pi n st sz bs LO s c _ Hb Hl) as (s1 & E1 & B1 & W1); [set_solver|done|lia|]. mret E1.
  assert (log_is st sz bs (k_log s1)) as I1 by (by rewrite (bf_log _ _ (wt_frame _ _ _ W1))).
  assert (apply_writes (log_copies st c 0 bs) c st = c st) as Est.
  { apply apply_writes_other. rewrite log_copies_fst. lia. }
  destruct (write_head_run pi n st sz Hr L3 bs s1 _ _ B1 I1 L5) as (s2 & E2 & B2 & W2); [apply Hlog; lia|lia|].
  mret E2. rewrite Est in *. set (h := head_bytes bs (c st)) in *.
  change (blk_set st h ?x) with (apply_writes [(st, h)] x) in B2. rewrite <- apply_writes_app in B2.
  set (c2 := apply_writes (_ ++ _) c) in B2.
  assert (log_is st sz bs (k_log s2)) as I2 by (by rewrite (bf_log _ _ (wt_frame _ _ _ W2))).
  destruct (install_trans_run pi n st sz bs LO s2 c2 _ B2 I2) as (s3 & E3 & B3 & W3); [left; set_solver|lia|].
  mret E3. rewrite (installs_map c2 c) in B3, W3 by (intros j b Hj; by apply logged_block).
  rewrite bind_modify. set (s4 := upd_lh _ s3). set (c3 := apply_writes (map _ bs) c2) in B3.
  assert (c3 st = h) as Eh.
  { unfold c3. rewrite apply_writes_other; [unfold c2; rewrite apply_writes_app; apply blk_set_eq|].
    rewrite <- list_fmap_compose. intros (b & -> & Hin)%list_elem_of_fmap. simpl in *. destruct (L8 _ Hin). lia. }
  destruct (write_head_run pi n st sz Hr L3 [] s4 c3 ∅) as (s5 & E5 & B5 & W5).
  - apply bio_inv_set_log. eapply bio_inv_ext; [| |exact B3]; [done|set_solver].
  - eapply log_is_erase. rewrite (bf_log _ _ (wt_frame _ _ _ W3)). exact I2.
  - simpl. unfold LOGSIZE, MAXOPBLOCKS. lia.
  - set_solver.
  - rewrite size_empty. unfold NBUF. lia.
  - rewrite Eh in *. exists s5. split; [exact E5|]. unfold commit_writes. fold h.
    rewrite (app_assoc (log_copies st c 0 bs)), !apply_writes_app.
    rewrite <- (apply_writes_app (log_copies st c 0 bs) [(st, h)]). split_and!; [exact B5| |].
    + rewrite <- app_assoc. eapply wrote_log_trans; [by apply wrote_wrote_log|].
      eapply wrote_log_trans; [by apply wrote_wrote_log|]. eapply (wrote_log_trans _ _ s2 s4).
      * by apply wrote_log_upd, wrote_wrote_log.
      * by apply wrote_wrote_log.
    + rewrite (bf_log _ _ (wt_frame _ _ _ W5)). simpl.
      by rewrite (bf_log _ _ (wt_frame _ _ _ W3)), (bf_log _ _ (wt_frame _ _ _ W2)), (bf_log _ _ (wt_frame _ _ _ W1)).
Qed.

End Runs.

(** ** Crashes *)

Definition outside (st sz b : Z) : Prop := ~ (st <= b < st + sz).

(** The disks that commit can leave behind. *)
Lemma recovered_none st sz D b : 0 < sz -> head_n (D st) = 0 -> outside st sz b -> recovered st D b = D b.
Proof.
  intros Hsz H0 Hb. unfold recovered, recovery_writes, head_blocks. rewrite H0. simpl.
  apply blk_set_ne. unfold outside in Hb. lia.
Qed.

Lemma recovered_home st D j b : NoDup (head_blocks (D st)) -> b <> st -> head_blocks (D st) !! j = Some b ->
  recovered st D b = D (st + Z.of_nat j + 1).
Proof.
  intros Hnd Hb Hj. unfold recovered, recovery_writes. rewrite apply_writes_app. simpl. rewrite blk_set_ne by done.
  apply apply_writes_in; [by rewrite installs_fst|]. apply elem_of_installs. by exists j.
Qed.

Lemma recovered_other st D b : b <> st -> b ∉ head_blocks (D st) -> recovered st D b = D b.
Proof.
  intros Hb Hn. unfold recovered, recovery_writes. rewrite apply_writes_app. simpl. rewrite blk_set_ne by done.
  apply apply_writes_other. by rewrite installs_fst.
Qed.

Lemma layout_ok_nil disksize st sz bs : layout_ok disksize st sz bs -> layout_ok disksize st sz [].
Proof.
  intros []. split; simpl; try lia; [constructor|].
  by intros b ?%not_elem_of_nil.
Qed.

Lemma head_ok_nil disksize st sz bs l : layout_ok disksize st sz bs -> length l = Z.to_nat BSIZE -> head_n l = 0 ->
  head_ok disksize st sz l.
Proof.
  intros HL Hl H0. split; [done|lia|]. unfold head_blocks. rewrite H0. by eapply layout_ok_nil.
Qed.

Lemma prefix_fst (P Q : list (Z * list Z)) b : b ∈ P.*1 -> b ∈ (P ++ Q).*1.
Proof. rewrite fmap_app. set_solver. Qed.

Section Crash.
Context (disksize st sz : Z) (bs : list Z) (LO : layout_ok disksize st sz bs) (c D0 : disk).
Hypothesis Hlen : length (D0 st) = Z.to_nat BSIZE.
Hypothesis Hold : head_n (D0 st) = 0.
Hypothesis Hsame : forall b, b ∉ bs -> D0 b = c b.

Lemma header_not_home : st ∉ bs.
Proof. intros Hin. destruct LO as [L1 L2 L3 L4 _ _ _ L8]. destruct (L8 _ Hin). lia. Qed.

Lemma home_fst (f : Z -> list Z) : (map (fun b => (b, f b)) bs).*1 = bs.
Proof. rewrite <- list_fmap_compose. apply list_fmap_id. Qed.

(** Before the header is written: the transaction never happened. *)
Lemma crash_early P k : log_copies st c 0 bs = P ++ k ->
  head_ok disksize st sz (apply_writes P D0 st) /\
  forall b, outside st sz b -> recovered st (apply_writes P D0) b = D0 b.
Proof.
  intros E. assert (forall b, ~ (st < b <= st + Z.of_nat (length bs)) -> apply_writes P D0 b = D0 b) as HP.
  { intros b Hb. apply apply_writes_other. intros Hin. apply Hb, (log_copies_fst st c). rewrite E. by apply prefix_fst. }
  pose proof LO as [L1 L2 L3 L4 L5 L6 L7 L8]. rewrite (HP st) by lia. split; [by eapply head_ok_nil|].
  intros b Hb. rewrite (recovered_none st sz) by (rewrite ?HP; lia || done). apply HP. unfold outside in Hb. lia.
Qed.

(** After the header: the whole transaction is there. *)
Lemma crash_late P k : map (fun b => (b, c b)) bs = P ++ k ->
  let D := apply_writes (log_copies st c 0 bs ++ [(st, head_bytes bs (c st))] ++ P) D0 in
  head_ok disksize st sz (D st) /\ forall b, outside st sz b -> recovered st D b = c b.
Proof.
  intros E D. pose proof LO as [L1 L2 L3 L4 L5 L6 L7 L8]. pose proof header_not_home as Hst.
  assert (length (c st) = Z.to_nat BSIZE) as Hlc by (by rewrite <- Hsame).
  assert (forall b, b ∈ P.*1 -> b ∈ bs) as HP.
  { intros b Hb. rewrite <- (home_fst c), E. by apply prefix_fst. }
  assert (D st = head_bytes bs (c st)) as Est.
  { unfold D. rewrite !apply_writes_app. rewrite apply_writes_other by auto. simpl. apply blk_set_eq. }
  assert (head_blocks (D st) = bs) as Ebs.
  { rewrite Est. apply head_blocks_bytes; [done|done|]. intros b Hb. destruct (L8 b Hb). lia. }
  split.
  - rewrite Est. split; [by apply length_head_bytes|rewrite head_n_bytes by done; lia|]. by rewrite <- Est, Ebs.
  - intros b Hb. unfold outside in Hb. destruct (decide (b ∈ bs)) as [(j & Hj)%list_elem_of_lookup|Hn].
    + rewrite (recovered_home st D j) by (rewrite ?Ebs; done || lia). unfold D. apply lookup_lt_Some in Hj as Hlt.
      rewrite !apply_writes_app. rewrite apply_writes_other.
      * simpl. rewrite blk_set_ne by lia. apply apply_writes_in; [apply log_copies_nodup|].
        apply elem_of_log_copies. by exists j, b.
      * intros Hin%HP. destruct (L8 _ Hin). lia.
    + rewrite recovered_other by (rewrite ?Ebs; done || lia). unfold D. rewrite !apply_writes_app.
      rewrite apply_writes_other by auto. simpl. rewrite blk_set_ne by lia.
      rewrite apply_writes_other; [by apply Hsame|]. rewrite log_copies_fst. lia.
Qed.

(** After the header is erased. *)
Lemma crash_end : let D := apply_writes (commit_writes st c bs) D0 in
  head_ok disksize st sz (D st) /\ forall b, outside st sz b -> D b = c b /\ recovered st D b = c b.
Proof.
  intros D. pose proof LO as [L1 L2 L3 L4 L5 L6 L7 L8].
  assert (length (c st) = Z.to_nat BSIZE) as Hlc by (rewrite <- Hsame; [done|apply header_not_home]).
  set (h := head_bytes bs (c st)). assert (length h = Z.to_nat BSIZE) as Hlh by (by apply length_head_bytes).
  assert (D st = head_bytes [] h) as Est.
  { unfold D, commit_writes. rewrite !app_assoc, apply_writes_app. simpl. apply blk_set_eq. }
  assert (Z.of_nat (length (@nil Z)) <= LOGSIZE) as H0 by (unfold LOGSIZE, MAXOPBLOCKS; simpl; lia).
  assert (head_n (D st) = 0) as Hn by (rewrite Est, head_n_bytes; done).
  split; [eapply head_ok_nil; [done| |done]; rewrite Est; by apply length_head_bytes|].
  assert (forall b, outside st sz b -> D b = c b) as HD.
  { intros b Hb. unfold outside in Hb. unfold D, commit_writes. rewrite !apply_writes_app. simpl.
    rewrite blk_set_ne by lia. destruct (decide (b ∈ bs)) as [Hin|Hni].
    - apply apply_writes_in; [by rewrite (home_fst c)|]. apply list_elem_of_fmap. by exists b.
    - rewrite apply_writes_other by (by rewrite (home_fst c)). rewrite blk_set_ne by lia.
      rewrite apply_writes_other; [by apply Hsame|]. rewrite log_copies_fst. lia. }
  intros b Hb. split; [by apply HD|]. rewrite (recovered_none st sz) by (done || lia). by apply HD.
Qed.

Lemma crash_anywhere P Q : commit_writes st c bs = P ++ Q ->
  let D := apply_writes P D0 in
  head_ok disksize st sz (D st) /\
  ((forall b, outside st sz b -> recovered st D b = D0 b) \/ (forall b, outside st sz b -> recovered st D b = c b)).
Proof.
  unfold commit_writes. intros E. apply app_eq_inv in E as [(k & E1 & E2)|(k & -> & E2)].
  { destruct (crash_early P k E1) as [H1 H2]. by split; [|left]. }
  destruct k as [|x k].
  { rewrite app_nil_r. destruct (crash_early (log_copies st c 0 bs) []) as [H1 H2]; [by rewrite app_nil_r|].
    by split; [|left]. }
  cbn [app] in E2. injection E2 as <- E2. apply app_eq_inv in E2 as [(k2 & E3 & _)|(k2 & -> & E3)].
  { destruct (crash_late k k2 E3) as [H1 H2]. by split; [|right]. }
  destruct k2 as [|y k2].
  { rewrite app_nil_r. destruct (crash_late (map (fun b => (b, c b)) bs) []) as [H1 H2]; [by rewrite app_nil_r|].
    by split; [|right]. }
  cbn [app] in E3. injection E3 as <- [-> ->]%symmetry%app_eq_nil. destruct crash_end as [H1 H2].
  split; [exact H1|right; intros b Hb; by apply H2].
Qed.

End Crash.

(** A crash during recovery changes nothing: recovering again leads to the same disk. *)
Lemma recovery_early disksize st sz D P k : head_ok disksize st sz (D st) ->
  installs st D 0 (head_blocks (D st)) = P ++ k ->
  let D' := apply_writes P D in
  head_ok disksize st sz (D' st) /\ forall b, outside st sz b -> recovered st D' b = recovered st D b.
Proof.
  intros Hok E D'. pose proof Hok as [Hl Hn LO]. pose proof LO as [L1 L2 L3 L4 L5 L6 L7 L8].
  assert (forall b, b ∈ P.*1 -> b ∈ head_blocks (D st)) as HP.
  { intros b Hb. rewrite <- (installs_fst st D), E. by apply prefix_fst. }
  assert (forall b, st <= b < st + sz -> D' b = D b) as Hlog.
  { intros b Hb. apply apply_writes_other. intros Hin%HP. by destruct (L8 _ Hin). }
  assert (D' st = D st) as Est by (apply Hlog; lia). rewrite Est. split; [done|].
  intros b Hb. unfold outside in Hb. destruct (decide (b ∈ head_blocks (D st))) as [(j & Hj)%list_elem_of_lookup|Hni].
  - apply lookup_lt_Some in Hj as Hlt.
    rewrite (recovered_home st D j), (recovered_home st D' j) by (rewrite ?Est; done || lia). apply Hlog. lia.
  - rewrite !recovered_other by (rewrite ?Est; done || lia). apply apply_writes_other. intros Hin%HP. done.
Qed.

Lemma recovery_again disksize st sz D P Q : head_ok disksize st sz (D st) -> recovery_writes st D = P ++ Q ->
  let D' := apply_writes P D in
  head_ok disksize st sz (D' st) /\ forall b, outside st sz b -> recovered st D' b = recovered st D b.
Proof.
  intros Hok E. pose proof Hok as [Hl Hn LO]. pose proof LO as [L1 L2 L3 L4 L5 L6 L7 L8].
  unfold recovery_writes in E. apply app_eq_inv in E as [(k & E1 & E2)|([|x k] & -> & E2)].
  - by apply (recovery_early disksize st sz D P k).
  - rewrite app_nil_r. apply (recovery_early disksize st sz D _ []); [done|by rewrite app_nil_r].
  - cbn in E2. injection E2 as <- [-> ->]%symmetry%app_eq_nil.
    change (apply_writes _ D) with (recovered st D).
    assert (recovered st D st = head_bytes [] (D st)) as Est.
    { unfold recovered, recovery_writes. rewrite apply_writes_app. simpl. apply blk_set_eq. }
    assert (Z.of_nat (length (@nil Z)) <= LOGSIZE) as H0 by (unfold LOGSIZE, MAXOPBLOCKS; simpl; lia).
    split.
    + eapply head_ok_nil; [done| |]; rewrite Est; [by apply length_head_bytes|by rewrite head_n_bytes].
    + intros b Hb. apply (recovered_none st sz); [lia| |done]. rewrite Est. by rewrite head_n_bytes.
Qed.

(** ** initlog, end_op, log_write *)

Lemma bio_inv_initlock pi s c d held lk l : bio_inv pi s c d held -> lk <> LKptable -> lk <> LKbcache ->
  (forall i, lk <> LKsleep (SLbuf i)) -> bio_inv pi (put_lock lk l s) c d held.
Proof.
  intros [] H1 H2 H3. assert (forall lk', lk <> lk' -> lock_free lk' s -> lock_free lk' (put_lock lk l s)) as Hfr.
  { intros lk' Hne [nm Hl]. exists nm. simpl. by rewrite lookup_insert_ne. }
  split; auto.
Qed.

Lemma bio_inv_wake pi s c d held ch : bio_inv pi s c d held ->
  bio_inv pi (set_k_ptable (map (wake ch) (k_ptable s)) s) c d held.
Proof. intros []. split; auto. simpl. by rewrite length_map. Qed.

Section Ops.
Context `{DL : BlockDriverLaws} (pi n : nat) (st sz : Z).

Lemma readsb_run s c d : bio_inv pi s c d [] -> 1 < disksize -> (size d < NBUF)%nat ->
  exists s', readsb (S n) 1 s = Ret (decode_sb (c 1)) s' /\ bio_inv pi s' c d [] /\ wrote [] s s'.
Proof.
  intros Hb Hr Hroom. unfold readsb.
  destruct (bread_run pi n s c d [] 1 Hb) as (i & s1 & E1 & L1); [lia|right; simpl; lia|by intros j ?%not_elem_of_nil|].
  mret E1. rewrite bind_gets, (ld_data _ _ _ _ _ _ _ _ L1).
  destruct (brelse_run pi s1 c d [i] i (ld_inv _ _ _ _ _ _ _ _ L1)) as (s2 & E2 & R2); [by left| |].
  { by rewrite (ld_block _ _ _ _ _ _ _ _ L1), (ld_data _ _ _ _ _ _ _ _ L1). }
  mret E2. exists s2. split; [done|]. pose proof (released_wrote _ _ _ _ _ _ _ R2) as W.
  destruct R2 as [R1 _ _ _ _]. rewrite filter_cons_False in R1 by naive_solver.
  split; [done|]. eapply (wrote_trans [] []); [by eapply loaded_wrote|done].
Qed.

Lemma initlog_run s D : bio_inv pi s D ∅ [] -> length (lh_block (lh_of s)) = Z.to_nat LOGSIZE ->
  1 < disksize -> sb_logstart (decode_sb (D 1)) = st -> sb_nlog (decode_sb (D 1)) = sz ->
  head_ok disksize st sz (D st) ->
  exists s', initlog (S n) 1 s = Ret tt s' /\ bio_inv pi s' (recovered st D) ∅ [] /\
    k_dwrites s' = k_dwrites s ++ recovery_writes st D /\ k_disk s' = recovered st D /\ log_is st sz [] (k_log s').
Proof.
  intros Hb Hlen Hr Est Esz Hok. pose proof Hok as [_ _ [L1 L2 L3 L4 _ _ _ _]].
  unfold initlog. change (logheader_size >=? BSIZE) with false. cbv iota. unfold initlock. rewrite bind_modify.
  set (s1 := put_lock LKlog _ s).
  destruct (readsb_run s1 D ∅) as (s2 & E2 & B2 & W2); [by apply bio_inv_initlock|done|rewrite size_empty; unfold NBUF; lia|].
  mret E2. rewrite Est, Esz, !bind_modify. set (s3 := upd_log _ _).
  destruct (recover_run pi n st sz s3 D) as (s4 & E4 & B4 & W4 & I4).
  - by do 3 apply bio_inv_set_log.
  - done.
  - simpl. apply i32_small. lia.
  - simpl. apply i32_small. lia.
  - simpl. by rewrite (bf_log _ _ (wt_frame _ _ _ W2)).
  - done.
  - exists s4. split; [exact E4|]. destruct W4 as [_ Ww Wd]. simpl in Ww, Wd. split_and!; [done| | |done].
    + rewrite Ww. by rewrite (wt_writes _ _ _ W2), app_nil_r.
    + rewrite Wd. by rewrite (wt_disk _ _ _ W2), <- (functional_extensionality _ _ (fun b => bi_disk _ _ _ _ _ Hb b ltac:(set_solver))).
Qed.

(** Transactions: the file system is at the contents [c], the blocks [bs] of which are
    still to be committed. *)
Record in_trans (s : kstate) (c : disk) (bs : list Z) (held : list nat) : Prop := In_trans {
  tr_bio : bio_inv pi s c (list_to_set bs) held;
  tr_lock : lock_free LKlog s;
  tr_log : log_is st sz bs (k_log s);
  tr_layout : layout_ok disksize st sz bs;
  tr_committing : log_committing (k_log s) = 0
}.

(** What the operations on blocks leave alone while the transaction is open. *)
Record op_frame (s s' : kstate) : Prop := Op_frame {
  of_icache : k_icache s' = k_icache s;
  of_sb : k_sb s' = k_sb s;
  of_mem : k_mem s' = k_mem s;
  of_outstanding : log_outstanding (k_log s') = log_outstanding (k_log s);
  of_disk : k_disk s' = k_disk s;
  of_dwrites : k_dwrites s' = k_dwrites s
}.

Lemma op_frame_trans s1 s2 s3 : op_frame s1 s2 -> op_frame s2 s3 -> op_frame s1 s3.
Proof. intros [] []. split; congruence. Qed.

Lemma end_op_run s c bs : in_trans s c bs [] -> log_outstanding (k_log s) = 1 -> bs <> [] ->
  exists s', end_op (S n) s = Ret tt s' /\ in_trans s' (apply_writes (commit_writes st c bs) c) [] [] /\
    log_outstanding (k_log s') = 0 /\
    k_dwrites s' = k_dwrites s ++ commit_writes st c bs /\ k_disk s' = apply_writes (commit_writes st c bs) (k_disk s).
Proof.
  intros [Hb Hf Hl LO Hcm] Hout Hne. pose proof (bio_cpu_ok _ _ _ _ _ Hb) as Hc.
  unfold end_op. mret (acquire_run LKlog s Hf). rewrite bind_modify, bind_gets. cbn [k_log upd_log set_k_log].
  change (k_log (enter LKlog s)) with (k_log s). cbn [log_committing log_outstanding set_log_outstanding].
  rewrite Hcm, Hout. change (i32 (1 - 1)) with 0. cbn [negb Z.eqb]. rewrite bind_assoc, bind_modify, bind_ret.
  set (u := upd_log (set_log_committing 1) ∘ upd_log (fun l => set_log_outstanding (i32 (log_outstanding l - 1)) l)).
  assert (release LKlog (u (enter LKlog s)) = Ret tt (u (sync s))) as Er.
  { apply release_stable; [by split|done|done]. }
  mret Er. set (s1 := u (sync s)).
  destruct (commit_run pi n st sz s1 c bs) as (s2 & E2 & B2 & W2 & I2).
  - by do 2 apply bio_inv_set_log; apply bio_inv_sync.
  - by destruct Hl.
  - done.
  - done.
  - mret E2. destruct W2 as [F Ww Wd]. simpl in Ww, Wd. assert (lock_free LKlog s2) as Hf2.
    { unfold lock_free. rewrite (bf_locks _ _ F). exact Hf. }
    mret (acquire_run LKlog s2 Hf2). rewrite bind_modify. set (v := upd_log (set_log_committing 0)).
    assert (Stable v) as Hv by (by split). pose proof (bio_cpu_ok _ _ _ _ _ B2) as Hc2.
    mret (wakeup_inside ChLog LKlog v s2 Hv ltac:(done) (bi_table _ _ _ _ _ B2) (bi_ptable _ _ _ _ _ B2) Hc2).
    set (t := map _ _). assert (Stable (set_k_ptable t ∘ v)) as Ht by (by split).
    eexists. split; [apply (release_stable LKlog (set_k_ptable t ∘ v) s2 Ht Hf2 Hc2)|].
    split_and!; [|simpl; rewrite I2; simpl; by rewrite Hout|done|done].
    split; [|done| |by eapply layout_ok_nil|done].
    + apply (bio_inv_wake pi (v (sync s2)) _ _ _ ChLog). by apply bio_inv_set_log, bio_inv_sync.
    + simpl. rewrite I2. by destruct Hl.
Qed.

Lemma log_slot_spec blocks k bno : (k <= length blocks)%nat -> (forall b, b ∈ take k blocks -> u32 b = b) ->
  (log_slot blocks k bno < k)%nat /\ take k blocks !! log_slot blocks k bno = Some bno \/
  log_slot blocks k bno = k /\ bno ∉ take k blocks.
Proof.
  revert k. induction blocks as [|b blocks IH]; intros [|k] Hk Hu; simpl in *; try lia;
    try (right; split; [done|apply not_elem_of_nil]).
  rewrite (Hu b) by (by left). destruct (Z.eqb_spec b bno) as [-> |Hne]; [left; split; [lia|done]|].
  destruct (IH k) as [[H1 H2]|[H1 H2]]; [lia|intros b' Hb'; apply Hu; by right| |].
  - left. split; [lia|done].
  - right. split; [lia|]. apply not_elem_of_cons. split; [congruence|done].
Qed.

(** The blocks of the transaction after one more is logged. *)
Definition absorb (bno : Z) (bs : list Z) : list Z := if decide (bno ∈ bs) then bs else bs ++ [bno].

Lemma absorb_set bno bs : (list_to_set (absorb bno bs) : gset Z) = list_to_set bs ∪ {[bno]}.
Proof. unfold absorb. case_decide; [|rewrite list_to_set_app_L]; set_solver. Qed.

Lemma absorb_layout bno bs : layout_ok disksize st sz bs -> 0 <= bno < disksize -> outside st sz bno ->
  Z.of_nat (length bs) < sz - 1 -> sz <= LOGSIZE -> layout_ok disksize st sz (absorb bno bs).
Proof.
  intros LO Hb Ho Hn Hsz. unfold absorb. case_decide; [done|]. destruct LO as [L1 L2 L3 L4 L5 L6 L7 L8].
  change LOGSIZE with 30 in *. change NBUF with 30%nat in *.
  split; rewrite ?length_app; simpl; change LOGSIZE with 30; change NBUF with 30%nat; try lia.
  - apply NoDup_app. split_and!; [done|set_solver|apply NoDup_singleton].
  - intros b [Hin|Hin]%elem_of_app; [by apply L8|]. apply list_elem_of_singleton in Hin as ->. done.
Qed.

Lemma log_write_head bno bs l : log_is st sz bs l -> 0 <= bno < 2147483648 -> Z.of_nat (length bs) < LOGSIZE ->
  (forall b, b ∈ bs -> 0 <= b < 2147483648) ->
  let i := log_slot (lh_block (log_lh l)) (Z.to_nat (lh_n (log_lh l))) bno in
  Z.of_nat i < LOGSIZE /\
  let h := set_lh_block (<[i := i32 bno]> (lh_block (log_lh l))) (log_lh l) in
  log_is st sz (absorb bno bs)
    (set_log_lh (if Z.of_nat i =? lh_n (log_lh l) then set_lh_n (i32 (lh_n h + 1)) h else h) l).
Proof.
  intros [I1 I2 I3 I4 I5 I6] Hb Hn Hr. change LOGSIZE with 30 in *. rewrite I4, Nat2Z.id, (i32_small bno) by lia.
  destruct (log_slot_spec (lh_block (log_lh l)) (length bs) bno) as [[H1 H2]|[H1 H2]].
  { lia. }
  { intros b. rewrite I6. intros Hin. specialize (Hr b Hin). apply u32_small. lia. }
  all: rewrite I6 in H2; set (i := log_slot _ _ _) in *; cbn zeta; (split; [lia|]); unfold absorb.
  - rewrite decide_True by (by eapply list_elem_of_lookup_2). rewrite (proj2 (Z.eqb_neq _ _)) by lia.
    split; simpl; try done; [by rewrite length_insert|].
    rewrite list_insert_id; [done|]. rewrite <- I6 in H2. by apply lookup_take_Some in H2 as [H2 _].
  - rewrite decide_False by done. rewrite H1, Z.eqb_refl.
    split; simpl; rewrite ?length_app; simpl; try done; [rewrite I4, i32_small; lia|by rewrite length_insert|].
    rewrite Nat.add_1_r. rewrite (take_S_r _ _ bno) by (apply list_lookup_insert_eq; lia).
    by rewrite take_insert_ge, I6 by lia.
Qed.

(** A buffer whose block is logged: its data becomes part of the transaction. *)
Lemma log_write_run s c bs held b : in_trans s c bs held -> b ∈ held -> 1 <= log_outstanding (k_log s) ->
  let bno := b_blockno (buf_at b s) in let data := b_data (buf_at b s) in
  0 <= bno < disksize -> outside st sz bno -> Z.of_nat (length bs) < sz - 1 -> sz <= LOGSIZE ->
  exists s', log_write b s = Ret tt s' /\ in_trans s' (blk_set bno data c) (absorb bno bs) held /\
    op_frame s s' /\ forall j, same_block (buf_at j s) (buf_at j s').
Proof.
  intros [Hb Hf Hl LO Hcm] Hh Hout bno data Hbno Ho Hn Hsz. pose proof (bio_cpu_ok _ _ _ _ _ Hb) as Hc.
  unfold log_write. rewrite bind_gets, (li_n _ _ _ _ Hl), (li_size _ _ _ _ Hl).
  rewrite (proj2 (Z.ltb_ge _ _) Hout). destruct (Z.geb_spec (Z.of_nat (length bs)) LOGSIZE) as [|_]; [lia|].
  destruct (Z.geb_spec (Z.of_nat (length bs)) (sz - 1)) as [|_]; [lia|]. cbn [orb].
  mret (acquire_run LKlog s Hf). rewrite !bind_gets. change (buf_at b (enter LKlog s)) with (buf_at b s).
  change (k_log (enter LKlog s)) with (k_log s). fold bno. pose proof (lo_max _ _ _ _ LO).
  destruct (log_write_head bno bs (k_log s) Hl) as [Hi Hl']; [lia|lia|intros b' Hb'; destruct (lo_blocks _ _ _ _ LO b' Hb'); lia|].
  cbv beta zeta. rewrite (li_n _ _ _ _ Hl) in Hi, Hl' |- *. set (i := log_slot _ _ _) in *.
  destruct (Z.geb_spec (Z.of_nat i) LOGSIZE) as [|_]; [lia|]. rewrite bind_modify.
  set (u1 := upd_lh (fun h => set_lh_block (<[i := i32 bno]> (lh_block h)) h)).
  set (u2 := if Z.of_nat i =? Z.of_nat (length bs) then upd_lh (fun h => set_lh_n (i32 (lh_n h + 1)) h) else id).
  assert (forall s, (when Z.of_nat i =? Z.of_nat (length bs) do
    modify (upd_lh (fun h => set_lh_n (i32 (lh_n h + 1)) h))) s = Ret tt (u2 s)) as Eu.
  { intros s1. unfold u2. by destruct (_ =? _). }
  mret (Eu (u1 (enter LKlog s))). cbv beta. unfold or_flags. rewrite bind_modify. fold pin.
  set (u := upd_buf b pin ∘ u2 ∘ u1). assert (Stable u) as Hu by (unfold u, u2; destruct (_ =? _); by split).
  change (upd_buf b _ _) with (u (enter LKlog s)).
  exists (u (sync s)). split; [by apply release_stable|]. pose proof (bio_inv_sync _ _ _ _ _ Hb) as Hbs.
  assert (u (sync s) = set_k_log (k_log (u (sync s))) (upd_buf b pin (sync s))) as Eus.
  { unfold u, u2. by destruct (_ =? _). }
  assert (k_log (u (sync s)) = set_log_lh (if Z.of_nat i =? Z.of_nat (length bs)
    then set_lh_n (i32 (lh_n (log_lh (k_log s)) + 1)) (set_lh_block (<[i := i32 bno]> (lh_block (log_lh (k_log s)))) (log_lh (k_log s)))
    else set_lh_block (<[i := i32 bno]> (lh_block (log_lh (k_log s)))) (log_lh (k_log s))) (k_log s)) as Ekl.
  { unfold u, u2. by destruct (_ =? _). }
  split_and!; [|split; unfold u, u2; by destruct (_ =? _)|].
  2: { intros j. rewrite Eus. change (buf_at j (set_k_log _ ?x)) with (buf_at j x).
       destruct (decide (b = j)) as [<-|Hne]; [|by rewrite buf_at_upd_ne].
       rewrite buf_at_upd; [done|]. rewrite (bi_len _ _ _ _ _ Hbs). by apply (bi_held _ _ _ _ _ Hb). }
  split.
  - rewrite Eus, absorb_set. apply bio_inv_set_log. apply (bio_inv_pin pi (sync s) c (list_to_set bs) held b Hbs Hh).
  - apply lock_free_stable; [done|exact Hf].
  - by rewrite Ekl.
  - by apply absorb_layout.
  - rewrite Ekl. exact Hcm.
Qed.

(** begin_op *)
Definition admits (l : log_t) : Prop :=
  log_committing l = 0 /\ lh_n (log_lh l) + (log_outstanding l + 1) * MAXOPBLOCKS <= LOGSIZE.

Definition admit_one : kstate -> kstate :=
  upd_log (fun l => set_log_outstanding (i32 (log_outstanding l + 1)) l).

Lemma log_awakened i lk b s : k_log (awakened i lk b s) = k_log s.
Proof. unfold awakened. by case_decide. Qed.

Definition begin_round : kprog (option unit) :=
  l <- gets k_log;;
  if negb (log_committing l =? 0) then sleep ChLog LKlog;;; ret None
  else if lh_n (log_lh l) + (log_outstanding l + 1) * MAXOPBLOCKS >? LOGSIZE
  then sleep ChLog LKlog;;; ret None
  else modify admit_one;;; release LKlog;;; ret (Some tt).

Lemma begin_round_run s : (admits (k_log s) /\ begin_round s = (modify admit_one;;; release LKlog;;; ret (Some tt)) s) \/
  (~ admits (k_log s) /\ begin_round s = (sleep ChLog LKlog;;; ret None) s).
Proof.
  unfold begin_round. rewrite bind_gets. unfold admits. destruct (Z.eqb_spec (log_committing (k_log s)) 0) as [E|Hne]; cbn [negb].
  - destruct (Z.gtb_spec (lh_n (lh_of s) + (log_outstanding (k_log s) + 1) * MAXOPBLOCKS) LOGSIZE).
    + right. split; [lia|done].
    + left. split; [lia|done].
  - right. split; [naive_solver|done].
Qed.

Lemma begin_op_now s : lock_free LKlog s -> cpu_ok (k_cpu s) -> admits (k_log s) ->
  begin_op (S n) s = Ret tt (admit_one (sync s)).
Proof.
  intros Hf Hc Ha. unfold begin_op. fold begin_round. mret (acquire_run LKlog s Hf). cbn [repeat_until].
  assert (begin_round (enter LKlog s) = Ret (Some tt) (admit_one (sync s))) as E.
  { destruct (begin_round_run (enter LKlog s)) as [[_ ->]|[Hn _]]; [|by destruct Hn]. rewrite bind_modify.
    by mret (release_stable LKlog admit_one s ltac:(by split) Hf Hc). }
  by mret E.
Qed.

End Ops.
#[global] Arguments in_trans : clear implicits.

(** ** Properties *)

(** C2: Commits are atomic under crashes.  The last open operation ends ([end_op]) with
    the blocks [bs] of the contents [c] in the transaction.  Then end_op writes the
    transaction through to the home blocks; and if the machine crashes after any number
    of the block writes that end_op performs and is booted again, initlog recovers a
    disk that, outside the log, is either exactly the disk from before the transaction
    or exactly the contents [c]: never a mixture. *)
Theorem commit_crash_atomic `{DL : BlockDriverLaws} pi n st sz s c bs :
  in_trans disksize pi st sz s c bs [] -> log_outstanding (k_log s) = 1 -> bs <> [] ->
  length (k_disk s st) = Z.to_nat BSIZE -> head_n (k_disk s st) = 0 ->
  1 ∉ bs -> 1 < st -> sb_logstart (decode_sb (k_disk s 1)) = st -> sb_nlog (decode_sb (k_disk s 1)) = sz ->
  exists s' ws, end_op (S n) s = Ret tt s' /\ k_dwrites s' = k_dwrites s ++ ws /\
    (forall b, outside st sz b -> k_disk s' b = c b) /\
    forall written lost, ws = written ++ lost ->
    forall pi' n' s2, bio_inv pi' s2 (apply_writes written (k_disk s)) ∅ [] ->
      length (lh_block (log_lh (k_log s2))) = Z.to_nat LOGSIZE ->
      exists s3, initlog (S n') 1 s2 = Ret tt s3 /\
        ((forall b, outside st sz b -> k_disk s3 b = k_disk s b) \/
         (forall b, outside st sz b -> k_disk s3 b = c b)).
Proof.
  intros Ht Hout Hne Hlen Hn H1 Hst Est Esz.
  destruct (end_op_run pi n st sz s c bs Ht Hout Hne) as (s' & E & _ & _ & Ww & Wd).
  destruct Ht as [Hb Hf Hl LO Hcm]. assert (forall b, b ∉ bs -> k_disk s b = c b) as Hsame.
  { intros b Hnb. apply (bi_disk _ _ _ _ _ Hb). by rewrite elem_of_list_to_set. }
  exists s', (commit_writes st c bs). split_and!; [exact E|exact Ww| |].
  { intros b Ho. rewrite Wd. by apply (crash_end disksize st sz bs LO c (k_disk s) Hlen Hsame). }
  intros P Q EPQ pi' n' s2 Hb2 Hl2.
  destruct (crash_anywhere disksize st sz bs LO c (k_disk s) Hlen Hn Hsame P Q EPQ) as [Hok Hrec].
  pose proof LO as [L1 L2 L3 L4 L5 L6 L7 L8].
  assert (apply_writes P (k_disk s) 1 = k_disk s 1) as E1.
  { apply apply_writes_other. intros Hin. apply (prefix_fst P Q) in Hin. rewrite <- EPQ in Hin.
    unfold commit_writes in Hin. rewrite !fmap_app, !elem_of_app, log_copies_fst, home_fst in Hin.
    simpl in Hin. rewrite !list_elem_of_singleton in Hin. lia || (destruct Hin as [|[|[|]]]; lia || done). }
  destruct (initlog_run pi' n' st sz s2 _ Hb2 Hl2) as (s3 & E3 & _ & _ & Ed & _); [lia|by rewrite E1|by rewrite E1|done|].
  exists s3. split; [exact E3|]. by rewrite Ed.
Qed.

(** C25: Recovery is idempotent under crashes: on any disk with a readable log header
    initlog installs the logged blocks in their home locations and erases the header;
    and if the machine crashes after any number of the block writes of initlog, running
    initlog again on that disk leads to the same contents outside the log. *)
Theorem recovery_idempotent `{DL : BlockDriverLaws} pi n st sz s D :
  bio_inv pi s D ∅ [] -> length (lh_block (log_lh (k_log s))) = Z.to_nat LOGSIZE ->
  1 < st -> sb_logstart (decode_sb (D 1)) = st -> sb_nlog (decode_sb (D 1)) = sz ->
  head_ok disksize st sz (D st) -> 1 ∉ head_blocks (D st) ->
  exists s' ws, initlog (S n) 1 s = Ret tt s' /\ k_dwrites s' = k_dwrites s ++ ws /\
    (forall j b, head_blocks (D st) !! j = Some b -> k_disk s' b = D (st + Z.of_nat j + 1)) /\
    (forall b, b <> st -> b ∉ head_blocks (D st) -> k_disk s' b = D b) /\
    head_n (k_disk s' st) = 0 /\
    forall written lost, ws = written ++ lost ->
    forall pi' n' s2, bio_inv pi' s2 (apply_writes written D) ∅ [] ->
      length (lh_block (log_lh (k_log s2))) = Z.to_nat LOGSIZE ->
      exists s3, initlog (S n') 1 s2 = Ret tt s3 /\ forall b, outside st sz b -> k_disk s3 b = k_disk s' b.
Proof.
  intros Hb Hlen Hst Est Esz Hok H1. pose proof Hok as [Hl Hn LO]. pose proof LO as [L1 L2 L3 L4 L5 L6 L7 L8].
  destruct (initlog_run pi n st sz s D Hb Hlen) as (s' & E & _ & Ww & Wd & _); [lia|done|done|done|].
  assert (st ∉ head_blocks (D st)) as Hsn by (intros Hin; destruct (L8 _ Hin); lia).
  exists s', (recovery_writes st D). split_and!; [exact E|exact Ww| | | |].
  - intros j b Hj. rewrite Wd. apply recovered_home; [done| |done]. intros ->. apply Hsn. by eapply list_elem_of_lookup_2.
  - intros b Hbs Hnb. rewrite Wd. by apply recovered_other.
  - rewrite Wd. unfold recovered, recovery_writes. rewrite apply_writes_app. simpl. rewrite blk_set_eq.
    rewrite head_n_bytes; [done|done|]. unfold LOGSIZE, MAXOPBLOCKS. simpl. lia.
  - intros P Q EPQ pi' n' s2 Hb2 Hl2. destruct (recovery_again disksize st sz D P Q Hok EPQ) as [Hok' Hrec].
    assert (apply_writes P D 1 = D 1) as E1.
    { apply apply_writes_other. intros Hin. apply (prefix_fst P Q) in Hin. rewrite <- EPQ in Hin.
      unfold recovery_writes in Hin. rewrite fmap_app, elem_of_app, installs_fst in Hin. simpl in Hin.
      rewrite list_elem_of_singleton in Hin. destruct Hin; [done|lia]. }
    destruct (initlog_run pi' n' st sz s2 _ Hb2 Hl2) as (s3 & E3 & _ & _ & Ed & _); [lia|by rewrite E1|by rewrite E1|done|].
    exists s3. split; [exact E3|]. intros b Ho. rewrite Ed, Wd. by apply Hrec.
Qed.

(** C31: log_write: the data of a locked buffer becomes part of the open transaction.
    The block is appended to the header, or absorbed when the transaction already has
    it, and pinned in the cache, and nothing reaches the disk; a transaction that has
    filled the log ([sz - 1] blocks, one of the [sz] being the header), or a call
    outside of an operation, panics. *)
Theorem log_write_absorbs `{DL : BlockDriverLaws} pi st sz s c bs held b :
  in_trans disksize pi st sz s c bs held -> b ∈ held -> sz <= LOGSIZE ->
  let bno := b_blockno (buf_at b s) in
  0 <= bno < disksize -> outside st sz bno ->
  (1 <= log_outstanding (k_log s) -> Z.of_nat (length bs) < sz - 1 ->
   exists s', log_write b s = Ret tt s' /\
     in_trans disksize pi st sz s' (blk_set bno (b_data (buf_at b s)) c) (if decide (bno ∈ bs) then bs else bs ++ [bno]) held /\
     k_disk s' = k_disk s /\ k_dwrites s' = k_dwrites s) /\
  (sz - 1 <= Z.of_nat (length bs) -> log_write b s = Panic "too big a transaction" s) /\
  (log_outstanding (k_log s) < 1 -> Z.of_nat (length bs) < sz - 1 ->
   log_write b s = Panic "log_write outside of trans" s).
Proof.
  intros Ht Hh Hsz bno Hb Ho. pose proof (tr_log _ _ _ _ _ _ _ Ht) as Hl. split_and!.
  - intros Hout Hn. destruct (log_write_run pi st sz s c bs held b Ht Hh Hout Hb Ho Hn Hsz)
      as (s' & E & Ht' & [] & _).
    by exists s'.
  - intros Hn. unfold log_write. rewrite bind_gets, (li_n _ _ _ _ Hl), (li_size _ _ _ _ Hl).
    destruct (Z.geb_spec (Z.of_nat (length bs)) (sz - 1)); [|lia]. by rewrite orb_true_r.
  - intros Hout Hn. unfold log_write. rewrite bind_gets, (li_n _ _ _ _ Hl), (li_size _ _ _ _ Hl).
    destruct (Z.geb_spec (Z.of_nat (length bs)) (sz - 1)); [lia|].
    destruct (Z.geb_spec (Z.of_nat (length bs)) LOGSIZE); [lia|]. cbn [orb]. by rewrite (proj2 (Z.ltb_lt _ _) Hout).
Qed.

(** C32: begin_op reserves log space: an operation is admitted at once when no commit is
    running and the blocks already logged plus [MAXOPBLOCKS] for every open operation,
    this one included, fit into [LOGSIZE]; otherwise the thread sleeps, and in whatever
    states it is woken, when begin_op returns both conditions hold for the counts that
    include the new operation, and the lock is free. *)
Theorem begin_op_reserves pi n s :
  (pi < NPROC)%nat -> cpu_proc (k_cpu s) = Some pi -> cpu_ncli (k_cpu s) = 0 ->
  lock_free LKlog s -> lock_free LKptable s -> length (k_ptable s) = NPROC ->
  let sane s := 0 <= lh_n (log_lh (k_log s)) /\ 0 <= log_outstanding (k_log s) in
  sane s ->
  let reserved s' := log_committing (k_log s') = 0 /\ 1 <= log_outstanding (k_log s') /\
    lh_n (log_lh (k_log s')) + log_outstanding (k_log s') * MAXOPBLOCKS <= LOGSIZE /\ lock_free LKlog s' in
  (admits (k_log s) -> exists s', begin_op (S n) s = Ret tt s' /\ reserved s' /\
     log_outstanding (k_log s') = log_outstanding (k_log s) + 1 /\ log_lh (k_log s') = log_lh (k_log s)) /\
  runs n (fun _ s' => parked pi LKlog s' /\ sane s') (begin_op (S n) s) (fun _ s' => reserved s').
Proof.
  intros Hpi Hp Hn Hf Hfp Hl sane Hs reserved.
  assert (forall s1, sane s1 -> admits (k_log s1) -> i32 (log_outstanding (k_log s1) + 1) = log_outstanding (k_log s1) + 1 /\
    0 <= log_outstanding (k_log s1)) as Hout.
  { intros s1 [S1 S2] [A1 A2]. unfold LOGSIZE, MAXOPBLOCKS in A2. split; [apply i32_small|]; lia. }
  split.
  - intros Ha. destruct (Hout s Hs Ha) as [Eo Ho]. eexists. split; [apply begin_op_now; [done|split; lia|done]|].
    destruct Ha as [A1 A2]. unfold reserved. simpl. rewrite Eo. split_and!; done || lia.
  - unfold begin_op. fold begin_round. rewrite (bind_Ret _ _ _ _ _ (acquire_run LKlog s Hf)).
    apply (runs_rely _ (fun _ s' => parked pi LKlog s' /\ forall b, sane (awakened pi LKlog b s'))).
    { intros _ s' [Hpk [S1 S2]]. split; [done|]. intros b. unfold sane. by rewrite log_awakened. }
    apply (wait_loop_runs pi LKlog ChLog begin_round sane); [done|done| | |done].
    + intros s1 [Hh Hw1 Hw2] Hs1. destruct (begin_round_run s1) as [[Ha ->]|[_ ->]]; [right|by left].
      destruct (Hout s1 Hs1 Ha) as [Eo Ho]. rewrite bind_modify. exists tt, (leave LKlog (admit_one s1)).
      destruct Hh as [h1 h2 h3 h4]. mret (release_run LKlog (admit_one s1) h2 h4 ltac:(simpl; lia)). split; [done|].
      destruct Ha as [A1 A2]. unfold reserved. simpl. rewrite Eo. split_and!; [done|lia|lia|apply leave_free].
    + split; [|by apply enter_free_ne|done]. split; [done|apply enter_mine|simpl; lia|done].
Qed.

(** *** Witnesses *)

(** A machine with an empty file system: the superblock says that the log is in the 30
    blocks from block 2 on. *)
Definition log_disk : disk := fun b => if b =? 1 then put32 12 30 (put32 16 2 (replicate 512 0)) else replicate 512 0.
Definition disk_machine : kstate := set_k_disk log_disk two_procs.

Lemma log_disk_head : head_ok 1000 2 30 (log_disk 2).
Proof.
  split; [reflexivity|vm_compute; by intros|]. change (head_blocks (log_disk 2)) with (@nil Z).
  split; simpl; try lia; [unfold LOGSIZE, MAXOPBLOCKS; lia|unfold NBUF; lia|constructor|by intros b ?%not_elem_of_nil].
Qed.

Lemma log_disk_sb : sb_logstart (decode_sb (log_disk 1)) = 2 /\ sb_nlog (decode_sb (log_disk 1)) = 30.
Proof. split; vm_compute; reflexivity. Qed.

Lemma booted_disk D : exists s0, binit (set_k_disk D two_procs) = Ret tt s0 /\ bio_inv 1 s0 D ∅ [] /\
  k_log s0 = k_log two_procs /\ lock_free LKlog s0 /\ lock_free LKptable s0.
Proof.
  assert (forall lk, bool_decide (is_Some (boot_locks !! lk)) = true -> lock_free lk (set_k_disk D two_procs)) as Hfr.
  { intros lk. apply booted_free. reflexivity. }
  destruct (binit_run 1 (set_k_disk D two_procs)) as (s & E & Hb & _ & _ & El & Hl); try done.
  - apply Hfr. vm_compute. reflexivity.
  - intros i Hi. unfold buf_at. change (bc_buf _) with (replicate NBUF zero_buf). by rewrite lookup_replicate_2.
  - exists s. split_and!; [done|done|done| |]; apply Hl, Hfr; vm_compute; reflexivity.
Qed.

Lemma disk_machine_boot : exists s0, binit disk_machine = Ret tt s0 /\ bio_inv 1 s0 log_disk ∅ [] /\
  k_log s0 = k_log two_procs /\ lock_free LKlog s0 /\ lock_free LKptable s0.
Proof. unfold disk_machine. exact (booted_disk log_disk). Qed.

Notation memd := (memide_driver 1000).

Lemma recovery_idempotent_witness : exists s0 s1, binit disk_machine = Ret tt s0 /\
  initlog (DR := memd) 1 1 s0 = Ret tt s1 /\ head_n (k_disk s1 2) = 0.
Proof.
  destruct disk_machine_boot as (s0 & E0 & Hb & El & _). destruct log_disk_sb as [E1 E2].
  destruct (recovery_idempotent (H := memd) (disksize := 1000) 1 0 2 30 s0 log_disk Hb) as (s1 & ws & E & _ & _ & _ & Hn & _).
  - by rewrite El.
  - lia.
  - exact E1.
  - exact E2.
  - exact log_disk_head.
  - change (head_blocks (log_disk 2)) with (@nil Z). apply not_elem_of_nil.
  - exists s0, s1. split_and!; [exact E0|exact E|exact Hn].
Defined.

(** The same machine with one open operation. *)
Definition open_op (s : kstate) : kstate := set_k_log (Log 2 30 1 0 1 (Logheader 0 (replicate 30 0))) s.

Lemma open_disk_trans D : exists s0, binit (set_k_disk D two_procs) = Ret tt s0 /\
  in_trans 1000 1 2 30 (open_op s0) D [] [] /\ lock_free LKptable s0.
Proof.
  destruct (booted_disk D) as (s0 & E0 & Hb & _ & Hl & Hp). exists s0. split_and!; [done| |done].
  split; [by apply bio_inv_set_log|done|done| |done]. apply log_disk_head.
Qed.

Lemma open_op_trans : exists s0, binit disk_machine = Ret tt s0 /\
  in_trans 1000 1 2 30 (open_op s0) log_disk [] [] /\ lock_free LKptable s0.
Proof. unfold disk_machine. exact (open_disk_trans log_disk). Qed.

(** Block 50 is locked, with the data [x]. *)
Definition edit (x : list Z) : kprog nat :=
  b <- bread (DR := memd) 1 1 50;; modify (upd_buf b (set_b_data x));;; ret b.

Lemma edit_run x : exists s0 b s1, binit disk_machine = Ret tt s0 /\ edit x (open_op s0) = Ret b s1 /\
  in_trans 1000 1 2 30 s1 log_disk [] [b] /\ b_blockno (buf_at b s1) = 50 /\ b_data (buf_at b s1) = x /\
  log_outstanding (k_log s1) = 1 /\ k_disk s1 = log_disk.
Proof.
  destruct open_op_trans as (s0 & E0 & [Hb Hf Hl LO Hc] & Hp).
  destruct (bread_run (H := memd) (disksize := 1000) 1 0 _ _ _ _ 50 Hb) as (b & s1 & E1 & L1);
    [lia|right; apply Nat.ltb_lt; vm_compute; reflexivity|by intros j ?%not_elem_of_nil|].
  pose proof (ld_inv _ _ _ _ _ _ _ _ L1) as Hb1. pose proof (ld_frame _ _ _ _ _ _ _ _ L1) as F.
  destruct (bi_held _ _ _ _ _ Hb1 b ltac:(by left)) as [Hlt _].
  assert (buf_at b (upd_buf b (set_b_data x) s1) = set_b_data x (buf_at b s1)) as Eb.
  { apply buf_at_upd. by rewrite (bi_len _ _ _ _ _ Hb1). }
  exists s0, b, (upd_buf b (set_b_data x) s1). unfold edit. mret E1. split_and!; [done|done| | | | |].
  - split; [|unfold lock_free; simpl; by rewrite (bf_locks _ _ F)|simpl; by rewrite (bf_log _ _ F)|done|
      simpl; by rewrite (bf_log _ _ F)]. apply bio_inv_data; [done|by left].
  - rewrite Eb. apply L1.
  - by rewrite Eb.
  - simpl. by rewrite (bf_log _ _ F).
  - simpl. rewrite (ld_disk _ _ _ _ _ _ _ _ L1). apply functional_extensionality. intros b'.
    by rewrite (bi_disk _ _ _ _ _ Hb b') by set_solver.
Qed.

Lemma log_write_absorbs_witness : exists s0 b s1 s2, binit disk_machine = Ret tt s0 /\
  edit (replicate 512 7) (open_op s0) = Ret b s1 /\ log_write b s1 = Ret tt s2 /\ k_disk s2 = log_disk.
Proof.
  destruct (edit_run (replicate 512 7)) as (s0 & b & s1 & E0 & E1 & Ht & Eb & Ed & Eo & Ek).
  destruct (log_write_absorbs (H := memd) (disksize := 1000) 1 2 30 s1 log_disk [] [b] b Ht) as [Hw _].
  - by left.
  - unfold LOGSIZE, MAXOPBLOCKS. lia.
  - rewrite Eb. lia.
  - rewrite Eb. unfold outside. lia.
  - destruct Hw as (s2 & E2 & _ & Ek2 & _); [rewrite Eo; lia|simpl; lia|].
    exists s0, b, s1, s2. split_and!; [exact E0|exact E1|exact E2|by rewrite Ek2].
Defined.

(** The edit logged and the buffer released. *)
Lemma logged_edit x : exists s0 b s1 s2, binit disk_machine = Ret tt s0 /\ edit x (open_op s0) = Ret b s1 /\
  (log_write b;;; brelse b) s1 = Ret tt s2 /\ in_trans 1000 1 2 30 s2 (blk_set 50 x log_disk) [50] [] /\
  log_outstanding (k_log s2) = 1 /\ k_disk s2 = log_disk.
Proof.
  destruct (edit_run x) as (s0 & b & s1 & E0 & E1 & Ht & Eb & Ed & Eo & Ek).
  destruct (log_write_run (H := memd) (disksize := 1000) 1 2 30 s1 log_disk [] [b] b Ht) as (s2 & E2 & Ht2 & [_ _ _ Eo2 Ek2 _] & Hs2);
    rewrite ?Eb, ?Eo; try done; [by left|unfold outside; lia|].
  rewrite Eb, Ed in Ht2. destruct Ht2 as [Hb2 Hf2 Hl2 LO2 Hc2].
  destruct (Hs2 b) as [N2 D2].
  destruct (brelse_run 1 s2 _ _ [b] b Hb2) as (s3 & E3 & [R1 R2 R3 R4 R5]); [by left| |].
  { rewrite N2, D2, Eb, Ed, blk_set_eq. done. }
  exists s0, b, s1, s3. mret E2. rewrite filter_cons_False in R1 by naive_solver. split_and!; [done|done|done| | |].
  - split; [done|unfold lock_free; by rewrite (bf_locks _ _ R2)|by rewrite (bf_log _ _ R2)|done|by rewrite (bf_log _ _ R2)].
  - rewrite (bf_log _ _ R2), Eo2. done.
  - by rewrite R3, Ek2.
Qed.

Lemma commit_crash_atomic_witness : exists s0 b s1 s2 s3, binit disk_machine = Ret tt s0 /\
  edit (replicate 512 7) (open_op s0) = Ret b s1 /\ (log_write b;;; brelse b) s1 = Ret tt s2 /\
  end_op (DR := memd) 1 s2 = Ret tt s3 /\ k_disk s3 50 = replicate 512 7.
Proof.
  destruct (logged_edit (replicate 512 7)) as (s0 & b & s1 & s2 & E0 & E1 & E2 & Ht & Eo & Ek).
  destruct (commit_crash_atomic (H := memd) (disksize := 1000) 1 0 2 30 s2 _ [50] Ht Eo) as (s3 & ws & E3 & _ & Hd & _).
  - done.
  - by rewrite Ek.
  - rewrite Ek. vm_compute. reflexivity.
  - by intros ?%list_elem_of_singleton.
  - lia.
  - rewrite Ek. apply log_disk_sb.
  - rewrite Ek. apply log_disk_sb.
  - exists s0, b, s1, s2, s3. split_and!; [exact E0|exact E1|exact E2|exact E3|]. rewrite Hd; [apply blk_set_eq|].
    unfold outside. lia.
Defined.

Lemma begin_op_reserves_witness : exists s0 s1, binit disk_machine = Ret tt s0 /\
  begin_op 1 (open_op s0) = Ret tt s1 /\ log_outstanding (k_log s1) = 2.
Proof.
  destruct open_op_trans as (s0 & E0 & [Hb Hf Hl LO Hc] & Hp).
  destruct (begin_op_reserves 1 0 (open_op s0)) as [H _].
  - unfold NPROC. lia.
  - apply Hb.
  - apply Hb.
  - exact Hf.
  - exact Hp.
  - apply Hb.
  - simpl. lia.
  - destruct H as (s1 & E1 & _ & Eo & _); [split; [done|vm_compute; by intros]|].
    exists s0, s1. split_and!; [exact E0|exact E1|by rewrite Eo].
Defined.
