(* ===== verification/Fs.v ===== *)
(** * Fs: fs.c, blocks, inodes, directories and path names

    An in-memory inode is named by its index in [icache.inode].  Path names and
    directory entry names are lists of bytes.  A destination of readi is either an
    address of the user's memory or a variable of the kernel that takes the bytes the
    call returns; a source of writei is a user address or the bytes themselves. *)

From S2P Require Import Prelude Machine Spinlock Cstring Ktrace Layout Kalloc Vm Sched Sleeplock Bio Log.
#[local] Open Scope prog_scope.

Definition ROOTINO : Z := 1.
Definition NDIRECT : nat := 12.
Definition NINDIRECT : nat := 128.
Definition MAXFILE : Z := 140.
Definition IPB : Z := 8.
Definition BPB : Z := 4096.
Definition DIRSIZ : nat := 14.
Definition T_DIR : Z := 1.
Definition T_FILE : Z := 2.
Definition T_DEV : Z := 3.
Definition I_VALID : Z := 2.

Definition IBLOCK (i : Z) (sb : superblock) : Z := u32 (i / IPB + sb_inodestart sb).
Definition BBLOCK (b : Z) (sb : superblock) : Z := u32 (b / BPB + sb_bmapstart sb).

(** ** Struct dinode and struct dirent inside a block *)

Definition dinode_off (inum : Z) : nat := Z.to_nat (64 * (inum mod IPB)).

Definition get_addrs (off : nat) (l : list Z) : list Z := map (fun i => get32 (off + 4 * i) l) (seq 0 (S NDIRECT)).
Fixpoint put_addrs (off : nat) (addrs : list Z) (l : list Z) : list Z :=
  match addrs with [] => l | a :: addrs => put_addrs (off + 4) addrs (put32 off a l) end.

(** ilock copies the struct dinode at [off] to the inode, iupdate the other way. *)
Definition load_dinode (off : nat) (l : list Z) (ip : inode) : inode :=
  set_i_addrs (get_addrs (off + 12) l) (set_i_size (get32 (off + 8) l) (set_i_nlink (i16 (get16 (off + 6) l))
    (set_i_minor (i16 (get16 (off + 4) l)) (set_i_major (i16 (get16 (off + 2) l))
      (set_i_type (i16 (get16 off l)) ip))))).
Definition store_dinode (off : nat) (ip : inode) (l : list Z) : list Z :=
  put_addrs (off + 12) (i_addrs ip) (put32 (off + 8) (i_size ip) (put16 (off + 6) (u16 (i_nlink ip))
    (put16 (off + 4) (u16 (i_minor ip)) (put16 (off + 2) (u16 (i_major ip)) (put16 off (u16 (i_type ip)) l))))).

(** A struct dirent is 16 bytes: the inode number and the name. *)
Definition de_inum (de : list Z) : Z := get16 0 de.
Definition de_name (de : list Z) : list Z := drop 2 de.

(** ** Names *)

(** strncmp and strncpy on names; behind the end of a list there is a NUL. *)
Fixpoint bytes_cmp (n : nat) (s t : list Z) : Z :=
  match n with
  | O => 0
  | S n => if negb (hd 0 s =? 0) && (hd 0 s =? hd 0 t) then bytes_cmp n (tl s) (tl t) else hd 0 s - hd 0 t
  end.
Fixpoint bytes_cpy (n : nat) (t : list Z) : list Z :=
  match n with
  | O => []
  | S n => if hd 0 t =? 0 then replicate (S n) 0 else hd 0 t :: bytes_cpy n (tl t)
  end.

Definition namecmp (s t : list Z) : Z := bytes_cmp DIRSIZ s t.

Definition slash : Z := 47.

Fixpoint skip_slashes (path : list Z) : list Z :=
  match path with
  | c :: rest => if c =? slash then skip_slashes rest else path
  | [] => []
  end.
(** The characters up to the next slash, and what follows them. *)
Fixpoint take_elem (path : list Z) : list Z * list Z :=
  match path with
  | c :: rest => if c =? slash then ([], path) else let '(e, r) := take_elem rest in (c :: e, r)
  | [] => ([], [])
  end.
(** The rest of the path and the new content of the buffer [name]. *)
Definition skipelem (path name : list Z) : option (list Z * list Z) :=
  let path := skip_slashes path in
  match path with
  | [] => None
  | _ =>
    let '(s, path) := take_elem path in
    let name := if (DIRSIZ <=? length s)%nat then take DIRSIZ s else splice 0 (s ++ [0]) name in
    Some (skip_slashes path, name)
  end.

(** ** Copies between kernel and user *)

Fixpoint for_map {X Y} (l : list X) (f : X -> kprog Y) : kprog (list Y) :=
  match l with
  | [] => ret []
  | x :: l => y <- f x;; ys <- for_map l f;; ret (y :: ys)
  end.

Definition move_to (dst : option Z) (tot : Z) (bs : list Z) : kprog unit :=
  match dst with
  | Some va => for_each (imap (fun j b => (u64 (va + tot + Z.of_nat j), b)) bs) (fun p => ustore (fst p) (snd p))
  | None => ret tt
  end.
Definition move_from (src : Z + list Z) (tot m : Z) : kprog (list Z) :=
  match src with
  | inl va => for_map (seq 0 (Z.to_nat m)) (fun j => uload (u64 (va + tot + Z.of_nat j)))
  | inr bs => ret (take (Z.to_nat m) (drop (Z.to_nat tot) bs))
  end.

(** The table devsw: what the read and write functions of a device do. *)
Class DevSw := {
  dev_read : Z -> option (nat -> Z -> option Z -> Z -> kprog (Z * list Z));
  dev_write : Z -> option (nat -> Z -> Z + list Z -> Z -> kprog Z)
}.

Section Fs.
Context `{DR : BlockDriver} `{DV : DevSw} (fuel : nat).

Definition upd_data (b : nat) (f : list Z -> list Z) : kprog unit :=
  modify (upd_buf b (fun x => set_b_data (f (b_data x)) x)).

(** ** Blocks *)

Definition bzero (dev bno : Z) : kprog unit :=
  bp <- bread fuel dev (u32 bno);;
  upd_data bp (fun _ => replicate (Z.to_nat BSIZE) 0);;;
  log_write bp;;;
  brelse bp.

Definition bit_of (bi : Z) (data : list Z) : bool := negb (Z.land (nth (Z.to_nat (bi / 8)) data 0) (Z.shiftl 1 (bi mod 8)) =? 0).
Definition set_bit (bi : Z) (data : list Z) : list Z :=
  alter (fun x => Z.lor x (Z.shiftl 1 (bi mod 8))) (Z.to_nat (bi / 8)) data.
Definition clear_bit (bi : Z) (data : list Z) : list Z :=
  alter (fun x => u8 (Z.land x (Z.lnot (Z.shiftl 1 (bi mod 8))))) (Z.to_nat (bi / 8)) data.

(** The inner loop of balloc: the first of the [n] bits from [bi] on that is clear. *)
Fixpoint find_clear (n : nat) (bi : Z) (data : list Z) : option Z :=
  match n with
  | O => None
  | S n => if bit_of bi data then find_clear n (bi + 1) data else Some bi
  end.

Definition balloc_group (dev b : Z) : kprog (option Z) :=
  sb <- gets k_sb;;
  bp <- bread fuel dev (BBLOCK b sb);;
  data <- gets (fun s => b_data (buf_at bp s));;
  match find_clear (Z.to_nat (Z.min BPB (sb_size sb - b))) 0 data with
  | Some bi =>
    upd_data bp (set_bit bi);;;
    log_write bp;;;
    brelse bp;;;
    bzero dev (b + bi);;;
    ret (Some (u32 (b + bi)))
  | None => brelse bp;;; ret None
  end.
Definition balloc (dev : Z) : kprog Z :=
  sb <- gets k_sb;;
  r <- for_break (seq 0 (Z.to_nat ((sb_size sb + BPB - 1) / BPB))) (fun k => balloc_group dev (Z.of_nat k * BPB));;
  match r with Some b => ret b | None => panic "balloc: out of blocks" end.

Definition bfree (dev b : Z) : kprog unit :=
  sb <- readsb fuel dev;;
  modify (set_k_sb sb);;;
  bp <- bread fuel dev (BBLOCK b sb);;
  let bi := b mod BPB in
  data <- gets (fun s => b_data (buf_at bp s));;
  if negb (bit_of bi data) then panic "freeing free block" else
  upd_data bp (clear_bit bi);;;
  log_write bp;;;
  brelse bp.

(** ** Inodes *)

Definition iinit (dev : Z) : kprog unit :=
  initlock LKicache "icache";;;
  for_each (seq 0 NINODE) (fun i => initsleeplock (SLinode i) "inode");;;
  sb <- readsb fuel dev;;
  modify (set_k_sb sb).

(** One round of iget's loop: the entry with the inode, or the first empty one. *)
Fixpoint iget_scan (l : list inode) (i : nat) (empty : option nat) (dev inum : Z) : nat + option nat :=
  match l with
  | [] => inr empty
  | ip :: l =>
    if (i_ref ip >? 0) && (i_dev ip =? dev) && (i_inum ip =? inum) then inl i
    else iget_scan l (S i) (match empty with None => if i_ref ip =? 0 then Some i else None | _ => empty end) dev inum
  end.
Definition iget (dev inum : Z) : kprog nat :=
  acquire LKicache;;;
  l <- gets k_icache;;
  match iget_scan l 0 None dev inum with
  | inl ip =>
    modify (upd_inode ip (fun x => set_i_ref (i32 (i_ref x + 1)) x));;;
    release LKicache;;;
    ret ip
  | inr None => panic "iget: no inodes"
  | inr (Some ip) =>
    modify (upd_inode ip (set_i_dev dev));;;
    modify (upd_inode ip (set_i_inum inum));;;
    modify (upd_inode ip (set_i_ref 1));;;
    modify (upd_inode ip (set_i_flags 0));;;
    release LKicache;;;
    ret ip
  end.

Definition ialloc (dev type : Z) : kprog nat :=
  sb <- gets k_sb;;
  r <- for_break (seq 1 (Z.to_nat (sb_ninodes sb - 1))) (fun inum =>
    sb <- gets k_sb;;
    bp <- bread fuel dev (IBLOCK (Z.of_nat inum) sb);;
    data <- gets (fun s => b_data (buf_at bp s));;
    let off := dinode_off (Z.of_nat inum) in
    if get16 off data =? 0 then
      upd_data bp (splice off (replicate 64 0));;;
      upd_data bp (put16 off (u16 type));;;
      log_write bp;;;
      brelse bp;;;
      ip <- iget dev (Z.of_nat inum);;
      ret (Some ip)
    else brelse bp;;; ret None);;
  match r with Some ip => ret ip | None => panic "ialloc: no inodes" end.

Definition iupdate (ip : nat) : kprog unit :=
  sb <- gets k_sb;;
  x <- gets (inode_at ip);;
  bp <- bread fuel (i_dev x) (IBLOCK (i_inum x) sb);;
  modify (fun s => upd_buf bp (fun b =>
    set_b_data (store_dinode (dinode_off (i_inum (inode_at ip s))) (inode_at ip s) (b_data b)) b) s);;;
  log_write bp;;;
  brelse bp.

Definition idup (ip : nat) : kprog nat :=
  acquire LKicache;;;
  modify (upd_inode ip (fun x => set_i_ref (i32 (i_ref x + 1)) x));;;
  release LKicache;;;
  ret ip.

Definition ilock (ip : option nat) : kprog unit :=
  match ip with
  | None => panic "ilock"
  | Some ip =>
    x <- gets (inode_at ip);;
    if i_ref x <? 1 then panic "ilock" else
    acquiresleep fuel (SLinode ip);;;
    x <- gets (inode_at ip);;
    when Z.land (i_flags x) I_VALID =? 0 do
      sb <- gets k_sb;;
      bp <- bread fuel (i_dev x) (IBLOCK (i_inum x) sb);;
      modify (fun s => upd_inode ip (load_dinode (dinode_off (i_inum (inode_at ip s))) (b_data (buf_at bp s))) s);;;
      brelse bp;;;
      modify (upd_inode ip (fun x => set_i_flags (Z.lor (i_flags x) I_VALID) x));;;
      x <- gets (inode_at ip);;
      when i_type x =? 0 do panic "ilock: no type"
  end.

Definition iunlock (ip : option nat) : kprog unit :=
  match ip with
  | None => panic "iunlock"
  | Some ip =>
    h <- holdingsleep (SLinode ip);;
    if h =? 0 then panic "iunlock" else
    x <- gets (inode_at ip);;
    if i_ref x <? 1 then panic "iunlock" else
    releasesleep (SLinode ip)
  end.

Definition itrunc (ip : nat) : kprog unit :=
  for_each (seq 0 NDIRECT) (fun i =>
    x <- gets (inode_at ip);;
    let a := nth i (i_addrs x) 0 in
    when negb (a =? 0) do
      bfree (i_dev x) a;;;
      modify (upd_inode ip (fun x => set_i_addrs (<[i := 0]> (i_addrs x)) x)));;;
  x <- gets (inode_at ip);;
  (when negb (nth NDIRECT (i_addrs x) 0 =? 0) do
     bp <- bread fuel (i_dev x) (nth NDIRECT (i_addrs x) 0);;
     for_each (seq 0 NINDIRECT) (fun j =>
       a <- gets (fun s => get32 (4 * j) (b_data (buf_at bp s)));;
       when negb (a =? 0) do bfree (i_dev x) a);;;
     brelse bp;;;
     x <- gets (inode_at ip);;
     bfree (i_dev x) (nth NDIRECT (i_addrs x) 0);;;
     modify (upd_inode ip (fun x => set_i_addrs (<[NDIRECT := 0]> (i_addrs x)) x)));;;
  modify (upd_inode ip (set_i_size 0));;;
  iupdate ip.

Definition iput (ip : nat) : kprog unit :=
  acquire LKicache;;;
  x <- gets (inode_at ip);;
  (when (i_ref x =? 1) && negb (Z.land (i_flags x) I_VALID =? 0) && (i_nlink x =? 0) do
     release LKicache;;;
     itrunc ip;;;
     modify (upd_inode ip (set_i_type 0));;;
     iupdate ip;;;
     acquire LKicache;;;
     modify (upd_inode ip (set_i_flags 0)));;;
  modify (upd_inode ip (fun x => set_i_ref (i32 (i_ref x - 1)) x));;;
  release LKicache.

Definition iunlockput (ip : nat) : kprog unit :=
  iunlock (Some ip);;;
  iput ip.

(** ** Inode content *)

Definition bmap (ip : nat) (bn : Z) : kprog Z :=
  x <- gets (inode_at ip);;
  if bn <? Z.of_nat NDIRECT then
    let addr := nth (Z.to_nat bn) (i_addrs x) 0 in
    if addr =? 0 then
      addr <- balloc (i_dev x);;
      modify (upd_inode ip (fun x => set_i_addrs (<[Z.to_nat bn := addr]> (i_addrs x)) x));;;
      ret addr
    else ret addr
  else
  let bn := bn - Z.of_nat NDIRECT in
  if bn <? Z.of_nat NINDIRECT then
    let addr := nth NDIRECT (i_addrs x) 0 in
    addr <- (if addr =? 0 then
               addr <- balloc (i_dev x);;
               modify (upd_inode ip (fun x => set_i_addrs (<[NDIRECT := addr]> (i_addrs x)) x));;;
               ret addr
             else ret addr);;
    bp <- bread fuel (i_dev x) addr;;
    a <- gets (fun s => get32 (4 * Z.to_nat bn) (b_data (buf_at bp s)));;
    addr <- (if a =? 0 then
               addr <- balloc (i_dev x);;
               upd_data bp (put32 (4 * Z.to_nat bn) addr);;;
               log_write bp;;;
               ret addr
             else ret a);;
    brelse bp;;;
    ret addr
  else panic "bmap: out of range".

(** The loop of readi: every round moves at least one byte and all but the first and
    the last a whole block, so [n / BSIZE + 2] rounds are enough. *)
Fixpoint readi_loop (k : nat) (ip : nat) (dst : option Z) (off n tot : Z) (acc : list Z) : kprog (Z * list Z) :=
  if tot <? n then
    match k with
    | O => fun s => NoFuel s
    | S k =>
      x <- gets (inode_at ip);;
      addr <- bmap ip (off / BSIZE);;
      bp <- bread fuel (i_dev x) addr;;
      let m := Z.min (n - tot) (BSIZE - off mod BSIZE) in
      bs <- gets (fun s => take (Z.to_nat m) (drop (Z.to_nat (off mod BSIZE)) (b_data (buf_at bp s))));;
      move_to dst tot bs;;;
      brelse bp;;;
      readi_loop k ip dst (u32 (off + m)) n (u32 (tot + m)) (acc ++ bs)
    end
  else ret (i32 n, acc).

Definition readi (ip : nat) (dst : option Z) (off n : Z) : kprog (Z * list Z) :=
  x <- gets (inode_at ip);;
  if i_type x =? T_DEV then
    if (i_major x <? 0) || (i_major x >=? NDEV) then ret (-1, []) else
    match dev_read (i_major x) with
    | None => ret (-1, [])
    | Some read => read ip off dst (i32 n)
    end
  else
  if (off >? i_size x) || (u32 (off + n) <? off) then ret (-1, []) else
  let n := if u32 (off + n) >? i_size x then u32 (i_size x - off) else n in
  readi_loop (Z.to_nat (n / BSIZE + 2)) ip dst off n 0 [].

Fixpoint writei_loop (k : nat) (ip : nat) (src : Z + list Z) (off n tot : Z) : kprog Z :=
  if tot <? n then
    match k with
    | O => fun s => NoFuel s
    | S k =>
      x <- gets (inode_at ip);;
      addr <- bmap ip (off / BSIZE);;
      bp <- bread fuel (i_dev x) addr;;
      let m := Z.min (n - tot) (BSIZE - off mod BSIZE) in
      bs <- move_from src tot m;;
      upd_data bp (splice (Z.to_nat (off mod BSIZE)) bs);;;
      log_write bp;;;
      brelse bp;;;
      writei_loop k ip src (u32 (off + m)) n (u32 (tot + m))
    end
  else ret off.

Definition writei (ip : nat) (src : Z + list Z) (off n : Z) : kprog Z :=
  x <- gets (inode_at ip);;
  if i_type x =? T_DEV then
    if (i_major x <? 0) || (i_major x >=? NDEV) then ret (-1) else
    match dev_write (i_major x) with
    | None => ret (-1)
    | Some write => write ip off src (i32 n)
    end
  else
  if (off >? i_size x) || (u32 (off + n) <? off) then ret (-1) else
  if u32 (off + n) >? MAXFILE * BSIZE then ret (-1) else
  off <- writei_loop (Z.to_nat (n / BSIZE + 2)) ip src off n 0;;
  x <- gets (inode_at ip);;
  (when (n >? 0) && (off >? i_size x) do
     modify (upd_inode ip (set_i_size off));;;
     iupdate ip);;;
  ret (i32 n).

(** ** Directories *)

(** The number of struct dirent in a directory of [size] bytes. *)
Definition dirents (size : Z) : nat := Z.to_nat ((size + 15) / 16).

Definition dirlookup (dp : nat) (name : list Z) : kprog (option (nat * Z)) :=
  x <- gets (inode_at dp);;
  if negb (i_type x =? T_DIR) then panic "dirlookup not DIR" else
  for_break (seq 0 (dirents (i_size x))) (fun k =>
    let off := 16 * Z.of_nat k in
    r <- readi dp None off 16;;
    let '(r, de) := r in
    if negb (r =? 16) then panic "dirlookup read" else
    if de_inum de =? 0 then ret None else
    if namecmp name (de_name de) =? 0 then
      x <- gets (inode_at dp);;
      ip <- iget (i_dev x) (de_inum de);;
      ret (Some (ip, off))
    else ret None).

Definition dirlink (dp : nat) (name : list Z) (inum : Z) : kprog Z :=
  r <- dirlookup dp name;;
  match r with
  | Some (ip, _) => iput ip;;; ret (-1)
  | None =>
    x <- gets (inode_at dp);;
    r <- for_break (seq 0 (dirents (i_size x))) (fun k =>
      let off := 16 * Z.of_nat k in
      r <- readi dp None off 16;;
      let '(r, de) := r in
      if negb (r =? 16) then panic "dirlink read" else
      ret (if de_inum de =? 0 then Some off else None));;
    let off := match r with Some off => off | None => 16 * Z.of_nat (dirents (i_size x)) end in
    r <- writei dp (inr (le_bytes 2 (u16 inum) ++ bytes_cpy DIRSIZ name)) off 16;;
    if negb (r =? 16) then panic "dirlink" else ret 0
  end.

(** ** Paths *)

(** Every round consumes a path element, so one more than the length of the path is
    enough. *)
Fixpoint namex_loop (k : nat) (ip : nat) (path : list Z) (nameiparent : bool) (name : list Z)
  : kprog (option nat * list Z) :=
  match skipelem path name with
  | None =>
    if nameiparent then iput ip;;; ret (None, name) else ret (Some ip, name)
  | Some (path, name) =>
    match k with
    | O => fun s => NoFuel s
    | S k =>
      ilock (Some ip);;;
      x <- gets (inode_at ip);;
      if negb (i_type x =? T_DIR) then iunlockput ip;;; ret (None, name) else
      if nameiparent && (length path =? 0)%nat then iunlock (Some ip);;; ret (Some ip, name) else
      next <- dirlookup ip name;;
      match next with
      | None => iunlockput ip;;; ret (None, name)
      | Some (next, _) => iunlockput ip;;; namex_loop k next path nameiparent name
      end
    end
  end.

Definition namex (path : list Z) (nameiparent : bool) (name : list Z) : kprog (option nat * list Z) :=
  ip <- (if hd 0 path =? slash then iget ROOTDEV ROOTINO
         else
           i <- myproc;;
           cwd <- gets (fun s => p_cwd (proc_at i s));;
           match cwd with Some ip => idup ip | None => undef "namex: no current directory" end);;
  namex_loop (S (length path)) ip path nameiparent name.

Definition namei (path : list Z) : kprog (option nat) :=
  r <- namex path false (replicate DIRSIZ 0);;
  ret (fst r).

Definition nameiparent (path name : list Z) : kprog (option nat * list Z) := namex path true name.

End Fs.

(** ** Blocks inside a transaction *)

Section Blocks.
Context `{DL : BlockDriverLaws} (pi n : nat) (st sz : Z).
Notation in_trans := (in_trans disksize pi st sz).

(** A block that the transaction may change. *)
Definition data_block (b : Z) : Prop := 0 <= b < disksize /\ outside st sz b.

Lemma op_frame_bio s s' : bio_frame s s' -> k_disk s' = k_disk s -> k_dwrites s' = k_dwrites s -> op_frame s s'.
Proof. intros [] ? ?. split; congruence. Qed.

Lemma in_trans_bio s s' c bs held held' :
  in_trans s c bs held -> bio_frame s s' -> bio_inv pi s' c (list_to_set bs) held' -> in_trans s' c bs held'.
Proof.
  intros [_ Hf Hl LO Hc] F Hb. split; try done.
  - unfold lock_free. by rewrite (bf_locks _ _ F).
  - by rewrite (bf_log _ _ F).
  - by rewrite (bf_log _ _ F).
Qed.

Lemma bread_in_trans s c bs b :
  in_trans s c bs [] -> 0 <= b < disksize ->
  exists i s', bread (S n) 1 b s = Ret i s' /\ in_trans s' c bs [i] /\
    b_blockno (buf_at i s') = b /\ b_data (buf_at i s') = c b /\ op_frame s s'.
Proof.
  intros Ht Hb. pose proof (lo_cache _ _ _ _ (tr_layout _ _ _ _ _ _ _ Ht)) as Hc.
  destruct (bread_run pi n s c (list_to_set bs) [] b (tr_bio _ _ _ _ _ _ _ Ht) Hb) as (i & s' & E & [L1 L2 L3 L4 L5 L6 L7 _]).
  { right. rewrite Nat.add_0_r. rewrite size_list_to_set by apply (tr_layout _ _ _ _ _ _ _ Ht). lia. }
  { by intros j ?%not_elem_of_nil. }
  exists i, s'. split_and!; try done; [by eapply in_trans_bio | by apply op_frame_bio].
Qed.

Lemma brelse_in_trans s c bs i :
  in_trans s c bs [i] -> b_data (buf_at i s) = c (b_blockno (buf_at i s)) ->
  exists s', brelse i s = Ret tt s' /\ in_trans s' c bs [] /\ op_frame s s'.
Proof.
  intros Ht Hd. destruct (brelse_run pi s c (list_to_set bs) [i] i (tr_bio _ _ _ _ _ _ _ Ht)) as (s' & E & [R1 R2 R3 R4 R5]);
    [by left|done|].
  rewrite filter_cons_False in R1 by naive_solver.
  exists s'. split_and!; try done; [by eapply in_trans_bio | by apply op_frame_bio].
Qed.

(** A change of a block, logged. *)
Lemma log_data_in_trans s c bs i f :
  in_trans s c bs [i] -> 1 <= log_outstanding (k_log s) -> sz <= LOGSIZE -> Z.of_nat (length bs) < sz - 1 ->
  let b := b_blockno (buf_at i s) in data_block b -> b_data (buf_at i s) = c b ->
  exists s', (upd_data i f;;; log_write i) s = Ret tt s' /\
    in_trans s' (blk_set b (f (c b)) c) (absorb b bs) [i] /\ op_frame s s' /\
    b_blockno (buf_at i s') = b /\ b_data (buf_at i s') = f (c b).
Proof.
  intros Ht Ho Hsz Hn b [Hb Hout] Hd. unfold upd_data. rewrite bind_modify.
  set (s1 := upd_buf i _ s). pose proof (tr_bio _ _ _ _ _ _ _ Ht) as Hbio.
  destruct (bi_held _ _ _ _ _ Hbio i ltac:(by left)) as [Hi _].
  assert (s1 = upd_buf i (set_b_data (f (c b))) s) as Es1.
  { unfold s1. apply upd_buf_eq. by rewrite Hd. }
  assert (buf_at i s1 = set_b_data (f (c b)) (buf_at i s)) as Hi1.
  { rewrite Es1. apply buf_at_upd. by rewrite (bi_len _ _ _ _ _ Hbio). }
  assert (in_trans s1 c bs [i]) as Ht1.
  { destruct Ht. split; try done. rewrite Es1. apply bio_inv_data; [done|by left]. }
  destruct (log_write_run pi st sz s1 c bs [i] i Ht1) as (s2 & E2 & Ht2 & F2 & S2); rewrite ?Hi1; try done; [by left|].
  exists s2. rewrite Hi1 in Ht2. destruct (S2 i) as [S2n S2d]. rewrite Hi1 in S2n, S2d.
  split_and!; try done. by apply (op_frame_trans s s1).
Qed.

Lemma edit_block s c bs i f :
  in_trans s c bs [i] -> 1 <= log_outstanding (k_log s) -> sz <= LOGSIZE -> Z.of_nat (length bs) < sz - 1 ->
  let b := b_blockno (buf_at i s) in data_block b -> b_data (buf_at i s) = c b ->
  exists s', (upd_data i f;;; log_write i;;; brelse i) s = Ret tt s' /\
    in_trans s' (blk_set b (f (c b)) c) (absorb b bs) [] /\ op_frame s s'.
Proof.
  intros Ht Ho Hsz Hn b Hb Hd. destruct (log_data_in_trans s c bs i f Ht Ho Hsz Hn Hb Hd) as (s1 & E1 & Ht1 & F1 & B1 & D1).
  destruct (brelse_in_trans s1 _ _ i Ht1) as (s2 & E2 & Ht2 & F2); [rewrite B1, D1; by rewrite blk_set_eq|].
  exists s2. split_and!; [|done|by eapply op_frame_trans].
  assert ((upd_data i f;;; log_write i;;; brelse i) s = ((upd_data i f;;; log_write i);;; brelse i) s) as ->
    by (by rewrite bind_assoc).
  mret E1. exact E2.
Qed.


(** ** The blocks of a file *)

(** The number of block [bn] of a file, 0 when it has none. *)
Definition block_of (c : disk) (x : inode) (bn : Z) : Z :=
  if bn <? Z.of_nat NDIRECT then nth (Z.to_nat bn) (i_addrs x) 0
  else get32 (4 * Z.to_nat (bn - Z.of_nat NDIRECT)) (c (nth NDIRECT (i_addrs x) 0)).

(** The first [nb] blocks of the file are allocated, apart from each other and from the
    indirect block. *)
Record file_ok (c : disk) (x : inode) (nb : Z) : Prop := File_ok {
  fo_dev : i_dev x = 1;
  fo_max : 0 <= nb <= MAXFILE;
  fo_block : forall k, 0 <= k < nb -> block_of c x k <> 0 /\ data_block (block_of c x k) /\
    length (c (block_of c x k)) = Z.to_nat BSIZE;
  fo_inj : forall k k', 0 <= k < nb -> 0 <= k' < nb -> block_of c x k = block_of c x k' -> k = k';
  fo_ind : Z.of_nat NDIRECT < nb -> nth NDIRECT (i_addrs x) 0 <> 0 /\ 0 <= nth NDIRECT (i_addrs x) 0 < disksize /\
    forall k, 0 <= k < nb -> block_of c x k <> nth NDIRECT (i_addrs x) 0
}.

(** Byte [i] of the file. *)
Definition file_byte (c : disk) (x : inode) (i : Z) : Z :=
  nth (Z.to_nat (i mod BSIZE)) (c (block_of c x (i / BSIZE))) 0.

Lemma bmap_run s c bs ip nb bn :
  in_trans s c bs [] -> file_ok c (inode_at ip s) nb -> 0 <= bn < nb ->
  exists s', bmap (S n) ip bn s = Ret (block_of c (inode_at ip s) bn) s' /\ in_trans s' c bs [] /\ op_frame s s'.
Proof.
  intros Ht [D M B J I] Hbn. destruct (B bn Hbn) as (Hne & Hdb & _). unfold bmap. rewrite bind_gets.
  unfold block_of in *. destruct (Z.ltb_spec bn (Z.of_nat NDIRECT)) as [Hd|Hd].
  { rewrite (proj2 (Z.eqb_neq _ _) Hne). exists s. by split_and!. }
  destruct (Z.ltb_spec (bn - Z.of_nat NDIRECT) (Z.of_nat NINDIRECT)) as [_|]; [|unfold MAXFILE, NDIRECT, NINDIRECT in *; lia].
  destruct I as (I1 & I2 & I3); [lia|]. rewrite (proj2 (Z.eqb_neq _ _) I1), bind_ret, D.
  destruct (bread_in_trans s c bs _ Ht I2) as (i & s1 & E1 & Ht1 & B1 & D1 & F1). mret E1. rewrite bind_gets, D1.
  rewrite (proj2 (Z.eqb_neq _ _) Hne), bind_ret.
  destruct (brelse_in_trans s1 c bs i Ht1) as (s2 & E2 & Ht2 & F2); [by rewrite B1|].
  mret E2. exists s2. split_and!; [done|done|by eapply op_frame_trans].
Qed.

(** Writing a block of the file. *)
Definition put_block (c : disk) (x : inode) (off : Z) (l : list Z) : disk :=
  let b := block_of c x (off / BSIZE) in blk_set b (splice (Z.to_nat (off mod BSIZE)) l (c b)) c.

Lemma put_block_of c x nb off l k :
  file_ok c x nb -> 0 <= off / BSIZE < nb -> 0 <= k < nb -> block_of (put_block c x off l) x k = block_of c x k.
Proof.
  intros F Ho Hk. unfold block_of at 1. destruct (Z.ltb_spec k (Z.of_nat NDIRECT)) as [Hd|Hd].
  { unfold block_of. by rewrite (proj2 (Z.ltb_lt _ _) Hd). }
  unfold put_block. rewrite blk_set_ne; [unfold block_of; by rewrite (proj2 (Z.ltb_ge _ _) Hd)|].
  destruct (fo_ind _ _ _ F) as (_ & _ & Hi); [lia|]. intros E. by apply (Hi (off / BSIZE) Ho).
Qed.

Lemma put_block_ok c x nb off l :
  file_ok c x nb -> 0 <= off / BSIZE < nb -> (Z.to_nat (off mod BSIZE) + length l <= Z.to_nat BSIZE)%nat ->
  file_ok (put_block c x off l) x nb.
Proof.
  intros F Ho Hl. pose proof (fun k => put_block_of c x nb off l k F Ho) as E. destruct F as [D M B J I]. split; try done.
  - intros k Hk. rewrite (E k Hk). destruct (B k Hk) as (B1 & B2 & B3). split_and!; try done.
    destruct (B (off / BSIZE) Ho) as (_ & _ & Bo). unfold put_block.
    destruct (decide (block_of c x k = block_of c x (off / BSIZE))) as [Ek|Ek]; [|by rewrite blk_set_ne].
    rewrite Ek, blk_set_eq, length_splice; rewrite Bo; [done|lia].
  - intros k k' Hk Hk'. rewrite (E k Hk), (E k' Hk'). by apply J.
  - intros Hn. destruct (I Hn) as (I1 & I2 & I3). split_and!; try done; try lia.
    intros k Hk. rewrite (E k Hk). by apply I3.
Qed.

Lemma put_block_byte c x nb off l i :
  file_ok c x nb -> 0 <= off -> off / BSIZE < nb -> (Z.to_nat (off mod BSIZE) + length l <= Z.to_nat BSIZE)%nat ->
  0 <= i < nb * BSIZE ->
  file_byte (put_block c x off l) x i =
    if (off <=? i) && (i <? off + Z.of_nat (length l)) then nth (Z.to_nat (i - off)) l 0 else file_byte c x i.
Proof.
  intros F H0 Ho Hl Hi. unfold file_byte. change BSIZE with 512 in *.
  assert (0 <= i / 512 < nb) as Hk by (split; [apply Z.div_pos; lia | apply Z.div_lt_upper_bound; lia]).
  assert (0 <= off / 512) by (apply Z.div_pos; lia).
  rewrite (put_block_of c x nb off l _ F) by (change BSIZE with 512; lia).
  pose proof (Z.div_mod i 512). pose proof (Z.mod_pos_bound i 512). pose proof (Z.div_mod off 512). pose proof (Z.mod_pos_bound off 512).
  unfold put_block. change BSIZE with 512. destruct (decide (i / 512 = off / 512)) as [Ek|Ek].
  - rewrite Ek, blk_set_eq. destruct (fo_block _ _ _ F (off / 512)) as (_ & _ & Hb); [lia|].
    rewrite !nth_lookup. rewrite splice_lookup by (rewrite Hb; change BSIZE with 512; lia).
    destruct (Z.leb_spec off i), (Z.ltb_spec i (off + Z.of_nat (length l))); cbn [andb];
      repeat case_decide; try lia; do 2 f_equal; try lia; done.
  - rewrite blk_set_ne by (intros E; apply Ek; apply (fo_inj _ _ _ F); [lia|lia|congruence]).
    destruct (Z.leb_spec off i), (Z.ltb_spec i (off + Z.of_nat (length l))); cbn [andb]; try done.
    exfalso. lia.
Qed.

(** What a sequence of block writes does to the file: the bytes [l] stand from [off] on. *)
Record stored (c c' : disk) (x : inode) (nb off : Z) (l : list Z) : Prop := Stored {
  sd_ok : file_ok c' x nb;
  sd_block : forall k, 0 <= k < nb -> block_of c' x k = block_of c x k;
  sd_byte : forall i, 0 <= i < nb * BSIZE -> file_byte c' x i =
    if (off <=? i) && (i <? off + Z.of_nat (length l)) then nth (Z.to_nat (i - off)) l 0 else file_byte c x i;
  sd_other : forall b, (forall k, 0 <= k < nb -> b <> block_of c x k) -> c' b = c b
}.

Lemma stored_nil c x nb off : file_ok c x nb -> stored c c x nb off [].
Proof.
  intros F. split; try done. intros i Hi. change (Z.of_nat (length [])) with 0.
  destruct (Z.leb_spec off i), (Z.ltb_spec i (off + 0)); cbn [andb]; try done; lia.
Qed.

Lemma stored_cons c c' x nb off l1 l2 :
  file_ok c x nb -> 0 <= off -> off / BSIZE < nb -> (Z.to_nat (off mod BSIZE) + length l1 <= Z.to_nat BSIZE)%nat ->
  stored (put_block c x off l1) c' x nb (off + Z.of_nat (length l1)) l2 -> stored c c' x nb off (l1 ++ l2).
Proof.
  intros F H0 Ho Hl [S1 S2 S3 S4]. assert (0 <= off / BSIZE) by (apply Z.div_pos; change BSIZE with 512; lia).
  assert (forall k, 0 <= k < nb -> block_of (put_block c x off l1) x k = block_of c x k) as E
    by (intros k Hk; by apply (put_block_of c x nb)).
  split; [done|intros k Hk; by rewrite S2, E| |].
  - intros i Hi. rewrite (S3 i Hi), (put_block_byte c x nb off l1 i F H0 Ho Hl Hi), length_app.
    destruct (Z.leb_spec off i), (Z.ltb_spec i (off + Z.of_nat (length l1))),
      (Z.leb_spec (off + Z.of_nat (length l1)) i), (Z.ltb_spec i (off + Z.of_nat (length l1) + Z.of_nat (length l2))),
      (Z.ltb_spec i (off + Z.of_nat (length l1 + length l2))); cbn [andb]; try lia; try done.
    + symmetry. apply app_nth1. lia.
    + rewrite app_nth2 by lia. f_equal. lia.
  - intros b Hb. rewrite S4 by (intros k Hk; rewrite E by done; by apply Hb).
    unfold put_block. apply blk_set_ne. apply Hb. lia.
Qed.

(** One round of the loop of writei. *)
Lemma write_block_run s c bs ip nb off l :
  in_trans s c bs [] -> 1 <= log_outstanding (k_log s) -> sz <= LOGSIZE -> Z.of_nat (length bs) < sz - 1 ->
  file_ok c (inode_at ip s) nb -> 0 <= off -> off / BSIZE < nb ->
  exists addr i s1 s2, bmap (S n) ip (off / BSIZE) s = Ret addr s1 /\ bread (S n) 1 addr s1 = Ret i s2 /\
    op_frame s s2 /\
    exists s', (upd_data i (splice (Z.to_nat (off mod BSIZE)) l);;; log_write i;;; brelse i) s2 = Ret tt s' /\
      in_trans s' (put_block c (inode_at ip s) off l) (absorb addr bs) [] /\ op_frame s s'.
Proof.
  intros Ht Ho Hsz Hn F H0 Hof. assert (0 <= off / BSIZE) by (apply Z.div_pos; change BSIZE with 512; lia).
  destruct (bmap_run s c bs ip nb (off / BSIZE) Ht F) as (s1 & E1 & Ht1 & F1); [lia|].
  destruct (fo_block _ _ _ F (off / BSIZE)) as (B1 & B2 & B3); [lia|].
  destruct (bread_in_trans s1 c bs _ Ht1 (proj1 B2)) as (i & s2 & E2 & Ht2 & B4 & D2 & F2).
  exists (block_of c (inode_at ip s) (off / BSIZE)), i, s1, s2. assert (op_frame s s2) as F12 by (by eapply op_frame_trans).
  split_and!; try done.
  destruct (edit_block s2 c bs i (splice (Z.to_nat (off mod BSIZE)) l) Ht2) as (s3 & E3 & Ht3 & F3);
    rewrite ?B4, ?D2, ?(of_outstanding _ _ F12); try done.
  rewrite B4 in Ht3. exists s3. split_and!; try done. by eapply op_frame_trans.
Qed.

Lemma inode_at_frame s s' ip : op_frame s s' -> inode_at ip s' = inode_at ip s.
Proof. intros F. unfold inode_at. by rewrite (of_icache _ _ F). Qed.

Lemma length_absorb b bs : (length (absorb b bs) <= S (length bs))%nat.
Proof. unfold absorb. case_decide; [lia|]. rewrite length_app. simpl. lia. Qed.

(** A round that does not end the loop stops at the end of a block. *)
Lemma next_block off rem :
  let m := Z.min rem (512 - off mod 512) in m < rem -> (off + m) mod 512 = 0.
Proof.
  intros m Hm. replace (off + m) with ((off / 512 + 1) * 512); [by apply Z.mod_mul|].
  unfold m in *. pose proof (Z.div_mod off 512). lia.
Qed.

Lemma writei_loop_end r k ip bytes off s c bs nb :
  in_trans s c bs [] -> file_ok c (inode_at ip s) nb -> let nn := Z.of_nat (length bytes) in
  exists s' c' bs', writei_loop (S n) k ip (inr bytes) off nn nn s = Ret (off + (nn - nn)) s' /\
    in_trans s' c' bs' [] /\ op_frame s s' /\ (length bs' <= length bs + r)%nat /\
    stored c c' (inode_at ip s) nb off (drop (Z.to_nat nn) bytes).
Proof.
  intros Ht F nn. exists s, c, bs. destruct k as [|k]; cbn [writei_loop];
    rewrite Z.ltb_irrefl, Z.sub_diag, Z.add_0_r; (split_and!; [done|done|done|lia|]);
    rewrite drop_ge by lia; by apply stored_nil.
Qed.

Lemma writei_loop_run r k ip bytes off nn tot s c bs nb :
  in_trans s c bs [] -> 1 <= log_outstanding (k_log s) -> sz <= LOGSIZE -> file_ok c (inode_at ip s) nb ->
  0 <= off -> 0 <= tot <= nn -> nn = Z.of_nat (length bytes) -> nn < 4294967296 -> off + (nn - tot) <= nb * BSIZE ->
  (tot < nn -> off mod BSIZE + (nn - tot) <= BSIZE * Z.of_nat r) -> (r <= k)%nat -> Z.of_nat (length bs) + Z.of_nat r <= sz - 1 ->
  exists s' c' bs', writei_loop (S n) k ip (inr bytes) off nn tot s = Ret (off + (nn - tot)) s' /\
    in_trans s' c' bs' [] /\ op_frame s s' /\ (length bs' <= length bs + r)%nat /\
    stored c c' (inode_at ip s) nb off (drop (Z.to_nat tot) bytes).
Proof.
  change BSIZE with 512. revert k off tot s c bs.
  induction r as [|r IH]; intros k off tot s c bs Ht Ho Hsz F H0 Htot Hnn Hnb Hend Hr Hk Hlog;
    pose proof (Z.mod_pos_bound off 512 ltac:(lia)) as Hmod.
  { assert (tot = nn) as -> by lia. subst nn. by eapply writei_loop_end. }
  destruct (Z.ltb_spec tot nn) as [Hlt|Hge].
  2: { assert (tot = nn) as -> by lia. subst nn. by eapply writei_loop_end. }
  specialize (Hr Hlt).
  destruct k as [|k]; [lia|]. cbn [writei_loop]. rewrite (proj2 (Z.ltb_lt _ _) Hlt), bind_gets.
  set (m := Z.min (nn - tot) (BSIZE - off mod BSIZE)).
  set (l := take (Z.to_nat m) (drop (Z.to_nat tot) bytes)).
  assert (length l = Z.to_nat m) as Hl by (unfold l, m; change BSIZE with 512; rewrite length_take, length_drop; lia).
  assert (off / 512 < nb) as Hob by (apply Z.div_lt_upper_bound; lia).
  destruct (write_block_run s c bs ip nb off l Ht Ho Hsz ltac:(lia) F H0 Hob)
    as (addr & i & s1 & s2 & E1 & E2 & F2 & s3 & E3 & Ht3 & F3).
  mret E1. rewrite (fo_dev _ _ _ F). mret E2. cbn [move_from]. rewrite bind_ret. fold l.
  rewrite (seq3_run _ _ _ _ _ _ _ E3). change BSIZE with 512 in *.
  assert (off + m <= nb * 512 <= 71680) as Hmx.
  { pose proof (fo_max _ _ _ F). unfold MAXFILE in *. lia. }
  rewrite !u32_small by lia.
  assert (file_ok (put_block c (inode_at ip s) off l) (inode_at ip s) nb) as Fl.
  { apply put_block_ok; try done; change BSIZE with 512; [split; [apply Z.div_pos; lia|lia] | lia]. }
  destruct (IH k (off + m) (tot + m) s3 (put_block c (inode_at ip s) off l) (absorb addr bs)) as (s' & c' & bs' & E & Ht' & F' & Hlen & St);
    try done; try lia; rewrite ?(inode_at_frame _ _ ip F3), ?(of_outstanding _ _ F3); try done.
  - intros Hlt'. assert ((off + m) mod 512 = 0) as -> by (apply (next_block off (nn - tot)); lia). lia.
  - pose proof (length_absorb addr bs). lia.
  - exists s', c', bs'. split_and!; [etransitivity; [exact E | f_equal; lia]|done|by eapply op_frame_trans| |].
    + pose proof (length_absorb addr bs). lia.
    + rewrite (inode_at_frame _ _ ip F3) in St.
      replace (drop (Z.to_nat tot) bytes) with (l ++ drop (Z.to_nat (tot + m)) bytes).
      * apply stored_cons; try done; change BSIZE with 512; [lia|]. by rewrite Hl, Z2Nat.id by lia.
      * unfold l. rewrite Z2Nat.inj_add by lia. rewrite <- drop_drop. apply take_drop.
Qed.

(** iupdate puts the in-memory inode in its place in the inode block. *)
Lemma iupdate_run s c bs ip :
  in_trans s c bs [] -> 1 <= log_outstanding (k_log s) -> sz <= LOGSIZE -> Z.of_nat (length bs) < sz - 1 ->
  let x := inode_at ip s in let ib := IBLOCK (i_inum x) (k_sb s) in
  i_dev x = 1 -> data_block ib ->
  exists s', iupdate (S n) ip s = Ret tt s' /\
    in_trans s' (blk_set ib (store_dinode (dinode_off (i_inum x)) x (c ib)) c) (absorb ib bs) [] /\ op_frame s s'.
Proof.
  intros Ht Ho Hsz Hn x ib Hdev Hib. unfold iupdate. rewrite !bind_gets. fold x. rewrite Hdev. fold ib.
  destruct (bread_in_trans s c bs ib Ht (proj1 Hib)) as (i & s1 & E1 & Ht1 & B1 & D1 & F1). mret E1.
  destruct (edit_block s1 c bs i (store_dinode (dinode_off (i_inum x)) x) Ht1) as (s2 & E2 & Ht2 & F2);
    rewrite ?B1, ?D1, ?(of_outstanding _ _ F1); try done.
  rewrite B1 in Ht2. exists s2. split_and!; [|done|by eapply op_frame_trans].
  rewrite <- E2. unfold upd_data. rewrite !bind_modify, (inode_at_frame _ _ ip F1). done.
Qed.

(** The loop of readi. *)
Definition file_bytes (c : disk) (x : inode) (off m : Z) : list Z := map (file_byte c x) (seqZ off m).

Lemma file_bytes_app c x off m1 m2 : 0 <= m1 -> 0 <= m2 ->
  file_bytes c x off (m1 + m2) = file_bytes c x off m1 ++ file_bytes c x (off + m1) m2.
Proof. intros H1 H2. unfold file_bytes. by rewrite seqZ_app, map_app by lia. Qed.

Lemma file_bytes_block c x nb off m :
  file_ok c x nb -> 0 <= off -> off / BSIZE < nb -> 0 <= m <= BSIZE - off mod BSIZE ->
  take (Z.to_nat m) (drop (Z.to_nat (off mod BSIZE)) (c (block_of c x (off / BSIZE)))) = file_bytes c x off m.
Proof.
  change BSIZE with 512. intros F H0 Hb Hm. pose proof (Z.mod_pos_bound off 512 ltac:(lia)).
  destruct (fo_block _ _ _ F (off / 512)) as (_ & _ & Hl); [split; [apply Z.div_pos; lia|lia]|]. change BSIZE with 512 in Hl.
  apply list_eq. intros i. unfold file_bytes. rewrite list_lookup_fmap.
  destruct (decide (Z.of_nat i < m)) as [Hi|Hi].
  - rewrite lookup_seqZ_lt by lia. rewrite lookup_take_lt, lookup_drop by lia. cbn. unfold file_byte. change BSIZE with 512.
    pose proof (Z.div_mod off 512). assert ((off + Z.of_nat i) / 512 = off / 512) as -> by (symmetry; apply (Z.div_unique _ _ _ (off mod 512 + Z.of_nat i)); lia).
    replace ((off + Z.of_nat i) mod 512) with (off mod 512 + Z.of_nat i) by (apply (Z.mod_unique _ _ (off / 512)); lia).
    rewrite nth_lookup. destruct (lookup_lt_is_Some_2 (c (block_of c x (off / 512))) (Z.to_nat (off mod 512 + Z.of_nat i))) as [v Hv]; [lia|].
    rewrite Hv. replace (Z.to_nat (off mod 512) + i)%nat with (Z.to_nat (off mod 512 + Z.of_nat i)) by lia. done.
  - rewrite lookup_seqZ_ge by lia. rewrite lookup_take_ge by lia. done.
Qed.

Lemma readi_loop_run r k ip off nn tot acc s c bs nb :
  in_trans s c bs [] -> file_ok c (inode_at ip s) nb ->
  0 <= off -> 0 <= tot <= nn -> nn < 2147483648 -> off + (nn - tot) <= nb * BSIZE ->
  (tot < nn -> off mod BSIZE + (nn - tot) <= BSIZE * Z.of_nat r) -> (r <= k)%nat ->
  exists s', readi_loop (S n) k ip None off nn tot acc s = Ret (nn, acc ++ file_bytes c (inode_at ip s) off (nn - tot)) s' /\
    in_trans s' c bs [] /\ op_frame s s'.
Proof.
  change BSIZE with 512. revert k off tot acc s.
  assert (forall k off acc s, in_trans s c bs [] -> nn < 2147483648 -> 0 <= nn ->
    exists s', readi_loop (S n) k ip None off nn nn acc s = Ret (nn, acc ++ file_bytes c (inode_at ip s) off (nn - nn)) s' /\
    in_trans s' c bs [] /\ op_frame s s') as Hend.
  { intros k off acc s Ht Hnn H0. exists s. destruct k; cbn [readi_loop]; rewrite Z.ltb_irrefl, Z.sub_diag, i32_small by lia;
      by rewrite app_nil_r. }
  induction r as [|r IH]; intros k off tot acc s Ht F H0 Htot Hnn He Hr Hk;
    pose proof (Z.mod_pos_bound off 512 ltac:(lia)) as Hmod.
  { assert (tot = nn) as -> by lia. apply Hend; [done|done|lia]. }
  destruct (Z.ltb_spec tot nn) as [Hlt|Hge]; [|assert (tot = nn) as -> by lia; apply Hend; [done|done|lia]].
  specialize (Hr Hlt). destruct k as [|k]; [lia|]. cbn [readi_loop]. rewrite (proj2 (Z.ltb_lt _ _) Hlt), bind_gets.
  assert (off / 512 < nb) as Hob by (apply Z.div_lt_upper_bound; lia). assert (0 <= off / 512) by (apply Z.div_pos; lia).
  change BSIZE with 512. destruct (bmap_run s c bs ip nb (off / 512) Ht F) as (s1 & E1 & Ht1 & F1); [lia|].
  destruct (fo_block _ _ _ F (off / 512)) as (_ & B2 & _); [lia|].
  destruct (bread_in_trans s1 c bs _ Ht1 (proj1 B2)) as (i & s2 & E2 & Ht2 & B4 & D2 & F2).
  mret E1. rewrite (fo_dev _ _ _ F). mret E2. rewrite bind_gets, D2. cbn [move_to]. rewrite bind_ret.
  destruct (brelse_in_trans s2 c bs i Ht2) as (s3 & E3 & Ht3 & F3); [by rewrite B4|]. mret E3.
  set (m := Z.min (nn - tot) (512 - off mod 512)).
  pose proof (file_bytes_block c (inode_at ip s) nb off m F H0 Hob) as Eb. change BSIZE with 512 in Eb. rewrite Eb by lia.
  assert (off + m <= nb * 512 <= 71680) as Hmx by (pose proof (fo_max _ _ _ F); unfold MAXFILE in *; lia).
  rewrite !u32_small by lia. assert (op_frame s s3) as F13 by (do 2 (eapply op_frame_trans; [done|]); done).
  destruct (IH k (off + m) (tot + m) (acc ++ file_bytes c (inode_at ip s) off m) s3) as (s' & E & Ht' & F');
    try done; try lia; rewrite ?(inode_at_frame _ _ ip F13); try done.
  - intros Hlt'. assert ((off + m) mod 512 = 0) as -> by (apply (next_block off (nn - tot)); lia). lia.
  - exists s'. split_and!; [|done|by eapply op_frame_trans]. etransitivity; [exact E|].
    rewrite (inode_at_frame _ _ ip F13), <- app_assoc, <- file_bytes_app by lia. do 4 f_equal. lia.
Qed.

Lemma in_trans_inode s c bs held ip f : in_trans s c bs held -> in_trans (upd_inode ip f s) c bs held.
Proof. intros [[] ? ? ? ?]. by split; [split|..]. Qed.

Lemma inode_at_upd ip f s : (ip < length (k_icache s))%nat -> inode_at ip (upd_inode ip f s) = f (inode_at ip s).
Proof.
  intros Hi. unfold inode_at, upd_inode. cbn. destruct (lookup_lt_is_Some_2 _ _ Hi) as [x Hx].
  rewrite list_lookup_alter_eq, Hx. done.
Qed.

(** The inode block of a file, where iupdate writes, is not one of its own blocks. *)
Record inode_block_ok (c : disk) (x : inode) (nb ib : Z) : Prop := Inode_block_ok {
  ib_data : data_block ib;
  ib_apart : forall k, 0 <= k < nb -> block_of c x k <> ib;
  ib_ind : Z.of_nat NDIRECT < nb -> nth NDIRECT (i_addrs x) 0 <> ib
}.

(** Contents away from the blocks of a file do not matter to it. *)
Lemma file_outside c x x' nb ib v :
  i_addrs x' = i_addrs x -> i_dev x' = i_dev x -> file_ok c x nb -> inode_block_ok c x nb ib ->
  file_ok (blk_set ib v c) x' nb /\ (forall i, 0 <= i < nb * BSIZE -> file_byte (blk_set ib v c) x' i = file_byte c x i).
Proof.
  intros Ea Ed F [_ I2 I3]. assert (forall k, 0 <= k < nb -> block_of (blk_set ib v c) x' k = block_of c x k) as E.
  { intros k Hk. unfold block_of. rewrite Ea. destruct (Z.ltb_spec k (Z.of_nat NDIRECT)); [done|].
    rewrite blk_set_ne; [done|]. apply I3. lia. }
  split.
  - destruct F as [D M B J I]. split; [congruence|done| | |].
    + intros k Hk. rewrite (E k Hk). rewrite blk_set_ne by (by apply I2). by apply B.
    + intros k k' Hk Hk'. rewrite (E k Hk), (E k' Hk'). by apply J.
    + rewrite Ea. intros Hd. destruct (I Hd) as (A1 & A2 & A3). split_and!; try done; try lia.
      intros k Hk. rewrite (E k Hk). by apply A3.
  - intros i Hi. unfold file_byte. change BSIZE with 512 in *.
    assert (0 <= i / 512 < nb) as Hk by (split; [apply Z.div_pos; lia | apply Z.div_lt_upper_bound; lia]).
    rewrite (E _ Hk). by rewrite blk_set_ne by (by apply I2).
Qed.

(** ** readi and writei *)

Context `{DV : DevSw}.

Lemma readi_run s c bs ip nb off m :
  in_trans s c bs [] -> let x := inode_at ip s in file_ok c x nb -> i_type x <> T_DEV ->
  0 <= off <= i_size x -> i_size x <= nb * BSIZE -> 0 <= m -> off + m < 4294967296 ->
  exists s', readi (S n) ip None off m s =
      Ret (Z.min m (i_size x - off), file_bytes c x off (Z.min m (i_size x - off))) s' /\
    in_trans s' c bs [] /\ op_frame s s'.
Proof.
  intros Ht x F Hty Hoff Hsize Hm Hom. unfold readi. rewrite bind_gets. fold x. rewrite (proj2 (Z.eqb_neq _ _) Hty).
  rewrite u32_small by lia. destruct (Z.gtb_spec off (i_size x)); [lia|]. destruct (Z.ltb_spec (off + m) off); [lia|]. cbn [orb].
  pose proof (fo_max _ _ _ F) as Hmax. unfold MAXFILE in Hmax. change BSIZE with 512 in *.
  set (m' := Z.min m (i_size x - off)).
  replace (if off + m >? i_size x then u32 (i_size x - off) else m) with m'.
  2: { destruct (Z.gtb_spec (off + m) (i_size x)); [rewrite u32_small|]; lia. }
  pose proof (Z.mod_pos_bound off 512 ltac:(lia)). pose proof (Z.div_mod m' 512 ltac:(lia)). pose proof (Z.mod_pos_bound m' 512 ltac:(lia)).
  destruct (readi_loop_run (Z.to_nat (m' / 512 + 2)) (Z.to_nat (m' / 512 + 2)) ip off m' 0 [] s c bs nb Ht F)
    as (s' & E & Ht' & F'); change BSIZE with 512; try lia.
  exists s'. rewrite E, Z.sub_0_r. done.
Qed.

(** When writei may be called: inside a transaction with room for the blocks of the
    write and the inode, on a file that has the blocks. *)
Record can_write (s : kstate) (c : disk) (bs : list Z) (ip : nat) (nb off len : Z) : Prop := Can_write {
  cw_trans : in_trans s c bs [];
  cw_open : 1 <= log_outstanding (k_log s);
  cw_log : sz <= LOGSIZE;
  cw_ip : (ip < length (k_icache s))%nat;
  cw_file : file_ok c (inode_at ip s) nb;
  cw_type : i_type (inode_at ip s) <> T_DEV;
  cw_ib : inode_block_ok c (inode_at ip s) nb (IBLOCK (i_inum (inode_at ip s)) (k_sb s));
  cw_off : 0 <= off <= i_size (inode_at ip s);
  cw_size : i_size (inode_at ip s) <= nb * BSIZE;
  cw_len : 0 < len;
  cw_end : off + len <= nb * BSIZE;
  cw_room : Z.of_nat (length bs) + (off mod BSIZE + len + BSIZE - 1) / BSIZE + 1 <= sz - 1
}.

(** What it leaves: the file with the bytes in place, grown if they end beyond its end. *)
Record did_write (s : kstate) (c : disk) (ip : nat) (nb off : Z) (bytes : list Z) (s' : kstate) (c' : disk) : Prop := Did_write {
  dw_inode : inode_at ip s' = set_i_size (Z.max (i_size (inode_at ip s)) (off + Z.of_nat (length bytes))) (inode_at ip s);
  dw_file : file_ok c' (inode_at ip s') nb;
  dw_byte : forall i, 0 <= i < nb * BSIZE -> file_byte c' (inode_at ip s') i =
    if (off <=? i) && (i <? off + Z.of_nat (length bytes)) then nth (Z.to_nat (i - off)) bytes 0
    else file_byte c (inode_at ip s) i;
  dw_disk : k_disk s' = k_disk s /\ k_dwrites s' = k_dwrites s;
  dw_open : log_outstanding (k_log s') = log_outstanding (k_log s)
}.

(** The end of writei, for a file that has grown to [v] bytes. *)
Lemma set_size_run s c bs ip nb v :
  in_trans s c bs [] -> 1 <= log_outstanding (k_log s) -> sz <= LOGSIZE -> Z.of_nat (length bs) < sz - 1 ->
  (ip < length (k_icache s))%nat -> let x := inode_at ip s in file_ok c x nb ->
  inode_block_ok c x nb (IBLOCK (i_inum x) (k_sb s)) ->
  exists s' c' bs', (modify (upd_inode ip (set_i_size v));;; iupdate (S n) ip) s = Ret tt s' /\ in_trans s' c' bs' [] /\
    inode_at ip s' = set_i_size v x /\ file_ok c' (inode_at ip s') nb /\
    (forall i, 0 <= i < nb * BSIZE -> file_byte c' (inode_at ip s') i = file_byte c x i) /\
    (k_disk s' = k_disk s /\ k_dwrites s' = k_dwrites s) /\ log_outstanding (k_log s') = log_outstanding (k_log s).
Proof.
  intros Ht Ho Hsz Hn Hip x F Ib. rewrite bind_modify. set (s1 := upd_inode ip (set_i_size v) s).
  assert (inode_at ip s1 = set_i_size v x) as E1 by (by apply inode_at_upd).
  destruct (iupdate_run s1 c bs ip) as (s2 & E2 & Ht2 & F2); rewrite ?E1; try done.
  { by apply in_trans_inode. } { apply F. } { apply Ib. }
  rewrite E1 in Ht2. eexists s2, _, _. split; [exact E2|]. split; [exact Ht2|].
  rewrite (inode_at_frame _ _ ip F2), E1.
  destruct (file_outside c x (set_i_size v x) nb _ (store_dinode (dinode_off (i_inum x)) (set_i_size v x)
    (c (IBLOCK (i_inum x) (k_sb s)))) eq_refl eq_refl F Ib) as [Fo Hb].
  split_and!; try done; by destruct F2.
Qed.

Lemma writei_run s c bs ip nb off bytes :
  let len := Z.of_nat (length bytes) in can_write s c bs ip nb off len ->
  exists s' c' bs', writei (S n) ip (inr bytes) off len s = Ret len s' /\ in_trans s' c' bs' [] /\
    did_write s c ip nb off bytes s' c'.
Proof.
  intros len [Ht Ho Hsz Hip F Hty Ib Hoff Hsize Hlen Hend Hroom]. pose proof (fo_max _ _ _ F) as Hmax.
  unfold MAXFILE in Hmax. change BSIZE with 512 in *. unfold writei. rewrite bind_gets. set (x := inode_at ip s) in *.
  rewrite (proj2 (Z.eqb_neq _ _) Hty), u32_small by lia. destruct (Z.gtb_spec off (i_size x)); [lia|].
  destruct (Z.ltb_spec (off + len) off); [lia|]. cbn [orb].
  destruct (Z.gtb_spec (off + len) (MAXFILE * BSIZE)); [unfold MAXFILE in *; change BSIZE with 512 in *; lia|].
  pose proof (Z.mod_pos_bound off 512 ltac:(lia)). pose proof (Z.div_mod len 512 ltac:(lia)).
  pose proof (Z.mod_pos_bound len 512 ltac:(lia)). set (r := (off mod 512 + len + 512 - 1) / 512) in *.
  assert (512 * r <= off mod 512 + len + 511 < 512 * r + 512) as Hr.
  { unfold r. pose proof (Z.div_mod (off mod 512 + len + 512 - 1) 512 ltac:(lia)).
    pose proof (Z.mod_pos_bound (off mod 512 + len + 512 - 1) 512 ltac:(lia)). lia. }
  destruct (writei_loop_run (Z.to_nat r) (Z.to_nat (len / BSIZE + 2)) ip bytes off len 0 s c bs nb)
    as (s1 & c1 & bs1 & E1 & Ht1 & F1 & Hl1 & St); change BSIZE with 512; try done; try lia.
  mret E1. rewrite Z.sub_0_r, bind_gets, (inode_at_frame _ _ ip F1). fold x. rewrite (proj2 (Z.gtb_lt len 0)) by lia. cbn [andb].
  rewrite Z2Nat.inj_0, drop_0 in St. destruct St as [S1 S2 S3 S4].
  destruct (Z.gtb_spec (off + len) (i_size x)) as [Hg|Hg].
  - destruct (set_size_run s1 c1 bs1 ip nb (off + len)) as (s2 & c2 & bs2 & E2 & Ht2 & X2 & F2 & B2 & D2 & O2);
      rewrite ?(inode_at_frame _ _ ip F1), ?(of_outstanding _ _ F1), ?(of_icache _ _ F1), ?(of_sb _ _ F1); try done; try lia.
    { destruct Ib as [I1 I2 I3]. split; try done. intros k Hk. rewrite (S2 k Hk). by apply I2. }
    mret E2. exists s2, c2, bs2. rewrite i32_small by lia. rewrite (inode_at_frame _ _ ip F1) in X2, B2. fold x in X2, B2.
    destruct F1. split_and!; try done. split; [|done| |by rewrite (proj1 D2), (proj2 D2)|congruence].
    + rewrite X2. f_equal. fold x len. lia.
    + intros i Hi. rewrite (B2 i Hi). by apply S3.
  - rewrite bind_ret, i32_small by lia. exists s1, c1, bs1. split_and!; try done.
    split; rewrite ?(inode_at_frame _ _ ip F1); fold x len; try done; [|by destruct F1..].
    rewrite Z.max_l by lia. by destruct x.
Qed.

End Blocks.

(** C3: what writei stores, readi finds.  Inside a transaction, on a file whose blocks are
    there and with room in the log, writing the bytes at off succeeds and returns their
    number; a readi of any range after it returns the bytes of the range up to the end of
    the file (which has moved to the end of the write if that lies beyond it), each
    one the byte written if it lies in the written range and the old byte of the file
    otherwise; and nothing has reached the disk before the commit. *)
Theorem writei_readi_roundtrip `{DL : BlockDriverLaws} `{DV : DevSw} (pi n : nat) (st sz : Z)
  s c bs ip nb off bytes off2 m :
  let x := inode_at ip s in let len := Z.of_nat (length bytes) in
  can_write (disksize := disksize) pi st sz s c bs ip nb off len ->
  let size' := Z.max (i_size x) (off + len) in
  0 <= off2 <= size' -> 0 <= m -> off2 + m < 4294967296 ->
  exists s1 s2 c' bs' got,
    writei (S n) ip (inr bytes) off len s = Ret len s1 /\
    readi (S n) ip None off2 m s1 = Ret (Z.min m (size' - off2), got) s2 /\
    in_trans disksize pi st sz s2 c' bs' [] /\ i_size (inode_at ip s2) = size' /\
    length got = Z.to_nat (Z.min m (size' - off2)) /\
    (forall i, 0 <= i < Z.min m (size' - off2) -> nth (Z.to_nat i) got 0 =
       if (off <=? off2 + i) && (off2 + i <? off + len) then nth (Z.to_nat (off2 + i - off)) bytes 0
       else file_byte c x (off2 + i)) /\
    k_disk s2 = k_disk s /\ k_dwrites s2 = k_dwrites s.
Proof.
  intros x len W size' Hoff2 Hm Hom. destruct (writei_run pi n st sz s c bs ip nb off bytes W) as (s1 & c1 & bs1 & E1 & Ht1 & [X1 F1 B1 D1 O1]).
  assert (i_size (inode_at ip s1) = size') as Es by (by rewrite X1).
  destruct W as [_ _ _ _ F Hty _ Hoff Hsize Hlen Hend _].
  assert (size' <= nb * BSIZE) as Hs' by (unfold size', x, len in *; lia).
  destruct (readi_run pi n st sz s1 c1 bs1 ip nb off2 m Ht1 F1) as (s2 & E2 & Ht2 & F2); rewrite ?Es; try done; try lia.
  { rewrite X1. exact Hty. }
  rewrite Es in E2. exists s1, s2, c1, bs1, (file_bytes c1 (inode_at ip s1) off2 (Z.min m (size' - off2))).
  split_and!; try done.
  - by rewrite (inode_at_frame _ _ ip F2).
  - unfold file_bytes. by rewrite length_map, length_seqZ.
  - intros i Hi. unfold file_bytes. rewrite nth_lookup, list_lookup_fmap, lookup_seqZ_lt by lia. cbn.
    rewrite Z2Nat.id by lia. by rewrite B1 by lia.
  - by rewrite (of_disk _ _ F2), (proj1 D1).
  - by rewrite (of_dwrites _ _ F2), (proj2 D1).
Qed.

(** A machine with one file of 600 bytes in blocks 100 and 101, inode 3. *)
#[local] Instance no_devices : DevSw := { dev_read := fun _ => None; dev_write := fun _ => None }.
Definition small_file : inode :=
  Inode 1 3 1 (Sleeplock 0 "inode" 0) 2 T_FILE 0 0 1 600 ([100; 101] ++ replicate 11 0).
Definition with_file (s : kstate) : kstate :=
  set_k_icache [small_file] (set_k_sb (Superblock 1000 900 200 30 2 40 70) (open_op s)).

Lemma small_file_blocks k : 0 <= k < 2 -> block_of log_disk small_file k = 100 + k.
Proof. intros Hk. assert (k = 0 \/ k = 1) as [-> | ->] by lia; reflexivity. Qed.

Lemma with_file_can_write s0 :
  in_trans 1000 1 2 30 (open_op s0) log_disk [] [] ->
  can_write (disksize := 1000) 1 2 30 (with_file s0) log_disk [] 0 2 500 200.
Proof.
  intros [[] ? ? ? ?]. split; try done; change (inode_at 0 (with_file s0)) with small_file.
  - simpl. lia.
  - split; try done.
    + intros k Hk. rewrite (small_file_blocks k Hk). unfold data_block, outside. split_and!; try lia.
      unfold log_disk. destruct (Z.eqb_spec (100 + k) 1); [lia|]. reflexivity.
    + intros k k' Hk Hk'. rewrite (small_file_blocks k Hk), (small_file_blocks k' Hk'). lia.
  - change (IBLOCK _ _) with 40. split; try done; [unfold data_block, outside; lia|].
    intros k Hk. rewrite (small_file_blocks k Hk). lia.
Qed.

Lemma writei_readi_roundtrip_witness :
  exists s0 s1 s2 got, binit disk_machine = Ret tt s0 /\
    writei (DR := memd) 1 0 (inr (replicate 200 7)) 500 200 (with_file s0) = Ret 200 s1 /\
    readi (DR := memd) 1 0 None 690 100 s1 = Ret (10, got) s2 /\ nth 0 got 0 = 7.
Proof.
  destruct open_op_trans as (s0 & E0 & Ht & _).
  destruct (writei_readi_roundtrip (H := memd) (disksize := 1000) 1 0 2 30 (with_file s0) log_disk [] 0 2 500
    (replicate 200 7) 690 100 (with_file_can_write s0 Ht)) as (s1 & s2 & c' & bs' & got & E1 & E2 & _ & _ & _ & Hg & _).
  - vm_compute. split; discriminate.
  - lia.
  - lia.
  - exists s0, s1, s2, got. split_and!; [exact E0|exact E1|exact E2|].
    change (nth (Z.to_nat 0) got 0 = 7). rewrite (Hg 0); [reflexivity|]. vm_compute. split; [discriminate|reflexivity].
Defined.

(** ** The free map *)

Lemma testbit_one k i : 0 <= k -> Z.testbit (Z.shiftl 1 k) i = (i =? k).
Proof.
  intros Hk. rewrite Z.shiftl_1_l. rewrite Z.pow2_bits_eqb by done. by rewrite Z.eqb_sym.
Qed.

Lemma bit_of_testbit bi data : 0 <= bi -> bit_of bi data = Z.testbit (nth (Z.to_nat (bi / 8)) data 0) (bi mod 8).
Proof.
  intros Hb. unfold bit_of. set (x := nth _ _ _). pose proof (Z.mod_pos_bound bi 8 ltac:(lia)) as Hk.
  destruct (Z.testbit x (bi mod 8)) eqn:E.
  - destruct (Z.eqb_spec (Z.land x (Z.shiftl 1 (bi mod 8))) 0) as [E0|]; [|done].
    apply (f_equal (fun z => Z.testbit z (bi mod 8))) in E0.
    rewrite Z.land_spec, E, testbit_one, Z.eqb_refl, Z.bits_0 in E0 by lia. done.
  - replace (Z.land x (Z.shiftl 1 (bi mod 8))) with 0; [done|]. apply Z.bits_inj'. intros i Hi.
    rewrite Z.bits_0, Z.land_spec, testbit_one by lia. destruct (Z.eqb_spec i (bi mod 8)) as [->|]; [by rewrite E | by rewrite andb_false_r].
Qed.

(** A change of one bit, by the function [f] on its byte. *)
Lemma bit_of_alter f bi bj data v :
  0 <= bi < 8 * Z.of_nat (length data) -> 0 <= bj ->
  (forall x k, 0 <= k < 8 -> Z.testbit (f x) k = if k =? bi mod 8 then v else Z.testbit x k) ->
  bit_of bj (alter f (Z.to_nat (bi / 8)) data) = if bj =? bi then v else bit_of bj data.
Proof.
  intros Hi Hj Hf. rewrite !bit_of_testbit by lia. pose proof (Z.mod_pos_bound bj 8 ltac:(lia)).
  pose proof (Z.div_mod bi 8 ltac:(lia)). pose proof (Z.div_mod bj 8 ltac:(lia)). rewrite !nth_lookup.
  assert (0 <= bi / 8 < Z.of_nat (length data)) as Hd by (split; [apply Z.div_pos; lia | apply Z.div_lt_upper_bound; lia]).
  destruct (decide (bj / 8 = bi / 8)) as [Ed|Ed].
  - rewrite Ed, list_lookup_alter_eq. destruct (lookup_lt_is_Some_2 data (Z.to_nat (bi / 8))) as [x Hx]; [lia|].
    rewrite Hx. cbn. rewrite Hf by done. destruct (Z.eqb_spec (bj mod 8) (bi mod 8)), (Z.eqb_spec bj bi); try done; lia.
  - assert (0 <= bj / 8) by (apply Z.div_pos; lia). rewrite list_lookup_alter_ne by lia.
    destruct (Z.eqb_spec bj bi) as [->|]; done.
Qed.

Lemma bit_of_set bi bj data : 0 <= bi < 8 * Z.of_nat (length data) -> 0 <= bj ->
  bit_of bj (set_bit bi data) = if bj =? bi then true else bit_of bj data.
Proof.
  intros Hi Hj. apply bit_of_alter; try done. intros x k Hk. pose proof (Z.mod_pos_bound bi 8 ltac:(lia)).
  rewrite Z.lor_spec, testbit_one by lia. destruct (k =? bi mod 8); [apply orb_true_r | apply orb_false_r].
Qed.

Lemma bit_of_clear bi bj data : 0 <= bi < 8 * Z.of_nat (length data) -> 0 <= bj ->
  bit_of bj (clear_bit bi data) = if bj =? bi then false else bit_of bj data.
Proof.
  intros Hi Hj. apply bit_of_alter; try done. intros x k Hk. pose proof (Z.mod_pos_bound bi 8 ltac:(lia)).
  unfold u8. change 256 with (2 ^ 8). rewrite Z.mod_pow2_bits_low by lia.
  rewrite Z.land_spec, Z.lnot_spec, testbit_one by lia. destruct (k =? bi mod 8); [apply andb_false_r | apply andb_true_r].
Qed.

Lemma find_clear_spec n bi data :
  match find_clear n bi data with
  | Some j => bi <= j < bi + Z.of_nat n /\ bit_of j data = false /\ forall i, bi <= i < j -> bit_of i data = true
  | None => forall i, bi <= i < bi + Z.of_nat n -> bit_of i data = true
  end.
Proof.
  revert bi. induction n as [|n IH]; intros bi; cbn [find_clear]; [intros; lia|].
  destruct (bit_of bi data) eqn:E.
  - specialize (IH (bi + 1)). destruct (find_clear n (bi + 1) data) as [j|].
    + destruct IH as (I1 & I2 & I3). split_and!; try lia; [done|]. intros i Hi.
      destruct (decide (i = bi)) as [->|]; [done|]. apply I3. lia.
    + intros i Hi. destruct (decide (i = bi)) as [->|]; [done|]. apply IH. lia.
  - split_and!; [lia|lia|done|intros; lia].
Qed.

(** Block [b] is in use. *)
Definition in_use (c : disk) (sb : superblock) (b : Z) : bool := bit_of (b mod BPB) (c (BBLOCK b sb)).

Section FreeMap.
Context `{DL : BlockDriverLaws} (pi n : nat) (st sz : Z).
Notation in_trans := (in_trans disksize pi st sz).
Notation data_block := (data_block (disksize := disksize) st sz).

(** The free map lies outside the log, in blocks of its own. *)
Record map_ok (c : disk) (sb : superblock) : Prop := Map_ok {
  mp_size : 0 <= sb_size sb <= disksize;
  mp_start : 0 <= sb_bmapstart sb < 2147483648;
  mp_block : forall b, 0 <= b < sb_size sb -> data_block (BBLOCK b sb) /\ length (c (BBLOCK b sb)) = Z.to_nat BSIZE
}.

Lemma bblock_group c sb k i : map_ok c sb -> 0 <= k -> 0 <= i < BPB -> k * BPB + i < sb_size sb -> disksize <= 2147483647 ->
  BBLOCK (k * BPB + i) sb = BBLOCK (k * BPB) sb /\ (k * BPB + i) mod BPB = i.
Proof.
  intros M Hk Hi Hs Hd. unfold BBLOCK, BPB in *. split.
  - f_equal. f_equal. rewrite Z.div_add_l, Z.div_mul, Z.div_small by lia. lia.
  - rewrite Z.add_comm, Z.mod_add by lia. apply Z.mod_small. lia.
Qed.

Lemma bzero_run s c bs b :
  in_trans s c bs [] -> 1 <= log_outstanding (k_log s) -> sz <= LOGSIZE -> Z.of_nat (length bs) < sz - 1 -> data_block b ->
  exists s', bzero (S n) 1 b s = Ret tt s' /\
    in_trans s' (blk_set b (replicate (Z.to_nat BSIZE) 0) c) (absorb b bs) [] /\ op_frame s s'.
Proof.
  intros Ht Ho Hsz Hn Hb. unfold bzero. pose proof (lo_max _ _ _ _ (tr_layout _ _ _ _ _ _ _ Ht)).
  rewrite u32_small by (destruct Hb; lia).
  destruct (bread_in_trans pi n st sz s c bs b Ht (proj1 Hb)) as (i & s1 & E1 & Ht1 & B1 & D1 & F1). mret E1.
  destruct (edit_block pi st sz s1 c bs i (fun _ => replicate (Z.to_nat BSIZE) 0) Ht1) as (s2 & E2 & Ht2 & F2);
    rewrite ?B1, ?D1, ?(of_outstanding _ _ F1); try done.
  rewrite B1 in Ht2. exists s2. split_and!; [done|done|by eapply op_frame_trans].
Qed.

(** The block taken, and the contents of the file system with it. *)
Definition taken (c : disk) (sb : superblock) (b : Z) : disk :=
  blk_set b (replicate (Z.to_nat BSIZE) 0) (blk_set (BBLOCK b sb) (set_bit (b mod BPB) (c (BBLOCK b sb))) c).

Lemma balloc_group_run s c bs k :
  in_trans s c bs [] -> 1 <= log_outstanding (k_log s) -> sz <= LOGSIZE -> Z.of_nat (length bs) + 2 <= sz - 1 ->
  let sb := k_sb s in map_ok c sb -> 0 <= k -> k * BPB < sb_size sb ->
  (forall b, k * BPB <= b < sb_size sb -> b < (k + 1) * BPB -> in_use c sb b = false -> data_block b) ->
  match find_clear (Z.to_nat (Z.min BPB (sb_size sb - k * BPB))) 0 (c (BBLOCK (k * BPB) sb)) with
  | Some j => exists s', balloc_group (S n) 1 (k * BPB) s = Ret (Some (k * BPB + j)) s' /\
      in_trans s' (taken c sb (k * BPB + j)) (absorb (k * BPB + j) (absorb (BBLOCK (k * BPB + j) sb) bs)) [] /\ op_frame s s'
  | None => exists s', balloc_group (S n) 1 (k * BPB) s = Ret None s' /\ in_trans s' c bs [] /\ op_frame s s'
  end.
Proof.
  intros Ht Ho Hsz Hn sb M Hk Hks Hfree. pose proof (lo_max _ _ _ _ (tr_layout _ _ _ _ _ _ _ Ht)) as Hmax.
  unfold balloc_group. destruct (mp_block _ _ M (k * BPB)) as [Hbb Hlen]; [unfold BPB in *; lia|].
  destruct (bread_in_trans pi n st sz s c bs _ Ht (proj1 Hbb)) as (i & s1 & E1 & Ht1 & B1 & D1 & F1).
  pose proof (find_clear_spec (Z.to_nat (Z.min BPB (sb_size sb - k * BPB))) 0 (c (BBLOCK (k * BPB) sb))) as Hf.
  rewrite bind_gets. fold sb.
  destruct (find_clear _ _ _) as [j|] eqn:Ej.
  2: { mret E1. rewrite bind_gets, D1, Ej.
       destruct (brelse_in_trans pi st sz s1 c bs i Ht1) as (s2 & E2 & Ht2 & F2); [by rewrite B1|].
       mret E2. exists s2. split_and!; [done|done|by eapply op_frame_trans]. }
  destruct Hf as (Hj & Hjf & _). destruct (bblock_group c sb k j M Hk) as [Eb Em]; try done; try (unfold BPB in *; lia).
  mret E1. rewrite bind_gets, D1, Ej.
  destruct (edit_block pi st sz s1 c bs i (set_bit j) Ht1) as (s2 & E2 & Ht2 & F2);
    rewrite ?B1, ?D1, ?(of_outstanding _ _ F1); try done; try lia.
  rewrite (seq3_run _ _ _ _ _ _ _ E2). rewrite B1 in Ht2. assert (op_frame s s2) as F12 by (by eapply op_frame_trans).
  pose proof (length_absorb (BBLOCK (k * BPB) sb) bs). pose proof (mp_size _ _ M).
  assert (data_block (k * BPB + j)) as Hdb.
  { apply Hfree; try (unfold BPB in *; lia). unfold in_use. by rewrite Eb, Em. }
  destruct (bzero_run s2 _ _ (k * BPB + j) Ht2) as (s3 & E3 & Ht3 & F3); rewrite ?(of_outstanding _ _ F12); try done; try lia.
  mret E3. exists s3. rewrite u32_small by (destruct Hdb; lia). unfold taken. rewrite Eb, Em.
  split_and!; [done|done|by eapply op_frame_trans].
Qed.

(** What the search of a group says about the blocks of the group. *)
Lemma group_in_use c sb k i : map_ok c sb -> disksize <= 2147483647 -> 0 <= k -> 0 <= i < BPB -> k * BPB + i < sb_size sb ->
  in_use c sb (k * BPB + i) = bit_of i (c (BBLOCK (k * BPB) sb)).
Proof. intros M Hd Hk Hi Hs. unfold in_use. by destruct (bblock_group c sb k i M Hk Hi Hs Hd) as [-> ->]. Qed.

(** The first block that is not in use is unique. *)
Lemma first_unique (f : Z -> bool) lo b b' : lo <= b -> lo <= b' -> f b = false -> f b' = false ->
  (forall i, lo <= i < b -> f i = true) -> (forall i, lo <= i < b' -> f i = true) -> b = b'.
Proof.
  intros Hb Hb' Ef Ef' Hf Hf'. destruct (Ztrichotomy b b') as [Hlt|[->|Hgt]]; [|done|].
  - specialize (Hf' b). rewrite Ef in Hf'. discriminate Hf'. lia.
  - specialize (Hf b'). rewrite Ef' in Hf. discriminate Hf. lia.
Qed.

Lemma balloc_scan m k s c bs :
  in_trans s c bs [] -> 1 <= log_outstanding (k_log s) -> sz <= LOGSIZE -> Z.of_nat (length bs) + 2 <= sz - 1 ->
  let sb := k_sb s in map_ok c sb -> Z.of_nat (k + m) = (sb_size sb + BPB - 1) / BPB ->
  (forall b, 0 <= b < sb_size sb -> in_use c sb b = false -> data_block b) ->
  (forall b, Z.of_nat k * BPB <= b < sb_size sb -> in_use c sb b = false ->
     (forall b', Z.of_nat k * BPB <= b' < b -> in_use c sb b' = true) ->
     exists s', for_break (seq k m) (fun k => balloc_group (S n) 1 (Z.of_nat k * BPB)) s = Ret (Some b) s' /\
       in_trans s' (taken c sb b) (absorb b (absorb (BBLOCK b sb) bs)) [] /\ op_frame s s') /\
  ((forall b, Z.of_nat k * BPB <= b < sb_size sb -> in_use c sb b = true) ->
     exists s', for_break (seq k m) (fun k => balloc_group (S n) 1 (Z.of_nat k * BPB)) s = Ret None s' /\
       in_trans s' c bs [] /\ op_frame s s').
Proof.
  revert k s. induction m as [|m IH]; intros k s Ht Ho Hsz Hn sb M Hm Hfree;
    pose proof (lo_max _ _ _ _ (tr_layout _ _ _ _ _ _ _ Ht)) as Hmax; pose proof (mp_size _ _ M) as Hsize;
    pose proof (Z.div_mod (sb_size sb + BPB - 1) BPB ltac:(unfold BPB; lia)) as Hdm;
    pose proof (Z.mod_pos_bound (sb_size sb + BPB - 1) BPB ltac:(unfold BPB; lia)) as Hmb.
  { assert (sb_size sb <= Z.of_nat k * BPB) by (unfold BPB in *; lia). split; [intros; lia|]. intros _. by exists s. }
  assert (Z.of_nat k * BPB < sb_size sb) as Hk by (unfold BPB in *; lia).
  pose proof (balloc_group_run s c bs (Z.of_nat k) Ht Ho Hsz Hn M ltac:(lia) Hk) as Hg.
  pose proof (find_clear_spec (Z.to_nat (Z.min BPB (sb_size sb - Z.of_nat k * BPB))) 0 (c (BBLOCK (Z.of_nat k * BPB) sb))) as Hf.
  assert (forall i, 0 <= i < Z.min BPB (sb_size sb - Z.of_nat k * BPB) ->
    in_use c sb (Z.of_nat k * BPB + i) = bit_of i (c (BBLOCK (Z.of_nat k * BPB) sb))) as Hu.
  { intros i Hi. apply group_in_use; try done; lia. }
  fold sb in Hg. destruct (find_clear _ _ _) as [j|].
  - destruct Hg as (s1 & E1 & Ht1 & F1); [intros; apply Hfree; [unfold BPB in *; lia|done]|]. destruct Hf as (Hj & Hjf & Hjl). split.
    + intros b Hb Hbf Hlow. assert (b = Z.of_nat k * BPB + j) as ->.
      { apply (first_unique (in_use c sb) (Z.of_nat k * BPB)); try done; try lia; [by rewrite Hu by lia|].
        intros i Hi. replace i with (Z.of_nat k * BPB + (i - Z.of_nat k * BPB)) by lia. rewrite Hu by lia. apply Hjl. lia. }
      exists s1. cbn [seq for_break]. mret E1. done.
    + intros Hall. exfalso. assert (in_use c sb (Z.of_nat k * BPB + j) = true) as E by (apply Hall; lia).
      rewrite Hu in E by lia. congruence.
  - destruct Hg as (s1 & E1 & Ht1 & F1); [intros; apply Hfree; [unfold BPB in *; lia|done]|].
    assert (Z.of_nat (S k) * BPB = Z.of_nat k * BPB + BPB) as Hk1 by (unfold BPB; lia).
    assert (forall b, Z.of_nat k * BPB <= b < sb_size sb -> b < Z.of_nat k * BPB + BPB -> in_use c sb b = true) as Hfull.
    { intros b Hb Hlt. replace b with (Z.of_nat k * BPB + (b - Z.of_nat k * BPB)) by lia. rewrite Hu by lia. apply Hf. lia. }
    destruct (IH (S k) s1) as [IH1 IH2]; rewrite ?(of_outstanding _ _ F1), ?(of_sb _ _ F1); try done; [fold sb; lia|].
    rewrite (of_sb _ _ F1) in IH1, IH2. fold sb in IH1, IH2. rewrite Hk1 in IH1, IH2. cbn [seq for_break]. split.
    + intros b Hb Hbf Hlow. destruct (decide (b < Z.of_nat k * BPB + BPB)) as [Hlt|Hge]; [rewrite Hfull in Hbf; [done|lia|lia]|].
      destruct (IH1 b) as (s2 & E2 & Ht2 & F2); [lia|done|intros; apply Hlow; unfold BPB in *; lia|].
      exists s2. mret E1. split_and!; [exact E2|done|by eapply op_frame_trans].
    + intros Hall. destruct IH2 as (s2 & E2 & Ht2 & F2); [intros; apply Hall; unfold BPB in *; lia|].
      exists s2. mret E1. split_and!; [exact E2|done|by eapply op_frame_trans].
Qed.

(** The status of the blocks after the change of one bit. *)
Lemma in_use_flip c c' sb b v f :
  map_ok c sb -> disksize <= 2147483647 -> 0 <= b < sb_size sb ->
  (forall b', 0 <= b' < sb_size sb -> c' (BBLOCK b' sb) = blk_set (BBLOCK b sb) (f (c (BBLOCK b sb))) c (BBLOCK b' sb)) ->
  (forall j, 0 <= j -> bit_of j (f (c (BBLOCK b sb))) = if j =? b mod BPB then v else bit_of j (c (BBLOCK b sb))) ->
  forall b', 0 <= b' < sb_size sb -> in_use c' sb b' = if b' =? b then v else in_use c sb b'.
Proof.
  intros M Hd Hb Hc Hf b' Hb'. unfold in_use. rewrite (Hc b' Hb').
  pose proof (mp_size _ _ M). pose proof (mp_start _ _ M). unfold BPB in *.
  pose proof (Z.mod_pos_bound b' 4096 ltac:(lia)). pose proof (Z.div_mod b' 4096 ltac:(lia)). pose proof (Z.div_mod b 4096 ltac:(lia)).
  destruct (decide (BBLOCK b' sb = BBLOCK b sb)) as [E|E].
  - rewrite E, blk_set_eq, Hf by lia. assert (b' / 4096 = b / 4096) as Eq.
    { unfold BBLOCK, BPB in E. assert (0 <= b / 4096 <= b) by (split; [apply Z.div_pos|apply Z.div_le_upper_bound]; lia).
      assert (0 <= b' / 4096 <= b') by (split; [apply Z.div_pos|apply Z.div_le_upper_bound]; lia).
      rewrite !u32_small in E by lia. lia. }
    destruct (Z.eqb_spec (b' mod 4096) (b mod 4096)), (Z.eqb_spec b' b); try done; try lia; congruence.
  - rewrite blk_set_ne by done. destruct (Z.eqb_spec b' b) as [->|]; [done|done].
Qed.

(** [b] is not one of the blocks of the free map. *)
Definition not_map (sb : superblock) (b : Z) : Prop := forall b', 0 <= b' < sb_size sb -> BBLOCK b' sb <> b.

Lemma bblock_bits c sb b : map_ok c sb -> 0 <= b < sb_size sb -> 0 <= b mod BPB < 8 * Z.of_nat (length (c (BBLOCK b sb))).
Proof.
  intros M Hb. destruct (mp_block _ _ M b Hb) as [_ ->]. unfold BPB. pose proof (Z.mod_pos_bound b 4096 ltac:(lia)).
  change (Z.to_nat BSIZE) with 512%nat. lia.
Qed.

Lemma taken_in_use c sb b : map_ok c sb -> disksize <= 2147483647 -> 0 <= b < sb_size sb -> not_map sb b ->
  forall b', 0 <= b' < sb_size sb -> in_use (taken c sb b) sb b' = if b' =? b then true else in_use c sb b'.
Proof.
  intros M Hd Hb Hm. apply (in_use_flip c _ sb b true (set_bit (b mod BPB))); try done.
  - intros b' Hb'. unfold taken. by rewrite blk_set_ne by (by apply Hm).
  - intros j Hj. apply bit_of_set; [by apply bblock_bits | done].
Qed.

Definition freed (c : disk) (sb : superblock) (b : Z) : disk :=
  blk_set (BBLOCK b sb) (clear_bit (b mod BPB) (c (BBLOCK b sb))) c.

Lemma freed_in_use c sb b : map_ok c sb -> disksize <= 2147483647 -> 0 <= b < sb_size sb ->
  forall b', 0 <= b' < sb_size sb -> in_use (freed c sb b) sb b' = if b' =? b then false else in_use c sb b'.
Proof.
  intros M Hd Hb. apply (in_use_flip c _ sb b false (clear_bit (b mod BPB))); try done.
  intros j Hj. apply bit_of_clear; [by apply bblock_bits | done].
Qed.

Lemma bfree_run s c bs b :
  in_trans s c bs [] -> 1 <= log_outstanding (k_log s) -> sz <= LOGSIZE -> Z.of_nat (length bs) < sz - 1 ->
  1 < disksize -> let sb := decode_sb (c 1) in map_ok c sb -> 0 <= b < sb_size sb ->
  if in_use c sb b
  then exists s', bfree (S n) 1 b s = Ret tt s' /\ in_trans s' (freed c sb b) (absorb (BBLOCK b sb) bs) [] /\
    k_sb s' = sb /\ k_disk s' = k_disk s
  else exists s', bfree (S n) 1 b s = Panic "freeing free block" s'.
Proof.
  intros Ht Ho Hsz Hn H1 sb M Hb. unfold bfree, readsb.
  destruct (bread_in_trans pi n st sz s c bs 1 Ht) as (i & s1 & E1 & Ht1 & B1 & D1 & F1); [lia|].
  destruct (brelse_in_trans pi st sz s1 c bs i Ht1) as (s2 & E2 & Ht2 & F2); [by rewrite B1|].
  assert (forall K : superblock -> kprog unit, (x <- (bp <- bread (S n) 1 1;; y <- gets (fun s => decode_sb (b_data (buf_at bp s)));;
    brelse bp;;; ret y);; K x) s = K sb s2) as Er.
  { intros K. rewrite bind_assoc. mret E1. rewrite bind_assoc, bind_gets, D1, bind_assoc. mret E2. done. }
  rewrite Er, bind_modify. set (s3 := set_k_sb sb s2).
  assert (in_trans s3 c bs []) as Ht3 by (destruct Ht2 as [[] ? ? ? ?]; by split; [split|..]).
  destruct (mp_block _ _ M b Hb) as [Hbb Hlen]. assert (log_outstanding (k_log s3) = log_outstanding (k_log s)) as Eo.
  { unfold s3. cbn [k_log set_k_sb]. by rewrite (of_outstanding _ _ F2), (of_outstanding _ _ F1). }
  destruct (bread_in_trans pi n st sz s3 c bs _ Ht3 (proj1 Hbb)) as (i4 & s4 & E4 & Ht4 & B4 & D4 & F4).
  unfold in_use. destruct (bit_of (b mod BPB) (c (BBLOCK b sb))) eqn:Ebit.
  - mret E4. rewrite bind_gets, D4, Ebit. cbn [negb].
    destruct (edit_block pi st sz s4 c bs i4 (clear_bit (b mod BPB)) Ht4) as (s5 & E5 & Ht5 & F5);
      rewrite ?B4, ?D4, ?(of_outstanding _ _ F4), ?Eo; try done.
    rewrite B4 in Ht5. exists s5. split_and!; [done|done|by rewrite (of_sb _ _ F5), (of_sb _ _ F4)|].
    rewrite (of_disk _ _ F5), (of_disk _ _ F4). unfold s3. cbn [k_disk set_k_sb]. by rewrite (of_disk _ _ F2), (of_disk _ _ F1).
  - mret E4. rewrite bind_gets, D4, Ebit. eauto.
Qed.

End FreeMap.

(** C33: the free map.  Inside a transaction with room for three more blocks, balloc finds
    the first free block, marks it and no other block as in use, and hands it out
    zeroed; bfree of it makes the map what it was; and when every block is in use
    balloc panics. *)
Theorem balloc_bfree_free_map `{DL : BlockDriverLaws} (pi n : nat) (st sz : Z) s c bs :
  in_trans disksize pi st sz s c bs [] -> 1 <= log_outstanding (k_log s) -> sz <= LOGSIZE ->
  Z.of_nat (length bs) + 3 <= sz - 1 -> 1 < disksize ->
  let sb := k_sb s in decode_sb (c 1) = sb -> map_ok (disksize := disksize) st sz c sb -> not_map sb 1 ->
  (forall b, 0 <= b < sb_size sb -> in_use c sb b = false ->
     data_block (disksize := disksize) st sz b /\ not_map sb b /\ b <> 1) ->
  (forall b, 0 <= b < sb_size sb -> in_use c sb b = false -> (forall b', 0 <= b' < b -> in_use c sb b' = true) ->
     exists s1 c1 bs1 s2 c2 bs2,
       balloc (S n) 1 s = Ret b s1 /\ in_trans disksize pi st sz s1 c1 bs1 [] /\ c1 b = replicate (Z.to_nat BSIZE) 0 /\
       (forall b', 0 <= b' < sb_size sb -> in_use c1 sb b' = if b' =? b then true else in_use c sb b') /\
       bfree (S n) 1 b s1 = Ret tt s2 /\ in_trans disksize pi st sz s2 c2 bs2 [] /\
       (forall b', 0 <= b' < sb_size sb -> in_use c2 sb b' = in_use c sb b') /\ k_disk s2 = k_disk s) /\
  ((forall b, 0 <= b < sb_size sb -> in_use c sb b = true) ->
     exists s', balloc (S n) 1 s = Panic "balloc: out of blocks" s').
Proof.
  intros Ht Ho Hsz Hn Hdisk sb Esb M Hm1 Hfree. pose proof (lo_max _ _ _ _ (tr_layout _ _ _ _ _ _ _ Ht)) as Hmax.
  destruct (balloc_scan pi n st sz (Z.to_nat ((sb_size sb + BPB - 1) / BPB)) 0 s c bs) as [A1 A2]; try done; try lia.
  { rewrite Nat.add_0_l, Z2Nat.id; [done|]. apply Z.div_pos; unfold BPB; [|lia]. pose proof (mp_size _ _ _ _ M). unfold sb in *. lia. }
  { intros b Hb Hf. by apply Hfree. }
  fold sb in A1, A2. rewrite Z.mul_0_l in A1, A2. unfold balloc. split.
  - intros b Hb Hbf Hlow. destruct (A1 b Hb Hbf Hlow) as (s1 & E1 & Ht1 & F1). destruct (Hfree b Hb Hbf) as (Hdb & Hnm & Hb1).
    assert (taken c sb b 1 = c 1) as Et1 by (unfold taken; rewrite !blk_set_ne; [done|by apply not_eq_sym, Hm1|done]).
    pose proof (length_absorb b (absorb (BBLOCK b sb) bs)). pose proof (length_absorb (BBLOCK b sb) bs).
    assert (map_ok (disksize := disksize) st sz (taken c sb b) sb) as M1.
    { destruct M as [M1 M2 M3]. split; try done. intros b' Hb'. destruct (M3 b' Hb') as [N1 N2]. split; [done|].
      unfold taken. rewrite (blk_set_ne b) by (by apply Hnm). destruct (decide (BBLOCK b' sb = BBLOCK b sb)) as [->|]; [|by rewrite blk_set_ne].
      rewrite blk_set_eq. unfold set_bit. rewrite length_alter. by apply M3. }
    pose proof (bfree_run pi n st sz s1 (taken c sb b) _ b Ht1) as Hbf'. cbv zeta in Hbf'. rewrite Et1, Esb in Hbf'.
    rewrite (taken_in_use st sz c sb b M Hmax Hb Hnm b Hb), Z.eqb_refl, (of_outstanding _ _ F1) in Hbf'.
    destruct Hbf' as (s2 & E2 & Ht2 & _ & D2); try done; try lia.
    eexists s1, (taken c sb b), _, s2, (freed (taken c sb b) sb b), _. split_and!; [|exact Ht1| | |exact E2|exact Ht2| |].
    + rewrite bind_gets. fold sb. mret E1. done.
    + unfold taken. by rewrite blk_set_eq.
    + by apply (taken_in_use st sz c sb b M Hmax Hb Hnm).
    + intros b' Hb'. rewrite (freed_in_use st sz _ sb b M1 Hmax Hb b' Hb'), (taken_in_use st sz c sb b M Hmax Hb Hnm b' Hb').
      by destruct (Z.eqb_spec b' b) as [->|].
    + by rewrite D2, (of_disk _ _ F1).
  - intros Hall. destruct (A2 Hall) as (s1 & E1 & _). exists s1. rewrite bind_gets. fold sb. mret E1. done.
Qed.

(** A disk of 1000 blocks whose first 100 are in use. *)
Definition map_disk : disk := fun b =>
  if b =? 1 then put32 0 1000 (put32 12 30 (put32 16 2 (put32 20 40 (put32 24 70 (replicate 512 0)))))
  else if b =? 70 then replicate 12 255 ++ [15] ++ replicate 499 0 else replicate 512 0.
Definition with_map (s : kstate) : kstate := set_k_sb (decode_sb (map_disk 1)) (open_op s).

Lemma map_disk_use b : 0 <= b < 1000 -> in_use map_disk (decode_sb (map_disk 1)) b = (b <? 100).
Proof.
  intros Hb. assert (forallb (fun b => Bool.eqb (in_use map_disk (decode_sb (map_disk 1)) b) (b <? 100)) (seqZ 0 1000) = true) as E
    by (vm_compute; reflexivity).
  rewrite forallb_forall in E. apply Bool.eqb_prop, E, list_elem_of_In, elem_of_seqZ. lia.
Qed.

Lemma map_disk_map b : 0 <= b < 1000 -> BBLOCK b (decode_sb (map_disk 1)) = 70.
Proof.
  intros Hb. change (decode_sb (map_disk 1)) with (Superblock 1000 0 0 30 2 40 70). unfold BBLOCK, BPB. rewrite Z.div_small by lia. done.
Qed.

Lemma balloc_bfree_free_map_witness : exists s0 s1 s2, binit (set_k_disk map_disk two_procs) = Ret tt s0 /\
  balloc (DR := memd) 1 1 (with_map s0) = Ret 100 s1 /\ bfree (DR := memd) 1 1 100 s1 = Ret tt s2.
Proof.
  destruct (open_disk_trans map_disk) as (s0 & E0 & Ht & _).
  assert (in_trans 1000 1 2 30 (with_map s0) map_disk [] []) as Ht' by (destruct Ht as [[] ? ? ? ?]; by split; [split|..]).
  destruct (balloc_bfree_free_map (H := memd) (disksize := 1000) 1 0 2 30 (with_map s0) map_disk [] Ht') as [Hb _].
  - vm_compute. discriminate.
  - vm_compute. discriminate.
  - vm_compute. discriminate.
  - lia.
  - reflexivity.
  - split; [vm_compute; split; discriminate|vm_compute; split; [discriminate|reflexivity]|].
    intros b Hlt. change (k_sb (with_map s0)) with (decode_sb (map_disk 1)) in *. rewrite (map_disk_map b Hlt).
    split; [unfold data_block, outside; lia | reflexivity].
  - intros b Hlt. change (k_sb (with_map s0)) with (decode_sb (map_disk 1)) in *. rewrite (map_disk_map b Hlt). discriminate.
  - intros b Hlt. change (k_sb (with_map s0)) with (decode_sb (map_disk 1)) in *. change (0 <= b < 1000) in Hlt.
    rewrite (map_disk_use b Hlt). intros Hf. apply Z.ltb_ge in Hf. unfold data_block, outside. split_and!; try lia.
    intros b' Hlt'. rewrite (map_disk_map b' Hlt'). lia.
  - destruct (Hb 100) as (s1 & c1 & bs1 & s2 & c2 & bs2 & E1 & _ & _ & _ & E2 & _).
    + vm_compute. split; [discriminate|reflexivity].
    + vm_compute. reflexivity.
    + intros b' Hlt. change (k_sb (with_map s0)) with (decode_sb (map_disk 1)). rewrite map_disk_use by lia. apply Z.ltb_lt. lia.
    + exists s0, s1, s2. split_and!; [exact E0|exact E1|exact E2].
Defined.

(** ** Paths *)

(** The elements of a path: the non-empty stretches between its slashes. *)
Fixpoint split_at_slash (path : list Z) : list (list Z) :=
  match path with
  | [] => [[]]
  | c :: path =>
    if c =? slash then [] :: split_at_slash path
    else match split_at_slash path with e :: es => (c :: e) :: es | [] => [[c]] end
  end.
Definition elements (path : list Z) : list (list Z) := filter (fun e => e <> []) (split_at_slash path).

(** The string in a name buffer, which is NUL-terminated unless it fills the buffer. *)
Fixpoint until_nul (l : list Z) : list Z :=
  match l with [] => [] | c :: l => if c =? 0 then [] else c :: until_nul l end.
Definition name_str (name : list Z) : list Z := until_nul (take DIRSIZ name).

(** The names that repeated calls of skipelem produce, in at most [k] calls that find one. *)
Fixpoint walk_path (k : nat) (path name : list Z) : option (list (list Z)) :=
  match skipelem path name with
  | None => Some []
  | Some (path, name) =>
    match k with O => None | S k => cons (name_str name) <$> walk_path k path name end
  end.

Lemma split_at_slash_ne path : split_at_slash path <> [].
Proof. destruct path as [|c path]; cbn; [done|]. destruct (c =? slash); [done|]. by destruct (split_at_slash path). Qed.

Lemma elements_skip path : elements (skip_slashes path) = elements path.
Proof.
  induction path as [|c path IH]; [done|]. cbn [skip_slashes]. destruct (Z.eqb_spec c slash) as [->|Hc]; [|done].
  rewrite IH. unfold elements. cbn [split_at_slash]. rewrite Z.eqb_refl, filter_cons_False by naive_solver. done.
Qed.

Lemma skip_slashes_head path : match skip_slashes path with c :: _ => c <> slash | [] => True end.
Proof. induction path as [|c path IH]; cbn; [done|]. destruct (Z.eqb_spec c slash); done. Qed.

Lemma skip_slashes_suffix path : exists pre, path = pre ++ skip_slashes path.
Proof.
  induction path as [|c path [pre IH]]; cbn; [by exists []|].
  destruct (c =? slash); [exists (c :: pre); by rewrite IH at 1 | by exists []].
Qed.

Lemma take_elem_spec path e r : take_elem path = (e, r) ->
  path = e ++ r /\ Forall (fun c => c <> slash) e /\
  exists es, split_at_slash path = e :: es /\ filter (fun e => e <> []) es = elements r.
Proof.
  revert e. induction path as [|c path IH]; intros e; cbn [take_elem].
  { intros [= <- <-]. split_and!; try done. by exists []. }
  destruct (Z.eqb_spec c slash) as [->|Hc].
  { intros [= <- <-]. split_and!; try done. exists (split_at_slash path). cbn [split_at_slash]. rewrite Z.eqb_refl.
    split; [done|]. unfold elements. cbn [split_at_slash]. by rewrite Z.eqb_refl, filter_cons_False by naive_solver. }
  destruct (take_elem path) as [e' r'] eqn:E. intros [= <- <-]. destruct (IH e' eq_refl) as (-> & Hf & es & Es & Ef).
  split_and!; [done|by constructor|]. exists es. cbn [split_at_slash]. rewrite (proj2 (Z.eqb_neq _ _) Hc), Es. done.
Qed.

Lemma until_nul_all l : Forall (fun c => c <> 0) l -> until_nul l = l.
Proof. induction 1 as [|c l Hc Hl IH]; cbn; [done|]. rewrite (proj2 (Z.eqb_neq _ _) Hc). by rewrite IH. Qed.

Lemma until_nul_stop l r : Forall (fun c => c <> 0) l -> until_nul (l ++ 0 :: r) = l.
Proof. induction 1 as [|c l Hc Hl IH]; cbn; [done|]. rewrite (proj2 (Z.eqb_neq _ _) Hc). by rewrite IH. Qed.

(** One call of skipelem: the first element goes to the name, and the rest is shorter. *)
Lemma skipelem_spec path name :
  Forall (fun c => c <> 0) path -> length name = DIRSIZ ->
  match skipelem path name with
  | None => elements path = []
  | Some (path', name') => exists e, elements path = e :: elements path' /\ name_str name' = take DIRSIZ e /\
      length name' = DIRSIZ /\ Forall (fun c => c <> 0) path' /\ (length path' < length path)%nat
  end.
Proof.
  intros H0 Hn. unfold skipelem. rewrite <- (elements_skip path). destruct (skip_slashes_suffix path) as [pre Hpre].
  assert (Forall (fun c => c <> 0) (skip_slashes path) /\ (length (skip_slashes path) <= length path)%nat) as [H0' Hlen].
  { pose proof Hpre as Hl. apply (f_equal length) in Hl. rewrite length_app in Hl.
    rewrite Hpre in H0. apply Forall_app in H0 as [_ ?]. split; [done|lia]. }
  pose proof (skip_slashes_head path) as Hh. destruct (skip_slashes path) as [|c p] eqn:Ep; [done|]. rewrite <- Ep in *. clear Hpre.
  destruct (take_elem (skip_slashes path)) as [e r] eqn:Et. destruct (take_elem_spec _ _ _ Et) as (Es & Hf & es & Esp & Efil).
  assert (e <> []) as Hne.
  { intros ->. rewrite Ep in Et. cbn [take_elem] in Et. rewrite (proj2 (Z.eqb_neq _ _) Hh) in Et. by destruct (take_elem p). }
  rewrite Es in H0', Hlen. apply Forall_app in H0' as [He Hr]. rewrite length_app in Hlen.
  destruct (skip_slashes_suffix r) as [pre' Hpre']. exists e. split_and!.
  - unfold elements at 1. rewrite Esp, filter_cons_True by done. f_equal. by rewrite Efil, elements_skip.
  - unfold name_str. destruct (Nat.leb_spec DIRSIZ (length e)) as [Hl|Hl].
    + rewrite take_take, Nat.min_id. apply until_nul_all. by apply Forall_take.
    + replace (splice 0 (e ++ [0]) name) with (e ++ 0 :: drop (0 + length (e ++ [0])) name)
        by (unfold splice; by rewrite <- app_assoc).
      rewrite take_app, (take_ge e) by lia. destruct (DIRSIZ - length e)%nat as [|k] eqn:Ek; [lia|]. cbn [take].
      by apply until_nul_stop.
  - destruct (Nat.leb_spec DIRSIZ (length e)) as [Hl|Hl]; [rewrite length_take; lia|].
    rewrite length_splice; [done|]. rewrite length_app. simpl. lia.
  - rewrite Hpre' in Hr. by apply Forall_app in Hr as [_ ?].
  - apply (f_equal length) in Hpre'. rewrite length_app in Hpre'.
    destruct e; [done|]. simpl in *. lia.
Qed.

(** path names are taken apart right.  Repeated calls of skipelem, with any initial
    name buffer of 14 bytes, produce the non-empty elements of the path between its
    slashes, each cut to 14 bytes, in order, and come to the end within as many calls as
    the path has characters. *)
Theorem skipelem_walks_path (path name : list Z) :
  Forall (fun c => c <> 0) path -> length name = DIRSIZ ->
  walk_path (length path) path name = Some (map (take DIRSIZ) (elements path)).
Proof.
  intros H0 Hn. assert (forall k path name, (length path <= k)%nat -> Forall (fun c => c <> 0) path -> length name = DIRSIZ ->
    walk_path k path name = Some (map (take DIRSIZ) (elements path))) as H; [|by apply H].
  clear. induction k as [|k IH]; intros path name Hk H0 Hn; cbn [walk_path]; pose proof (skipelem_spec path name H0 Hn) as Hs;
    destruct (skipelem path name) as [[path' name']|]; try by rewrite Hs.
  - destruct Hs as (e & _ & _ & _ & _ & Hl). lia.
  - destruct Hs as (e & -> & Hname & Hn' & H0' & Hl). rewrite IH, Hname; [done|lia|done|done].
Qed.

Lemma skipelem_walks_path_witness :
  walk_path 26 (lit "/usr//a_very_long_name_1/x") (replicate 14 0) = Some [lit "usr"; lit "a_very_long_na"; lit "x"].
Proof.
  change 26%nat with (length (lit "/usr//a_very_long_name_1/x")).
  rewrite (skipelem_walks_path (lit "/usr//a_very_long_name_1/x") (replicate 14 0)).
  - vm_compute. reflexivity.
  - repeat constructor; discriminate.
  - reflexivity.
Defined.

(** The bound on namex's loop is never what ends it: any bound from the length of the
    path on gives the same run. *)
Lemma namex_loop_bound `{DR : BlockDriver} `{DV : DevSw} fuel k k' ip path parent name :
  Forall (fun c => c <> 0) path -> length name = DIRSIZ -> (length path <= k)%nat -> (length path <= k')%nat ->
  namex_loop fuel k ip path parent name = namex_loop fuel k' ip path parent name.
Proof.
  revert k' ip path name. induction k as [|k IH]; intros k' ip path name H0 Hn Hk Hk';
    pose proof (skipelem_spec path name H0 Hn) as Hs; destruct k' as [|k']; cbn [namex_loop]; try done;
    destruct (skipelem path name) as [[path' name']|]; try done; destruct Hs as (e & _ & _ & Hn' & H0' & Hl); try lia.
  f_equal. apply functional_extensionality. intros []. f_equal. apply functional_extensionality. intros x.
  destruct (negb (i_type x =? T_DIR)); [done|]. destruct (parent && _); [done|].
  f_equal. apply functional_extensionality. intros [[next off]|]; [|done].
  f_equal. apply functional_extensionality. intros []. apply IH; [done|done|lia|lia].
Qed.
