(* ===== verification/Dir.v ===== *)
(** * Dir: directories as maps from names to inode numbers

    The theory of dirlookup and dirlink of fs.c, which are defined in Fs: what a directory
    file says of a name, and how linking changes it. *)

From S2P Require Import Prelude Machine Spinlock Cstring Ktrace Layout Kalloc Vm Sched Sleeplock Bio Log Fs.
#[local] Open Scope prog_scope.

(** ** Names

    strncpy brings a name into a form of 14 bytes, and strncmp compares these forms. *)

Lemma bytes_cmp_zero n s t : bytes_cmp n s t = 0 <-> bytes_cpy n s = bytes_cpy n t.
Proof.
  revert s t. induction n as [|n IH]; intros s t; [done|]. cbn [bytes_cmp bytes_cpy].
  destruct (Z.eqb_spec (hd 0 s) 0) as [Es|Es]; cbn [negb andb].
  - destruct (Z.eqb_spec (hd 0 t) 0) as [Et|Et]; split; intros H; try lia; try done. by injection H.
  - destruct (Z.eqb_spec (hd 0 s) (hd 0 t)) as [E|E]; cbn [andb].
    + rewrite <- E, (proj2 (Z.eqb_neq _ _) Es), IH. split; [by intros ->|by intros [= ->]].
    + split; [lia|]. destruct (Z.eqb_spec (hd 0 t) 0); [by intros [= ]|by intros [= ]].
Qed.

Lemma bytes_cpy_zeros n : bytes_cpy n (replicate n 0) = replicate n 0.
Proof. destruct n; done. Qed.

Lemma bytes_cpy_idem n t : bytes_cpy n (bytes_cpy n t) = bytes_cpy n t.
Proof.
  revert t. induction n as [|n IH]; intros t; [done|]. cbn [bytes_cpy]. destruct (Z.eqb_spec (hd 0 t) 0) as [E|E]; [done|].
  cbn [hd tl]. rewrite (proj2 (Z.eqb_neq _ _) E). by rewrite IH.
Qed.

Lemma length_cpy n t : length (bytes_cpy n t) = n.
Proof. revert t. induction n as [|n IH]; intros t; [done|]. cbn [bytes_cpy]. destruct (_ =? _); [by rewrite length_replicate|cbn; by rewrite IH]. Qed.

Definition same_name (a b : list Z) : Prop := bytes_cpy DIRSIZ a = bytes_cpy DIRSIZ b.
#[export] Instance same_name_dec a b : Decision (same_name a b) := decide (bytes_cpy DIRSIZ a = bytes_cpy DIRSIZ b).

(** ** What a directory says *)

(** Entry [k] of the directory [x]. *)
Definition dirent_at (c : disk) (x : inode) (k : nat) : list Z := file_bytes c x (16 * Z.of_nat k) 16.

Definition used (de : list Z) : bool := negb (de_inum de =? 0).
Definition names (name de : list Z) : bool := used de && bool_decide (same_name name (de_name de)).

(** The inode number that the first [cnt] entries give to a name, and where. *)
Definition dir_lookup (c : disk) (x : inode) (cnt : nat) (name : list Z) : option (Z * Z) :=
  (fun k => (de_inum (dirent_at c x k), 16 * Z.of_nat k)) <$> find (fun k => names name (dirent_at c x k)) (seq 0 cnt).

(** The first free entry, or the one behind the last. *)
Definition free_slot (c : disk) (x : inode) (cnt : nat) : nat :=
  default cnt (find (fun k => negb (used (dirent_at c x k))) (seq 0 cnt)).

Lemma find_split {A} (p : A -> bool) l : match find p l with
  | Some x => exists l1 l2, l = l1 ++ x :: l2 /\ p x = true /\ forall y, y ∈ l1 -> p y = false
  | None => forall y, y ∈ l -> p y = false
  end.
Proof.
  induction l as [|a l IH]; cbn [find]; [by intros y ?%not_elem_of_nil|]. destruct (p a) eqn:Ea.
  - exists [], l. split_and!; [done|done|by intros y ?%not_elem_of_nil].
  - destruct (find p l) as [x|].
    + destruct IH as (l1 & l2 & -> & Hx & Hl). exists (a :: l1), l2. split_and!; [done|done|]. intros y [->|Hy]%elem_of_cons; auto.
    + intros y [->|Hy]%elem_of_cons; auto.
Qed.

Lemma find_same {A} (p q : A -> bool) l : (forall x, x ∈ l -> p x = q x) -> find p l = find q l.
Proof. induction l as [|a l IH]; intros H; [done|]. cbn [find]. rewrite (H a) by left. destruct (q a); [done|]. apply IH. intros x Hx. apply H. by right. Qed.

Lemma find_none {A} (p : A -> bool) l : (forall x, x ∈ l -> p x = false) -> find p l = None.
Proof. induction l as [|a l IH]; intros H; [done|]. cbn [find]. rewrite (H a) by left. apply IH. intros x Hx. apply H. by right. Qed.

Lemma find_app_none {A} (p : A -> bool) l1 l2 : find p l1 = None -> find p (l1 ++ l2) = find p l2.
Proof. induction l1 as [|a l IH]; intros H; [done|]. cbn [find app] in *. destruct (p a); [done|]. auto. Qed.

Lemma find_app_l {A} (p : A -> bool) l1 l2 : find p l2 = None -> find p (l1 ++ l2) = find p l1.
Proof. intros H. induction l1 as [|a l IH]; [done|]. cbn [find app]. by destruct (p a). Qed.

(** A directory with [cnt] entries, in a transaction. *)
Record dir_ok {disksize : Z} (pi : nat) (st sz : Z) (s : kstate) (c : disk) (bs : list Z) (dp : nat) (nb : Z) (cnt : nat) : Prop := Dir_ok {
  do_trans : in_trans disksize pi st sz s c bs [];
  do_type : i_type (inode_at dp s) = T_DIR;
  do_file : @file_ok disksize st sz c (inode_at dp s) nb;
  do_size : i_size (inode_at dp s) = 16 * Z.of_nat cnt;
  do_room : 16 * Z.of_nat cnt <= nb * BSIZE
}.

Section Dir.
Context `{DL : BlockDriverLaws} `{DV : DevSw} (pi n : nat) (st sz : Z).
Notation in_trans := (in_trans disksize pi st sz).
Notation dir_ok := (dir_ok (disksize := disksize) pi st sz).

Lemma dir_ok_frame s s' c bs dp nb cnt : dir_ok s c bs dp nb cnt -> in_trans s' c bs [] -> op_frame s s' -> dir_ok s' c bs dp nb cnt.
Proof. intros [] Ht F. split; rewrite ?(inode_at_frame _ _ dp F); done. Qed.

Lemma dir_read s c bs dp nb cnt k : dir_ok s c bs dp nb cnt -> (k < cnt)%nat ->
  exists s', readi (S n) dp None (16 * Z.of_nat k) 16 s = Ret (16, dirent_at c (inode_at dp s) k) s' /\ dir_ok s' c bs dp nb cnt /\ op_frame s s'.
Proof.
  intros D Hk. destruct (D) as [Ht Hty F Hsz Hr]. pose proof (fo_max _ _ _ _ _ F) as Hmax. unfold MAXFILE in Hmax. change BSIZE with 512 in *.
  destruct (readi_run pi n st sz s c bs dp nb (16 * Z.of_nat k) 16 Ht F) as (s' & E & Ht' & F'); change BSIZE with 512; try lia.
  { rewrite Hty. done. }
  rewrite Hsz, Z.min_l in E by lia. exists s'. split_and!; [exact E|by eapply dir_ok_frame|done].
Qed.

(** A loop over the entries that leaves alone those that it is not looking for. *)
Definition dir_scan {R} (dp : nat) (msg : string) (f : nat -> list Z -> kprog (option R)) (k : nat) : kprog (option R) :=
  r <- readi (S n) dp None (16 * Z.of_nat k) 16;;
  let '(r, de) := r in
  if negb (r =? 16) then panic msg else f k de.


Lemma dir_scan_none {R} dp msg (f : nat -> list Z -> kprog (option R)) x ks s c bs nb cnt : dir_ok s c bs dp nb cnt -> inode_at dp s = x ->
  (forall k, k ∈ ks -> (k < cnt)%nat) -> (forall k s, k ∈ ks -> f k (dirent_at c x k) s = Ret None s) ->
  exists s', for_break ks (dir_scan dp msg f) s = Ret None s' /\ dir_ok s' c bs dp nb cnt /\ op_frame s s'.
Proof.
  intros D Ex. revert s D Ex. induction ks as [|k ks IH]; intros s D Ex Hk Hf; cbn [for_break].
  { exists s. by split_and!. }
  destruct (dir_read s c bs dp nb cnt k D (Hk k ltac:(by left))) as (s1 & E1 & D1 & F1). rewrite Ex in E1.
  destruct (IH s1 D1) as (s2 & E2 & D2 & F2); [by rewrite (inode_at_frame _ _ dp F1)|intros j Hj; apply Hk; by right|intros j s' Hj; apply Hf; by right|].
  exists s2. split_and!; [|done|by eapply op_frame_trans].
  unfold dir_scan at 1. rewrite bind_assoc. mret E1. cbn [Z.eqb Pos.eqb negb]. rewrite (bind_Ret _ _ _ _ _ (Hf k s1 ltac:(by left))). exact E2.
Qed.

Lemma dir_scan_first {R} dp msg (f : nat -> list Z -> kprog (option R)) x ks1 k ks2 s c bs nb cnt : dir_ok s c bs dp nb cnt -> inode_at dp s = x ->
  (forall j, j ∈ ks1 ++ [k] -> (j < cnt)%nat) -> (forall j s, j ∈ ks1 -> f j (dirent_at c x j) s = Ret None s) ->
  exists s', for_break (ks1 ++ k :: ks2) (dir_scan dp msg f) s =
      (r <- f k (dirent_at c x k);; match r with Some v => ret (Some v) | None => for_break ks2 (dir_scan dp msg f) end) s' /\
    dir_ok s' c bs dp nb cnt /\ op_frame s s'.
Proof.
  intros D Ex. revert s D Ex. induction ks1 as [|j ks IH]; intros s D Ex Hk Hf; cbn [app for_break].
  - destruct (dir_read s c bs dp nb cnt k D (Hk k ltac:(by left))) as (s1 & E1 & D1 & F1). rewrite Ex in E1.
    exists s1. split_and!; [|done|done]. unfold dir_scan at 1. rewrite bind_assoc. mret E1. done.
  - destruct (dir_read s c bs dp nb cnt j D (Hk j ltac:(by left))) as (s1 & E1 & D1 & F1). rewrite Ex in E1.
    destruct (IH s1 D1) as (s2 & E2 & D2 & F2); [by rewrite (inode_at_frame _ _ dp F1)|intros i Hi; apply Hk; by right|intros i s' Hi; apply Hf; by right|].
    exists s2. split_and!; [|done|by eapply op_frame_trans].
    unfold dir_scan at 1. rewrite bind_assoc. mret E1. cbn [Z.eqb Pos.eqb negb]. rewrite (bind_Ret _ _ _ _ _ (Hf j s1 ltac:(by left))). exact E2.
Qed.

Lemma dirents_cnt cnt : dirents (16 * Z.of_nat cnt) = cnt.
Proof. unfold dirents. Z.div_mod_to_equations. lia. Qed.

(** dirlookup ends with the inode of the first entry that has the name. *)
Lemma dirlookup_run s c bs dp nb cnt name : dir_ok s c bs dp nb cnt ->
  exists s', dir_ok s' c bs dp nb cnt /\ op_frame s s' /\
    dirlookup (S n) dp name s = match dir_lookup c (inode_at dp s) cnt name with
      | None => Ret None s'
      | Some (inum, off) => (ip <- iget 1 inum;; ret (Some (ip, off))) s'
      end.
Proof.
  intros D. destruct (D) as [Ht Hty F Hsz Hr]. unfold dirlookup. rewrite bind_gets, Hty. cbn [negb Z.eqb T_DIR Pos.eqb]. rewrite Hsz, dirents_cnt.
  set (x := inode_at dp s) in *.
  set (f := fun (k : nat) (de : list Z) => if de_inum de =? 0 then ret None else if namecmp name (de_name de) =? 0 then
    x <- gets (inode_at dp);; ip <- iget (i_dev x) (de_inum de);; ret (Some (ip, 16 * Z.of_nat k)) else ret None).
  change (for_break (seq 0 cnt) _) with (for_break (seq 0 cnt) (dir_scan dp "dirlookup read" f)).
  assert (forall k s, names name (dirent_at c x k) = false -> f k (dirent_at c x k) s = Ret None s) as Hmiss.
  { intros k s' Hk. unfold f, names, used in *. destruct (de_inum _ =? 0); [done|]. cbn [negb andb] in Hk. apply bool_decide_eq_false in Hk.
    unfold namecmp. destruct (Z.eqb_spec (bytes_cmp DIRSIZ name (de_name (dirent_at c x k))) 0) as [E|]; [|done]. by apply bytes_cmp_zero in E. }
  unfold dir_lookup. pose proof (find_split (fun k => names name (dirent_at c x k)) (seq 0 cnt)) as Hs.
  destruct (find _ _) as [k|]; cbn [fmap option_fmap option_map].
  - destruct Hs as (l1 & l2 & El & Hk & Hl). rewrite El.
    assert (forall j, j ∈ l1 ++ [k] -> (j < cnt)%nat) as Hin.
    { intros j Hj. assert (j ∈ seq 0 cnt) as Hj' by (rewrite El; set_solver). apply elem_of_seq in Hj'. lia. }
    destruct (dir_scan_first dp "dirlookup read" f x l1 k l2 s c bs nb cnt D eq_refl Hin) as (s' & E & D' & F'); [intros j s' Hj; auto|].
    exists s'. split_and!; [done|done|]. rewrite E. unfold f, names, used in *. apply andb_prop in Hk as [Hk1 Hk2].
    apply negb_true_iff in Hk1. rewrite Hk1. apply bool_decide_eq_true in Hk2. unfold namecmp. rewrite (proj2 (bytes_cmp_zero _ _ _) Hk2). cbn [Z.eqb].
    rewrite bind_assoc, bind_gets, (inode_at_frame _ _ dp F'). fold x. rewrite (fo_dev _ _ _ _ _ F), !bind_assoc. apply bind_ext. intros ip s2. by rewrite bind_ret.
  - destruct (dir_scan_none dp "dirlookup read" f x (seq 0 cnt) s c bs nb cnt D eq_refl) as (s' & E & D' & F').
    + intros k Hk. apply elem_of_seq in Hk. lia.
    + intros k s' Hk. apply Hmiss. auto.
    + exists s'. by split_and!.
Qed.

(** The loop of dirlink finds the first free entry. *)
Lemma free_scan_run s c bs dp nb cnt : dir_ok s c bs dp nb cnt -> let x := inode_at dp s in
  exists s', dir_ok s' c bs dp nb cnt /\ op_frame s s' /\
    for_break (seq 0 cnt) (dir_scan dp "dirlink read" (fun k de => ret (if de_inum de =? 0 then Some (16 * Z.of_nat k) else None))) s =
    Ret ((fun k => 16 * Z.of_nat k) <$> find (fun k => negb (used (dirent_at c x k))) (seq 0 cnt)) s'.
Proof.
  intros D x. pose proof (find_split (fun k => negb (used (dirent_at c x k))) (seq 0 cnt)) as Hs. unfold used in *.
  destruct (find _ _) as [k|]; cbn [fmap option_fmap option_map].
  - destruct Hs as (l1 & l2 & El & Hk & Hl). rewrite El.
    destruct (dir_scan_first dp "dirlink read" (fun k de => ret (if de_inum de =? 0 then Some (16 * Z.of_nat k) else None)) x l1 k l2 s c bs nb cnt D eq_refl) as (s' & E & D' & F').
    + intros j Hj. assert (j ∈ seq 0 cnt) as Hj' by (rewrite El; set_solver). apply elem_of_seq in Hj'. lia.
    + intros j s' Hj. specialize (Hl j Hj). rewrite negb_involutive in Hl. by rewrite Hl.
    + exists s'. split_and!; [done|done|]. rewrite E. rewrite negb_involutive in Hk. by rewrite Hk, bind_ret.
  - destruct (dir_scan_none dp "dirlink read" (fun k de => ret (if de_inum de =? 0 then Some (16 * Z.of_nat k) else None)) x (seq 0 cnt) s c bs nb cnt D eq_refl) as (s' & E & D' & F').
    + intros k Hk. apply elem_of_seq in Hk. lia.
    + intros k s' Hk. specialize (Hs k Hk). rewrite negb_involutive in Hs. by rewrite Hs.
    + exists s'. by split_and!.
Qed.

Lemma free_slot_spec c x cnt : (free_slot c x cnt <= cnt)%nat /\ ((free_slot c x cnt < cnt)%nat -> used (dirent_at c x (free_slot c x cnt)) = false).
Proof.
  unfold free_slot. pose proof (find_split (fun k => negb (used (dirent_at c x k))) (seq 0 cnt)) as Hs. destruct (find _ _) as [k|]; cbn [from_option id].
  - destruct Hs as (l1 & l2 & El & Hk & _). assert (k ∈ seq 0 cnt) as Hin by (rewrite El; set_solver). apply elem_of_seq in Hin.
    split; [lia|]. intros _. by apply negb_true_iff in Hk.
  - split; [done|lia].
Qed.

(** The bytes of a new entry. *)
Definition new_dirent (inum : Z) (name : list Z) : list Z := le_bytes 2 (u16 inum) ++ bytes_cpy DIRSIZ name.

Lemma new_dirent_ok inum name : 0 < inum < 65536 -> length (new_dirent inum name) = 16%nat /\
  de_inum (new_dirent inum name) = inum /\ de_name (new_dirent inum name) = bytes_cpy DIRSIZ name.
Proof.
  intros Hi. unfold new_dirent. rewrite length_app, length_cpy. split; [done|]. split; [|done].
  unfold de_inum, get16, get_le, u16. rewrite Z.mod_small by lia.
  change (take 2 (drop 0 (le_bytes 2 inum ++ bytes_cpy DIRSIZ name))) with (le_bytes 2 inum). rewrite le_bytes_back. apply Z.mod_small. change (256 ^ Z.of_nat 2) with 65536. lia.
Qed.

(** What a write of one entry does to the entries. *)
Lemma dirent_written s c dp nb k bytes s' c' : did_write (disksize := disksize) st sz s c dp nb (16 * Z.of_nat k) bytes s' c' -> length bytes = 16%nat ->
  forall j, 16 * Z.of_nat j + 16 <= nb * BSIZE ->
    dirent_at c' (inode_at dp s') j = if decide (j = k) then bytes else dirent_at c (inode_at dp s) j.
Proof.
  intros [_ _ Hb _ _] Hl j Hj. unfold dirent_at, file_bytes. rewrite Hl in Hb.
  assert (map (file_byte c' (inode_at dp s')) (seqZ (16 * Z.of_nat j) 16) =
    map (fun i => if (16 * Z.of_nat k <=? i) && (i <? 16 * Z.of_nat k + 16) then nth (Z.to_nat (i - 16 * Z.of_nat k)) bytes 0 else file_byte c (inode_at dp s) i)
      (seqZ (16 * Z.of_nat j) 16)) as ->.
  { apply map_ext_in. intros i Hi. apply list_elem_of_In, elem_of_seqZ in Hi. apply Hb. lia. }
  case_decide as Ejk.
  - subst j. apply list_eq_same_length with (n := 16%nat); [done|rewrite length_map, length_seqZ; done|].
    intros i y z Hi Hy Hz. rewrite list_lookup_fmap, lookup_seqZ_lt in Hy by lia. cbn in Hy. injection Hy as <-.
    rewrite (proj2 (Z.leb_le _ _)), (proj2 (Z.ltb_lt _ _)) by lia. cbn [andb].
    replace (Z.to_nat (16 * Z.of_nat k + Z.of_nat i - 16 * Z.of_nat k)) with i by lia. by apply nth_lookup_Some.
  - apply map_ext_in. intros i Hi. apply list_elem_of_In, elem_of_seqZ in Hi.
    destruct (Z.leb_spec (16 * Z.of_nat k) i), (Z.ltb_spec i (16 * Z.of_nat k + 16)); cbn [andb]; try done; lia.
Qed.

(** The map after a free entry [k] was filled. *)
Lemma lookup_filled c x c' x' cnt k inum name : 0 < inum < 65536 -> (k <= cnt)%nat -> ((k < cnt)%nat -> used (dirent_at c x k) = false) ->
  dir_lookup c x cnt name = None ->
  (forall j, (j < Nat.max cnt (S k))%nat -> dirent_at c' x' j = if decide (j = k) then new_dirent inum name else dirent_at c x j) ->
  forall name2, dir_lookup c' x' (Nat.max cnt (S k)) name2 =
    if decide (same_name name2 name) then Some (inum, 16 * Z.of_nat k) else dir_lookup c x cnt name2.
Proof.
  intros Hi Hk Hfree Hnone He name2. destruct (new_dirent_ok inum name Hi) as (_ & Ei & En). unfold dir_lookup in *.
  apply fmap_None in Hnone. pose proof (find_split (fun k => names name (dirent_at c x k)) (seq 0 cnt)) as Habs. rewrite Hnone in Habs.
  assert (names name2 (dirent_at c' x' k) = bool_decide (same_name name2 name)) as Hnk.
  { rewrite (He k) by lia. rewrite (decide_True (P := k = k)) by done. unfold names, used. rewrite Ei, En, (proj2 (Z.eqb_neq inum 0)) by lia. cbn [negb andb].
    apply bool_decide_ext. unfold same_name. by rewrite bytes_cpy_idem. }
  assert (forall j, (j < cnt)%nat -> j <> k -> names name2 (dirent_at c' x' j) = names name2 (dirent_at c x j)) as Hne
    by (intros j Hj Hjk; rewrite He by lia; by rewrite decide_False).
  case_decide as Hs.
  - assert (forall j, (j < cnt)%nat -> j <> k -> names name2 (dirent_at c' x' j) = false) as Hno.
    { intros j Hj Hjk. rewrite (Hne j Hj Hjk). specialize (Habs j ltac:(apply elem_of_seq; lia)). unfold names in *.
      destruct (used (dirent_at c x j)); cbn [andb] in *; [|reflexivity]. apply bool_decide_eq_false in Habs. apply bool_decide_eq_false_2. intros H'. apply Habs. unfold same_name in *. congruence. }
    assert (seq 0 (Nat.max cnt (S k)) = seq 0 k ++ k :: seq (S k) (Nat.max cnt (S k) - S k)) as ->
      by (replace (Nat.max cnt (S k)) with (k + S (Nat.max cnt (S k) - S k))%nat at 1 by lia; rewrite seq_app; done).
    rewrite find_app_none by (apply find_none; intros j Hj; apply elem_of_seq in Hj; apply Hno; lia). cbn [find]. rewrite Hnk, bool_decide_true by done.
    cbn [fmap option_fmap option_map]. rewrite (He k) by lia. rewrite (decide_True (P := k = k)) by done. by rewrite Ei.
  - rewrite bool_decide_false in Hnk by done.
    assert (find (fun k => names name2 (dirent_at c' x' k)) (seq 0 (Nat.max cnt (S k))) = find (fun k => names name2 (dirent_at c x k)) (seq 0 cnt)) as Ef.
    { replace (Nat.max cnt (S k)) with (cnt + (Nat.max cnt (S k) - cnt))%nat by lia. rewrite seq_app, find_app_l.
      - apply find_same. intros j Hj. apply elem_of_seq in Hj. destruct (decide (j = k)) as [->|Hjk]; [|apply Hne; [lia|done]].
        rewrite Hnk. unfold names. rewrite Hfree by lia. reflexivity.
      - apply find_none. intros j Hj. apply elem_of_seq in Hj. assert (j = k) as -> by lia. done. }
    rewrite Ef. pose proof (find_split (fun k => names name2 (dirent_at c x k)) (seq 0 cnt)) as Hsp.
    destruct (find (fun k => names name2 (dirent_at c x k)) (seq 0 cnt)) as [j|]; [|done]. destruct Hsp as (l1 & l2 & El & Hj & _).
    assert (j ∈ seq 0 cnt) as Hin by (rewrite El; set_solver). apply elem_of_seq in Hin. cbn [fmap option_fmap option_map]. do 2 f_equal.
    rewrite He by lia. rewrite decide_False; [done|]. intros ->. unfold names in Hj. rewrite Hfree in Hj by lia. discriminate Hj.
Qed.

(** When dirlink may be called: the name is new, the blocks of the directory have room for an
    entry, and the log for two blocks. *)
Record can_link (s : kstate) (c : disk) (bs : list Z) (dp : nat) (nb : Z) (cnt : nat) (name : list Z) : Prop := Can_link {
  cl_dir : dir_ok s c bs dp nb cnt;
  cl_open : 1 <= log_outstanding (k_log s);
  cl_log : sz <= LOGSIZE;
  cl_dp : (dp < length (k_icache s))%nat;
  cl_ib : inode_block_ok (disksize := disksize) st sz c (inode_at dp s) nb (IBLOCK (i_inum (inode_at dp s)) (k_sb s));
  cl_new : dir_lookup c (inode_at dp s) cnt name = None;
  cl_block : 16 * Z.of_nat (free_slot c (inode_at dp s) cnt) + 16 <= nb * BSIZE;
  cl_room : Z.of_nat (length bs) + 2 <= sz - 1
}.

Lemma dirlink_run s c bs dp nb cnt name inum : can_link s c bs dp nb cnt name -> 0 < inum < 65536 ->
  let x := inode_at dp s in let k := free_slot c x cnt in
  exists s' c' bs', dirlink (S n) dp name inum s = Ret 0 s' /\ dir_ok s' c' bs' dp nb (Nat.max cnt (S k)) /\
    k_disk s' = k_disk s /\ k_dwrites s' = k_dwrites s /\
    forall name2, dir_lookup c' (inode_at dp s') (Nat.max cnt (S k)) name2 =
      if decide (same_name name2 name) then Some (inum, 16 * Z.of_nat k) else dir_lookup c x cnt name2.
Proof.
  intros [D Ho Hlog Hdp Hib Hnew Hblk Hroom] Hi x k. fold x in Hib, Hnew, Hblk. fold k in Hblk.
  destruct (dirlookup_run s c bs dp nb cnt name D) as (s1 & D1 & F1 & E1). fold x in E1. rewrite Hnew in E1.
  pose proof (inode_at_frame _ _ dp F1) as X1. destruct (free_scan_run s1 c bs dp nb cnt D1) as (s2 & D2 & F2 & E2). rewrite X1 in E2. fold x in E2.
  assert (op_frame s s2) as F12 by (by eapply op_frame_trans). pose proof (inode_at_frame _ _ dp F12) as X2. fold x in X2.
  destruct (free_slot_spec c x cnt) as [Hkc Hkf]. fold k in Hkc, Hkf. destruct (new_dirent_ok inum name Hi) as (Hlen & _ & _).
  destruct (D2) as [Ht2 Hty2 Hfi2 Hsz2 Hr2]. rewrite X2 in *. pose proof (fo_max _ _ _ _ _ Hfi2) as Hmax. unfold MAXFILE in Hmax.
  assert (can_write (disksize := disksize) pi st sz s2 c bs dp nb (16 * Z.of_nat k) (Z.of_nat (length (new_dirent inum name)))) as W.
  { change BSIZE with 512 in *. rewrite Hlen. split; rewrite ?X2, ?(of_outstanding _ _ F12), ?(of_icache _ _ F12), ?(of_sb _ _ F12); try done; change BSIZE with 512; try lia.
    - by rewrite Hty2.
    - assert ((16 * Z.of_nat k) mod 512 <= 496) by (Z.div_mod_to_equations; lia).
      assert (((16 * Z.of_nat k) mod 512 + Z.of_nat 16 + 512 - 1) / 512 <= 1) by (apply Z.lt_succ_r, Z.div_lt_upper_bound; lia). lia. }
  destruct (writei_run pi n st sz s2 c bs dp nb (16 * Z.of_nat k) (new_dirent inum name) W) as (s3 & c3 & bs3 & E3 & Ht3 & DW).
  rewrite Hlen in E3. exists s3, c3, bs3. split_and!.
  - unfold dirlink. mret E1. rewrite bind_gets, X1. fold x. destruct (D1) as [_ _ _ Hsz1 _]. rewrite X1 in Hsz1. fold x in Hsz1. rewrite Hsz1, dirents_cnt.
    erewrite bind_Ret by exact E2. replace (match _ with Some off => off | None => 16 * Z.of_nat cnt end) with (16 * Z.of_nat k).
    + mret E3. done.
    + unfold k, free_slot. by destruct (find _ _).
  - destruct DW as [Xw Fw _ _ _]. rewrite X2, Hlen in Xw. split; rewrite ?Xw; try done.
    + rewrite <- Xw. exact Fw.
    + cbn [i_size set_i_size]. rewrite Hsz2. lia.
    + change BSIZE with 512 in *. lia.
  - destruct DW as [_ _ _ [-> _] _]. apply (of_disk _ _ F12).
  - destruct DW as [_ _ _ [_ ->] _]. apply (of_dwrites _ _ F12).
  - apply lookup_filled; try done. intros j Hj. rewrite (dirent_written s2 c dp nb k _ s3 c3 DW Hlen j), X2; [done|]. change BSIZE with 512 in *. lia.
Qed.

End Dir.

(** C34: a directory is a map from names to inode numbers, and dirlink adds to it.  Inside a
    transaction with room in the log, on a directory whose blocks have room for one more entry
    and that does not have the name (names are compared as the 14 bytes that strncpy makes of
    them), dirlink succeeds without anything reaching the disk; afterwards dirlookup of the
    name ends in iget of the linked inode number, with the offset of the entry, the first
    one that was free, and dirlookup of every other name finds what it found before. *)
Theorem dirlink_dirlookup `{DL : BlockDriverLaws} `{DV : DevSw} (pi n : nat) (st sz : Z) s c bs dp nb cnt name inum :
  can_link (disksize := disksize) pi st sz s c bs dp nb cnt name -> 0 < inum < 65536 ->
  let x := inode_at dp s in let k := free_slot c x cnt in
  exists s1 c' bs', dirlink (S n) dp name inum s = Ret 0 s1 /\ dir_ok (disksize := disksize) pi st sz s1 c' bs' dp nb (Nat.max cnt (S k)) /\
    k_disk s1 = k_disk s /\ k_dwrites s1 = k_dwrites s /\
    forall name2, exists s2, dir_ok (disksize := disksize) pi st sz s2 c' bs' dp nb (Nat.max cnt (S k)) /\
      dirlookup (S n) dp name2 s1 =
        match (if decide (same_name name2 name) then Some (inum, 16 * Z.of_nat k) else dir_lookup c x cnt name2) with
        | None => Ret None s2
        | Some (i, off) => (ip <- iget 1 i;; ret (Some (ip, off))) s2
        end.
Proof.
  intros L Hi x k. destruct (dirlink_run pi n st sz s c bs dp nb cnt name inum L Hi) as (s1 & c' & bs' & E & D & Hd & Hw & Hl).
  exists s1, c', bs'. split_and!; try done. intros name2.
  destruct (dirlookup_run pi n st sz s1 c' bs' dp nb _ name2 D) as (s2 & D2 & _ & E2). exists s2. split; [done|]. by rewrite E2, Hl.
Qed.

(** A machine with an empty directory of two entries in block 100, inode 3. *)
#[local] Instance no_device : DevSw := { dev_read := fun _ => None; dev_write := fun _ => None }.
Definition small_dir : inode :=
  Inode 1 3 1 (Sleeplock 0 "inode" 0) 2 T_DIR 0 0 1 32 ([100] ++ replicate 12 0).
Definition with_dir (s : kstate) : kstate :=
  set_k_icache [small_dir] (set_k_sb (Superblock 1000 900 200 30 2 40 70) (open_op s)).

Lemma with_dir_can_link s0 : in_trans 1000 1 2 30 (open_op s0) log_disk [] [] ->
  can_link (disksize := 1000) 1 2 30 (with_dir s0) log_disk [] 0 1 2 (lit "README").
Proof.
  intros [[] ? ? ? ?].
  assert (@file_ok 1000 2 30 log_disk small_dir 1) as F.
  { split; try done.
    - intros k Hk. assert (k = 0) as -> by lia. unfold data_block, outside. change (block_of log_disk small_dir 0) with 100. split_and!; try lia. reflexivity.
    - intros k k' Hk Hk' _. lia. }
  split; try done; change (inode_at 0 (with_dir s0)) with small_dir.
  - simpl. lia.
  - change (IBLOCK _ _) with 40. split; try done; [unfold data_block, outside; lia|].
    intros k Hk. assert (k = 0) as -> by lia. done.
Qed.

Lemma dirlink_dirlookup_witness :
  exists s0 s1 s2, binit disk_machine = Ret tt s0 /\
    dirlink (DR := memd) 1 0 (lit "README") 7 (with_dir s0) = Ret 0 s1 /\
    dirlookup (DR := memd) 1 0 (lit "README") s1 = (ip <- iget 1 7;; ret (Some (ip, 0))) s2.
Proof.
  destruct open_op_trans as (s0 & E0 & Ht & _).
  destruct (dirlink_dirlookup (H := memd) (disksize := 1000) 1 0 2 30 (with_dir s0) log_disk [] 0 1 2 (lit "README") 7
    (with_dir_can_link s0 Ht) ltac:(lia)) as (s1 & c' & bs' & E1 & _ & _ & _ & Hl).
  destruct (Hl (lit "README")) as (s2 & _ & E2). exists s0, s1, s2. split_and!; [exact E0|exact E1|]. rewrite E2.
  rewrite decide_True by reflexivity. reflexivity.
Defined.
