(* ===== verification/Console.v ===== *)
(** * Console: console.c, kbd.c and the output side of uart.c

    The screen memory is [c_crt], the cursor of the CRT controller [c_pos], and what
    went out of the serial port [c_uart].  An interrupt handler is called with the
    characters (or scan codes) that its device delivers before it runs dry. *)

From S2P Require Import Prelude Machine Spinlock Cstring Ktrace Layout Kalloc Vm Sched Sleeplock Bio Log Fs.
#[local] Open Scope prog_scope.

Definition upd_cons (f : console -> console) (s : kstate) : kstate := set_k_cons (f (k_cons s)) s.
Definition upd_input (f : input_t -> input_t) : kstate -> kstate := upd_cons (fun c => set_c_input (f (c_input c)) c).

Definition BACKSPACE : Z := 256.
Definition INPUT_BUF : Z := 128.
Definition CONSOLE : Z := 1.
Definition newline : Z := 10.
Definition ctrl (c : Z) : Z := c - 64.

(** ** Output *)

Definition uartputc (c : Z) : kprog unit := modify (upd_cons (fun k => set_c_uart (c_uart k ++ [u8 c]) k)).

(** The screen after one character, and the cursor. *)
Definition crt_set (i v : Z) (crt : Z -> Z) : Z -> Z := fun j => if j =? i then v else crt j.
Definition crt_scroll (crt : Z -> Z) : Z -> Z := fun j => if (0 <=? j) && (j <? 23 * 80) then crt (j + 80) else crt j.
Definition crt_blank (pos : Z) (crt : Z -> Z) : Z -> Z := fun j => if (pos <=? j) && (j <? 24 * 80) then 0 else crt j.

Definition cga (c pos : Z) (crt : Z -> Z) : Z * (Z -> Z) :=
  let '(pos, crt) :=
    if c =? newline then (pos + (80 - Z.rem pos 80), crt)
    else if c =? BACKSPACE then (if pos >? 0 then pos - 1 else pos, crt)
    else (pos + 1, crt_set pos (Z.lor (Z.land c 255) 1792) crt) in
  let '(pos, crt) :=
    if Z.quot pos 80 >=? 24 then (pos - 80, crt_blank (pos - 80) (crt_scroll crt)) else (pos, crt) in
  (pos, crt_set pos (Z.lor 32 1792) crt).

(** The cursor register has two bytes. *)
Definition cgaputc (c : Z) : kprog unit :=
  modify (upd_cons (fun k => let '(pos, crt) := cga c (c_pos k) (c_crt k) in set_c_crt crt (set_c_pos (u16 pos) k))).

Definition vidclear : kprog unit :=
  modify (upd_cons (fun k => set_c_crt (fun j => if (0 <=? j) && (j <? 80 * 25) then Z.lor 32 1792 else c_crt k j) k)).

Definition vidputc (row col ch color : Z) : kprog unit :=
  if (row <? 0) || (row >=? 25) then ret tt else
  if (col <? 0) || (col >=? 80) then ret tt else
  modify (upd_cons (fun k => set_c_crt
    (crt_set (row * 80 + col) (Z.lor (Z.land ch 255) (Z.shiftl (Z.land color 255) 8)) (c_crt k)) k)).

(** [s] is the string without its NUL. *)
Fixpoint vidputs (row col : Z) (s : list Z) (color : Z) : kprog unit :=
  match s with
  | [] => ret tt
  | ch :: s =>
    if col <? 80 then
      vidputc row col ch color;;;
      vidputs row (col + 1) s color
    else ret tt
  end.

Definition consputc (c : Z) : kprog unit :=
  k <- gets k_cons;;
  if negb (c_panicked k =? 0) then cli;;; (fun s => Spin s) else
  (if c =? BACKSPACE then uartputc 8;;; uartputc 32;;; uartputc 8 else uartputc c);;;
  cgaputc c.

Definition digit (d : Z) : Z := if d <? 10 then 48 + d else 87 + d.

(** The digits of [x], most significant first: [n] hexadecimal ones, or the decimal
    ones (an int has at most ten). *)
Fixpoint hex_digits (n : nat) (x : Z) : list Z :=
  match n with O => [] | S n => hex_digits n (x / 16) ++ [digit (x mod 16)] end.
Fixpoint dec_digits (fuel : nat) (x : Z) : list Z :=
  match fuel with
  | O => []
  | S fuel => (if x / 10 =? 0 then [] else dec_digits fuel (x / 10)) ++ [digit (x mod 10)]
  end.
Definition print_x64 (x : Z) : list Z := hex_digits 16 (u64 x).
Definition print_x32 (x : Z) : list Z := hex_digits 8 (u32 x).
Definition print_d (v : Z) : list Z := if v <? 0 then 45 :: dec_digits 16 (- v) else dec_digits 16 v.

(** The arguments of cprintf; [None] is the null pointer. *)
Inductive farg := FInt (v : Z) | FPtr (v : Z) | FStr (s : option (list Z)).

(** The characters that a format produces.  A missing argument, or one of another type,
    is undefined. *)
Fixpoint format (fmt : list Z) (args : list farg) : option (list Z) :=
  match fmt with
  | [] => Some []
  | c :: fmt =>
    if negb (c =? 37) then cons c <$> format fmt args else
    match fmt with
    | [] => Some []
    | c :: fmt =>
      if c =? 100 then
        match args with FInt v :: args => app (print_d v) <$> format fmt args | _ => None end
      else if c =? 120 then
        match args with FInt v :: args => app (print_x32 v) <$> format fmt args | _ => None end
      else if c =? 112 then
        match args with FPtr v :: args => app (print_x64 v) <$> format fmt args | _ => None end
      else if c =? 115 then
        match args with FStr s :: args => app (default (lit "(null)") s) <$> format fmt args | _ => None end
      else if c =? 37 then cons 37 <$> format fmt args
      else app [37; c] <$> format fmt args
    end
  end.

Definition cprintf (fmt : list Z) (args : list farg) : kprog unit :=
  locking <- gets (fun s => c_locking (k_cons s));;
  (when negb (locking =? 0) do acquire LKcons);;;
  (match format fmt args with
   | Some cs => for_each cs consputc
   | None => undef "cprintf: argument"
   end);;;
  when negb (locking =? 0) do release LKcons.

(** ** The process listing *)

Fixpoint getstackpcs (n : nat) (m : mem) (rbp : Z) : list Z :=
  match n with
  | O => []
  | S n =>
    if (rbp =? 0) || (rbp <? KERNBASE) || (rbp =? 4294967295) then replicate (S n) 0
    else load64 m (rbp + 8) :: getstackpcs n m (load64 m rbp)
  end.

Definition state_name (st : procstate) : string :=
  match st with
  | UNUSED => "unused" | EMBRYO => "embryo" | SLEEPING => "sleep "
  | RUNNABLE => "runble" | RUNNING => "run   " | ZOMBIE => "zombie"
  end%string.

(** The string in a character array. *)
Fixpoint c_str (l : list Z) : list Z := match l with [] => [] | c :: l => if c =? 0 then [] else c :: c_str l end.

Definition procdump : kprog unit :=
  for_each (seq 0 NPROC) (fun i =>
    p <- gets (proc_at i);;
    when negb (bool_decide (p_state p = UNUSED)) do
      cprintf (lit "%d %s %s") [FInt (p_pid p); FStr (Some (lit (state_name (p_state p)))); FStr (Some (c_str (p_name p)))];;;
      (when bool_decide (p_state p = SLEEPING) do
         pcs <- gets (fun s => getstackpcs 10 (k_mem s) (load64 (k_mem s) (p_context p + 40) + 16));;
         _ <- for_break pcs (fun pc => if pc =? 0 then ret (Some tt) else cprintf (lit " %p") [FPtr pc];;; ret None);;
         ret tt);;;
      cprintf [newline] []).

(** ** Input *)

Definition at_input (i : Z) (k : input_t) : Z := nth (Z.to_nat (u32 i mod INPUT_BUF)) (in_buf k) 0.

(** Kill line, at most a buffer of it. *)
Fixpoint kill_line (n : nat) : kprog unit :=
  k <- gets (fun s => c_input (k_cons s));;
  if negb (in_e k =? in_w k) && negb (at_input (in_e k - 1) k =? newline) then
    match n with
    | O => fun s => NoFuel s
    | S n =>
      modify (upd_input (fun k => set_in_e (u32 (in_e k - 1)) k));;;
      consputc BACKSPACE;;;
      kill_line n
    end
  else ret tt.

(** Control-Z loads an empty interrupt table: the next trap resets the machine, and the
    model stops. *)
Definition console_char (c : Z) : kprog unit :=
  if c =? ctrl 90 then undef "reboot" else
  if c =? ctrl 80 then procdump else
  if c =? ctrl 85 then kill_line (Z.to_nat INPUT_BUF) else
  if (c =? ctrl 72) || (c =? 127) then
    k <- gets (fun s => c_input (k_cons s));;
    when negb (in_e k =? in_w k) do
      modify (upd_input (fun k => set_in_e (u32 (in_e k - 1)) k));;;
      consputc BACKSPACE
  else
  k <- gets (fun s => c_input (k_cons s));;
  when negb (c =? 0) && (u32 (in_e k - in_r k) <? INPUT_BUF) do
    let c := if c =? 13 then newline else c in
    modify (upd_input (fun k => set_in_e (u32 (in_e k + 1))
      (set_in_buf (<[Z.to_nat (in_e k mod INPUT_BUF) := u8 c]> (in_buf k)) k)));;;
    consputc c;;;
    k <- gets (fun s => c_input (k_cons s));;
    when (c =? newline) || (c =? ctrl 68) || (in_e k =? u32 (in_r k + INPUT_BUF)) do
      modify (upd_input (fun k => set_in_w (in_e k) k));;;
      wakeup ChInput.

Definition consoleintr (cs : list Z) : kprog unit :=
  acquire LKinput;;;
  for_each cs console_char;;;
  release LKinput.

(** ** Keyboard *)

(** A table of 256 entries: the first ones, and some others by their index. *)
Definition scan_table (l : list Z) (others : list (Z * Z)) (i : Z) : Z :=
  match find (fun p => fst p =? i) others with
  | Some p => snd p
  | None => nth (Z.to_nat i) l 0
  end.
Definition shiftcode : Z -> Z := scan_table
  []
  [(29, 2); (42, 1); (54, 1); (56, 4); (157, 2); (184, 4)].
Definition togglecode : Z -> Z := scan_table
  []
  [(58, 8); (69, 16); (70, 32)].
Definition normalmap : Z -> Z := scan_table
  [0; 27; 49; 50; 51; 52; 53; 54; 55; 56; 57; 48; 45; 61; 8; 9;
   113; 119; 101; 114; 116; 121; 117; 105; 111; 112; 91; 93; 10; 0; 97; 115;
   100; 102; 103; 104; 106; 107; 108; 59; 39; 96; 0; 92; 122; 120; 99; 118;
   98; 110; 109; 44; 46; 47; 0; 42; 0; 32; 0; 0; 0; 0; 0; 0;
   0; 0; 0; 0; 0; 0; 0; 55; 56; 57; 45; 52; 53; 54; 43; 49;
   50; 51; 48; 46; 0; 0; 0; 0]
  [(156, 10); (181, 47); (200, 226); (208, 227); (201, 230); (209, 231); (203, 228); (205, 229); (151, 224); (207, 225); (210, 232); (211, 233)].
Definition shiftmap : Z -> Z := scan_table
  [0; 27; 33; 64; 35; 36; 37; 94; 38; 42; 40; 41; 95; 43; 8; 9;
   81; 87; 69; 82; 84; 89; 85; 73; 79; 80; 123; 125; 10; 0; 65; 83;
   68; 70; 71; 72; 74; 75; 76; 58; 34; 126; 0; 124; 90; 88; 67; 86;
   66; 78; 77; 60; 62; 63; 0; 42; 0; 32; 0; 0; 0; 0; 0; 0;
   0; 0; 0; 0; 0; 0; 0; 55; 56; 57; 45; 52; 53; 54; 43; 49;
   50; 51; 48; 46; 0; 0; 0; 0]
  [(156, 10); (181, 47); (200, 226); (208, 227); (201, 230); (209, 231); (203, 228); (205, 229); (151, 224); (207, 225); (210, 232); (211, 233)].
Definition ctlmap : Z -> Z := scan_table
  [0; 0; 0; 0; 0; 0; 0; 0; 0; 0; 0; 0; 0; 0; 0; 0;
   17; 23; 5; 18; 20; 25; 21; 9; 15; 16; 0; 0; 13; 0; 1; 19;
   4; 6; 7; 8; 10; 11; 12; 0; 0; 0; 0; 28; 26; 24; 3; 22;
   2; 14; 13; 0; 0; 239; 0; 0]
  [(156, 13); (181, 239); (200, 226); (208, 227); (201, 230); (209, 231); (203, 228); (205, 229); (151, 224); (207, 225); (210, 232); (211, 233)].

Definition SHIFT : Z := 1.
Definition CTL : Z := 2.
Definition CAPSLOCK : Z := 8.
Definition E0ESC : Z := 64.

Definition charcode (i : Z) : Z -> Z := if i =? 0 then normalmap else if i =? 1 then shiftmap else ctlmap.

(** One scan code: the new shift state and the character. *)
Definition kbdgetc (shift data : Z) : Z * Z :=
  if data =? 224 then (Z.lor shift E0ESC, 0)
  else if negb (Z.land data 128 =? 0) then
    let data := if negb (Z.land shift E0ESC =? 0) then data else Z.land data 127 in
    (Z.land shift (u32 (Z.lnot (Z.lor (shiftcode data) E0ESC))), 0)
  else
    let '(data, shift) := if negb (Z.land shift E0ESC =? 0)
      then (Z.lor data 128, Z.land shift (u32 (Z.lnot E0ESC))) else (data, shift) in
    let shift := Z.lxor (Z.lor shift (shiftcode data)) (togglecode data) in
    let c := charcode (Z.land shift (Z.lor CTL SHIFT)) data in
    let c := if negb (Z.land shift CAPSLOCK =? 0) then
               if (97 <=? c) && (c <=? 122) then c - 32
               else if (65 <=? c) && (c <=? 90) then c + 32 else c
             else c in
    (shift, c).

(** kbdintr: consoleintr with kbdgetc, on the scan codes in the controller's buffer. *)
Definition kbdintr (codes : list Z) : kprog unit :=
  acquire LKinput;;;
  for_each codes (fun data =>
    shift <- gets k_kbdshift;;
    let '(shift, c) := kbdgetc shift data in
    modify (set_k_kbdshift shift);;;
    console_char c);;;
  release LKinput.

Definition uartintr (bytes : list Z) : kprog unit := consoleintr bytes.

(** ** The device *)

Section Device.
Context `{DR : BlockDriver} (fuel : nat).

(** [false] when the reader was killed. *)
Definition input_round : kprog (option bool) :=
  k <- gets (fun s => c_input (k_cons s));;
  if in_r k =? in_w k then
    i <- myproc;;
    p <- gets (proc_at i);;
    if negb (p_killed p =? 0) then ret (Some false)
    else sleep ChInput LKinput;;; ret None
  else ret (Some true).

(** The bytes read so far are [acc], and [n] more are wanted; [None] for killed. *)
Fixpoint console_bytes (n : nat) (dst : option Z) (acc : list Z) : kprog (option (list Z)) :=
  match n with
  | O => ret (Some acc)
  | S n =>
    ok <- repeat_until fuel input_round;;
    if negb ok then ret None else
    k <- gets (fun s => c_input (k_cons s));;
    let c := at_input (in_r k) k in
    modify (upd_input (fun k => set_in_r (u32 (in_r k + 1)) k));;;
    if c =? ctrl 68 then
      (when negb (length acc =? 0)%nat do modify (upd_input (fun k => set_in_r (u32 (in_r k - 1)) k)));;;
      ret (Some acc)
    else
    move_to dst (Z.of_nat (length acc)) [u8 c];;;
    if c =? newline then ret (Some (acc ++ [u8 c])) else console_bytes n dst (acc ++ [u8 c])
  end.

Definition consoleread (ip : nat) (off : Z) (dst : option Z) (n : Z) : kprog (Z * list Z) :=
  iunlock (Some ip);;;
  acquire LKinput;;;
  r <- console_bytes (Z.to_nat n) dst [];;
  match r with
  | None =>
    release LKinput;;;
    ilock fuel (Some ip);;;
    ret (-1, [])
  | Some bs =>
    release LKinput;;;
    ilock fuel (Some ip);;;
    ret (Z.of_nat (length bs), bs)
  end.

Definition consolewrite (ip : nat) (off : Z) (src : Z + list Z) (n : Z) : kprog Z :=
  iunlock (Some ip);;;
  acquire LKcons;;;
  for_each (seq 0 (Z.to_nat n)) (fun i =>
    b <- move_from src (Z.of_nat i) 1;;
    consputc (u8 (hd 0 b)));;;
  release LKcons;;;
  ilock fuel (Some ip);;;
  ret n.

End Device.

(** consoleinit enters the console into devsw; no other device does. *)
#[export] Instance console_devsw `{BlockDriver} (fuel : nat) : DevSw := {
  dev_read major := if major =? CONSOLE then Some (consoleread fuel) else None;
  dev_write major := if major =? CONSOLE then Some (consolewrite fuel) else None
}.

Definition consoleinit : kprog unit :=
  initlock LKcons "console";;;
  initlock LKinput "input";;;
  modify (upd_cons (set_c_locking 1)).
