(* ===== verification/Tty.v ===== *)
(** * Tty: the line discipline of the console

    The theory of the input side of console.c, which is defined in Console.  The ring of
    128 bytes with its three 32-bit counters implements a terminal with two strings: the
    bytes that a reader may take, and the line that is still being edited. *)

From S2P Require Import Prelude Machine Spinlock Cstring Ktrace Layout Kalloc Vm Sched Sleeplock Bio Log Fs Console.
#[local] Open Scope prog_scope.

Record tty := Tty { ready : list Z; line : list Z }.

(** A character typed: control-U and backspace edit the line, everything else is added as long
    as there is room; a newline, control-D or the last free place hand the line over. *)
Definition tty_type (t : tty) (c : Z) : tty :=
  if c =? ctrl 85 then Tty (ready t) []
  else if (c =? ctrl 72) || (c =? 127) then Tty (ready t) (removelast (line t))
  else if negb (c =? 0) && (length (ready t ++ line t) <? 128)%nat then
    let c := if c =? 13 then newline else c in
    let line' := line t ++ [c] in
    if (c =? newline) || (c =? ctrl 68) || (length (ready t ++ line') =? 128)%nat then Tty (ready t ++ line') [] else Tty (ready t) line'
  else t.

(** A read of at most [n] bytes takes them up to the end of a line; control-D ends the read and
    is kept for the next one when there are bytes before it.  [None]: the reader has to wait. *)
Fixpoint tty_read (n : nat) (acc r : list Z) : option (list Z * list Z) :=
  match n with
  | O => Some (acc, r)
  | S n =>
    match r with
    | [] => None
    | c :: r =>
      if c =? ctrl 68 then Some (acc, if (length acc =? 0)%nat then r else c :: r)
      else if c =? newline then Some (acc ++ [c], r)
      else tty_read n (acc ++ [c]) r
    end
  end.

(** ** The ring *)

Record tty_rep (k : input_t) (t : tty) : Prop := Tty_rep {
  tr_buf : length (in_buf k) = 128%nat;
  tr_r : 0 <= in_r k < 4294967296;
  tr_w : in_w k = u32 (in_r k + Z.of_nat (length (ready t)));
  tr_e : in_e k = u32 (in_r k + Z.of_nat (length (ready t ++ line t)));
  tr_room : (length (ready t ++ line t) <= 128)%nat;
  tr_bytes : forall i x, (ready t ++ line t) !! i = Some x -> nth (Z.to_nat ((in_r k + Z.of_nat i) mod 128)) (in_buf k) 0 = x;
  tr_line : newline ∉ line t;
  tr_char : Forall (fun c => 0 <= c < 256) (ready t ++ line t)
}.

Lemma at_input_mod i k : at_input i k = nth (Z.to_nat (i mod 128)) (in_buf k) 0.
Proof. unfold at_input, INPUT_BUF. by rewrite u32_mod_ring by (lia || (exists 33554432; done)). Qed.

Lemma u32_add_cases a m m' : 0 <= m <= 128 -> 0 <= m' <= 128 -> u32 (a + m) = u32 (a + m') <-> m = m'.
Proof. intros H H'. split; [|by intros ->]. word_lia. Qed.

Lemma tty_empty k t : tty_rep k t -> (in_e k =? in_w k) = (length (line t) =? 0)%nat.
Proof.
  intros R. rewrite (tr_e _ _ R), (tr_w _ _ R). pose proof (tr_room _ _ R). rewrite length_app in *.
  destruct (Nat.eqb_spec (length (line t)) 0), (Z.eqb_spec (u32 (in_r k + Z.of_nat (length (ready t) + length (line t)))) (u32 (in_r k + Z.of_nat (length (ready t))))) as [E|E]; try done.
  - exfalso. apply E. f_equal. lia.
  - apply u32_add_cases in E; lia.
Qed.

(** One byte less in the line. *)
Lemma tty_back k t l c : tty_rep k t -> line t = l ++ [c] -> tty_rep (set_in_e (u32 (in_e k - 1)) k) (Tty (ready t) l) /\ at_input (in_e k - 1) k = c.
Proof.
  intros [R1 R2 R3 R4 R5 R6 R7 R8] El. rewrite El in *. rewrite app_assoc in *. rewrite length_app in R4, R5. cbn [length] in *. split.
  - split; cbn [in_buf in_r in_w in_e set_in_e ready line]; try done.
    + rewrite R4. rewrite length_app in *. word_lia.
    + lia.
    + intros i x Hi. apply R6. by apply lookup_app_l_Some.
    + set_solver.
    + by apply Forall_app in R8 as [? _].
  - rewrite at_input_mod, R4. rewrite <- (R6 (length (ready t ++ l)) c) by (by apply list_lookup_middle). do 2 f_equal.
    rewrite <- (u32_mod_ring (in_r k + Z.of_nat (length (ready t ++ l))) 128) by (lia || (exists 33554432; done)).
    rewrite <- (u32_mod_ring (u32 _ - 1) 128) by (lia || (exists 33554432; done)). f_equal. word_lia.
Qed.

(** One byte more; [c] is stored at the end of the line. *)
Definition put_input (c : Z) (k : input_t) : input_t :=
  set_in_e (u32 (in_e k + 1)) (set_in_buf (<[Z.to_nat (in_e k mod INPUT_BUF) := c]> (in_buf k)) k).

Lemma slots_apart r i m : (i < m)%nat -> (m < 128)%nat -> Z.to_nat ((r + Z.of_nat i) mod 128) <> Z.to_nat ((r + Z.of_nat m) mod 128).
Proof.
  intros Hi Hm. pose proof (Z.mod_pos_bound (r + Z.of_nat i) 128). pose proof (Z.mod_pos_bound (r + Z.of_nat m) 128).
  pose proof (Z.div_mod (r + Z.of_nat i) 128). pose proof (Z.div_mod (r + Z.of_nat m) 128). nia.
Qed.

Lemma tty_room k t : tty_rep k t -> (u32 (in_e k - in_r k) <? INPUT_BUF) = (length (ready t ++ line t) <? 128)%nat.
Proof.
  intros R. rewrite (tr_e _ _ R). pose proof (tr_room _ _ R). pose proof (tr_r _ _ R).
  assert (u32 (u32 (in_r k + Z.of_nat (length (ready t ++ line t))) - in_r k) = Z.of_nat (length (ready t ++ line t))) as -> by word_lia.
  unfold INPUT_BUF. destruct (Nat.ltb_spec (length (ready t ++ line t)) 128); lia.
Qed.

(** The line with [c] at its end; a newline is handed over at once, and is not left there. *)
Lemma tty_put k t c (R : tty_rep k t) : (length (ready t ++ line t) < 128)%nat -> 0 <= c < 256 ->
  let k' := put_input c k in
  (c <> newline -> tty_rep k' (Tty (ready t) (line t ++ [c]))) /\
  tty_rep (set_in_w (in_e k') k') (Tty (ready t ++ line t ++ [c]) []) /\
  (in_e k' =? u32 (in_r k' + INPUT_BUF)) = (length (ready t ++ line t ++ [c]) =? 128)%nat.
Proof.
  intros Hm Hc k'. destruct R as [R1 R2 R3 R4 R5 R6 R7 R8].
  assert (in_e k' = u32 (in_r k + Z.of_nat (length (ready t ++ line t ++ [c])))) as Ee.
  { cbn [k' put_input set_in_e in_e]. rewrite R4, app_assoc, (length_app _ [c]); cbn [length]. word_lia. }
  assert (in_e k mod 128 = (in_r k + Z.of_nat (length (ready t ++ line t))) mod 128) as Em
    by (rewrite R4; apply u32_mod_ring; [lia | by exists 33554432]).
  assert (length (ready t ++ line t ++ [c]) <= 128)%nat as Hl by (rewrite app_assoc, (length_app _ [c]); cbn [length]; lia).
  assert (Forall (fun c => 0 <= c < 256) (ready t ++ line t ++ [c])) as Hch by (rewrite app_assoc; apply Forall_app; split; [done | by constructor]).
  assert (length (in_buf k') = 128%nat) as Hb by (cbn; by rewrite length_insert).
  assert (forall i x, (ready t ++ line t ++ [c]) !! i = Some x -> nth (Z.to_nat ((in_r k + Z.of_nat i) mod 128)) (in_buf k') 0 = x) as Hx.
  { intros i x Hi. rewrite app_assoc in Hi. cbn [k' put_input set_in_e set_in_buf in_buf]. unfold INPUT_BUF. rewrite Em.
    pose proof (Z.mod_pos_bound (in_r k + Z.of_nat (length (ready t ++ line t))) 128).
    apply lookup_snoc_Some in Hi as [[Hi Hx]|[-> ->]]; rewrite nth_lookup.
    - rewrite list_lookup_insert_ne by (apply not_eq_sym; by apply slots_apart). rewrite <- nth_lookup. by apply R6.
    - by rewrite list_lookup_insert_eq by lia. }
  split_and!.
  - intros Hn. split; try done. cbn [line]. set_solver.
  - split; cbn [ready line]; rewrite ?app_nil_r; try done. set_solver.
  - change (in_r k') with (in_r k). rewrite Ee. unfold INPUT_BUF.
    destruct (Nat.eqb_spec (length (ready t ++ line t ++ [c])) 128) as [->|E]; [by rewrite Z.eqb_refl|].
    apply Z.eqb_neq. rewrite u32_add_cases; lia.
Qed.

(** ** The interrupt handler *)

(** The state [s] inside a critical section of the input lock that was entered in [s0]. *)
Record handling (s0 s : kstate) (t : tty) : Prop := Handling {
  hd_cpu : k_cpu s = push_cpu (k_cpu s0);
  hd_locks : k_locks s = k_locks (enter LKinput s0);
  hd_icache : k_icache s = k_icache s0;
  hd_table : length (k_ptable s) = NPROC;
  hd_panicked : c_panicked (k_cons s) = 0;
  hd_tty : tty_rep (c_input (k_cons s)) t
}.

(** Outside: the locks are free, and the ring represents [t]. *)
Record console_ok (s : kstate) (t : tty) : Prop := Console_ok {
  co_cpu : cpu_ok (k_cpu s);
  co_input : lock_free LKinput s;
  co_ptable : lock_free LKptable s;
  co_table : length (k_ptable s) = NPROC;
  co_panicked : c_panicked (k_cons s) = 0;
  co_tty : tty_rep (c_input (k_cons s)) t
}.

Lemma handling_enter s t : console_ok s t -> handling s (enter LKinput s) t.
Proof. intros [H1 H2 H3 H4 H5 H6]. by split. Qed.

Lemma handling_leave s0 t0 s t : console_ok s0 t0 -> handling s0 s t ->
  release LKinput s = Ret tt (leave LKinput s) /\ console_ok (leave LKinput s) t.
Proof.
  intros [C1 C2 C3 C4 C5 C6] [H1 H2 Hi H3 H4 H5]. split; [apply (release_after _ s0); congruence|].
  split; try done.
  - change (k_cpu (leave LKinput s)) with (pop_cpu (k_cpu s)). rewrite H1, pop_push by done. by apply cpu_ok_sync.
  - apply leave_free.
  - apply leave_free_ne; [done|]. unfold lock_free. rewrite H2. by apply enter_free_ne.
Qed.

(** Process [i] runs, and the inode [ip] of the console is in use and read in; [v] is the state of its
    sleep lock. *)
Record inode_held (i ip : nat) (v : Z) (s : kstate) : Prop := Inode_held {
  ih_proc : cpu_proc (k_cpu s) = Some i;
  ih_inner : lock_free (LKsleep (SLinode ip)) s;
  ih_table : (ip < length (k_icache s))%nat;
  ih_ref : 1 <= i_ref (inode_at ip s);
  ih_valid : (Z.land (i_flags (inode_at ip s)) I_VALID =? 0) = false;
  ih_locked : sl_locked (i_lock (inode_at ip s)) = v
}.

Lemma held_leave i ip v s0 s t : cpu_ok (k_cpu s0) -> inode_held i ip v s0 -> handling s0 s t -> inode_held i ip v (leave LKinput s).
Proof.
  intros Hc [I1 I2 I3 I4 I5 I6] [H1 H2 Hi H3 H4 H5].
  assert (inode_at ip (leave LKinput s) = inode_at ip s0) as Ei by (unfold inode_at; cbn; by rewrite Hi).
  split; rewrite ?Ei; try done.
  - change (k_cpu (leave LKinput s)) with (pop_cpu (k_cpu s)). by rewrite H1, pop_push, sync_cpu_proc.
  - apply leave_free_ne; [done|]. unfold lock_free. rewrite H2. by apply enter_free_ne.
  - cbn. by rewrite Hi.
Qed.

(** A change of the ring. *)
Lemma handling_input f s0 s t t' : handling s0 s t -> tty_rep (f (c_input (k_cons s))) t' -> handling s0 (upd_input f s) t'.
Proof. intros [H1 H2 Hi H3 H4 H5] R. by split. Qed.

(** The echo changes the screen and the serial port only. *)
Record echoed (s s' : kstate) : Prop := Echoed {
  ec_cpu : k_cpu s' = k_cpu s;
  ec_locks : k_locks s' = k_locks s;
  ec_icache : k_icache s' = k_icache s;
  ec_table : k_ptable s' = k_ptable s;
  ec_panicked : c_panicked (k_cons s') = c_panicked (k_cons s);
  ec_input : c_input (k_cons s') = c_input (k_cons s)
}.

Lemma consputc_echoes c s : c_panicked (k_cons s) = 0 -> exists s', consputc c s = Ret tt s' /\ echoed s s'.
Proof.
  intros Hp. unfold consputc. rewrite bind_gets, Hp. cbn [negb Z.eqb].
  unfold cgaputc, uartputc. destruct (c =? BACKSPACE); rewrite ?bind_assoc, ?bind_modify; (eexists; split; [reflexivity|]);
    unfold upd_cons; cbn [k_cons set_k_cons c_pos c_crt set_c_uart];
    (destruct (cga _ _ _) as [pos crt]; by split).
Qed.

(** A change of the ring, with the echo after it. *)
Lemma handling_echo f s0 s s' t t' : handling s0 s t -> echoed (upd_input f s) s' -> tty_rep (f (c_input (k_cons s))) t' -> handling s0 s' t'.
Proof. intros [H1 H2 Hi H3 H4 H5] [E1 E2 Ei E3 E4 E5] R. split; [by rewrite E1 | by rewrite E2 | by rewrite Ei | by rewrite E3 | by rewrite E4 | by rewrite E5]. Qed.

Lemma erase_handling s0 s t l c : handling s0 s t -> line t = l ++ [c] ->
  exists s', (modify (upd_input (fun k => set_in_e (u32 (in_e k - 1)) k));;; consputc BACKSPACE) s = Ret tt s' /\ handling s0 s' (Tty (ready t) l).
Proof.
  intros H El. destruct (tty_back _ _ l c (hd_tty _ _ _ H) El) as [R' _]. rewrite bind_modify.
  edestruct (consputc_echoes BACKSPACE) as (s1 & E1 & H1); [|exists s1; split; [exact E1 | by eapply handling_echo]]. exact (hd_panicked _ _ _ H).
Qed.

Lemma wakeup_handling ch s0 t0 s t : console_ok s0 t0 -> handling s0 s t -> exists s', wakeup ch s = Ret tt s' /\ handling s0 s' t.
Proof.
  intros [C1 C2 C3 C4 C5 C6] [H1 H2 Hi H3 H4 H5]. assert (cpu_ok (k_cpu s)) as Hc by (rewrite H1; by apply cpu_ok_push).
  assert (lock_free LKptable s) as Hf by (unfold lock_free; rewrite H2; by apply enter_free_ne).
  eexists. split; [by apply wakeup_run|]. rewrite sync_held by (rewrite H1; destruct C1; simpl; lia).
  split; try done. cbn. by rewrite length_map.
Qed.

(** Control-U: one backspace for each byte of the line. *)
Lemma kill_line_handling n s0 s t : (length (line t) <= n)%nat -> handling s0 s t ->
  exists s', kill_line n s = Ret tt s' /\ handling s0 s' (Tty (ready t) []).
Proof.
  revert s t. induction n as [|n IH]; intros s t Hn H; pose proof (hd_tty _ _ _ H) as R; cbn [kill_line]; rewrite bind_gets, (tty_empty _ _ R);
    destruct t as [r l]; cbn [line ready] in *.
  - destruct l; [|cbn in Hn; lia]. by exists s.
  - induction l as [|c l _] using rev_ind; [by exists s|]. rewrite length_app in *. cbn [length] in *.
    destruct (tty_back _ _ l c R eq_refl) as [_ ->]. replace (length l + 1)%nat with (S (length l)) by lia.
    assert ((c =? newline) = false) as -> by (apply Z.eqb_neq; intros ->; pose proof (tr_line _ _ R); set_solver).
    cbn [Nat.eqb negb andb]. rewrite <- bind_assoc.
    destruct (erase_handling s0 s _ l c H eq_refl) as (s1 & E1 & H1).
    mret E1. apply (IH s1 (Tty r l)); [cbn; lia | done].
Qed.

Lemma backspace_handling s0 s t : handling s0 s t ->
  exists s', (k <- gets (fun s => c_input (k_cons s));;
    when negb (in_e k =? in_w k) do
      modify (upd_input (fun k => set_in_e (u32 (in_e k - 1)) k));;;
      consputc BACKSPACE) s = Ret tt s' /\ handling s0 s' (Tty (ready t) (removelast (line t))).
Proof.
  intros H. pose proof (hd_tty _ _ _ H) as R. rewrite bind_gets, (tty_empty _ _ R). destruct t as [r l]; cbn [ready line] in *.
  induction l as [|c l _] using rev_ind; [by exists s|]. rewrite length_app. cbn [length]. replace (length l + 1)%nat with (S (length l)) by lia.
  cbn [Nat.eqb negb]. rewrite removelast_last. by apply (erase_handling _ _ (Tty r (l ++ [c])) l c).
Qed.

(** Everything else than control-Z and control-P, which do not touch the terminal. *)
Definition typeable (c : Z) : Prop := 0 <= c < 256 /\ c <> ctrl 90 /\ c <> ctrl 80.

Lemma console_char_handling c s0 t0 s t : console_ok s0 t0 -> typeable c -> handling s0 s t ->
  exists s', console_char c s = Ret tt s' /\ handling s0 s' (tty_type t c).
Proof.
  intros C (Hc & Hz & Hp) H. pose proof (hd_tty _ _ _ H) as R. unfold console_char, tty_type.
  apply Z.eqb_neq in Hz as ->. apply Z.eqb_neq in Hp as ->.
  destruct (c =? ctrl 85). { apply kill_line_handling; [|done]. pose proof (tr_room _ _ R). rewrite length_app in *. change (Z.to_nat INPUT_BUF) with 128%nat. lia. }
  destruct (_ || _); [by apply backspace_handling|]. rewrite bind_gets, (tty_room _ _ R).
  destruct (negb (c =? 0)); [|by exists s]. destruct (Nat.ltb_spec (length (ready t ++ line t)) 128) as [Hr|]; [|by exists s].
  cbn [andb]. set (c' := if c =? 13 then newline else c). assert (0 <= c' < 256) as Hc' by (subst c'; unfold newline; destruct (c =? 13); lia).
  assert (u8 c' = c') as -> by word_lia. destruct (tty_put _ _ c' R Hr Hc') as (P1 & P2 & P3). rewrite bind_modify.
  change (upd_input _ s) with (upd_input (put_input c') s).
  destruct (consputc_echoes c' (upd_input (put_input c') s) (hd_panicked _ _ _ H)) as (s1 & E1 & H1). mret E1.
  rewrite bind_gets, (ec_input _ _ H1). change (c_input (k_cons (upd_input (put_input c') s))) with (put_input c' (c_input (k_cons s))). rewrite P3.
  destruct (_ || _ || _) eqn:Ew.
  - rewrite bind_modify. apply (wakeup_handling _ _ t0); [done|]. destruct H as [B1 B2 Bi B3 B4 B5], H1 as [E1' E2 Ei E3 E4 E5].
    split; cbn; [by rewrite E1' | by rewrite E2 | by rewrite Ei | by rewrite E3 | by rewrite E4 | by rewrite E5].
  - exists s1. split; [done|]. apply (handling_echo (put_input c') _ s _ t); [done..|]. apply P1. apply orb_false_iff in Ew as [Ew _].
    apply orb_false_iff in Ew as [Ew _]. by apply Z.eqb_neq.
Qed.

Lemma console_chars_handling cs s0 t0 s t : console_ok s0 t0 -> Forall typeable cs -> handling s0 s t ->
  exists s', for_each cs console_char s = Ret tt s' /\ handling s0 s' (foldl tty_type t cs).
Proof.
  intros C Hcs. revert s t. induction Hcs as [|c cs Hc _ IH]; intros s t H; [by exists s|].
  cbn [for_each foldl]. destruct (console_char_handling c s0 t0 s t C Hc H) as (s1 & E1 & H1). mret E1. by apply IH.
Qed.

Lemma consoleintr_types cs s t : console_ok s t -> Forall typeable cs ->
  exists s', consoleintr cs s = Ret tt s' /\ console_ok s' (foldl tty_type t cs) /\
    forall i ip v, inode_held i ip v s -> inode_held i ip v s'.
Proof.
  intros C Hcs. unfold consoleintr. mret (acquire_run LKinput s (co_input _ _ C)).
  destruct (console_chars_handling cs s t _ t C Hcs (handling_enter _ _ C)) as (s1 & E1 & H1). mret E1.
  destruct (handling_leave s t s1 _ C H1) as [E2 H2]. rewrite E2. eexists. split_and!; [done|done|].
  intros i ip v Hi. exact (held_leave _ _ _ s s1 _ (co_cpu _ _ C) Hi H1).
Qed.

(** ** The reader *)

(** The first byte that is ready is taken out. *)
Lemma tty_take k c r l : tty_rep k (Tty (c :: r) l) ->
  (in_r k =? in_w k) = false /\ at_input (in_r k) k = c /\ 0 <= c < 256 /\
  tty_rep (set_in_r (u32 (in_r k + 1)) k) (Tty r l) /\ u32 (u32 (in_r k + 1) - 1) = in_r k.
Proof.
  intros [R1 R2 R3 R4 R5 R6 R7 R8]. cbn [ready line app length] in *. split_and!.
  - apply Z.eqb_neq. rewrite R3. rewrite length_app in *. word_lia.
  - rewrite at_input_mod, <- (R6 0%nat c eq_refl). by rewrite Z.add_0_r.
  - by apply Forall_cons in R8 as [[??] _].
  - by apply Forall_cons in R8 as [[??] _].
  - split; cbn [set_in_r in_r in_w in_e in_buf ready line]; try done.
    + word_lia.
    + rewrite R3. word_lia.
    + rewrite R4. word_lia.
    + lia.
    + intros i x Hi. rewrite <- (R6 (S i) x Hi). do 2 f_equal.
      rewrite <- (u32_mod_ring (u32 (in_r k + 1) + Z.of_nat i) 128), <- (u32_mod_ring (in_r k + Z.of_nat (S i)) 128) by (lia || by exists 33554432).
      f_equal. word_lia.
    + by apply Forall_cons in R8 as [_ ?].
  - word_lia.
Qed.

Section Reader.
Context `{DR : BlockDriver} (fuel : nat).

Lemma input_round_ready s c r l : tty_rep (c_input (k_cons s)) (Tty (c :: r) l) -> repeat_until (S fuel) input_round s = Ret true s.
Proof. intros R. destruct (tty_take _ _ _ _ R) as (E & _). cbn [repeat_until]. unfold input_round. rewrite bind_assoc, bind_gets, E. done. Qed.

Lemma console_bytes_reads n acc s0 s t out r' : handling s0 s t -> tty_read n acc (ready t) = Some (out, r') ->
  exists s', console_bytes (S fuel) n None acc s = Ret (Some out) s' /\ handling s0 s' (Tty r' (line t)).
Proof.
  revert acc s t. induction n as [|n IH]; intros acc s [r l] H E; cbn [tty_read ready line console_bytes] in *.
  { injection E as -> ->. by exists s. }
  destruct r as [|c r]; [done|]. pose proof (hd_tty _ _ _ H) as R. destruct (tty_take _ _ _ _ R) as (_ & Ec & Hc & R' & Eb).
  mret (input_round_ready s c r l R). cbn [negb]. rewrite bind_gets, Ec, bind_modify.
  pose proof (handling_input (fun k => set_in_r (u32 (in_r k + 1)) k) _ _ _ _ H R') as H'.
  destruct (c =? ctrl 68).
  - injection E as <- <-. destruct (length acc =? 0)%nat; cbn [negb]; [by eexists|]. rewrite bind_modify. eexists. split; [done|].
    apply (handling_input _ _ _ _ _ H'). cbn [upd_input upd_cons set_k_cons k_cons c_input set_c_input set_in_r in_r]. rewrite Eb.
    by destruct (c_input (k_cons s)).
  - assert (u8 c = c) as -> by word_lia. unfold move_to at 1. destruct (c =? newline).
    + injection E as <- <-. by eexists.
    + by apply (IH _ _ (Tty r l)).
Qed.

(** The inode lock is given up and taken again around the wait for input. *)
Lemma iunlock_held i ip s t : console_ok s t -> inode_held i ip 1 s ->
  exists s', iunlock (Some ip) s = Ret tt s' /\ console_ok s' t /\ inode_held i ip 0 s'.
Proof.
  intros [C1 C2 C3 C4 C5 C6] [I1 I2 I3 I4 I5 I6]. unfold iunlock. mret (holdingsleep_run (SLinode ip) s I2 C1).
  cbn [sleep_of]. rewrite I6. cbn [Z.eqb]. rewrite bind_gets. change (inode_at ip (sync s)) with (inode_at ip s).
  replace (i_ref (inode_at ip s) <? 1) with false by lia.
  eexists. split; [apply releasesleep_run; try done; cbn; by apply cpu_ok_sync|].
  assert (inode_at ip (sl_released (SLinode ip) (sync (sync s))) = set_i_lock (set_sl_pid 0 (set_sl_locked 0 (i_lock (inode_at ip s)))) (inode_at ip s)) as Ei.
  { apply lookup_lt_is_Some in I3 as [x Hx]. unfold inode_at. cbn. by rewrite !list_lookup_alter_eq, Hx. }
  split; split; rewrite ?Ei; try done.
  - cbn. by do 2 apply cpu_ok_sync.
  - cbn. by rewrite length_map.
  - cbn. by rewrite !sync_cpu_proc.
  - cbn. by rewrite !length_alter.
Qed.

Lemma ilock_held i ip s t : console_ok s t -> inode_held i ip 0 s ->
  exists s', ilock (S fuel) (Some ip) s = Ret tt s' /\ console_ok s' t /\ inode_held i ip 1 s'.
Proof.
  intros [C1 C2 C3 C4 C5 C6] [I1 I2 I3 I4 I5 I6]. unfold ilock. rewrite bind_gets.
  replace (i_ref (inode_at ip s) <? 1) with false by lia.
  mret (acquiresleep_free_run i (SLinode ip) fuel s I1 C1 I2 I6). rewrite bind_gets.
  set (s' := sl_taken _ _ _).
  assert (inode_at ip s' = set_i_lock (set_sl_pid (p_pid (proc_at i s)) (set_sl_locked 1 (i_lock (inode_at ip s)))) (inode_at ip s)) as Ei.
  { apply lookup_lt_is_Some in I3 as [x Hx]. unfold inode_at. cbn. by rewrite !list_lookup_alter_eq, Hx. }
  rewrite Ei. cbn [i_flags set_i_lock]. rewrite I5. exists s'. split; [done|].
  split; split; rewrite ?Ei; try done.
  - cbn. by apply cpu_ok_sync.
  - cbn. by rewrite !sync_cpu_proc.
  - cbn. by rewrite !length_alter.
Qed.

(** ** Property *)

(** C15: The console is a terminal with a line editor.  Whatever is typed, control-Z (reboot)
    and control-P (process listing) aside, the interrupt handler
    returns with the ring of 128 bytes and its three wrapping counters in the state of the abstract
    terminal after the same characters.  A consoleread that has no need to wait then returns the bytes
    that the abstract terminal hands out (up to and with the first newline, up to control-D, or as
    many as were asked for) and leaves the others, the unfinished line among them, to be edited
    and read later; the inode is locked again on return. *)
Theorem console_line_discipline i ip off n cs s t out rest :
  console_ok s t -> inode_held i ip 1 s -> Forall typeable cs ->
  tty_read (Z.to_nat n) [] (ready (foldl tty_type t cs)) = Some (out, rest) ->
  exists s1 s2, consoleintr cs s = Ret tt s1 /\ console_ok s1 (foldl tty_type t cs) /\
    consoleread (S fuel) ip off None n s1 = Ret (Z.of_nat (length out), out) s2 /\
    console_ok s2 (Tty rest (line (foldl tty_type t cs))) /\ inode_held i ip 1 s2.
Proof.
  intros C Hi Hcs Hr. destruct (consoleintr_types cs s t C Hcs) as (s1 & E1 & C1 & H1).
  destruct (iunlock_held i ip s1 _ C1 (H1 _ _ _ Hi)) as (s2 & E2 & C2 & H2).
  destruct (console_bytes_reads _ [] s2 _ _ out rest (handling_enter _ _ C2) Hr) as (s3 & E3 & H3).
  destruct (handling_leave _ _ s3 _ C2 H3) as [E4 C4].
  destruct (ilock_held i ip _ _ C4 (held_leave _ _ _ _ _ _ (co_cpu _ _ C2) H2 H3)) as (s5 & E5 & C5 & H5).
  exists s1, s5. split_and!; try done. unfold consoleread. mret E2. mret (acquire_run LKinput s2 (co_input _ _ C2)).
  mret E3. mret E4. mret E5. done.
Qed.

End Reader.

(** *** Witness *)

(** Process 1 has the inode of the console locked; the counters of the ring are about to wrap. *)
Definition at_prompt : kstate :=
  set_k_cons (Console 1 0 (fun _ => 0) 0 [] (Input (replicate 128 0) 4294967294 4294967294 4294967294))
    (set_k_icache (replicate 50 (set_i_ref 1 (set_i_flags I_VALID (set_i_lock (Sleeplock 1 "inode" 1) zero_inode))))
      (set_k_locks (<[LKsleep (SLinode 0) := Spinlock 0 "sleep lock" None]> boot_locks) two_procs)).

Lemma at_prompt_free lk : LKsleep (SLinode 0) <> lk -> bool_decide (is_Some (boot_locks !! lk)) = true -> lock_free lk at_prompt.
Proof.
  intros Hne Hb. unfold lock_free. cbn [at_prompt k_locks set_k_cons set_k_icache set_k_locks]. rewrite lookup_insert_ne by done.
  by apply (two_procs_free lk).
Qed.

Lemma at_prompt_ok : console_ok at_prompt (Tty [] []).
Proof.
  split; [done | by apply at_prompt_free | by apply at_prompt_free | done | done|].
  split; cbn; [done | lia | done | done | lia | done | set_solver | constructor].
Qed.

(** The keys l, x, backspace, s, return, p: the command is read without the erased byte, and p
    waits for the rest of its line. *)
Lemma console_line_discipline_witness : exists s1 s2,
  consoleintr [108; 120; 8; 115; 13; 112] at_prompt = Ret tt s1 /\
  consoleread (DR := memide_driver 1000) 1 0 0 None 80 s1 = Ret (3, [108; 115; 10]) s2 /\ console_ok s2 (Tty [] [112]).
Proof.
  destruct (console_line_discipline (DR := memide_driver 1000) 0 1 0 0 80 [108; 120; 8; 115; 13; 112] at_prompt (Tty [] []) [108; 115; 10] [])
    as (s1 & s2 & E1 & _ & E2 & C & _).
  - exact at_prompt_ok.
  - split; [done | eexists; apply lookup_insert_eq | cbn; lia | done..].
  - repeat constructor; done.
  - reflexivity.
  - by exists s1, s2.
Defined.
