(* ===== verification/File.v ===== *)
(** * File: file.c, the table of open files, and pipealloc of pipe.c

    An open file is named by its index in [ftable.file]. *)

From S2P Require Import Prelude Machine Spinlock Cstring Ktrace Layout Kalloc Vm Sched Sleeplock Pipe Bio Log Fs.
#[local] Open Scope prog_scope.

Definition file_at (f : nat) (s : kstate) : file := default zero_file (k_ftable s !! f).
Definition upd_file (f : nat) (g : file -> file) (s : kstate) : kstate := set_k_ftable (alter g f (k_ftable s)) s.

(** A store of the [n] low bytes of [v] to user memory. *)
Definition ustore_le (va : Z) (n : nat) (v : Z) : kprog unit :=
  for_each (imap (fun j b => (u64 (va + Z.of_nat j), b)) (le_bytes n v)) (fun p => ustore (fst p) (snd p)).

Definition fileinit : kprog unit := initlock LKftable "ftable".

Definition filealloc : kprog (option nat) :=
  acquire LKftable;;;
  r <- for_break (seq 0 NFILE) (fun f =>
    x <- gets (file_at f);;
    if f_ref x =? 0 then
      modify (upd_file f (set_f_ref 1));;;
      release LKftable;;;
      ret (Some f)
    else ret None);;
  match r with
  | Some f => ret (Some f)
  | None => release LKftable;;; ret None
  end.

Definition filedup (f : nat) : kprog nat :=
  acquire LKftable;;;
  x <- gets (file_at f);;
  if f_ref x <? 1 then panic "filedup" else
  modify (upd_file f (fun x => set_f_ref (i32 (f_ref x + 1)) x));;;
  release LKftable;;;
  ret f.

(** stati of fs.c: the fields of struct stat at their offsets from [st]. *)
Definition stati (ip : nat) (st : Z) : kprog unit :=
  x <- gets (inode_at ip);;
  ustore_le (u64 (st + 4)) 4 (i_dev x);;;
  ustore_le (u64 (st + 8)) 4 (i_inum x);;;
  ustore_le st 2 (i_type x);;;
  ustore_le (u64 (st + 12)) 2 (i_nlink x);;;
  ustore_le (u64 (st + 16)) 4 (i_size x).

Section File.
Context `{LK : Linker} `{DR : BlockDriver} `{DV : DevSw} (fuel : nat).

Definition fileclose (f : nat) : kprog unit :=
  acquire LKftable;;;
  x <- gets (file_at f);;
  if f_ref x <? 1 then panic "fileclose" else
  modify (upd_file f (fun x => set_f_ref (i32 (f_ref x - 1)) x));;;
  ff <- gets (file_at f);;
  if f_ref ff >? 0 then release LKftable else
  modify (upd_file f (set_f_ref 0));;;
  modify (upd_file f (set_f_type FD_NONE));;;
  release LKftable;;;
  match f_type ff with
  | FD_PIPE => pipeclose (f_pipe ff) (f_writable ff)
  | FD_INODE =>
    begin_op fuel;;;
    (match f_ip ff with Some ip => iput fuel ip | None => undef "fileclose: null inode" end);;;
    end_op fuel
  | FD_NONE => ret tt
  end.

(** The inode of an open file, where it is dereferenced. *)
Definition the_inode (f : nat) : kprog nat :=
  x <- gets (file_at f);;
  match f_ip x with Some ip => ret ip | None => undef "null inode" end.

Definition filestat (f : nat) (st : Z) : kprog Z :=
  x <- gets (file_at f);;
  if bool_decide (f_type x = FD_INODE) then
    ilock fuel (f_ip x);;;
    ip <- the_inode f;;
    stati ip st;;;
    iunlock (f_ip x);;;
    ret 0
  else ret (-1).

Definition fileread (f : nat) (addr n : Z) : kprog Z :=
  x <- gets (file_at f);;
  if f_readable x =? 0 then ret (-1) else
  match f_type x with
  | FD_PIPE => piperead fuel (f_pipe x) addr n
  | FD_INODE =>
    ilock fuel (f_ip x);;;
    ip <- the_inode f;;
    off <- gets (fun s => f_off (file_at f s));;
    r <- readi fuel ip (Some addr) off (u32 n);;
    let r := fst r in
    (when r >? 0 do modify (upd_file f (fun x => set_f_off (u32 (f_off x + r)) x)));;;
    iunlock (f_ip x);;;
    ret r
  | FD_NONE => panic "fileread"
  end.

(** The largest piece of a write, in bytes. *)
Definition filewrite_max : Z := (LOGSIZE - 1 - 1 - 2) / 2 * 512.

(** Every round but the last writes [filewrite_max] bytes. *)
Fixpoint filewrite_loop (k : nat) (f : nat) (addr n i : Z) : kprog Z :=
  if i <? n then
    match k with
    | O => fun s => NoFuel s
    | S k =>
      let n1 := Z.min (n - i) filewrite_max in
      x <- gets (file_at f);;
      begin_op fuel;;;
      ilock fuel (f_ip x);;;
      ip <- the_inode f;;
      off <- gets (fun s => f_off (file_at f s));;
      r <- writei fuel ip (inl (u64 (addr + i))) off (u32 n1);;
      (when r >? 0 do modify (upd_file f (fun x => set_f_off (u32 (f_off x + r)) x)));;;
      iunlock (f_ip x);;;
      end_op fuel;;;
      if r <? 0 then ret i else
      if negb (r =? n1) then panic "short filewrite" else
      filewrite_loop k f addr n (i + r)
    end
  else ret i.

Definition filewrite (f : nat) (addr n : Z) : kprog Z :=
  x <- gets (file_at f);;
  if f_writable x =? 0 then ret (-1) else
  match f_type x with
  | FD_PIPE => pipewrite fuel (f_pipe x) addr n
  | FD_INODE =>
    i <- filewrite_loop (Z.to_nat (n / filewrite_max + 1)) f addr n 0;;
    ret (if i =? n then n else -1)
  | FD_NONE => panic "filewrite"
  end.

(** The data array follows the lock in struct pipe; it has whatever was in the page. *)
Definition new_pipe (p : Z) (s : kstate) : pipe :=
  Pipe (map (fun j => k_mem s (p + 104 + Z.of_nat j)) (seq 0 (Z.to_nat PIPESIZE))) 0 0 1 1.

Definition pipe_end (f : nat) (p readable writable : Z) : kprog unit :=
  modify (upd_file f (set_f_type FD_PIPE));;;
  modify (upd_file f (set_f_readable readable));;;
  modify (upd_file f (set_f_writable writable));;;
  modify (upd_file f (set_f_pipe p)).

Definition close_opt (f : option nat) : kprog unit :=
  match f with Some f => fileclose f | None => ret tt end.

(** The two files, or [None] for -1. *)
Definition pipealloc : kprog (option (nat * nat)) :=
  f0 <- filealloc;;
  match f0 with
  | None => ret None
  | Some f0 =>
    f1 <- filealloc;;
    match f1 with
    | None => close_opt (Some f0);;; close_opt None;;; ret None
    | Some f1 =>
      p <- kalloc;;
      if p =? 0 then close_opt (Some f0);;; close_opt (Some f1);;; ret None else
      modify (fun s => set_k_pipes (<[p := new_pipe p s]> (k_pipes s)) s);;;
      initlock (LKpipe p) "pipe";;;
      pipe_end f0 p 1 0;;;
      pipe_end f1 p 0 1;;;
      ret (Some (f0, f1))
    end
  end.

End File.
