(* ===== verification/Proc.v ===== *)
(** * Proc: proc.c, the life of a process (the scheduler and its primitives are in Sched)

    The trap frame and the saved context of a process lie on its kernel stack; the model
    keeps the trap frame in [p_tf] and writes the rest to memory.  A thread that calls
    exit gives the CPU away for good; what would follow if it were resumed is the panic
    of the code. *)

From S2P Require Import Prelude Machine Spinlock Cstring Ktrace Layout Kalloc Vm Sched Sleeplock Pipe Bio Log Fs File.
#[local] Open Scope prog_scope.

(** Addresses that the linker provides: the code of forkret and syscall_trapret, and
    the program initcode. *)
Class Symbols := { sym_forkret : Z; sym_trapret : Z; initcode_start : Z; initcode_size : Z }.

Definition sizeof_trapframe : Z := 176.
Definition sizeof_context : Z := 56.
Definition FL_IF : Z := 512.

(** What safestrcpy stores at its destination for a bound of [S k] bytes. *)
Fixpoint safestr (k : nat) (t : list Z) : list Z :=
  match k with
  | O => [0]
  | S k => if hd 0 t =? 0 then [0; 0] else hd 0 t :: safestr k (tl t)
  end.
Definition set_name (name : list Z) (p : proc) : proc := set_p_name (splice 0 (safestr 15 name) (p_name p)) p.

Section Proc.
Context `{LK : Linker} `{DR : BlockDriver} `{DV : DevSw} `{SY : Symbols} (fuel : nat).

Definition find_unused : kprog (option nat) :=
  for_break (seq 0 NPROC) (fun i =>
    p <- gets (proc_at i);;
    ret (if bool_decide (p_state p = UNUSED) then Some i else None)).

Definition allocproc : kprog (option nat) :=
  acquire LKptable;;;
  r <- find_unused;;
  match r with
  | None => release LKptable;;; ret None
  | Some i =>
    modify (upd_proc i (set_p_state EMBRYO));;;
    modify (fun s => upd_proc i (set_p_pid (k_nextpid s)) s);;;
    modify (fun s => set_k_nextpid (i32 (k_nextpid s + 1)) s);;;
    release LKptable;;;
    kstack <- kalloc;;
    modify (upd_proc i (set_p_kstack kstack));;;
    if kstack =? 0 then modify (upd_proc i (set_p_state UNUSED));;; ret None else
    let sp := kstack + KSTACKSIZE - sizeof_trapframe - 8 in
    st64 sp sym_trapret;;;
    let sp := sp - sizeof_context in
    modify (upd_proc i (set_p_context sp));;;
    modify (upd_mem (fun m => memset m sp 0 sizeof_context));;;
    st64 (sp + 48) sym_forkret;;;
    ret (Some i)
  end.

Definition userinit : kprog unit :=
  p <- allocproc;;
  modify (set_k_initproc p);;;
  match p with
  | None => undef "userinit: null process"
  | Some i =>
    pgdir <- setupkvm;;
    modify (upd_proc i (set_p_pgdir pgdir));;;
    if pgdir =? 0 then panic "userinit: out of memory?" else
    inituvm pgdir initcode_start (u32 initcode_size);;;
    modify (upd_proc i (set_p_sz (PGSIZE * 2)));;;
    modify (upd_proc i (fun p => set_p_tf (set_tf_rcx PGSIZE (set_tf_rsp (p_sz p) (set_tf_r11 FL_IF zero_tf))) p));;;
    modify (upd_proc i (set_name (lit "initcode")));;;
    cwd <- namei fuel [slash];;
    modify (upd_proc i (set_p_cwd cwd));;;
    modify (upd_proc i (set_p_state RUNNABLE))
  end.

Definition growproc (n : Z) : kprog Z :=
  i <- myproc;;
  p <- gets (proc_at i);;
  let sz := p_sz p in
  sz' <- (if n >? 0 then allocuvm (p_pgdir p) sz (u64 (sz + n))
          else if n <? 0 then deallocuvm (p_pgdir p) sz (u64 (sz + n))
          else ret sz);;
  if negb (n =? 0) && (sz' =? 0) then ret (-1) else
  modify (upd_proc i (set_p_sz sz'));;;
  switchuvm i;;;
  ret 0.

Definition fork : kprog Z :=
  r <- allocproc;;
  match r with
  | None => ret (-1)
  | Some np =>
    i <- myproc;;
    p <- gets (proc_at i);;
    pgdir <- copyuvm (p_pgdir p) (p_sz p);;
    modify (upd_proc np (set_p_pgdir pgdir));;;
    if pgdir =? 0 then
      q <- gets (proc_at np);;
      kfree (p_kstack q);;;
      modify (upd_proc np (set_p_kstack 0));;;
      modify (upd_proc np (set_p_state UNUSED));;;
      ret (-1)
    else
    modify (fun s => upd_proc np (set_p_sz (p_sz (proc_at i s))) s);;;
    modify (upd_proc np (set_p_parent (Some i)));;;
    modify (fun s => upd_proc np (set_p_tf (p_tf (proc_at i s))) s);;;
    modify (upd_proc np (fun q => set_p_tf (set_tf_rax 0 (p_tf q)) q));;;
    for_each (seq 0 NOFILE) (fun fd =>
      p <- gets (proc_at i);;
      match p_ofile p !! fd with
      | Some (Some f) =>
        f <- filedup f;;
        modify (upd_proc np (fun q => set_p_ofile (<[fd := Some f]> (p_ofile q)) q))
      | _ => ret tt
      end);;;
    p <- gets (proc_at i);;
    (match p_cwd p with
     | Some ip => ip <- idup ip;; modify (upd_proc np (set_p_cwd (Some ip)))
     | None => undef "fork: no current directory"
     end);;;
    modify (fun s => upd_proc np (set_name (p_name (proc_at i s))) s);;;
    q <- gets (proc_at np);;
    let pid := p_pid q in
    modify (upd_proc np (set_p_state RUNNABLE));;;
    p <- gets (proc_at i);;
    traceevent TRACE_TYPE_PROC pid (p_pid p) 0 0 (Some (lit "fork"));;;
    ret pid
  end.

(** The address of a process structure as a wait channel. *)
Definition chan_of (p : option nat) : chan := match p with Some i => ChProc i | None => ChNull end.

Definition exit {A} : kprog A :=
  i <- myproc;;
  init <- gets k_initproc;;
  if bool_decide (init = Some i) then panic "init exiting" else
  p <- gets (proc_at i);;
  traceevent TRACE_TYPE_PROC (p_pid p) 0 0 0 (Some (lit "exit"));;;
  for_each (seq 0 NOFILE) (fun fd =>
    p <- gets (proc_at i);;
    match p_ofile p !! fd with
    | Some (Some f) =>
      fileclose fuel f;;;
      modify (upd_proc i (fun p => set_p_ofile (<[fd := None]> (p_ofile p)) p))
    | _ => ret tt
    end);;;
  begin_op fuel;;;
  p <- gets (proc_at i);;
  (match p_cwd p with Some ip => iput fuel ip | None => undef "exit: no current directory" end);;;
  end_op fuel;;;
  modify (upd_proc i (set_p_cwd None));;;
  acquire LKptable;;;
  p <- gets (proc_at i);;
  wakeup1 (chan_of (p_parent p));;;
  for_each (seq 0 NPROC) (fun j =>
    q <- gets (proc_at j);;
    when bool_decide (p_parent q = Some i) do
      init <- gets k_initproc;;
      modify (upd_proc j (set_p_parent init));;;
      when bool_decide (p_state q = ZOMBIE) do wakeup1 (chan_of init));;;
  modify (upd_proc i (set_p_state ZOMBIE));;;
  sched;;;
  panic "zombie exit".

(** One child: [Some pid] ends the scan. *)
Definition wait_child (i j : nat) : kprog (option Z) :=
  q <- gets (proc_at j);;
  if negb (bool_decide (p_parent q = Some i)) then ret None else
  if bool_decide (p_state q = ZOMBIE) then
    kfree (p_kstack q);;;
    modify (upd_proc j (set_p_kstack 0));;;
    freevm (p_pgdir q);;;
    modify (upd_proc j (set_p_pid 0));;;
    modify (upd_proc j (set_p_parent None));;;
    modify (upd_proc j (fun q => set_p_name (<[0%nat := 0]> (p_name q)) q));;;
    modify (upd_proc j (set_p_killed 0));;;
    modify (upd_proc j (set_p_state UNUSED));;;
    release LKptable;;;
    ret (Some (p_pid q))
  else ret None.

Definition have_kids (i : nat) (s : kstate) : bool :=
  existsb (fun q => bool_decide (p_parent q = Some i)) (take NPROC (k_ptable s)).

Definition wait : kprog Z :=
  i <- myproc;;
  acquire LKptable;;;
  repeat_until fuel (
    r <- for_break (seq 0 NPROC) (wait_child i);;
    match r with
    | Some pid => ret (Some pid)
    | None =>
      havekids <- gets (have_kids i);;
      p <- gets (proc_at i);;
      if negb havekids || negb (p_killed p =? 0) then release LKptable;;; ret (Some (-1)) else
      sleep (ChProc i) LKptable;;;
      ret None
    end).

Definition forkret : kprog unit :=
  release LKptable;;;
  first <- gets k_first;;
  when negb (first =? 0) do
    modify (set_k_first 0);;;
    iinit fuel ROOTDEV;;;
    initlog fuel ROOTDEV.

End Proc.

(** ** The process table *)

Definition live (s : kstate) (i : nat) : Prop := (i < NPROC)%nat /\ p_state (proc_at i s) <> UNUSED.

(** Processes that exist have different pids, all handed out already. *)
Record pids_ok (s : kstate) : Prop := Pids_ok {
  pk_len : length (k_ptable s) = NPROC;
  pk_next : 0 < k_nextpid s;
  pk_range : forall i, live s i -> 0 < p_pid (proc_at i s) < k_nextpid s;
  pk_unique : forall i j, live s i -> live s j -> p_pid (proc_at i s) = p_pid (proc_at j s) -> i = j
}.

(** The kernel stack of a new process: from the top the trap frame, the return address
    into syscall_trapret, and a context that resumes in forkret. *)
Definition new_context (kstack : Z) : Z := kstack + KSTACKSIZE - sizeof_trapframe - 8 - sizeof_context.
Definition stack_mem (forkret trapret kstack : Z) (m : mem) : mem :=
  let sp := new_context kstack in
  store64 (memset (store64 m (sp + sizeof_context) trapret) sp 0 sizeof_context) (sp + 48) forkret.

Lemma stack_mem_out forkret trapret kstack m x :
  ~ (kstack <= x < kstack + PGSIZE) -> stack_mem forkret trapret kstack m x = m x.
Proof.
  unfold PGSIZE. intros Hx. unfold stack_mem, new_context, store64, KSTACKSIZE, sizeof_trapframe, sizeof_context.
  rewrite store_le_out by (simpl; lia). rewrite memset_fill by lia. unfold fill.
  destruct (in_range _ _ _) eqn:E; [apply in_range_spec in E; lia|]. apply store_le_out. simpl. lia.
Qed.

Lemma stack_mem_context forkret trapret kstack m :
  0 <= forkret < 18446744073709551616 -> 0 <= trapret < 18446744073709551616 ->
  load64 (stack_mem forkret trapret kstack m) (new_context kstack + 48) = forkret /\
  load64 (stack_mem forkret trapret kstack m) (new_context kstack + sizeof_context) = trapret.
Proof.
  intros Hf Ht. unfold stack_mem. split; [by apply load64_store64|].
  rewrite <- (load64_store64 m (new_context kstack + sizeof_context) trapret) at 2 by done.
  apply load64_other. intros x Hx. unfold sizeof_context in *. unfold store64 at 1. rewrite store_le_out by (simpl; lia).
  rewrite memset_fill by lia. unfold fill. destruct (in_range _ _ _) eqn:E; [apply in_range_spec in E; lia|done].
Qed.

Lemma stack_mem_bytes forkret trapret kstack m : bytes_ok m -> bytes_ok (stack_mem forkret trapret kstack m).
Proof.
  intros Hm. unfold stack_mem, store64. apply store_le_bytes, memset_bytes; [by apply store_le_bytes|].
  unfold sizeof_context. lia.
Qed.

(** [s'] differs from [s] in memory, the process table, the files and inodes in use, and the trace. *)
Definition proc_only (s s' : kstate) : Prop :=
  quiet (set_k_icache (k_icache s') (set_k_ftable (k_ftable s') (set_k_nextpid (k_nextpid s')
    (set_k_ptable (k_ptable s') (set_k_kmem (k_kmem s') (set_k_mem (k_mem s') s)))))) s'.

Lemma proc_only_trans s1 s2 s3 : proc_only s1 s2 -> proc_only s2 s3 -> proc_only s1 s3.
Proof.
  intros [] []; simpl in *. split; simpl; try congruence.
  destruct q_cpu as [E|E], q_cpu0 as [E'|E']; rewrite E', E; rewrite ?sync_sync; auto.
Qed.

Lemma proc_only_mem s s' : mem_only s s' -> proc_only s s'.
Proof. intros []; simpl in *. by split. Qed.

Lemma proc_only_quiet s s' : quiet s s' -> proc_only s s'.
Proof. intros []. by split. Qed.

Lemma proc_only_upd i f s : proc_only s (upd_proc i f s).
Proof. split; auto. Qed.

Lemma proc_only_set_mem m s : proc_only s (set_k_mem m s).
Proof. split; auto. Qed.

Lemma proc_only_sync s : proc_only s (sync s).
Proof. apply proc_only_quiet, quiet_sync. Qed.

Lemma proc_only_nextpid n s : proc_only s (set_k_nextpid n s).
Proof. split; auto. Qed.

(** One update after the other, the last one first. *)
Ltac frames := repeat (eapply proc_only_trans; [|first [apply proc_only_upd|apply proc_only_set_mem|apply proc_only_nextpid]]).

Section Alloc.
Context `{LK : Linker} `{SY : Symbols}.

Lemma find_unused_run s :
  match list_find (fun p => p_state p = UNUSED) (k_ptable s) with
  | Some (j, _) => length (k_ptable s) = NPROC -> find_unused s = Ret (Some j) s
  | None => length (k_ptable s) = NPROC -> find_unused s = Ret None s
  end.
Proof.
  assert (forall i, (p <- gets (proc_at i);; ret (if bool_decide (p_state p = UNUSED) then Some i else None)) s =
    Ret (if bool_decide (p_state (proc_at i s) = UNUSED) then Some i else None) s) as Hb by done.
  destruct (list_find _ _) as [[j p]|] eqn:Ef; intros Hl; unfold find_unused.
  - apply list_find_Some in Ef as (Hj & Hp & Hlow). pose proof (lookup_lt_Some _ _ _ Hj) as Hlt. rewrite Hl in Hlt.
    replace (seq 0 NPROC) with (seq 0 j ++ j :: seq (S j) (NPROC - S j))
      by (replace NPROC with (j + S (NPROC - S j))%nat at 2 by lia; by rewrite seq_app).
    apply for_break_first.
    + intros y [_ Hy]%elem_of_seq. rewrite Hb. destruct (lookup_lt_is_Some_2 (k_ptable s) y) as [q Hq]; [lia|].
      unfold proc_at. rewrite Hq. cbn. rewrite bool_decide_false by (eapply Hlow; [exact Hq|lia]). done.
    + rewrite Hb. unfold proc_at. rewrite Hj. cbn. by rewrite bool_decide_true.
  - apply for_break_none. intros y [_ Hy]%elem_of_seq. rewrite Hb. destruct (lookup_lt_is_Some_2 (k_ptable s) y) as [q Hq]; [lia|].
    unfold proc_at. rewrite Hq. cbn. rewrite bool_decide_false; [done|]. apply list_find_None in Ef.
    rewrite Forall_lookup in Ef. by eapply Ef.
Qed.

Lemma free_pages_stack r s' m l : linked m (load64 m r) l -> r ∉ l -> NoDup l -> page_ok r -> Forall page_ok l -> bytes_ok m ->
  k_mem s' = stack_mem sym_forkret sym_trapret r m -> freelist (k_kmem s') = load64 m r -> free_pages s' l.
Proof.
  intros Hl Hn Hnd Hr Hok Hb Em Ek. split; rewrite ?Em, ?Ek; try done; [|by apply stack_mem_bytes].
  eapply linked_ext; [|exact Hl]. intros p x Hp Hx. symmetry. apply stack_mem_out.
  rewrite Forall_forall in Hok. apply (pages_apart p r); [by apply Hok|apply Hr|congruence|unfold PGSIZE; lia].
Qed.

(** The slot as allocproc leaves it. *)
Definition embryo (pid kstack : Z) (p : proc) : proc :=
  set_p_context (new_context kstack) (set_p_kstack kstack (set_p_pid pid (set_p_state EMBRYO p))).

Lemma allocproc_run s r l j p :
  length (k_ptable s) = NPROC -> lock_free LKptable s -> alloc_ready s -> free_pages s (r :: l) ->
  list_find (fun p => p_state p = UNUSED) (k_ptable s) = Some (j, p) ->
  exists s', allocproc s = Ret (Some j) s' /\ k_ptable s' = alter (embryo (k_nextpid s) r) j (k_ptable s) /\
    k_nextpid s' = i32 (k_nextpid s + 1) /\ k_mem s' = stack_mem sym_forkret sym_trapret r (k_mem s) /\ free_pages s' l /\
    k_ftable s' = k_ftable s /\ k_icache s' = k_icache s /\ proc_only s s'.
Proof.
  intros Hl Hf (Hk & Ht & Hc) Hfree Ef. unfold allocproc. mret (acquire_run LKptable s Hf).
  pose proof (find_unused_run (enter LKptable s)) as Efu. change (k_ptable (enter LKptable s)) with (k_ptable s) in Efu.
  rewrite Ef in Efu. mret (Efu Hl). rewrite !bind_modify.
  set (u := fun s => set_k_nextpid (i32 (k_nextpid s + 1)) (upd_proc j (set_p_pid (k_nextpid s)) (upd_proc j (set_p_state EMBRYO) s))).
  assert (Stable u) as Hu by (by split). change (set_k_nextpid _ _) with (u (enter LKptable s)).
  mret (release_stable LKptable u s Hu Hf Hc). set (s1 := u (sync s)).
  assert (alloc_ready s1) as Hr1 by (split_and!; [done|done|by apply (cpu_ok_sync (k_cpu s))]).
  destruct Hfree as [[Hhd Hlink] Hnd Hok Hby]. apply Forall_cons_1 in Hok as [Hokr Hok]. apply NoDup_cons in Hnd as [Hnr Hnd].
  assert (r <> 0) as Hr0 by (destruct Hokr as (_ & _ & _ & ?); lia).
  mret (kalloc_run r s1 Hhd Hr0 Hr1). rewrite bind_modify, (proj2 (Z.eqb_neq r 0) Hr0). unfold st64. rewrite !bind_modify.
  set (s2 := kalloced r s1). pose proof (mem_only_kalloced r s1) as M. fold s2 in M.
  eexists. split; [reflexivity|]. cbn [k_ptable k_nextpid k_mem upd_mem upd_proc set_k_mem set_k_ptable].
  assert (k_mem s2 = k_mem s) as Em by exact (kalloced_mem r s1).
  assert (store64 (memset (store64 (k_mem s2) (r + KSTACKSIZE - sizeof_trapframe - 8) sym_trapret)
    (r + KSTACKSIZE - sizeof_trapframe - 8 - sizeof_context) 0 sizeof_context)
    (r + KSTACKSIZE - sizeof_trapframe - 8 - sizeof_context + 48) sym_forkret
    = stack_mem sym_forkret sym_trapret r (k_mem s)) as Est.
  { rewrite Em. unfold stack_mem, new_context. cbv zeta. by rewrite Z.sub_add. }
  split_and!.
  - rewrite (q_ptable _ _ M). cbn. rewrite !list_alter_alter_eq. reflexivity.
  - by rewrite (q_nextpid _ _ M).
  - exact Est.
  - apply (free_pages_stack r _ (k_mem s) l Hlink Hnr Hnd Hokr Hok Hby); [exact Est|exact (f_equal freelist (kalloced_kmem r s1))].
  - exact (q_ftable _ _ M).
  - exact (q_icache _ _ M).
  - frames. eapply proc_only_trans; [|exact (proc_only_mem _ _ M)]. unfold s1, u. frames. apply proc_only_sync.
Qed.

Lemma proc_at_alter f i j s s' : length (k_ptable s) = NPROC -> (j < NPROC)%nat -> k_ptable s' = alter f j (k_ptable s) ->
  proc_at i s' = if bool_decide (i = j) then f (proc_at j s) else proc_at i s.
Proof.
  intros Hl Hj E. unfold proc_at. rewrite E. case_bool_decide as Ei.
  - subst i. rewrite list_lookup_alter_eq. destruct (lookup_lt_is_Some_2 (k_ptable s) j) as [q Hq]; [lia|]. by rewrite Hq.
  - by rewrite list_lookup_alter_ne.
Qed.

Lemma pids_ok_embryo s s' j kstack : pids_ok s -> (j < NPROC)%nat -> p_state (proc_at j s) = UNUSED ->
  k_ptable s' = alter (embryo (k_nextpid s) kstack) j (k_ptable s) -> k_nextpid s' = k_nextpid s + 1 -> pids_ok s'.
Proof.
  intros [Hl Hn Hr Hu] Hj Hfree E En.
  assert (forall i, proc_at i s' = if bool_decide (i = j) then embryo (k_nextpid s) kstack (proc_at j s) else proc_at i s) as Hp
    by (intros i; by apply proc_at_alter).
  assert (forall i, live s' i -> i <> j -> live s i) as Hlive.
  { intros i [? Hi] Hij. rewrite Hp, bool_decide_false in Hi by done. done. }
  split.
  - by rewrite E, length_alter.
  - lia.
  - intros i Hi. rewrite Hp, En. case_bool_decide as Hij; [cbn; lia|]. specialize (Hr i (Hlive i Hi Hij)). lia.
  - intros i i' Hi Hi'. rewrite !Hp. case_bool_decide as E1; case_bool_decide as E2; subst; try done; cbn.
    + intros Eq. specialize (Hr i' (Hlive i' Hi' E2)). lia.
    + intros Eq. specialize (Hr i (Hlive i Hi E1)). lia.
    + apply Hu; auto.
Qed.

Lemma allocproc_full s : length (k_ptable s) = NPROC -> lock_free LKptable s -> cpu_ok (k_cpu s) ->
  list_find (fun p => p_state p = UNUSED) (k_ptable s) = None -> allocproc s = Ret None (sync s).
Proof.
  intros Hl Hf Hc Ef. unfold allocproc. mret (acquire_run LKptable s Hf).
  pose proof (find_unused_run (enter LKptable s)) as Efu. change (k_ptable (enter LKptable s)) with (k_ptable s) in Efu.
  rewrite Ef in Efu. mret (Efu Hl). assert (Stable (fun s : kstate => s)) as Hi by (by split).
  by mret (release_stable LKptable (fun s => s) s Hi Hf Hc).
Qed.

Lemma allocproc_no_memory s j p : length (k_ptable s) = NPROC -> lock_free LKptable s -> alloc_ready s -> free_pages s [] ->
  list_find (fun p => p_state p = UNUSED) (k_ptable s) = Some (j, p) -> exists s', allocproc s = Panic "Out of memory!" s'.
Proof.
  intros Hl Hf (Hk & Ht & Hc) Hfree Ef. unfold allocproc. mret (acquire_run LKptable s Hf).
  pose proof (find_unused_run (enter LKptable s)) as Efu. change (k_ptable (enter LKptable s)) with (k_ptable s) in Efu.
  rewrite Ef in Efu. mret (Efu Hl). rewrite !bind_modify.
  set (u := fun s => set_k_nextpid (i32 (k_nextpid s + 1)) (upd_proc j (set_p_pid (k_nextpid s)) (upd_proc j (set_p_state EMBRYO) s))).
  assert (Stable u) as Hu by (by split). change (set_k_nextpid _ _) with (u (enter LKptable s)).
  mret (release_stable LKptable u s Hu Hf Hc). set (s1 := u (sync s)).
  assert (alloc_ready s1) as Hr1 by (split_and!; [done|done|by apply (cpu_ok_sync (k_cpu s))]).
  destruct (kalloc_empty s1) as [s2 E]; [apply Hfree|done|]. exists s2. by rewrite (bind_Panic _ _ _ _ _ E).
Qed.

(** allocproc keeps the pids of the existing processes positive and different.  With
    a free slot and a free page it takes the first UNUSED slot, makes it an EMBRYO with
    the next pid, leaves every other process alone, takes one page for its kernel stack
    and lays it out so that the first switch to the process runs forkret, which returns
    to syscall_trapret.  With a full table it returns 0 and changes nothing; with no page
    left it panics, though the slot has been taken. *)
Theorem allocproc_fresh_process s l :
  0 <= sym_forkret < 18446744073709551616 -> 0 <= sym_trapret < 18446744073709551616 ->
  pids_ok s -> k_nextpid s < 2147483647 -> lock_free LKptable s -> alloc_ready s -> free_pages s l ->
  match list_find (fun p => p_state p = UNUSED) (k_ptable s), l with
  | None, _ => allocproc s = Ret None (sync s)
  | Some _, [] => exists s', allocproc s = Panic "Out of memory!" s'
  | Some (j, _), kstack :: l' => exists s', allocproc s = Ret (Some j) s' /\ pids_ok s' /\
      p_state (proc_at j s') = EMBRYO /\ p_pid (proc_at j s') = k_nextpid s /\
      (forall i, i <> j -> proc_at i s' = proc_at i s) /\
      p_kstack (proc_at j s') = kstack /\ free_pages s' l' /\
      p_context (proc_at j s') = new_context kstack /\
      load64 (k_mem s') (new_context kstack + 48) = sym_forkret /\
      load64 (k_mem s') (new_context kstack + sizeof_context) = sym_trapret
  end.
Proof.
  intros Hsf Hst Hp Hn Hf Hr Hfree. pose proof (pk_len _ Hp) as Hl.
  destruct (list_find _ _) as [[j p]|] eqn:Ef; [destruct l as [|kstack l']|].
  - by eapply allocproc_no_memory.
  - destruct (allocproc_run s kstack l' j p Hl Hf Hr Hfree Ef) as (s' & E & Et & En & Em & Hfree' & _).
    apply list_find_Some in Ef as (Hj & Hun & _). pose proof (lookup_lt_Some _ _ _ Hj) as Hlt. rewrite Hl in Hlt.
    assert (proc_at j s = p) as Epj by (unfold proc_at; by rewrite Hj).
    rewrite i32_small in En by (pose proof (pk_next _ Hp); lia).
    assert (proc_at j s' = embryo (k_nextpid s) kstack p) as Enew
      by (rewrite (proc_at_alter _ j j s s' Hl Hlt Et), bool_decide_true, Epj by done; done).
    exists s'. rewrite Enew, Em. split_and!; try done.
    + eapply pids_ok_embryo; try done. by rewrite Epj.
    + intros i Hi. by rewrite (proc_at_alter _ i j s s' Hl Hlt Et), bool_decide_false.
    + by apply stack_mem_context.
    + by apply stack_mem_context.
  - apply allocproc_full; [done|done|apply Hr|done].
Qed.
End Alloc.

(** *** Witness: the first process of a kernel with one free page. *)
#[local] Instance proc_symbols : Symbols := {| sym_forkret := 100; sym_trapret := 200; initcode_start := 0; initcode_size := 0 |}.

Lemma with_page_table : k_ptable with_page = k_ptable no_pages.
Proof. exact (q_ptable _ _ (mem_only_kfreed one_page no_pages)). Qed.

Lemma with_page_nextpid : k_nextpid with_page = 1.
Proof. exact (q_nextpid _ _ (mem_only_kfreed one_page no_pages)). Qed.

Lemma with_page_ptable_free : lock_free LKptable with_page.
Proof.
  unfold lock_free. change with_page with (kfreed one_page no_pages).
  rewrite (q_locks _ _ (mem_only_kfreed one_page no_pages)). change (lock_free LKptable no_pages). boot_lock.
Qed.

Lemma with_page_pids : pids_ok with_page.
Proof.
  assert (forall i, ~ live with_page i) as Hno.
  { intros i [Hi Hs]. apply Hs. unfold proc_at. rewrite with_page_table.
    do 64 (destruct i as [|i]; [vm_compute; reflexivity|]). unfold NPROC in Hi. lia. }
  split; [rewrite with_page_table; vm_compute; reflexivity|rewrite with_page_nextpid; reflexivity|intros i Hi|intros i j Hi];
    by destruct (Hno i).
Qed.

Lemma allocproc_fresh_process_witness : exists s', allocproc with_page = Ret (Some 0%nat) s' /\
  pids_ok s' /\ p_pid (proc_at 0 s') = 1 /\ load64 (k_mem s') (new_context one_page + 48) = 100.
Proof.
  assert (0 <= 100 < 18446744073709551616) as H1 by lia. assert (0 <= 200 < 18446744073709551616) as H2 by lia.
  assert (k_nextpid with_page < 2147483647) as H3 by (rewrite with_page_nextpid; lia).
  pose proof (allocproc_fresh_process (LK := small_linker) with_page [one_page] H1 H2 with_page_pids H3
    with_page_ptable_free (kfreed_ready _ _ no_pages_ready) with_page_free) as H.
  rewrite with_page_nextpid, with_page_table in H.
  assert (list_find (fun p => p_state p = UNUSED) (k_ptable no_pages) = Some (0%nat, proc_at 0 no_pages)) as Ef
    by (vm_compute; reflexivity).
  rewrite Ef in H. destruct H as (s' & E & Hp & _ & Epid & _ & _ & _ & _ & Efk & _).
  exists s'. split_and!; [exact E|exact Hp|exact Epid|exact Efk].
Defined.
