(* ===== verification/Fork.v ===== *)
(** * Fork: the theory of fork of proc.c

    fork, which is defined in Proc, puts together a slot of the process table, a copy of the
    address space, and one more reference to each open file and to the current directory. *)

From S2P Require Import Prelude Machine Spinlock Cstring Ktrace Layout Kalloc Vm Uvm Sched Sleeplock Pipe Bio Log Fs File Proc.
#[local] Open Scope prog_scope.

(** ** References *)

Definition add_ref (x : file) : file := set_f_ref (i32 (f_ref x + 1)) x.

Lemma proc_only_free lk s s' : proc_only s s' -> lock_free lk s -> lock_free lk s'.
Proof. intros H. unfold lock_free. by rewrite (q_locks _ _ H). Qed.

Lemma proc_only_cpu s s' : proc_only s s' -> cpu_ok (k_cpu s) -> cpu_ok (k_cpu s') /\ cpu_proc (k_cpu s') = cpu_proc (k_cpu s).
Proof. intros H Hc. destruct (q_cpu _ _ H) as [-> | ->]; [done|]. split; [by apply cpu_ok_sync|apply sync_cpu_proc]. Qed.

#[export] Instance stable_upd_file f g : Stable (upd_file f g).
Proof. by split. Qed.

Lemma filedup_run f s : lock_free LKftable s -> cpu_ok (k_cpu s) -> 1 <= f_ref (file_at f s) ->
  filedup f s = Ret f (upd_file f add_ref (sync s)).
Proof.
  intros Hf Hc Hr. unfold filedup. mret (acquire_run LKftable s Hf). rewrite bind_gets.
  change (file_at f (enter LKftable s)) with (file_at f s). replace (f_ref (file_at f s) <? 1) with false by lia.
  rewrite bind_modify. mret (release_stable LKftable (upd_file f add_ref) s _ Hf Hc). done.
Qed.

Lemma idup_run ip s : lock_free LKicache s -> cpu_ok (k_cpu s) ->
  idup ip s = Ret ip (upd_inode ip (fun x => set_i_ref (i32 (i_ref x + 1)) x) (sync s)).
Proof.
  intros Hf Hc. unfold idup. mret (acquire_run LKicache s Hf). rewrite bind_modify.
  mret (release_stable LKicache (upd_inode ip (fun x => set_i_ref (i32 (i_ref x + 1)) x)) s _ Hf Hc). done.
Qed.

(** How many of the descriptors [fds] of the table [ofile] are open for [f]. *)
Fixpoint opens (ofile : list (option nat)) (f : nat) (fds : list nat) : Z :=
  match fds with
  | [] => 0
  | fd :: fds => (if decide (ofile !! fd = Some (Some f)) then 1 else 0) + opens ofile f fds
  end.

Lemma opens_range ofile f fds : 0 <= opens ofile f fds <= Z.of_nat (length fds).
Proof. induction fds as [|fd fds IH]; cbn; [lia|]. destruct (decide _); lia. Qed.

Lemma file_at_upd f g s x : is_Some (k_ftable s !! x) -> file_at x (upd_file f g s) = if decide (x = f) then g (file_at x s) else file_at x s.
Proof.
  intros [y Hy]. unfold file_at, upd_file. cbn. destruct (decide (x = f)) as [->|Hne].
  - by rewrite list_lookup_alter_eq, Hy.
  - by rewrite list_lookup_alter_ne.
Qed.

Lemma file_used f s : 1 <= f_ref (file_at f s) -> is_Some (k_ftable s !! f).
Proof. unfold file_at. destruct (k_ftable s !! f); [done|]. cbn. lia. Qed.

Definition dup_loop (i np : nat) (fds : list nat) : kprog unit :=
  for_each fds (fun fd =>
    p <- gets (proc_at i);;
    match p_ofile p !! fd with
    | Some (Some f) =>
      f <- filedup f;;
      modify (upd_proc np (fun q => set_p_ofile (<[fd := Some f]> (p_ofile q)) q))
    | _ => ret tt
    end).

(** The entries [fds] of the table [o], taken from [ofile] where that has a file. *)
Definition dup_table (ofile o : list (option nat)) (fds : list nat) : list (option nat) :=
  foldl (fun o fd => match ofile !! fd with Some (Some f) => <[fd := Some f]> o | _ => o end) o fds.

(** The files after [fds] of the table [ofile] were duplicated. *)
Record dupped (ofile : list (option nat)) (fds : list nat) (i np : nat) (s s' : kstate) : Prop := Dupped {
  du_child : proc_at np s' = set_p_ofile (dup_table ofile (p_ofile (proc_at np s)) fds) (proc_at np s);
  du_procs : forall j, j <> np -> proc_at j s' = proc_at j s;
  du_len : length (k_ptable s') = length (k_ptable s);
  du_files : forall f, file_at f s' = set_f_ref (f_ref (file_at f s) + opens ofile f fds) (file_at f s);
  du_mem : k_mem s' = k_mem s;
  du_kmem : k_kmem s' = k_kmem s;
  du_icache : k_icache s' = k_icache s;
  du_nextpid : k_nextpid s' = k_nextpid s;
  du_frame : proc_only s s'
}.

Lemma set_ref_same x : set_f_ref (f_ref x + 0) x = x.
Proof. destruct x. unfold set_f_ref. cbn. by rewrite Z.add_0_r. Qed.

Lemma dupped_nil ofile i np s : dupped ofile [] i np s s.
Proof.
  split; try done.
  - cbn. by destruct (proc_at np s).
  - intros f. cbn. by rewrite set_ref_same.
  - apply proc_only_quiet, quiet_refl.
Qed.

Lemma dupped_cons ofile fd fds i np s1 s2 s3 : dupped ofile [fd] i np s1 s2 -> dupped ofile fds i np s2 s3 -> dupped ofile (fd :: fds) i np s1 s3.
Proof.
  intros [A1 A2 A3 A4 A5 A6 A7 A8 A9] [B1 B2 B3 B4 B5 B6 B7 B8 B9]. split; try congruence.
  - rewrite B1, A1. done.
  - intros j Hj. rewrite B2, A2; done.
  - intros f. rewrite B4, A4. cbn [f_ref set_f_ref]. unfold set_f_ref. cbn. f_equal. lia.
  - by eapply proc_only_trans.
Qed.

(** The references that the loop is going to add are to open files, and do not overflow. *)
Definition dup_ok (ofile : list (option nat)) (fds : list nat) (s : kstate) : Prop :=
  forall fd f, fd ∈ fds -> ofile !! fd = Some (Some f) -> 1 <= f_ref (file_at f s) < 2147483648 - Z.of_nat (length fds).

Lemma dup_one ofile fd i np s : lock_free LKftable s -> cpu_ok (k_cpu s) -> i <> np -> (np < length (k_ptable s))%nat ->
  p_ofile (proc_at i s) = ofile -> dup_ok ofile [fd] s ->
  exists s', dup_loop i np [fd] s = Ret tt s' /\ dupped ofile [fd] i np s s'.
Proof.
  intros Hf Hc Hne Hnp Ho Hok. unfold dup_loop. cbn [for_each]. rewrite bind_assoc, bind_gets, Ho.
  assert (ofile !! fd = None \/ ofile !! fd = Some None \/ exists f, ofile !! fd = Some (Some f)) as [E|[E|[f E]]]
    by (destruct (ofile !! fd) as [[f|]|]; eauto).
  1,2: rewrite E; exists s; split; [done|]; destruct (dupped_nil ofile i np s) as [D1 D2 D3 D4 D5 D6 D7 D8 D9]; split; try done;
    [rewrite D1 at 1; cbn; by rewrite E | intros g; cbn; rewrite E, decide_False by done; by rewrite set_ref_same].
  rewrite E. destruct (Hok fd f ltac:(by left) E) as [Hr1 Hr2]. cbn in Hr2.
  rewrite bind_assoc. mret (filedup_run f s Hf Hc Hr1). rewrite bind_modify. eexists. split; [reflexivity|].
  split; try done.
  - rewrite proc_at_upd by done. cbn. by rewrite E.
  - intros j Hj. by rewrite proc_at_upd_ne.
  - by rewrite length_upd.
  - intros g. change (file_at g (upd_proc _ _ (upd_file f add_ref (sync s)))) with (file_at g (upd_file f add_ref (sync s))).
    cbn [opens]. destruct (decide (ofile !! fd = Some (Some g))) as [Eg|Eg].
    + assert (g = f) as -> by congruence. rewrite file_at_upd by (by apply (file_used f s)). rewrite decide_True by done.
      unfold add_ref. change (file_at f (sync s)) with (file_at f s). rewrite i32_small by lia. done.
    + rewrite set_ref_same. unfold file_at, upd_file. cbn. rewrite list_lookup_alter_ne by congruence. done.
  - eapply proc_only_trans; [apply proc_only_sync|]. eapply proc_only_trans; [|apply proc_only_upd]. split; auto.
Qed.

Lemma dup_loop_run ofile fds i np s : lock_free LKftable s -> cpu_ok (k_cpu s) -> i <> np -> (np < length (k_ptable s))%nat ->
  p_ofile (proc_at i s) = ofile -> dup_ok ofile fds s ->
  exists s', dup_loop i np fds s = Ret tt s' /\ dupped ofile fds i np s s'.
Proof.
  revert s. induction fds as [|fd fds IH]; intros s Hf Hc Hne Hnp Ho Hok; [exists s; split; [done|apply dupped_nil]|].
  destruct (dup_one ofile fd i np s Hf Hc Hne Hnp Ho) as (s1 & E1 & D1).
  { intros x f ->%list_elem_of_singleton Hx. specialize (Hok fd f ltac:(by left) Hx). cbn in *. lia. }
  destruct (IH s1) as (s2 & E2 & D2).
  - by apply (proc_only_free _ _ _ (du_frame _ _ _ _ _ _ D1)).
  - by apply (proc_only_cpu _ _ (du_frame _ _ _ _ _ _ D1)).
  - done.
  - by rewrite (du_len _ _ _ _ _ _ D1).
  - by rewrite (du_procs _ _ _ _ _ _ D1).
  - intros x f Hx Hxf. specialize (Hok x f ltac:(by right) Hxf). rewrite (du_files _ _ _ _ _ _ D1). cbn in *.
    pose proof (opens_range ofile f [fd]). cbn in *. lia.
  - exists s2. split; [|by eapply dupped_cons]. change (fd :: fds) with ([fd] ++ fds).
    unfold dup_loop. rewrite for_each_app. by mret E1.
Qed.

(** ** The rest of fork, once the child has an address space *)

Definition fork_finish (i np : nat) (pgdir : Z) : kprog Z :=
  modify (upd_proc np (set_p_pgdir pgdir));;;
  modify (fun s => upd_proc np (set_p_sz (p_sz (proc_at i s))) s);;;
  modify (upd_proc np (set_p_parent (Some i)));;;
  modify (fun s => upd_proc np (set_p_tf (p_tf (proc_at i s))) s);;;
  modify (upd_proc np (fun q => set_p_tf (set_tf_rax 0 (p_tf q)) q));;;
  dup_loop i np (seq 0 NOFILE);;;
  p <- gets (proc_at i);;
  (match p_cwd p with
   | Some ip => ip <- idup ip;; modify (upd_proc np (set_p_cwd (Some ip)))
   | None => undef "fork: no current directory"
   end);;;
  modify (fun s => upd_proc np (set_name (p_name (proc_at i s))) s);;;
  q <- gets (proc_at np);;
  let pid := p_pid q in
  modify (upd_proc np (set_p_state RUNNABLE));;;
  p <- gets (proc_at i);;
  traceevent TRACE_TYPE_PROC pid (p_pid p) 0 0 (Some (lit "fork"));;;
  ret pid.

(** What fork copies from the parent [p] to the slot [c] of the child. *)
Definition child_of (i : nat) (p : proc) (pgdir : Z) (c : proc) : proc :=
  set_p_state RUNNABLE (set_name (p_name p) (set_p_cwd (p_cwd p)
    (set_p_ofile (dup_table (p_ofile p) (p_ofile c) (seq 0 NOFILE))
      (set_p_tf (set_tf_rax 0 (p_tf p)) (set_p_parent (Some i) (set_p_sz (p_sz p) (set_p_pgdir pgdir c))))))).

Record finished (i np ip : nat) (pgdir : Z) (s s' : kstate) : Prop := Finished {
  fi_child : proc_at np s' = child_of i (proc_at i s) pgdir (proc_at np s);
  fi_procs : forall j, j <> np -> proc_at j s' = proc_at j s;
  fi_len : length (k_ptable s') = length (k_ptable s);
  fi_files : forall f, file_at f s' = set_f_ref (f_ref (file_at f s) + opens (p_ofile (proc_at i s)) f (seq 0 NOFILE)) (file_at f s);
  fi_icache : k_icache s' = alter (fun x => set_i_ref (i32 (i_ref x + 1)) x) ip (k_icache s);
  fi_mem : k_mem s' = k_mem s;
  fi_kmem : k_kmem s' = k_kmem s;
  fi_nextpid : k_nextpid s' = k_nextpid s;
  fi_frame : proc_only s s'
}.

Lemma fork_finish_run i np ip pgdir s : lock_free LKftable s -> lock_free LKicache s -> lock_free LKtrace s -> cpu_ok (k_cpu s) ->
  i <> np -> (np < length (k_ptable s))%nat -> p_cwd (proc_at i s) = Some ip -> dup_ok (p_ofile (proc_at i s)) (seq 0 NOFILE) s ->
  exists s', fork_finish i np pgdir s = Ret (p_pid (proc_at np s)) s' /\ finished i np ip pgdir s s'.
Proof.
  intros Hff Hfi Hft Hc Hne Hnp Hcwd Hdup. unfold fork_finish. rewrite !bind_modify.
  set (s1 := upd_proc np _ (upd_proc np _ _)).
  assert (proc_at np s1 = set_p_tf (set_tf_rax 0 (p_tf (proc_at i s))) (set_p_parent (Some i) (set_p_sz (p_sz (proc_at i s)) (set_p_pgdir pgdir (proc_at np s))))) as Ec.
  { unfold s1. rewrite !proc_at_upd by (rewrite ?length_upd; done). rewrite !proc_at_upd_ne by done. done. }
  assert (forall j, j <> np -> proc_at j s1 = proc_at j s) as Ep by (intros j Hj; unfold s1; by rewrite !proc_at_upd_ne).
  assert (length (k_ptable s1) = length (k_ptable s)) as El by (unfold s1; by rewrite !length_upd).
  assert (proc_only s s1) as P1 by (unfold s1; frames; apply proc_only_quiet, quiet_refl).
  destruct (dup_loop_run (p_ofile (proc_at i s)) (seq 0 NOFILE) i np s1) as (s2 & E2 & [D1 D2 D3 D4 D5 D6 D7 D8 D9]); try done.
  { by rewrite El. } { by rewrite Ep. }
  mret E2. pose proof (proc_only_trans _ _ _ P1 D9) as P2. destruct (proc_only_cpu _ _ P2 Hc) as [Hc2 _].
  rewrite bind_gets, D2, Ep, Hcwd by done. rewrite bind_assoc. mret (idup_run ip s2 (proc_only_free _ _ _ P2 Hfi) Hc2).
  rewrite !bind_modify. set (s3 := upd_proc np _ (upd_proc np _ _)). rewrite bind_gets, bind_modify, bind_gets.
  assert (proc_only s2 s3) as P3.
  { unfold s3. frames. eapply proc_only_trans; [apply proc_only_sync|]. split; auto. }
  set (s4 := upd_proc np (set_p_state RUNNABLE) s3).
  assert (proc_only s s4) as P4 by (apply (proc_only_trans _ s2); [done|]; apply (proc_only_trans _ s3); [done|apply proc_only_upd]).
  mret (traceevent_traced TRACE_TYPE_PROC (p_pid (proc_at np s3)) (p_pid (proc_at i s4)) 0 0 (Some (lit "fork")) s4
    (proc_only_free _ _ _ P4 Hft) (proj1 (proc_only_cpu _ _ P4 Hc))).
  set (s5 := traced _ _ _ _ _ _ s4). pose proof (quiet_traced TRACE_TYPE_PROC (p_pid (proc_at np s3)) (p_pid (proc_at i s4)) 0 0 (Some (lit "fork")) s4) as Q.
  fold s5 in Q.
  assert (forall j, proc_at j s5 = proc_at j s4) as Eq by (intros j; unfold proc_at; by rewrite (q_ptable _ _ Q)).
  assert (length (k_ptable s2) = length (k_ptable s)) as El2 by congruence.
  assert (forall j g, proc_at j (upd_inode ip g (sync s2)) = proc_at j s2) as Ei by done.
  assert (proc_at np s3 = set_name (p_name (proc_at i s)) (set_p_cwd (Some ip) (proc_at np s2))) as Ec3.
  { unfold s3. rewrite !proc_at_upd by (rewrite ?length_upd; cbn [k_ptable]; change (k_ptable (upd_inode ip _ (sync s2))) with (k_ptable s2); lia).
    rewrite proc_at_upd_ne by done. rewrite !Ei. by rewrite D2, Ep. }
  exists s5. split; [by rewrite Ec3, D1, Ec|].
  assert (k_ptable s4 = k_ptable s5) as Et by (by rewrite (q_ptable _ _ Q)).
  split; rewrite ?Eq.
  - unfold s4. rewrite proc_at_upd, Ec3, D1, Ec by (unfold s3; rewrite !length_upd; change (k_ptable (upd_inode ip _ (sync s2))) with (k_ptable s2); lia).
    unfold child_of. by rewrite Hcwd.
  - intros j Hj. rewrite Eq. unfold s4, s3. rewrite !proc_at_upd_ne by done. rewrite Ei. by rewrite D2, Ep.
  - rewrite <- Et. unfold s4, s3. rewrite !length_upd. done.
  - intros f. transitivity (file_at f s2); [|exact (D4 f)]. unfold file_at. by rewrite (q_ftable _ _ Q).
  - rewrite (q_icache _ _ Q). unfold s4, s3. cbn [k_icache upd_proc set_k_ptable upd_inode set_k_icache]. change (k_icache (sync s2)) with (k_icache s2). by rewrite D7.
  - rewrite (q_mem _ _ Q). exact D5.
  - rewrite (q_kmem _ _ Q). exact D6.
  - rewrite (q_nextpid _ _ Q). exact D8.
  - eapply proc_only_trans; [exact P4|by apply proc_only_quiet].
Qed.

(** ** The whole of fork *)

Lemma lookup_dup_table ofile o fds x : (x < length o)%nat ->
  dup_table ofile o fds !! x = if decide (x ∈ fds) then match ofile !! x with Some (Some f) => Some (Some f) | _ => o !! x end else o !! x.
Proof.
  revert o. induction fds as [|fd fds IH]; intros o Hx; [done|]. cbn [dup_table foldl]. fold (dup_table ofile).
  change (foldl _ ?o fds) with (dup_table ofile o fds). rewrite IH.
  2: { destruct (ofile !! fd) as [[f|]|]; [by rewrite length_insert|done..]. }
  destruct (decide (x = fd)) as [->|Hne].
  - rewrite (decide_True (P := fd ∈ fd :: fds)) by set_solver. destruct (ofile !! fd) as [[f|]|]; destruct (decide (fd ∈ fds)); try done.
    by rewrite list_lookup_insert_eq.
  - assert ((match ofile !! fd with Some (Some f) => <[fd := Some f]> o | _ => o end) !! x = o !! x) as ->.
    { destruct (ofile !! fd) as [[f|]|]; [by rewrite list_lookup_insert_ne|done..]. }
    destruct (decide (x ∈ fds)), (decide (x ∈ fd :: fds)); try done; set_solver.
Qed.

Lemma length_dup_table ofile o fds : length (dup_table ofile o fds) = length o.
Proof.
  unfold dup_table. revert o. induction fds as [|fd fds IH]; intros o; [done|]. cbn [foldl]. rewrite IH.
  destruct (ofile !! fd) as [[f|]|]; [by rewrite length_insert|done..].
Qed.

(** The slot of a process that has gone has no open files: the child has those of the parent. *)
Lemma dup_table_fresh ofile : length ofile = NOFILE -> dup_table ofile (replicate NOFILE None) (seq 0 NOFILE) = ofile.
Proof.
  intros Hl. apply list_eq. intros x. destruct (decide (x < NOFILE)%nat) as [Hx|Hx].
  - rewrite lookup_dup_table by (by rewrite length_replicate). rewrite decide_True by (apply elem_of_seq; lia).
    rewrite (lookup_replicate_2 NOFILE None x Hx). destruct (lookup_lt_is_Some_2 ofile x) as [[f|] ->]; [lia|done|done].
  - rewrite !lookup_ge_None_2; [done|lia|rewrite length_dup_table, length_replicate; lia].
Qed.

Lemma pids_ok_ext s s' : pids_ok s -> length (k_ptable s') = length (k_ptable s) -> k_nextpid s' = k_nextpid s ->
  (forall j, p_pid (proc_at j s') = p_pid (proc_at j s) /\ (live s' j -> live s j)) -> pids_ok s'.
Proof.
  intros [P1 P2 P3 P4] Hl Hn Hj. split; [congruence|lia| |].
  - intros i Hi. rewrite (proj1 (Hj i)), Hn. by apply P3, Hj.
  - intros i k Hi Hk. rewrite (proj1 (Hj i)), (proj1 (Hj k)). apply P4; by apply Hj.
Qed.

Section Fork.
Context `{LK : Linker} `{SY : Symbols}.

(** Process [i] runs, has the current directory [ip], and its address space is built from [own]; the
    free pages are [l]. *)
Record can_fork (i ip : nat) (own : gmap Z (list Z)) (l : list Z) (s : kstate) : Prop := Can_fork {
  cf_proc : cpu_proc (k_cpu s) = Some i;
  cf_live : live s i;
  cf_pids : pids_ok s;
  cf_next : k_nextpid s < 2147483647;
  cf_ptable : lock_free LKptable s;
  cf_ftable : lock_free LKftable s;
  cf_icache : lock_free LKicache s;
  cf_alloc : alloc_ready s;
  cf_free : free_pages s l;
  cf_space : space own s (p_pgdir (proc_at i s)) l;
  cf_size : 0 <= p_sz (proc_at i s) < 4294967296;
  cf_mapped : forall va, PGSIZE <= va < PGSIZE + PGSIZE * Z.of_nat (copied_pages (p_sz (proc_at i s))) ->
    is_Some (translate (k_mem s) (p_pgdir (proc_at i s)) va);
  cf_room : (2 + 4 * copied_pages (p_sz (proc_at i s)) <= length l)%nat;
  cf_files : length (p_ofile (proc_at i s)) = NOFILE /\ dup_ok (p_ofile (proc_at i s)) (seq 0 NOFILE) s;
  cf_cwd : p_cwd (proc_at i s) = Some ip /\ (ip < length (k_icache s))%nat /\ 0 <= i_ref (inode_at ip s) < 2147483647
}.

(** The free pages [l] are now [l'], the kernel stack, and the pages of the address space. *)
Definition child_pages (own : gmap Z (list Z)) (m : mem) (root kstack : Z) (l l' : list Z) : Prop :=
  (forall p, p ∈ l <-> p ∈ l' \/ p = kstack \/ uses own m root p) /\ page_ok kstack /\ kstack ∉ l' /\ ~ uses own m root kstack.

(** The child [c] that fork makes of process [i], in state [s']. *)
Record forked (i ip c : nat) (own : gmap Z (list Z)) (l : list Z) (s s' : kstate) : Prop := Forked {
  fk_pids : pids_ok s';
  fk_others : forall j, j <> c -> proc_at j s' = proc_at j s;
  fk_run : p_state (proc_at c s') = RUNNABLE /\ p_pid (proc_at c s') = k_nextpid s /\ p_parent (proc_at c s') = Some i /\
    p_context (proc_at c s') = new_context (p_kstack (proc_at c s'));
  fk_user : p_sz (proc_at c s') = p_sz (proc_at i s) /\ p_tf (proc_at c s') = set_tf_rax 0 (p_tf (proc_at i s));
  fk_open : p_ofile (proc_at c s') = p_ofile (proc_at i s) /\ p_cwd (proc_at c s') = Some ip;
  fk_files : forall f, file_at f s' = set_f_ref (f_ref (file_at f s) + opens (p_ofile (proc_at i s)) f (seq 0 NOFILE)) (file_at f s);
  fk_inodes : forall k, inode_at k s' = if decide (k = ip) then set_i_ref (i_ref (inode_at ip s) + 1) (inode_at ip s) else inode_at k s;
  fk_memory : exists own' l', let root := p_pgdir (proc_at i s) in let root' := p_pgdir (proc_at c s') in
    free_pages s' l' /\ space own s' root l' /\ space own' s' root' l' /\ apart own own' (k_mem s') root root' /\
    child_pages own' (k_mem s') root' (p_kstack (proc_at c s')) l l' /\
    forall va, 0 <= va < USERTOP ->
      translate (k_mem s') root va = translate (k_mem s) root va /\
      ubyte (k_mem s') root va = ubyte (k_mem s) root va /\
      ubyte (k_mem s') root' va =
        if in_range PGSIZE (PGSIZE * Z.of_nat (copied_pages (p_sz (proc_at i s)))) va then ubyte (k_mem s) root va else None;
  fk_frame : proc_only s s'
}.

(** Up to the copy of the memory. *)
Lemma fork_copied i ip own s r q l c p0 : can_fork i ip own (r :: q :: l) s ->
  list_find (fun p => p_state p = UNUSED) (k_ptable s) = Some (c, p0) ->
  exists s1 own' s2 l', allocproc s = Ret (Some c) s1 /\ copyuvm (p_pgdir (proc_at i s)) (p_sz (proc_at i s)) s1 = Ret q s2 /\
    k_ptable s2 = alter (embryo (k_nextpid s) r) c (k_ptable s) /\ k_ptable s1 = k_ptable s2 /\ k_nextpid s2 = k_nextpid s + 1 /\
    proc_only s s1 /\ proc_only s1 s2 /\ k_ftable s2 = k_ftable s /\ k_icache s2 = k_icache s /\
    free_pages s2 l' /\ space own s2 (p_pgdir (proc_at i s)) l' /\ space own' s2 q l' /\
    apart own own' (k_mem s2) (p_pgdir (proc_at i s)) q /\ child_pages own' (k_mem s2) q r (r :: q :: l) l' /\
    forall va, 0 <= va < USERTOP ->
      translate (k_mem s2) (p_pgdir (proc_at i s)) va = translate (k_mem s) (p_pgdir (proc_at i s)) va /\
      ubyte (k_mem s2) (p_pgdir (proc_at i s)) va = ubyte (k_mem s) (p_pgdir (proc_at i s)) va /\
      ubyte (k_mem s2) q va =
        if in_range PGSIZE (PGSIZE * Z.of_nat (copied_pages (p_sz (proc_at i s)))) va then ubyte (k_mem s) (p_pgdir (proc_at i s)) va else None.
Proof.
  intros [F1 F2 F3 F4 F5 F6 F7 F8 F9 F10 F11 F12 F13 F14 F15] Hfind.
  destruct (allocproc_run s r (q :: l) c p0 (pk_len _ F3) F5 F8 F9 Hfind) as (s1 & E1 & Et & En & Em & Hf1 & Eft & Eic & P1).
  set (root := p_pgdir (proc_at i s)) in *. set (sz := p_sz (proc_at i s)) in *.
  destruct (space_frame own s s1 root (r :: q :: l) (q :: l) F10) as [Hsp1 Hv1]; [set_solver| |].
  { intros p x Hp Hx. rewrite Em. apply stack_mem_out. destruct (uses_page _ _ _ _ _ F10 Hp) as [Hp1 Hp2].
    pose proof (fp_pages _ _ F9) as [Hr _]%Forall_cons_1. apply (not_in_page p r x); [done|done|set_solver|done]. }
  assert (alloc_ready s1) as Hr1.
  { destruct F8 as (K1 & K2 & K3). split_and!; [by apply (proc_only_free _ _ _ P1)|by apply (proc_only_free _ _ _ P1)|by apply (proc_only_cpu _ _ P1)]. }
  cbn [length] in F13.
  destruct (copyuvm_run own s1 root (q :: l) Hsp1 sz q l Hf1 Hr1 eq_refl F11 ltac:(lia)) as (own' & s2 & l' & E2 & C).
  { intros va Hva. rewrite (proj1 (Hv1 va ltac:(unfold USERTOP, copied_pages, PGSIZE in *; Z.div_mod_to_equations; lia))). by apply F12. }
  destruct (copying_apart _ _ _ _ Hsp1 _ _ _ _ _ C) as (Hsp2 & Hv2 & Ha). pose proof C as [C1 C2 C3 C4 C5 C6 C7 C8 C9].
  exists s1, own', s2, l'. rewrite (q_ptable _ _ C7). cbn [k_ptable set_k_kmem set_k_mem]. split_and!; try done.
  - rewrite (q_nextpid _ _ C7). cbn. rewrite En, i32_small; [done|]. pose proof (pk_next _ F3). lia.
  - by apply proc_only_mem.
  - by rewrite (q_ftable _ _ C7).
  - by rewrite (q_icache _ _ C7).
  - apply C1.
  - by apply vm_ready_space.
  - pose proof (fp_nodup _ _ F9) as [Hrn _]%NoDup_cons. pose proof (fp_pages _ _ F9) as [Hrp _]%Forall_cons_1.
    split_and!; [|done|by intros ?%C8|by intros ?%C3]. intros p. rewrite elem_of_cons. split.
    + intros [->|[?|?]%C9]; [by right; left|by left|by right; right].
    + intros [?%C8|[->|?%C3]]; [by right|by left|by right].
  - intros va Hva. destruct (Hv2 va Hva) as (-> & _ & ->), (Hv1 va Hva) as (-> & _ & ->). split_and!; [done|done|].
    destruct (in_range _ _ _) eqn:Er.
    + apply in_range_spec in Er. rewrite (proj1 (C5 va Er)). by apply Hv1.
    + unfold ubyte. rewrite C6; [done|done|]. intros Hin. apply (in_range_spec PGSIZE) in Hin. congruence.
Qed.

Lemma fork_run i ip own s r q l c p0 : can_fork i ip own (r :: q :: l) s ->
  list_find (fun p => p_state p = UNUSED) (k_ptable s) = Some (c, p0) -> p_ofile p0 = replicate NOFILE None ->
  exists s', fork s = Ret (k_nextpid s) s' /\ forked i ip c own (r :: q :: l) s s'.
Proof.
  intros F Hfind Hof. destruct (fork_copied i ip own s r q l c p0 F Hfind)
    as (s1 & own' & s2 & l' & E1 & E2 & Et & Et1 & En & P1 & P2 & Eft & Eic & Hf2 & Hs2 & Hd2 & Ha & Hcp & Hv).
  pose proof Hfind as (Hc & Hun & _)%list_find_Some. pose proof (pk_len _ (cf_pids _ _ _ _ _ F)) as Hlen.
  pose proof (lookup_lt_Some _ _ _ Hc) as Hlt. assert (proc_at c s = p0) as Ep0 by (unfold proc_at; by rewrite Hc).
  assert (i <> c) as Hne by (intros ->; destruct (cf_live _ _ _ _ _ F) as [_ H]; by rewrite Ep0 in H).
  pose proof (proc_only_trans _ _ _ P1 P2) as P. pose proof (proc_only_free LKtrace s s2 P (proj1 (proj2 (cf_alloc _ _ _ _ _ F)))) as Htr.
  assert (forall j, proc_at j s2 = if bool_decide (j = c) then embryo (k_nextpid s) r p0 else proc_at j s) as Epr
    by (intros j; rewrite (proc_at_alter _ j c s s2 Hlen ltac:(lia) Et), Ep0; done).
  assert (proc_at i s2 = proc_at i s) as Ei by (by rewrite Epr, bool_decide_false).
  assert (proc_at c s2 = embryo (k_nextpid s) r p0) as Ec by (by rewrite Epr, bool_decide_true).
  destruct (cf_cwd _ _ _ _ _ F) as (Hcwd & Hip & Href), (cf_files _ _ _ _ _ F) as [Hol Hdup].
  assert (forall f, file_at f s2 = file_at f s) as Efile by (intros f; unfold file_at; by rewrite Eft).
  destruct (fork_finish_run i c ip q s2) as (s3 & E3 & [G1 G2 G3 G4 G5 G6 G7 G8 G9]).
  { apply (proc_only_free _ _ _ P), F. } { apply (proc_only_free _ _ _ P), F. } { done. }
  { apply (proc_only_cpu _ _ P), F. } { done. } { rewrite Et, length_alter. done. } { by rewrite Ei. }
  { rewrite Ei. intros fd f Hfd Hf. rewrite Efile. by apply Hdup with fd. }
  exists s3. rewrite Ei, Ec in *. split.
  { unfold fork. mret E1. destruct (proc_only_cpu _ _ P1) as [_ Ecpu]; [apply F|]. rewrite (bind_myproc i) by (by rewrite Ecpu, (cf_proc _ _ _ _ _ F)).
    rewrite bind_gets. assert (proc_at i s1 = proc_at i s) as -> by (rewrite <- Ei; unfold proc_at; by rewrite Et1).
    mret E2. rewrite bind_modify. destruct (Z.eqb_spec q 0) as [->|_]; [|exact E3].
    pose proof (fp_pages _ _ (cf_free _ _ _ _ _ F)) as [_ [(_ & _ & _ & ?) _]%Forall_cons_1]%Forall_cons_1. lia. }
  split; rewrite ?G1; try done.
  - apply (pids_ok_ext s2); [|done|done|].
    + apply (pids_ok_embryo s s2 c r); [apply F|lia|by rewrite Ep0|done|done].
    + intros j. unfold live. destruct (decide (j = c)) as [->|Hj]; [rewrite G1, Ec|by rewrite G2]. split; [done|]. by intros [? _].
  - intros j Hj. by rewrite G2, Epr, bool_decide_false.
  - split; [|exact Hcwd]. transitivity (dup_table (p_ofile (proc_at i s)) (p_ofile p0) (seq 0 NOFILE)); [reflexivity|].
    rewrite Hof. by apply dup_table_fresh.
  - intros f. by rewrite G4, Efile.
  - intros k. unfold inode_at in *. rewrite G5, Eic. destruct (decide (k = ip)) as [->|Hk]; [|by rewrite list_lookup_alter_ne].
    destruct (lookup_lt_is_Some_2 _ _ Hip) as [x Hx]. rewrite list_lookup_alter_eq, Hx in *. cbn in *. by rewrite i32_small by lia.
  - exists own', l'. cbn [child_of p_pgdir]. rewrite G6. split_and!; [by apply (free_pages_same s2)|by apply (space_same own s2)|by apply (space_same own' s2)|done|exact Hcp|done].
  - by apply (proc_only_trans _ s2).
Qed.

(** ** Property *)


End Fork.

(** *** Witness *)

#[local] Existing Instance small_linker.
#[local] Existing Instance proc_symbols.

(** A process with one page of memory, the open file 0 and the current directory 0. *)
Definition forking (s : kstate) : kstate :=
  set_k_cpu (Cpu 0 0 false false (Some 1%nat) 0 0) (set_k_locks boot_locks (set_k_nextpid 2
    (set_k_ftable (<[0%nat := set_f_ref 1 zero_file]> (replicate NFILE zero_file))
      (set_k_icache (replicate NINODE (set_i_ref 1 zero_inode))
        (set_k_ptable (<[1%nat := set_p_pgdir one_page (set_p_sz 8192 (set_p_cwd (Some 0%nat)
            (set_p_ofile (<[0%nat := Some 0%nat]> (replicate NOFILE None)) (set_p_pid 1 (set_p_state RUNNING zero_proc)))))]>
          (replicate NPROC zero_proc)) s))))).

Lemma forking_process : exists own s l, can_fork 1 0 own l (forking s) /\ ubyte (k_mem s) one_page 4096 = Some 0.
Proof.
  destruct space_to_copy as (own & s' & q & l & Hsp & Hf & Hr & Hl & Hv). exists own, s', (q :: l). split; [|apply Hv; lia].
  assert (forall i, live (forking s') i -> i = 1%nat) as Hlive.
  { intros i [Hi Hs]. destruct (decide (i = 1%nat)) as [|Hne]; [done|]. destruct Hs. unfold proc_at. cbn [forking k_ptable set_k_cpu set_k_locks set_k_nextpid set_k_ftable set_k_icache set_k_ptable].
    rewrite list_lookup_insert_ne by done. by rewrite lookup_replicate_2. }
  split.
  - done.
  - split; [unfold NPROC; lia|done].
  - split; [done|done|by intros i ->%Hlive|by intros i j ->%Hlive ->%Hlive].
  - done.
  - boot_lock.
  - boot_lock.
  - boot_lock.
  - split_and!; [boot_lock|boot_lock|done].
  - exact (free_pages_same s' (forking s') _ eq_refl eq_refl Hf).
  - by apply (space_same own s').
  - done.
  - change (copied_pages _) with 1%nat. intros va Hva. apply Hv. unfold PGSIZE in *. lia.
  - change (copied_pages _) with 1%nat. cbn. lia.
  - split; [done|]. intros fd f _ Hfd. assert (f = 0%nat) as ->; [|by vm_compute].
    change (p_ofile _) with (<[0%nat := Some 0%nat]> (replicate NOFILE (@None nat))) in Hfd.
    destruct fd as [|fd]; [by injection Hfd|]. rewrite list_lookup_insert_ne in Hfd by done. by apply lookup_replicate in Hfd as [? _].
  - split; [done|]. split; [unfold NINODE; cbn; lia|by vm_compute].
Qed.

