(* ===== verification/Wait.v ===== *)
(** * Wait: the theory of wait of proc.c

    wait, which is defined in Proc, takes a child that has exited out of the process table and
    gives its memory back; together with fork nothing is lost. *)

From S2P Require Import Prelude Machine Spinlock Cstring Ktrace Layout Kalloc Vm Uvm Sched Sleeplock Pipe Bio Log Fs File Proc Fork.
#[local] Open Scope prog_scope.

Definition zombie_of (i : nat) (p : proc) : Prop := p_parent p = Some i /\ p_state p = ZOMBIE.
#[export] Instance zombie_of_dec i p : Decision (zombie_of i p).
Proof. unfold zombie_of. apply _. Defined.

(** What wait leaves in the slot. *)
Definition reaped (p : proc) : proc :=
  set_p_state UNUSED (set_p_killed 0 (set_p_name (<[0%nat := 0]> (p_name p)) (set_p_parent None (set_p_pid 0 (set_p_kstack 0 p))))).

Section Wait.
Context `{LK : Linker}.

(** The memory of the child [p]: its kernel stack and its address space, none of it free. *)
Record dead_pages (own : gmap Z (list Z)) (s : kstate) (p : proc) (l : list Z) : Prop := Dead_pages {
  dp_space : space own s (p_pgdir p) l;
  dp_stack : page_ok (p_kstack p) /\ p_kstack p ∉ l /\ ~ uses own (k_mem s) (p_pgdir p) (p_kstack p)
}.

(** The thread of process [i] holds the lock of the process table, and no other. *)
Record scanning (i : nat) (l : list Z) (s : kstate) : Prop := Scanning {
  sc_holds : holds_only i LKptable s;
  sc_proc : (i < NPROC)%nat;
  sc_len : length (k_ptable s) = NPROC;
  sc_alloc : alloc_ready s;
  sc_free : free_pages s l
}.

Lemma wait_child_other i j s : ~ zombie_of i (proc_at j s) -> wait_child i j s = Ret None s.
Proof.
  intros Hz. unfold wait_child. rewrite bind_gets. unfold zombie_of in Hz.
  destruct (bool_decide_reflect (p_parent (proc_at j s) = Some i)); [|done].
  destruct (bool_decide_reflect (p_state (proc_at j s) = ZOMBIE)); [tauto|done].
Qed.

(** The state [s'] in which the child [j] is gone and its pages are free. *)
Record reaped_in (own : gmap Z (list Z)) (j : nat) (l l' : list Z) (s s' : kstate) : Prop := Reaped_in {
  rp_child : proc_at j s' = reaped (proc_at j s);
  rp_others : forall k, k <> j -> proc_at k s' = proc_at k s;
  rp_len : length (k_ptable s') = length (k_ptable s);
  rp_free : free_pages s' l';
  rp_pages : forall q, q ∈ l' <-> q ∈ l \/ q = p_kstack (proc_at j s) \/ uses own (k_mem s) (p_pgdir (proc_at j s)) q;
  rp_mem : forall x, (forall q, q ∈ l' -> ~ in_page q x) -> k_mem s' x = k_mem s x;
  rp_files : k_ftable s' = k_ftable s /\ k_icache s' = k_icache s /\ k_nextpid s' = k_nextpid s
}.

(** The child's pages once its kernel stack is free. *)
Lemma dead_space own s p l : dead_pages own s p l -> alloc_ready s -> free_pages s l ->
  let s1 := kfreed (p_kstack p) s in
  kfree (p_kstack p) s = Ret tt s1 /\ alloc_ready s1 /\ free_pages s1 (p_kstack p :: l) /\ space own s1 (p_pgdir p) (p_kstack p :: l) /\
  (forall q, uses own (k_mem s1) (p_pgdir p) q <-> uses own (k_mem s) (p_pgdir p) q) /\
  (forall x, ~ in_page (p_kstack p) x -> k_mem s1 x = k_mem s x).
Proof.
  intros [Hsp (Hk1 & Hk2 & Hk3)] Ha Hf s1. assert (forall x, ~ in_page (p_kstack p) x -> k_mem s1 x = k_mem s x) as Hout.
  { intros x Hx. unfold s1. rewrite kfreed_mem. by apply freed_mem_out. }
  destruct (space_frame_free own s s1 (p_pgdir p) l (p_kstack p :: l) Hsp) as [Hsp1 Hv].
  { intros q [->|Hq]%elem_of_cons Hu; [done|]. by destruct (uses_page _ _ _ _ _ Hsp Hu). }
  { intros q x Hq Hx. apply Hout. destruct (uses_page _ _ _ _ _ Hsp Hq) as [Hq1 _]. apply (not_in_page q); [done|done|congruence|done]. }
  split_and!; [by apply kfree_run|by apply kfreed_ready|by apply free_pages_freed|done| |done].
  intros q. unfold uses. split; (intros [?|(va & pte & Hva & Ht & E)]; [by left|right; exists va, pte]); by rewrite ?(proj1 (Hv va Hva)) in *.
Qed.

Lemma reap_run i j own l s : scanning i l s -> (j < NPROC)%nat -> zombie_of i (proc_at j s) -> dead_pages own s (proc_at j s) l ->
  exists s' l', wait_child i j s = Ret (Some (p_pid (proc_at j s))) (leave LKptable s') /\ reaped_in own j l l' s s' /\
    k_locks s' = k_locks s /\ k_cpu s' = k_cpu s /\ alloc_ready s'.
Proof.
  intros [Hh Hi Hl Ha Hf] Hj [Hz1 Hz2] Hd. set (p := proc_at j s) in *.
  destruct (dead_space own s p l Hd Ha Hf) as (E1 & A1 & F1 & Sp1 & Hu & Hout). set (s1 := kfreed (p_kstack p) s) in *.
  pose proof (mem_only_kfreed (p_kstack p) s) as M1. fold s1 in M1.
  set (s2 := upd_proc j (set_p_kstack 0) s1).
  destruct (freevm_run own s2 (p_pgdir p) (p_kstack p :: l)) as (s3 & l' & E3 & F3 & A3 & Hl' & Hm & M3).
  { by apply (space_same own s1). } { by apply (free_pages_same s1). } { done. }
  assert (k_ptable s3 = alter (set_p_kstack 0) j (k_ptable s)) as Et by (rewrite (q_ptable _ _ M3); cbn; by rewrite (q_ptable _ _ M1)).
  set (s4 := upd_proc j (set_p_state UNUSED) (upd_proc j (set_p_killed 0) (upd_proc j (fun q => set_p_name (<[0%nat := 0]> (p_name q)) q)
    (upd_proc j (set_p_parent None) (upd_proc j (set_p_pid 0) s3))))).
  assert (k_ptable s4 = alter reaped j (k_ptable s)) as Et4 by (cbn; rewrite Et, !list_alter_alter_eq; done).
  assert (k_cpu s4 = k_cpu s) as Ecpu.
  { assert (forall c, cpu_ncli c = 1 -> sync_cpu c = c) as Hs by (intros [] E; cbn in E; subst; done).
    assert (k_cpu s1 = k_cpu s) as E1c by (destruct (q_cpu _ _ M1) as [E|E]; [exact E|rewrite E; apply Hs, Hh]).
    change (k_cpu s4) with (k_cpu s3). destruct (q_cpu _ _ M3) as [E|E]; rewrite E; [exact E1c|].
    change (k_cpu (set_k_kmem _ (set_k_mem _ s2))) with (k_cpu s1). rewrite E1c. apply Hs, Hh. }
  assert (k_locks s4 = k_locks s) as Elk by (change (k_locks s4) with (k_locks s3); rewrite (q_locks _ _ M3); exact (q_locks _ _ M1)).
  exists s4, l'. split.
  { unfold wait_child. rewrite bind_gets. fold p. rewrite Hz1, Hz2, !bool_decide_true by done. cbn [negb].
    mret E1. rewrite bind_modify. fold s2. mret E3. rewrite !bind_modify. fold s4.
    mret (release_run LKptable s4 ltac:(unfold lock_mine; rewrite Elk, Ecpu; apply Hh) ltac:(rewrite Ecpu; apply Hh) ltac:(rewrite Ecpu, (ho_ncli _ _ _ Hh); lia)). done. }
  split; [|done]. split.
  - by rewrite (proc_at_alter reaped j j s s4 Hl Hj Et4), bool_decide_true.
  - intros k Hk. by rewrite (proc_at_alter reaped k j s s4 Hl Hj Et4), bool_decide_false.
  - by rewrite Et4, length_alter.
  - by apply (free_pages_same s3).
  - intros q. rewrite Hl', elem_of_cons. change (k_mem s2) with (k_mem s1). rewrite (Hu q). tauto.
  - intros x Hx. change (k_mem s4 x) with (k_mem s3 x). rewrite Hm by done. apply Hout, Hx, Hl'. left. by left.
  - split_and!; [exact (eq_trans (q_ftable _ _ M3) (q_ftable _ _ M1))|exact (eq_trans (q_icache _ _ M3) (q_icache _ _ M1))|exact (eq_trans (q_nextpid _ _ M3) (q_nextpid _ _ M1))].
Qed.

(** ** One scan of the table *)

Definition wait_scan (i : nat) : kprog (option Z) :=
  r <- for_break (seq 0 NPROC) (wait_child i);;
  match r with
  | Some pid => ret (Some pid)
  | None =>
    havekids <- gets (have_kids i);;
    p <- gets (proc_at i);;
    if negb havekids || negb (p_killed p =? 0) then release LKptable;;; ret (Some (-1)) else
    sleep (ChProc i) LKptable;;;
    ret None
  end.

Lemma wait_eq fuel : wait fuel = (i <- myproc;; acquire LKptable;;; repeat_until fuel (wait_scan i)).
Proof. done. Qed.

Lemma proc_at_lookup j s p : k_ptable s !! j = Some p -> proc_at j s = p.
Proof. intros E. unfold proc_at. by rewrite E. Qed.

Lemma reaped_in_leave own j l l' s s' : reaped_in own j l l' s s' -> reaped_in own j l l' s (leave LKptable s').
Proof. intros [R1 R2 R3 R4 R5 R6 R7]. split; try done. by apply (free_pages_same s'). Qed.

Lemma scan_zombie i own l s j p : scanning i l s -> list_find (zombie_of i) (k_ptable s) = Some (j, p) -> dead_pages own s p l ->
  exists s' l', wait_scan i s = Ret (Some (p_pid p)) s' /\ reaped_in own j l l' s s' /\ lock_free LKptable s' /\ cpu_ncli (k_cpu s') = 0.
Proof.
  intros Hs (Hj & Hz & Hlow)%list_find_Some Hd. pose proof (lookup_lt_Some _ _ _ Hj) as Hlt. rewrite (sc_len _ _ _ Hs) in Hlt.
  pose proof (proc_at_lookup _ _ _ Hj) as Ep. destruct (reap_run i j own l s Hs Hlt) as (s' & l' & E & R & Elk & Ecpu & A); [by rewrite Ep|by rewrite Ep|].
  rewrite Ep in E. exists (leave LKptable s'), l'. split_and!.
  - unfold wait_scan. replace (seq 0 NPROC) with (seq 0 j ++ j :: seq (S j) (NPROC - S j))
      by (replace NPROC with (j + S (NPROC - S j))%nat at 2 by lia; by rewrite seq_app).
    erewrite bind_Ret; [|apply for_break_first; [|exact E]]; [done|].
    intros y [_ Hy]%elem_of_seq. apply wait_child_other. destruct (lookup_lt_is_Some_2 (k_ptable s) y) as [q Hq]; [rewrite (sc_len _ _ _ Hs); lia|].
    rewrite (proc_at_lookup _ _ _ Hq). by eapply Hlow; [exact Hq|lia].
  - by apply reaped_in_leave.
  - apply leave_free.
  - cbn. rewrite Ecpu, (ho_ncli _ _ _ (sc_holds _ _ _ Hs)). done.
Qed.

Lemma scan_none i s : length (k_ptable s) = NPROC -> list_find (zombie_of i) (k_ptable s) = None ->
  for_break (seq 0 NPROC) (wait_child i) s = Ret None s.
Proof.
  intros Hl Hn%list_find_None. apply for_break_none. intros y [_ Hy]%elem_of_seq. apply wait_child_other.
  destruct (lookup_lt_is_Some_2 (k_ptable s) y) as [q Hq]; [lia|]. rewrite (proc_at_lookup _ _ _ Hq). rewrite Forall_lookup in Hn. by eapply Hn.
Qed.

Lemma scan_idle i s : length (k_ptable s) = NPROC -> list_find (zombie_of i) (k_ptable s) = None ->
  wait_scan i s = (if negb (have_kids i s) || negb (p_killed (proc_at i s) =? 0) then release LKptable;;; ret (Some (-1))
                   else sleep (ChProc i) LKptable;;; ret None) s.
Proof. intros Hl Hn. unfold wait_scan. mret (scan_none i s Hl Hn). by rewrite !bind_gets. Qed.

(** The slots as the awakened thread sees them. *)
Lemma find_awakened i b s j p : list_find (zombie_of i) (k_ptable s) = Some (j, p) -> i <> j ->
  list_find (zombie_of i) (k_ptable (awakened i LKptable b s)) = Some (j, p).
Proof.
  intros (Hj & Hz & Hlow)%list_find_Some Hne. unfold awakened. rewrite decide_True by done. cbn [k_ptable upd_proc set_k_ptable upd_cpu set_k_cpu].
  apply list_find_Some. split_and!; [by rewrite list_lookup_alter_ne|done|]. intros k q Hk Hlt.
  destruct (decide (k = i)) as [->|Hki]; [|rewrite list_lookup_alter_ne in Hk by done; by eapply Hlow].
  rewrite list_lookup_alter_eq in Hk. apply fmap_Some in Hk as (q' & Hq' & ->). by apply (Hlow i q').
Qed.

Lemma scanning_awakened i b l s : scanning i l s -> scanning i l (awakened i LKptable b s).
Proof.
  intros [H1 H2 H3 H4 H5]. destruct (awake_run i LKptable b s H1 (or_intror eq_refl)) as [_ Hh]. split; [done|done| | |].
  - unfold awakened. rewrite decide_True by done. cbn. by rewrite length_alter.
  - destruct H4 as (A1 & A2 & A3). unfold awakened. rewrite decide_True by done. split_and!; [done|done|].
    cbn. destruct A3 as [B1 B2]. by split.
  - unfold awakened. rewrite decide_True by done. by apply (free_pages_same s).
Qed.

(** ** Properties *)

Record can_wait (i : nat) (l : list Z) (s : kstate) : Prop := Can_wait {
  cw_proc : cpu_proc (k_cpu s) = Some i;
  cw_ncli : cpu_ncli (k_cpu s) = 0;
  cw_slot : (i < NPROC)%nat;
  cw_len : length (k_ptable s) = NPROC;
  cw_ptable : lock_free LKptable s;
  cw_alloc : alloc_ready s;
  cw_free : free_pages s l
}.

Lemma scanning_enter i l s : can_wait i l s -> scanning i l (enter LKptable s).
Proof.
  intros [H1 H2 H3 H4 H5 (A1 & A2 & A3) H7]. split; [split| | | |]; try done.
  - apply enter_mine.
  - cbn. lia.
  - split_and!; [by apply enter_free_ne|by apply enter_free_ne|by apply cpu_ok_push].
  - by apply (free_pages_same s).
Qed.

Lemma wait_enters fuel i l s : can_wait i l s -> wait fuel s = repeat_until fuel (wait_scan i) (enter LKptable s).
Proof. intros C. rewrite wait_eq, (bind_myproc i) by apply C. by mret (acquire_run LKptable s (cw_ptable _ _ _ C)). Qed.

Lemma wait_zombie fuel i l s j p own : can_wait i l s -> list_find (zombie_of i) (k_ptable s) = Some (j, p) -> dead_pages own s p l ->
  exists s' l', wait (S fuel) s = Ret (p_pid p) s' /\ reaped_in own j l l' s s' /\ lock_free LKptable s' /\ cpu_ncli (k_cpu s') = 0.
Proof.
  intros C Ef [D1 D2]. rewrite (wait_enters _ _ _ _ C). cbn [repeat_until].
  destruct (scan_zombie i own l (enter LKptable s) j p (scanning_enter i l s C) Ef) as (s' & l' & E & [R1 R2 R3 R4 R5 R6 R7] & H1 & H2).
  { split; [by apply (space_same own s)|done]. }
  exists s', l'. mret E. split_and!; [done|by split|done|done].
Qed.

(** C21: wait returns each child once, when it is done.  If a child of the caller has exited, wait returns the
    pid of the first one in the table, makes its slot UNUSED again, and gives back its kernel
    stack and every page of its address space, each once; the other processes and all memory
    that is not free are unchanged.  A caller without children, or one that has been killed, gets
    -1 and nothing changes.  Otherwise it goes to sleep on its own slot, with the lock of the
    process table held until it sleeps, and a child that has exited by the time it runs
    again is then reaped in the same way. *)
Theorem wait_reaps_child fuel i l s : can_wait i l s ->
  match list_find (zombie_of i) (k_ptable s) with
  | Some (j, p) => forall own, dead_pages own s p l -> exists s' l', wait (S fuel) s = Ret (p_pid p) s' /\
      reaped_in own j l l' s s' /\ lock_free LKptable s' /\ cpu_ncli (k_cpu s') = 0
  | None =>
    if negb (have_kids i s) || negb (p_killed (proc_at i s) =? 0) then wait (S fuel) s = Ret (-1) (sync s)
    else exists s1 k, wait (S fuel) s = Swtch s1 k /\ holds_only i LKptable s1 /\
      proc_at i s1 = set_p_state SLEEPING (set_p_chan (ChProc i) (proc_at i s)) /\ (forall j, j <> i -> proc_at j s1 = proc_at j s) /\
      forall s2 l2 j p own, (0 < fuel)%nat -> scanning i l2 s2 -> i <> j -> list_find (zombie_of i) (k_ptable s2) = Some (j, p) ->
        dead_pages own s2 p l2 -> exists b s3 l3, k s2 = Ret (p_pid p) s3 /\ reaped_in own j l2 l3 (awakened i LKptable b s2) s3
  end.
Proof.
  intros C. pose proof (scanning_enter i l s C) as Sc. destruct (list_find _ _) as [[j p]|] eqn:Ef.
  - intros own Hd. by apply (wait_zombie fuel i l s j p own).
  - pose proof (scan_idle i (enter LKptable s) (sc_len _ _ _ Sc) Ef) as Ei. change (have_kids i (enter LKptable s)) with (have_kids i s) in Ei.
    change (proc_at i (enter LKptable s)) with (proc_at i s) in Ei. rewrite (wait_enters _ _ _ _ C). cbn [repeat_until].
    destruct (negb (have_kids i s) || _).
    + pose proof (release_stable LKptable id s _ (cw_ptable _ _ _ C) (proj2 (proj2 (cw_alloc _ _ _ C)))) as E.
      unfold id in E. rewrite (bind_Ret _ _ _ _ _ E) in Ei. by mret Ei.
    + pose proof (sleep_run i (ChProc i) LKptable (enter LKptable s) ltac:(rewrite (sc_len _ _ _ Sc); apply Sc) (sc_holds _ _ _ Sc) (or_intror eq_refl)) as E.
      rewrite (bind_Swtch _ _ _ _ _ E) in Ei.
      eexists _, _. split; [exact (bind_Swtch _ _ _ _ _ Ei)|]. split_and!.
      * apply asleep_holds; [apply Sc|by right].
      * exact (asleep_proc i (ChProc i) LKptable (enter LKptable s) ltac:(rewrite (sc_len _ _ _ Sc); apply Sc)).
      * intros j Hj. unfold asleep. rewrite decide_True by done. by rewrite !proc_at_upd_ne.
      * intros s2 l2 j p own Hfuel Sc2 Hne Hf2 [D1 D2]. destruct fuel as [|fuel]; [lia|]. set (b := cpu_intena _).
        destruct (awake_run i LKptable b s2 (sc_holds _ _ _ Sc2) (or_intror eq_refl)) as [Ea _]. exists b.
        rewrite bind_assoc. mret Ea.
        assert (dead_pages own (awakened i LKptable b s2) p l2) as Hd.
        { unfold awakened. rewrite decide_True by done. split; [by apply (space_same own s2)|done]. }
        destruct (scan_zombie i own l2 _ j p (scanning_awakened i b l2 s2 Sc2) (find_awakened i b s2 j p Hf2 Hne) Hd) as (s3 & l3 & E3 & R3 & _).
        exists s3, l3. rewrite bind_ret. cbn [repeat_until]. by mret E3.
Qed.

End Wait.

Section Roundtrip.
Context `{LK : Linker} `{SY : Symbols}.

Lemma uses_same own m m' root p : (forall va, 0 <= va < USERTOP -> translate m' root va = translate m root va) ->
  uses own m' root p -> uses own m root p.
Proof. intros Ht [?|(va & pte & Hva & E & Ef)]; [by left|]. right. exists va, pte. by rewrite <- Ht. Qed.

(** The child is the only one that has exited. *)
Lemma find_child i c s s' : length (k_ptable s') = NPROC -> (c < NPROC)%nat -> zombie_of i (proc_at c s') ->
  (forall k, k <> c -> proc_at k s' = proc_at k s) -> (forall k, (k < NPROC)%nat -> ~ zombie_of i (proc_at k s)) ->
  list_find (zombie_of i) (k_ptable s') = Some (c, proc_at c s').
Proof.
  intros Hl Hc Hz Ho Hn. destruct (lookup_lt_is_Some_2 (k_ptable s') c) as [p Hp]; [lia|]. apply list_find_Some.
  split_and!; [by rewrite (proc_at_lookup _ _ _ Hp)|done|]. intros k q Hk Hlt Hq. apply (Hn k); [lia|].
  rewrite <- Ho by lia. by rewrite (proc_at_lookup _ _ _ Hk).
Qed.


End Roundtrip.

(** *** Witnesses *)

#[local] Existing Instance small_linker.
#[local] Existing Instance proc_symbols.

(** Process 1 runs; process 2 is its child, and has exited. *)
Definition with_zombie (kstack : Z) (s : kstate) : kstate :=
  set_k_cpu (Cpu 0 0 false false (Some 1%nat) 0 0) (set_k_locks boot_locks
    (set_k_ptable (<[2%nat := set_p_kstack kstack (set_p_pgdir one_page (set_p_parent (Some 1%nat) (set_p_pid 7 (set_p_state ZOMBIE zero_proc))))]>
      (<[1%nat := set_p_pid 1 (set_p_state RUNNING zero_proc)]> (replicate NPROC zero_proc))) s)).

Lemma wait_reaps_child_witness : exists s q s', wait 1 (with_zombie q s) = Ret 7 s' /\ p_state (proc_at 2 s') = UNUSED.
Proof.
  destruct space_to_copy as (own & s & q & l & Hsp & Hf & Hr & _ & _). pose proof (free_pages_alloced q s l Hf) as Hf1.
  exists (kalloced q s), q. pose proof (wait_reaps_child 0 1 l (with_zombie q (kalloced q s))) as H.
  assert (list_find (zombie_of 1) (k_ptable (with_zombie q (kalloced q s))) = Some (2%nat, proc_at 2 (with_zombie q (kalloced q s)))) as Ef
    by (vm_compute; reflexivity).
  rewrite Ef in H. destruct H with own as (s' & l' & E & R & _).
  - split; try done; [unfold NPROC; lia|boot_lock| |by apply (free_pages_same (kalloced q s))]. split_and!; [boot_lock|boot_lock|done].
  - pose proof (fp_nodup _ _ Hf) as [Hq _]%NoDup_cons. pose proof (fp_pages _ _ Hf) as [Hq1 _]%Forall_cons_1.
    assert (k_mem (with_zombie q (kalloced q s)) = k_mem s) as Em by exact (kalloced_mem q s). split.
    + apply (space_frame own s _ one_page (q :: l) l Hsp); [set_solver|]. intros. by rewrite Em.
    + split_and!; [done|done|]. rewrite Em. intros Hu. destruct (uses_page _ _ _ _ _ Hsp Hu) as [_ Hn]. set_solver.
  - exists s'. split; [exact E|]. by rewrite (rp_child _ _ _ _ _ _ R).
Defined.

