(* ===== verification/Exec.v ===== *)
(** * Exec: exec.c and loaduvm of vm.c *)

From S2P Require Import Prelude Machine Spinlock Cstring Ktrace Layout Kalloc Vm Sched Sleeplock Pipe Bio Log Fs File Proc.
#[local] Open Scope prog_scope.

Definition get64 : nat -> list Z -> Z := get_le 8.

Definition ELF_MAGIC : Z := 1179403647.
Definition ELF_PROG_LOAD : Z := 1.

(** The fields that exec uses of struct elfhdr (64 bytes) and struct proghdr (56). *)
Definition elf_magic (l : list Z) : Z := get32 0 l.
Definition elf_entry (l : list Z) : Z := get64 24 l.
Definition elf_phoff (l : list Z) : Z := get64 32 l.
Definition elf_phnum (l : list Z) : Z := get16 56 l.
Definition ph_type (l : list Z) : Z := get32 0 l.
Definition ph_off (l : list Z) : Z := get64 8 l.
Definition ph_vaddr (l : list Z) : Z := get64 16 l.
Definition ph_filesz (l : list Z) : Z := get64 32 l.
Definition ph_memsz (l : list Z) : Z := get64 40 l.

(** What follows the last slash. *)
Fixpoint last_elem (path last : list Z) : list Z :=
  match path with
  | [] => last
  | c :: rest => last_elem rest (if c =? slash then rest else last)
  end.

Section Exec.
Context `{LK : Linker} `{DR : BlockDriver} `{DV : DevSw} (fuel : nat).

(** The bytes that readi returns go to the page at [P2V pa]. *)
Fixpoint loaduvm_loop (k : nat) (pgdir addr : Z) (ip : nat) (offset sz i : Z) : kprog Z :=
  if i <? sz then
    match k with
    | O => fun s => NoFuel s
    | S k =>
      pte <- walkpgdir pgdir (u64 (addr + i)) false;;
      match pte with
      | None => panic "loaduvm: address should exist"
      | Some pte =>
        v <- ld64 pte;;
        let pa := PTE_ADDR v in
        let n := if sz - i <? PGSIZE then sz - i else PGSIZE in
        r <- readi fuel ip None (u32 (offset + i)) n;;
        put_bytes (P2V pa) (snd r);;;
        if negb (fst r =? n) then ret (-1) else
        loaduvm_loop k pgdir addr ip offset sz (u32 (i + PGSIZE))
      end
    end
  else ret 0.
Definition loaduvm (pgdir addr : Z) (ip : nat) (offset sz : Z) : kprog Z :=
  if negb (addr mod PGSIZE =? 0) then panic "loaduvm: addr must be page aligned" else
  loaduvm_loop (Z.to_nat (sz / PGSIZE + 1)) pgdir addr ip offset sz 0.

(** The loop over the program headers: the new size, or [None] for [goto bad]. *)
Fixpoint load_segments (n : nat) (ip : nat) (pgdir off sz : Z) : kprog (option Z) :=
  match n with
  | O => ret (Some sz)
  | S n =>
    r <- readi fuel ip None (u32 off) 56;;
    let ph := snd r in
    if negb (fst r =? 56) then ret None else
    if negb (ph_type ph =? ELF_PROG_LOAD) then load_segments n ip pgdir (i32 (off + 56)) sz else
    if ph_memsz ph <? ph_filesz ph then ret None else
    if u64 (ph_vaddr ph + ph_memsz ph) <? ph_vaddr ph then ret None else
    sz <- allocuvm pgdir sz (u64 (ph_vaddr ph + ph_memsz ph));;
    if sz =? 0 then ret None else
    if negb (ph_vaddr ph mod PGSIZE =? 0) then ret None else
    r <- loaduvm pgdir (ph_vaddr ph) ip (u32 (ph_off ph)) (u32 (ph_filesz ph));;
    if r <? 0 then ret None else
    load_segments n ip pgdir (i32 (off + 56)) sz
  end.

(** The argument strings, pushed from [sp] down: the stack pointer and their addresses. *)
Fixpoint push_args (argv : list (list Z)) (pgdir sp : Z) (ptrs : list Z) : kprog (option (Z * list Z)) :=
  match argv with
  | [] => ret (Some (sp, ptrs))
  | arg :: argv =>
    if (Z.of_nat (length ptrs) >=? MAXARG) then ret None else
    let sp := Z.land (u64 (sp - (Z.of_nat (length arg) + 1))) (u64 (Z.lnot 7)) in
    r <- copyout_to pgdir sp (arg ++ [0]);;
    if r <? 0 then ret None else
    push_args argv pgdir sp (ptrs ++ [sp])
  end.

(** [bad:] before and after the inode has been put. *)
Definition exec_bad (pgdir : Z) (ip : option nat) : kprog Z :=
  (when negb (pgdir =? 0) do freevm pgdir);;;
  (match ip with Some ip => iunlockput fuel ip;;; end_op fuel | None => ret tt end);;;
  ret (-1).

(** From the second half on the inode is no longer needed. *)
Definition exec_stack (i : nat) (path : list Z) (argv : list (list Z)) (oldpgdir pgdir sz entry : Z) : kprog Z :=
  let sz := PGROUNDUP sz in
  sz <- allocuvm pgdir sz (u64 (sz + 2 * PGSIZE));;
  if sz =? 0 then exec_bad pgdir None else
  clearpteu pgdir (u64 (sz - 2 * PGSIZE));;;
  r <- push_args argv pgdir sz [];;
  match r with
  | None => exec_bad pgdir None
  | Some (sp, ptrs) =>
    let argc := Z.of_nat (length ptrs) in
    modify (upd_proc i (fun p => set_p_tf (set_tf_rdi argc (p_tf p)) p));;;
    modify (upd_proc i (fun p => set_p_tf (set_tf_rsi (u64 (sp - (argc + 1) * 8)) (p_tf p)) p));;;
    let sp := u64 (sp - (1 + argc + 1) * 8) in
    let ustack := concat (map (le_bytes 8) (18446744073709551615 :: ptrs ++ [0])) in
    r <- copyout_to pgdir sp ustack;;
    if r <? 0 then exec_bad pgdir None else
    modify (upd_proc i (set_name (last_elem path path)));;;
    modify (upd_proc i (set_p_pgdir pgdir));;;
    modify (upd_proc i (set_p_sz sz));;;
    modify (upd_proc i (fun p => set_p_tf (set_tf_rsp sp (set_tf_rcx entry (set_tf_rip entry (p_tf p)))) p));;;
    switchuvm i;;;
    freevm oldpgdir;;;
    ret 0
  end.

Definition exec (path : list Z) (argv : list (list Z)) : kprog Z :=
  i <- myproc;;
  oldpgdir <- gets (fun s => p_pgdir (proc_at i s));;
  begin_op fuel;;;
  ip <- namei fuel path;;
  match ip with
  | None => end_op fuel;;; ret (-1)
  | Some ip =>
    ilock fuel (Some ip);;;
    r <- readi fuel ip None 0 64;;
    let elf := snd r in
    if negb (fst r =? 64) then exec_bad 0 (Some ip) else
    if negb (elf_magic elf =? ELF_MAGIC) then exec_bad 0 (Some ip) else
    pgdir <- setupkvm;;
    if pgdir =? 0 then exec_bad 0 (Some ip) else
    r <- load_segments (Z.to_nat (elf_phnum elf)) ip pgdir (i32 (elf_phoff elf)) PGSIZE;;
    match r with
    | None => exec_bad pgdir (Some ip)
    | Some sz =>
      iunlockput fuel ip;;;
      end_op fuel;;;
      exec_stack i path argv oldpgdir pgdir sz (elf_entry elf)
    end
  end.

End Exec.
