(* ===== verification/Syscall.v ===== *)
(** * Syscall: syscall.c, sysproc.c and sysfile.c

    The system call handlers.  A handler returns the C value of its int (or, for sbrk,
    address) result.  Path arguments are read when they are fetched: the user memory
    that holds them cannot change while the call runs. *)

From S2P Require Import Prelude Machine Spinlock Cstring Ktrace Layout Kalloc Vm Sched.
From S2P Require Import Sleeplock Pipe Bio Log Fs Console File Proc Exec.
#[local] Open Scope prog_scope.

Definition O_WRONLY : Z := 1.
Definition O_RDWR : Z := 2.
Definition O_CREATE : Z := 512.

(** ** Arguments *)

Definition proc_sz : kprog Z := i <- myproc;; gets (fun s => p_sz (proc_at i s)).

Definition uload_le (va : Z) (n : nat) : kprog Z :=
  bs <- for_map (seq 0 n) (fun j => uload (u64 (va + Z.of_nat j)));; ret (of_le_bytes bs).

(** [None] stands for the return of -1. *)
Definition fetchint (addr : Z) : kprog (option Z) :=
  sz <- proc_sz;;
  if (addr <? PGSIZE) || (addr >=? sz) || (u64 (addr + 4) >? sz) then ret None else
  v <- uload_le addr 4;; ret (Some (i32 v)).

Definition fetchaddr (addr : Z) : kprog (option Z) :=
  sz <- proc_sz;;
  if (addr <? PGSIZE) || (addr >=? sz) || (u64 (addr + 8) >? sz) then ret None else
  v <- uload_le addr 8;; ret (Some v).

(** The string at [addr]: [n] is how many bytes there are up to the end of the process. *)
Fixpoint scan_str (n : nat) (addr : Z) (acc : list Z) : kprog (option (list Z)) :=
  match n with
  | O => ret None
  | S n =>
    c <- uload addr;;
    if c =? 0 then ret (Some acc) else scan_str n (addr + 1) (acc ++ [c])
  end.
Definition fetchstr (addr : Z) : kprog (option (list Z)) :=
  sz <- proc_sz;;
  if (addr <? PGSIZE) || (addr >=? sz) then ret None else
  scan_str (Z.to_nat (sz - addr)) addr [].

Definition fetcharg (n : nat) : kprog Z :=
  i <- myproc;;
  tf <- gets (fun s => p_tf (proc_at i s));;
  match n with
  | 0 => ret (tf_rdi tf)
  | 1 => ret (tf_rsi tf)
  | 2 => ret (tf_rdx tf)
  | 3 => ret (tf_r10 tf)
  | 4 => ret (tf_r8 tf)
  | 5 => ret (tf_r9 tf)
  | _ => panic "failed fetch"
  end%nat.

Definition argint (n : nat) : kprog Z := v <- fetcharg n;; ret (i32 v).
Definition argaddr (n : nat) : kprog Z := fetcharg n.

(** The check is on the low 32 bits of the pointer. *)
Definition argptr (n : nat) (size : Z) : kprog (option Z) :=
  i <- argaddr n;;
  if size <? 0 then ret None else
  sz <- proc_sz;;
  if (u32 i >=? sz) || (u32 (u32 i + size) >? sz) then ret None else ret (Some i).

Definition argstr (n : nat) : kprog (option (list Z)) :=
  addr <- argint n;;
  fetchstr (u64 addr).

(** The descriptor and the open file. *)
Definition argfd (n : nat) : kprog (option (Z * nat)) :=
  fd <- argint n;;
  if (fd <? 0) || (fd >=? Z.of_nat NOFILE) then ret None else
  i <- myproc;;
  p <- gets (proc_at i);;
  match p_ofile p !! Z.to_nat fd with
  | Some (Some f) => ret (Some (fd, f))
  | _ => ret None
  end.

Definition set_ofile (i : nat) (fd : nat) (f : option nat) : kstate -> kstate :=
  upd_proc i (fun p => set_p_ofile (<[fd := f]> (p_ofile p)) p).

Definition fdalloc (f : nat) : kprog (option Z) :=
  i <- myproc;;
  for_break (seq 0 NOFILE) (fun fd =>
    p <- gets (proc_at i);;
    match p_ofile p !! fd with
    | Some None => modify (set_ofile i fd (Some f));;; ret (Some (Z.of_nat fd))
    | _ => ret None
    end).

Section Syscall.
Context `{LK : Linker} `{DR : BlockDriver} `{DV : DevSw} `{SY : Symbols} (fuel : nat).

(** ** sysproc.c *)

Definition sys_fork : kprog Z := fork.
Definition sys_exit : kprog Z := exit fuel.
Definition sys_wait : kprog Z := wait fuel.
Definition sys_kill : kprog Z := pid <- argint 0;; kill pid.
Definition sys_getpid : kprog Z := i <- myproc;; gets (fun s => p_pid (proc_at i s)).

Definition sys_sbrk : kprog Z :=
  n <- argaddr 0;;
  addr <- proc_sz;;
  r <- growproc (i64 n);;
  ret (if r <? 0 then u64 (-1) else addr).

Definition sys_sleep : kprog Z :=
  n <- argint 0;;
  acquire LKtick;;;
  ticks0 <- gets k_ticks;;
  repeat_until fuel (
    ticks <- gets k_ticks;;
    if u32 (ticks - ticks0) <? u32 n then
      i <- myproc;;
      p <- gets (proc_at i);;
      if negb (p_killed p =? 0) then release LKtick;;; ret (Some (-1))
      else sleep ChTicks LKtick;;; ret None
    else release LKtick;;; ret (Some 0)).

Definition sys_uptime : kprog Z :=
  acquire LKtick;;;
  xticks <- gets k_ticks;;
  release LKtick;;;
  ret (i32 xticks).

Definition sys_traceread : kprog Z :=
  max_events <- argint 1;;
  if max_events <=? 0 then ret 0 else
  event <- argptr 0 (i32 (max_events * 64));;
  match event with
  | None => ret (-1)
  | Some event => traceread event max_events
  end.

Definition sys_vidclear : kprog Z := vidclear;;; ret 0.
Definition sys_vidputc : kprog Z :=
  row <- argint 0;; col <- argint 1;; ch <- argint 2;; color <- argint 3;;
  vidputc row col ch color;;;
  ret 0.
Definition sys_vidputs : kprog Z :=
  row <- argint 0;;
  col <- argint 1;;
  s <- argstr 2;;
  match s with
  | None => ret (-1)
  | Some s =>
    color <- argint 3;;
    vidputs row col s color;;;
    ret 0
  end.

(** ** sysfile.c *)

Definition sys_dup : kprog Z :=
  f <- argfd 0;;
  match f with
  | None => ret (-1)
  | Some (_, f) =>
    fd <- fdalloc f;;
    match fd with
    | None => ret (-1)
    | Some fd => _ <- filedup f;; ret fd
    end
  end.

Definition sys_rw (op : nat -> Z -> Z -> kprog Z) : kprog Z :=
  f <- argfd 0;;
  match f with
  | None => ret (-1)
  | Some (_, f) =>
    n <- argint 2;;
    p <- argptr 1 n;;
    match p with
    | None => ret (-1)
    | Some p => op f p n
    end
  end.
Definition sys_read : kprog Z := sys_rw (fileread fuel).
Definition sys_write : kprog Z := sys_rw (filewrite fuel).

Definition sys_close : kprog Z :=
  f <- argfd 0;;
  match f with
  | None => ret (-1)
  | Some (fd, f) =>
    i <- myproc;;
    modify (set_ofile i (Z.to_nat fd) None);;;
    fileclose fuel f;;;
    ret 0
  end.

Definition sys_fstat : kprog Z :=
  f <- argfd 0;;
  match f with
  | None => ret (-1)
  | Some (_, f) =>
    st <- argptr 1 20;;
    match st with
    | None => ret (-1)
    | Some st => filestat fuel f st
    end
  end.

Definition isdirempty (dp : nat) : kprog bool :=
  x <- gets (inode_at dp);;
  r <- for_break (seq 2 (dirents (i_size x) - 2)) (fun k =>
    r <- readi fuel dp None (16 * Z.of_nat k) 16;;
    let '(r, de) := r in
    if negb (r =? 16) then panic "isdirempty: readi" else
    ret (if negb (de_inum de =? 0) then Some tt else None));;
  ret (match r with Some _ => false | None => true end).

Definition add_nlink (ip : nat) (d : Z) : kprog unit := modify (upd_inode ip (fun x => set_i_nlink (i16 (i_nlink x + d)) x)).

Definition link_bad (ip : nat) : kprog Z :=
  ilock fuel (Some ip);;;
  add_nlink ip (-1);;;
  iupdate fuel ip;;;
  iunlockput fuel ip;;;
  end_op fuel;;;
  ret (-1).

Definition sys_link : kprog Z :=
  old <- argstr 0;;
  match old with
  | None => ret (-1)
  | Some old =>
    new <- argstr 1;;
    match new with
    | None => ret (-1)
    | Some new =>
      begin_op fuel;;;
      ip <- namei fuel old;;
      match ip with
      | None => end_op fuel;;; ret (-1)
      | Some ip =>
        ilock fuel (Some ip);;;
        x <- gets (inode_at ip);;
        if i_type x =? T_DIR then iunlockput fuel ip;;; end_op fuel;;; ret (-1) else
        add_nlink ip 1;;;
        iupdate fuel ip;;;
        iunlock (Some ip);;;
        r <- nameiparent fuel new (replicate DIRSIZ 0);;
        match r with
        | (None, _) => link_bad ip
        | (Some dp, name) =>
          ilock fuel (Some dp);;;
          y <- gets (inode_at dp);;
          x <- gets (inode_at ip);;
          r <- (if negb (i_dev y =? i_dev x) then ret (-1) else dirlink fuel dp name (i_inum x));;
          if r <? 0 then iunlockput fuel dp;;; link_bad ip else
          iunlockput fuel dp;;;
          iput fuel ip;;;
          end_op fuel;;;
          ret 0
        end
      end
    end
  end.

Definition unlink_bad (dp : nat) : kprog Z :=
  iunlockput fuel dp;;;
  end_op fuel;;;
  ret (-1).

Definition unlink_found (dp ip : nat) (off : Z) : kprog Z :=
  r <- writei fuel dp (inr (replicate 16 0)) off 16;;
  if negb (r =? 16) then panic "unlink: writei" else
  x <- gets (inode_at ip);;
  (when i_type x =? T_DIR do
     add_nlink dp (-1);;;
     iupdate fuel dp);;;
  iunlockput fuel dp;;;
  add_nlink ip (-1);;;
  iupdate fuel ip;;;
  iunlockput fuel ip;;;
  end_op fuel;;;
  ret 0.

Definition sys_unlink : kprog Z :=
  path <- argstr 0;;
  match path with
  | None => ret (-1)
  | Some path =>
    begin_op fuel;;;
    r <- nameiparent fuel path (replicate DIRSIZ 0);;
    match r with
    | (None, _) => end_op fuel;;; ret (-1)
    | (Some dp, name) =>
      ilock fuel (Some dp);;;
      if (namecmp name (lit ".") =? 0) || (namecmp name (lit "..") =? 0) then unlink_bad dp else
      r <- dirlookup fuel dp name;;
      match r with
      | None => unlink_bad dp
      | Some (ip, off) =>
        ilock fuel (Some ip);;;
        x <- gets (inode_at ip);;
        if i_nlink x <? 1 then panic "unlink: nlink < 1" else
        empty <- (if i_type x =? T_DIR then isdirempty ip else ret true);;
        if negb empty then iunlockput fuel ip;;; unlink_bad dp else
        unlink_found dp ip off
      end
    end
  end.

Definition create_new (dp : nat) (name : list Z) (type major minor : Z) : kprog (option nat) :=
  d <- gets (inode_at dp);;
  ip <- ialloc fuel (i_dev d) type;;
  ilock fuel (Some ip);;;
  modify (upd_inode ip (set_i_major major));;;
  modify (upd_inode ip (set_i_minor minor));;;
  modify (upd_inode ip (set_i_nlink 1));;;
  iupdate fuel ip;;;
  x <- gets (inode_at ip);;
  (when type =? T_DIR do
     add_nlink dp 1;;;
     iupdate fuel dp;;;
     r <- dirlink fuel ip (lit ".") (i_inum x);;
     if r <? 0 then panic "create dots" else
     d <- gets (inode_at dp);;
     r <- dirlink fuel ip (lit "..") (i_inum d);;
     when r <? 0 do panic "create dots");;;
  r <- dirlink fuel dp name (i_inum x);;
  if r <? 0 then panic "create: dirlink" else
  iunlockput fuel dp;;;
  ret (Some ip).

Definition create (path : list Z) (type major minor : Z) : kprog (option nat) :=
  r <- nameiparent fuel path (replicate DIRSIZ 0);;
  match r with
  | (None, _) => ret None
  | (Some dp, name) =>
    ilock fuel (Some dp);;;
    r <- dirlookup fuel dp name;;
    match r with
    | Some (ip, _) =>
      iunlockput fuel dp;;;
      ilock fuel (Some ip);;;
      x <- gets (inode_at ip);;
      if (type =? T_FILE) && (i_type x =? T_FILE) then ret (Some ip) else
      iunlockput fuel ip;;;
      ret None
    | None => create_new dp name type major minor
    end
  end.

(** The second half of sys_open, with the inode locked. *)
Definition open_inode (ip : nat) (omode : Z) : kprog Z :=
  f <- filealloc;;
  r <- (match f with None => ret None | Some f => fd <- fdalloc f;; ret ((fun fd => (f, fd)) <$> fd) end);;
  match r with
  | None =>
    close_opt fuel f;;;
    iunlockput fuel ip;;;
    end_op fuel;;;
    ret (-1)
  | Some (f, fd) =>
    iunlock (Some ip);;;
    end_op fuel;;;
    modify (upd_file f (set_f_type FD_INODE));;;
    modify (upd_file f (set_f_ip (Some ip)));;;
    modify (upd_file f (set_f_off 0));;;
    modify (upd_file f (set_f_readable (if Z.land omode O_WRONLY =? 0 then 1 else 0)));;;
    modify (upd_file f (set_f_writable
      (if (Z.land omode O_WRONLY =? 0) && (Z.land omode O_RDWR =? 0) then 0 else 1)));;;
    ret fd
  end.

Definition sys_open : kprog Z :=
  path <- argstr 0;;
  match path with
  | None => ret (-1)
  | Some path =>
    omode <- argint 1;;
    begin_op fuel;;;
    if negb (Z.land omode O_CREATE =? 0) then
      ip <- create path T_FILE 0 0;;
      match ip with
      | None => end_op fuel;;; ret (-1)
      | Some ip => open_inode ip omode
      end
    else
      ip <- namei fuel path;;
      match ip with
      | None => end_op fuel;;; ret (-1)
      | Some ip =>
        ilock fuel (Some ip);;;
        x <- gets (inode_at ip);;
        if (i_type x =? T_DIR) && negb (omode =? 0) then iunlockput fuel ip;;; end_op fuel;;; ret (-1)
        else open_inode ip omode
      end
  end.

(** The common end of mkdir and mknod. *)
Definition finish_create (ip : option nat) : kprog Z :=
  match ip with
  | None => end_op fuel;;; ret (-1)
  | Some ip => iunlockput fuel ip;;; end_op fuel;;; ret 0
  end.

Definition sys_mkdir : kprog Z :=
  begin_op fuel;;;
  path <- argstr 0;;
  ip <- (match path with None => ret None | Some path => create path T_DIR 0 0 end);;
  finish_create ip.

Definition sys_mknod : kprog Z :=
  begin_op fuel;;;
  path <- argstr 0;;
  ip <- (match path with
         | None => ret None
         | Some path =>
           major <- argint 1;;
           minor <- argint 2;;
           create path T_DEV (i16 major) (i16 minor)
         end);;
  finish_create ip.

Definition sys_chdir : kprog Z :=
  begin_op fuel;;;
  path <- argstr 0;;
  ip <- (match path with None => ret None | Some path => namei fuel path end);;
  match ip with
  | None => end_op fuel;;; ret (-1)
  | Some ip =>
    ilock fuel (Some ip);;;
    x <- gets (inode_at ip);;
    if negb (i_type x =? T_DIR) then iunlockput fuel ip;;; end_op fuel;;; ret (-1) else
    iunlock (Some ip);;;
    i <- myproc;;
    cwd <- gets (fun s => p_cwd (proc_at i s));;
    (match cwd with Some old => iput fuel old | None => undef "chdir: no current directory" end);;;
    end_op fuel;;;
    modify (upd_proc i (set_p_cwd (Some ip)));;;
    ret 0
  end.

(** The argument vector: [n] entries may still follow. *)
Fixpoint fetch_argv (n : nat) (uargv : Z) (argv : list (list Z)) : kprog (option (list (list Z))) :=
  match n with
  | O => ret None
  | S n =>
    uarg <- fetchaddr (u64 (uargv + 8 * Z.of_nat (length argv)));;
    match uarg with
    | None => ret None
    | Some uarg =>
      if uarg =? 0 then ret (Some argv) else
      s <- fetchstr uarg;;
      match s with
      | None => ret None
      | Some s => fetch_argv n uargv (argv ++ [s])
      end
    end
  end.

Definition sys_exec : kprog Z :=
  path <- argstr 0;;
  match path with
  | None => ret (-1)
  | Some path =>
    uargv <- argaddr 1;;
    argv <- fetch_argv (Z.to_nat MAXARG) uargv [];;
    match argv with
    | None => ret (-1)
    | Some argv => exec fuel path argv
    end
  end.

Definition sys_pipe : kprog Z :=
  fd <- argptr 0 8;;
  match fd with
  | None => ret (-1)
  | Some fd =>
    r <- pipealloc fuel;;
    match r with
    | None => ret (-1)
    | Some (rf, wf) =>
      i <- myproc;;
      fd0 <- fdalloc rf;;
      fd1 <- (match fd0 with None => ret None | Some _ => fdalloc wf end);;
      match fd0, fd1 with
      | Some fd0, Some fd1 =>
        ustore_le fd 4 fd0;;;
        ustore_le (u64 (fd + 4)) 4 fd1;;;
        ret 0
      | _, _ =>
        (match fd0 with Some fd0 => modify (set_ofile i (Z.to_nat fd0) None) | None => ret tt end);;;
        fileclose fuel rf;;;
        fileclose fuel wf;;;
        ret (-1)
      end
    end
  end.

(** ** Dispatch *)

(** syscalls[] and syscallnames[], from 1 on.  An int result comes in eax, so that the
    upper half of rax is zero. *)
Definition int_call (h : kprog Z) : kprog Z := r <- h;; ret (u32 r).

Definition syscalls : list (string * kprog Z) :=
  [("fork", int_call sys_fork); ("exit", int_call sys_exit); ("wait", int_call sys_wait);
   ("pipe", int_call sys_pipe); ("read", int_call sys_read); ("kill", int_call sys_kill);
   ("exec", int_call sys_exec); ("fstat", int_call sys_fstat); ("chdir", int_call sys_chdir);
   ("dup", int_call sys_dup); ("getpid", int_call sys_getpid); ("sbrk", sys_sbrk);
   ("sleep", int_call sys_sleep); ("uptime", int_call sys_uptime); ("open", int_call sys_open);
   ("write", int_call sys_write); ("mknod", int_call sys_mknod); ("unlink", int_call sys_unlink);
   ("link", int_call sys_link); ("mkdir", int_call sys_mkdir); ("close", int_call sys_close);
   ("traceread", int_call sys_traceread); ("vidclear", int_call sys_vidclear);
   ("vidputc", int_call sys_vidputc); ("vidputs", int_call sys_vidputs)]%string.

(** The calls that are not traced: traceread, the vid calls, sleep, getpid, uptime. *)
Definition untraced (num : Z) : bool := existsb (Z.eqb num) [22; 23; 24; 25; 13; 11; 14].

Definition syscall : kprog unit :=
  i <- myproc;;
  num <- gets (fun s => tf_rax (p_tf (proc_at i s)));;
  (match (if (num >? 0) && (num <? 26) then syscalls !! Z.to_nat (num - 1) else None) with
   | Some (name, h) =>
     start_ticks <- gets k_ticks;;
     r <- h;;
     modify (upd_proc i (fun p => set_p_tf (set_tf_rax (u64 r) (p_tf p)) p));;;
     end_ticks <- gets k_ticks;;
     let latency := u32 (end_ticks - start_ticks) in
     when negb (untraced num) do
       pid <- gets (fun s => p_pid (proc_at i s));;
       traceevent TRACE_TYPE_SYSCALL pid (i32 num) (i32 (u64 r)) (i32 latency) (Some (lit name))
   | None =>
     p <- gets (proc_at i);;
     cprintf (lit "%d %s: unknown sys call %d" ++ [newline]) [FInt (p_pid p); FStr (Some (c_str (p_name p))); FInt (i32 num)];;;
     modify (upd_proc i (fun p => set_p_tf (set_tf_rax (u64 (-1)) (p_tf p)) p))
   end);;;
  p <- gets (proc_at i);;
  when negb (p_killed p =? 0) do exit fuel.

End Syscall.

(** ** Tracing of system calls *)

(** The process [i] is back in the kernel after its handler, alive, and may trace. *)
Record handled (i : nat) (q : tlog) (s : kstate) : Prop := Handled {
  hd_proc : cpu_proc (k_cpu s) = Some i;
  hd_slot : (i < length (k_ptable s))%nat;
  hd_alive : p_killed (proc_at i s) = 0;
  hd_lock : lock_free LKtrace s;
  hd_cpu : cpu_ok (k_cpu s);
  hd_trace : repr (k_trace s) q
}.

(** What a system call leaves behind, [r] being what its handler returned in the state
    [s1]: the result in rax, and the event in the trace. *)
Record answered (i : nat) (num start : Z) (name : string) (q : tlog) (r : Z) (s1 s2 : kstate) : Prop := Answered {
  an_rax : tf_rax (p_tf (proc_at i s2)) = u64 r;
  an_untraced : untraced num = true -> k_trace s2 = k_trace s1;
  an_traced : untraced num = false -> exists e, repr (k_trace s2) (tlog_record e q) /\
    te_type e = TRACE_TYPE_SYSCALL /\ te_pid e = i32 (p_pid (proc_at i s1)) /\ te_arg0 e = num /\
    te_arg1 e = i32 r /\ te_arg2 e = i32 (k_ticks s1 - start) /\ te_ticks e = k_ticks s1 /\
    te_comm e = event_comm s1 /\ te_event e = event_name (Some (lit name))
}.

Lemma event_comm_tf i tf s : cpu_proc (k_cpu s) = Some i -> (i < length (k_ptable s))%nat ->
  event_comm (upd_proc i (fun p => set_p_tf tf p) s) = event_comm s.
Proof.
  intros Hc Hi. unfold event_comm, cur_proc. cbn [k_cpu upd_proc set_k_ptable]. rewrite Hc. cbn.
  destruct (lookup_lt_is_Some_2 _ _ Hi) as [p Hp]. rewrite list_lookup_alter_eq, Hp. done.
Qed.

Section Traced.
Context `{LK : Linker} `{DR : BlockDriver} `{DV : DevSw} `{SY : Symbols} (fuel : nat).

Lemma answer_run i num start name q r s :
  handled i q s -> 0 < num < 26 ->
  exists s2, ((modify (upd_proc i (fun p => set_p_tf (set_tf_rax (u64 r) (p_tf p)) p));;;
     end_ticks <- gets k_ticks;;
     let latency := u32 (end_ticks - start) in
     when negb (untraced num) do
       pid <- gets (fun s => p_pid (proc_at i s));;
       traceevent TRACE_TYPE_SYSCALL pid (i32 num) (i32 (u64 r)) (i32 latency) (Some (lit name)));;;
    p <- gets (proc_at i);;
    when negb (p_killed p =? 0) do exit fuel) s = Ret tt s2 /\ answered i num start name q r s s2.
Proof.
  intros [Hp Hi Ha Hf Hc Hr] Hn. rewrite bind_assoc, bind_modify. set (s1 := upd_proc i _ s).
  assert (proc_at i s1 = set_p_tf (set_tf_rax (u64 r) (p_tf (proc_at i s))) (proc_at i s)) as E1 by (unfold s1; by rewrite proc_at_upd).
  rewrite bind_assoc, bind_gets. cbv zeta. destruct (untraced num) eqn:Eu; cbn [negb].
  - rewrite bind_ret, bind_gets, E1. cbn [p_killed set_p_tf]. rewrite Ha. exists s1. split; [done|].
    split; [by rewrite E1|done|congruence].
  - rewrite bind_assoc, bind_gets. set (e := make_event s1 TRACE_TYPE_SYSCALL (p_pid (proc_at i s1)) (i32 num) (i32 (u64 r))
      (i32 (u32 (k_ticks s1 - start))) (Some (lit name))).
    assert (traceevent TRACE_TYPE_SYSCALL (p_pid (proc_at i s1)) (i32 num) (i32 (u64 r)) (i32 (u32 (k_ticks s1 - start)))
      (Some (lit name)) s1 = Ret tt (set_k_trace (tb_record e (k_trace s1)) (sync s1))) as Et.
    { apply traceevent_run; [done|done|apply Hr]. }
    mret Et. rewrite bind_gets. change (proc_at i (set_k_trace _ (sync s1))) with (proc_at i s1). rewrite E1.
    cbn [p_killed set_p_tf]. rewrite Ha. eexists. split; [done|]. split; [|congruence|].
    { change (proc_at i (set_k_trace _ (sync s1))) with (proc_at i s1). by rewrite E1. }
    intros _. exists e. split_and!; try done.
    + by apply repr_record.
    + unfold e, make_event. cbn [te_pid]. by rewrite E1.
    + unfold e, make_event. cbn [te_arg0]. rewrite (i32_small num), (i32_small num); lia.
    + unfold e, make_event. cbn [te_arg1]. word_lia.
    + unfold e, make_event. cbn [te_arg2]. change (k_ticks s1) with (k_ticks s). word_lia.
    + unfold e, make_event. cbn [te_comm]. unfold s1.
      rewrite <- (event_comm_tf i (set_tf_rax (u64 r) (p_tf (proc_at i s))) s Hp Hi). f_equal.
      unfold upd_proc. f_equal. apply list_eq. intros j. destruct (decide (i = j)) as [<-|Hne].
      * rewrite !list_lookup_alter_eq. unfold proc_at. by destruct (k_ptable s !! i).
      * by rewrite !list_lookup_alter_ne.
Qed.


End Traced.

(** ** The check of user pointers *)


(** A process of two pages that calls dup(99), or passes a pointer into the kernel. *)
#[local] Instance witness_linker : Linker.
Proof. exists (KERNBASE + 4096). lia. Defined.
#[local] Instance witness_devices : DevSw := { dev_read := fun _ => None; dev_write := fun _ => None }.
#[local] Instance witness_symbols : Symbols :=
  { sym_forkret := 0; sym_trapret := 0; initcode_start := 0; initcode_size := 0 }.
Definition calling (tf : trapframe) : kstate :=
  upd_proc 1 (fun p => set_p_sz 8192 (set_p_tf tf p)) two_procs.
Definition bad_dup : trapframe := set_tf_rax 10 (set_tf_rdi 99 zero_tf).


Lemma calling_handled tf : handled 1 (Tlog [] 0 0) (calling tf).
Proof.
  split; try reflexivity.
  - apply Nat.ltb_lt. vm_compute. reflexivity.
  - apply (booted_free LKtrace); vm_compute; reflexivity.
  - change (k_cpu (calling tf)) with (Cpu 0 0 false false (Some 1%nat) 0 0). split; [simpl; lia|done].
  - exact trace_ready_repr.
Qed.

