(* ===== verification/Asm.v ===== *)
(** * Asm: the assembly routines of the kernel and of the user library

    swtch.S, trapasm.S, usys.S and the entry points that vectors.pl generates, as lists of
    instructions for a model of the processor: the general registers, the instruction
    pointer, the flags, the selectors of code and stack, and the memory as the running address
    space shows it.  The system registers that the start of the kernel sets are
    arguments.  What the processor does by itself (interrupt, iretq, syscall, sysretq) is
    what its manual documents. *)

From S2P Require Import Prelude Machine Cstring Ktrace Layout Kalloc Vm Sched Pipe Bio Log Fs File Proc Exec Syscall.

(** ** The processor *)

Inductive reg := RAX | RBX | RCX | RDX | RBP | RSI | RDI | R8 | R9 | R10 | R11 | R12 | R13 | R14 | R15 | RSP.

#[export] Instance reg_eq_dec : EqDecision reg.
Proof. solve_decision. Defined.

Record x86 := X86 { x_regs : reg -> Z; x_rip : Z; x_rflags : Z; x_cs : Z; x_ss : Z; x_mem : mem }.

(** The base of the segment fs, the address of the task state segment, and the registers of
    the instruction syscall. *)
Record sysregs := Sysregs { fs_base : Z; tss_base : Z; msr_star : Z; msr_lstar : Z; msr_sfmask : Z }.

Definition setr (r : reg) (v : Z) (f : reg -> Z) : reg -> Z := fun r' => if bool_decide (r = r') then v else f r'.
Definition set_reg (r : reg) (v : Z) (s : x86) : x86 := X86 (setr r v (x_regs s)) (x_rip s) (x_rflags s) (x_cs s) (x_ss s) (x_mem s).
Definition set_xmem (m : mem) (s : x86) : x86 := X86 (x_regs s) (x_rip s) (x_rflags s) (x_cs s) (x_ss s) m.
Definition set_rip (v : Z) (s : x86) : x86 := X86 (x_regs s) v (x_rflags s) (x_cs s) (x_ss s) (x_mem s).
Definition set_rflags (v : Z) (s : x86) : x86 := X86 (x_regs s) (x_rip s) v (x_cs s) (x_ss s) (x_mem s).
Definition set_segs (cs ss : Z) (s : x86) : x86 := X86 (x_regs s) (x_rip s) (x_rflags s) cs ss (x_mem s).

Inductive src := Rg (r : reg) | Im (v : Z).

(** [Load d b r] is [movq d(b), r], [LoadFs d r] is [movq %fs:(d), r]; a call is to the address
    [f] and returns to the address [next], and [next] follows the instruction syscall. *)
Inductive instr :=
| Push (o : src) | Pop (r : reg)
| Mov (o : src) (r : reg) | Load (d : Z) (b r : reg) | Store (r : reg) (d : Z) (b : reg)
| LoadFs (d : Z) (r : reg) | StoreFs (r : reg) (d : Z)
| Add (v : Z) (r : reg) | Cli
| Call (f next : Z) | Retq | Iretq | Syscall (next : Z) | Sysretq.

Definition value (s : x86) (o : src) : Z := match o with Rg r => x_regs s r | Im v => u64 v end.
Definition push (v : Z) (s : x86) : x86 :=
  let sp := u64 (x_regs s RSP - 8) in set_xmem (store64 (x_mem s) sp v) (set_reg RSP sp s).
Definition popv (s : x86) : Z := load64 (x_mem s) (x_regs s RSP).
Definition drop (s : x86) : x86 := set_reg RSP (u64 (x_regs s RSP + 8)) s.

Definition FL_TF : Z := 0x100.
Definition FL_NT : Z := 0x4000.
Definition FL_RF : Z := 0x10000.
Definition KERNEL_CS : Z := Z.shiftl 1 3.

Section Cpu.
Context (sys : sysregs).

Definition step (i : instr) (s : x86) : x86 :=
  match i with
  | Push o => push (value s o) s
  | Pop r => set_reg r (popv s) (drop s)
  | Mov o r => set_reg r (value s o) s
  | Load d b r => set_reg r (load64 (x_mem s) (u64 (x_regs s b + d))) s
  | Store r d b => set_xmem (store64 (x_mem s) (u64 (x_regs s b + d)) (x_regs s r)) s
  | LoadFs d r => set_reg r (load64 (x_mem s) (u64 (fs_base sys + d))) s
  | StoreFs r d => set_xmem (store64 (x_mem s) (u64 (fs_base sys + d)) (x_regs s r)) s
  | Add v r => set_reg r (u64 (x_regs s r + v)) s
  | Cli => set_rflags (Z.ldiff (x_rflags s) FL_IF) s
  | Call f next => set_rip f (push next s)
  | Retq => set_rip (popv s) (drop s)
  | Iretq =>
    let w k := load64 (x_mem s) (u64 (x_regs s RSP + 8 * k)) in
    set_reg RSP (w 3) (set_segs (w 1) (w 4) (set_rflags (w 2) (set_rip (w 0) s)))
  | Syscall next =>
    set_segs (Z.land (Z.shiftr (msr_star sys) 32) 0xFFFC) (u16 (Z.shiftr (msr_star sys) 32 + 8))
      (set_rflags (Z.ldiff (x_rflags s) (msr_sfmask sys))
        (set_rip (msr_lstar sys) (set_reg R11 (x_rflags s) (set_reg RCX next s))))
  | Sysretq =>
    set_segs (Z.lor (u16 (Z.shiftr (msr_star sys) 48 + 16)) 3) (Z.lor (u16 (Z.shiftr (msr_star sys) 48 + 8)) 3)
      (set_rflags (Z.lor (Z.land (x_regs s R11) 0x3C7FD7) 2) (set_rip (x_regs s RCX) s))
  end.

Definition exec (c : list instr) (s : x86) : x86 := fold_left (fun s i => step i s) c s.

(** An interrupt or exception: the processor takes the stack of the task state segment when it comes from
    user mode, aligns it, and saves where it was; these exceptions have an error code. *)
Definition has_error (n : Z) : bool := existsb (Z.eqb n) [8; 10; 11; 12; 13; 14; 17].
Definition from_user (s : x86) : bool := Z.land (x_cs s) 3 =? 3.
Definition intr_top (s : x86) : Z :=
  let sp := if from_user s then load64 (x_mem s) (tss_base sys + 4) else x_regs s RSP in sp - sp mod 16.
Definition interrupt (n err : Z) (s : x86) : x86 :=
  let s1 := push (x_rip s) (push (x_cs s) (push (x_rflags s) (push (x_regs s RSP) (push (x_ss s) (set_reg RSP (intr_top s) s))))) in
  let s2 := if has_error n then push err s1 else s1 in
  set_segs KERNEL_CS (if from_user s then 0 else x_ss s)
    (set_rflags (Z.ldiff (x_rflags s) (Z.lor (Z.lor FL_IF FL_TF) (Z.lor FL_NT FL_RF))) s2).

(** ** The routines *)

Definition swtch : list instr :=
  [Push (Rg RBP); Push (Rg RBX); Push (Rg R12); Push (Rg R13); Push (Rg R14); Push (Rg R15);
   Store RSP 0 RDI; Mov (Rg RSI) RSP;
   Pop R15; Pop R14; Pop R13; Pop R12; Pop RBX; Pop RBP; Retq].

(** vector n *)
Definition vector (n : Z) : list instr :=
  (if negb ((n =? 8) || (n >=? 10) && (n <=? 14) || (n =? 17)) then [Push (Im 0)] else []) ++ [Push (Im n)].

Definition push_regs : list instr :=
  map (fun r => Push (Rg r)) [R15; R14; R13; R12; R11; R10; R9; R8; RDI; RSI; RBP; RDX; RCX; RBX; RAX].
Definition pop_regs : list instr :=
  map Pop [RAX; RBX; RCX; RDX; RBP; RSI; RDI; R8; R9; R10; R11; R12; R13; R14; R15].

(** [trap] is the address of the C function, [trapret] that of the label behind the call. *)
Definition alltraps (trap trapret : Z) : list instr := push_regs ++ [Mov (Rg RSP) RDI; Call trap trapret].
Definition trapret : list instr := pop_regs ++ [Add 16 RSP; Iretq].

Definition syscall_entry (syscall syscall_trapret : Z) : list instr :=
  [StoreFs RAX 0; LoadFs (-8) RAX; Load 0x10 RAX RAX; Add (4096 - 16) RAX; Store RSP 0 RAX; Mov (Rg RAX) RSP; LoadFs 0 RAX;
   Push (Rg R11); Push (Im 0); Push (Rg RCX); Push (Im 0); Push (Im 0)] ++
  push_regs ++ [Mov (Rg RSP) RDI; Call syscall syscall_trapret].
Definition syscall_trapret : list instr := pop_regs ++ [Add 40 RSP; Cli; Load 0 RSP RSP; Sysretq].

End Cpu.

(** The numbers of the system calls in syscall.h, and the one that a name stands for. *)
Definition syscall_numbers : list (string * Z) :=
  [("fork", 1); ("exit", 2); ("wait", 3); ("pipe", 4); ("read", 5); ("kill", 6); ("exec", 7);
   ("fstat", 8); ("chdir", 9); ("dup", 10); ("getpid", 11); ("sbrk", 12); ("sleep", 13); ("uptime", 14);
   ("open", 15); ("write", 16); ("mknod", 17); ("unlink", 18); ("link", 19); ("mkdir", 20); ("close", 21);
   ("traceread", 22); ("vidclear", 23); ("vidputc", 24); ("vidputs", 25)]%string.
Definition SYS_ (name : string) : Z := match find (fun p => String.eqb (fst p) name) syscall_numbers with Some (_, n) => n | None => 0 end.

(** The stub of a system call up to the instruction syscall, which is followed by [SYSCALL_ret] at the address [next]. *)
Definition SYSCALL (num next : Z) : list instr := [Mov (Im num) RAX; Mov (Rg RCX) R10; Syscall next].
Definition SYSCALL_ret : list instr := [Retq].

Definition usys : list (string * Z) :=
  map (fun name => (name, SYS_ name))
  ["fork"; "exit"; "wait"; "pipe"; "read"; "write"; "close"; "kill"; "exec";
   "open"; "mknod"; "unlink"; "fstat"; "link"; "mkdir"; "chdir"; "dup"; "getpid";
   "sbrk"; "sleep"; "uptime"; "traceread"; "vidclear"; "vidputc"; "vidputs"]%string.

(** initcode up to its first system call, [init] and [argv] being its labels; the loop
    behind it calls exit. *)
Definition initcode (init argv next : Z) : list instr := [Mov (Im init) RDI; Mov (Im argv) RSI; Mov (Im (SYS_ "exec")) RAX; Syscall next].
Definition initcode_exit (next : Z) : list instr := [Mov (Im (SYS_ "exit")) RAX; Syscall next].

(** ** Stacks *)

(** What pushing the values [vs] below the address [a] leaves in memory, and [n] words from [a] on. *)
Fixpoint pushed (vs : list Z) (m : mem) (a : Z) : mem :=
  match vs with [] => m | v :: vs => pushed vs (store64 m (a - 8) v) (a - 8) end.
Fixpoint words (n : nat) (m : mem) (a : Z) : list Z :=
  match n with O => [] | S n => load64 m a :: words n m (a + 8) end.
Fixpoint popped (rs : list reg) (m : mem) (a : Z) (f : reg -> Z) : reg -> Z :=
  match rs with [] => setr RSP a f | r :: rs => popped rs m (a + 8) (setr r (load64 m a) f) end.

Definition word64 (v : Z) : Prop := 0 <= v < 18446744073709551616.

Lemma store64_out m a v x : ~ (a <= x < a + 8) -> store64 m a v x = m x.
Proof. intros Hx. apply store_le_out. simpl. lia. Qed.

#[local] Opaque load64 store64.

Lemma pushed_out vs m a x : ~ (a - 8 * Z.of_nat (length vs) <= x < a) -> pushed vs m a x = m x.
Proof.
  revert m a. induction vs as [|v vs IH]; intros m a Hx; cbn [pushed length] in *; [done|].
  rewrite IH by lia. apply store64_out. lia.
Qed.

Lemma words_app n k m a : words (n + k) m a = words n m a ++ words k m (a + 8 * Z.of_nat n).
Proof.
  revert a. induction n as [|n IH]; intros a; cbn [words Nat.add app]; [f_equal; lia|]. rewrite IH. do 3 f_equal. lia.
Qed.

Lemma words_ext n m m' a : (forall x, a <= x < a + 8 * Z.of_nat n -> m x = m' x) -> words n m a = words n m' a.
Proof.
  revert a. induction n as [|n IH]; intros a H; cbn [words]; [done|]. f_equal; [|apply IH; intros; apply H; lia].
  apply load64_other. intros. apply H. lia.
Qed.

Lemma words_pushed vs m a : Forall word64 vs -> words (length vs) (pushed vs m a) (a - 8 * Z.of_nat (length vs)) = rev vs.
Proof.
  revert m a. induction vs as [|v vs IH]; intros m a Hv; [done|]. apply Forall_cons in Hv as [Hv Hvs]. cbn [length pushed rev].
  replace (S (length vs)) with (length vs + 1)%nat by lia. rewrite words_app. f_equal.
  - rewrite <- (IH (store64 m (a - 8) v) (a - 8) Hvs). f_equal. lia.
  - cbn [words]. replace (_ + 8 * Z.of_nat (length vs)) with (a - 8) by lia. f_equal.
    rewrite <- (load64_store64 m (a - 8) v Hv) at 2. apply load64_other. intros x Hx. apply pushed_out. lia.
Qed.

Section Run.
Context (sys : sysregs).

Lemma exec_app c1 c2 s : exec sys (c1 ++ c2) s = exec sys c2 (exec sys c1 s).
Proof. apply fold_left_app. Qed.

Lemma setr_setr r v w f : setr r v (setr r w f) = setr r v f.
Proof. apply functional_extensionality. intros r'. unfold setr. by case_bool_decide. Qed.

(** Operands that do not depend on the stack pointer. *)
Definition plain (o : src) : bool := match o with Rg r => negb (bool_decide (r = RSP)) | Im _ => true end.

Lemma exec_push os s : forallb plain os = true -> 8 * Z.of_nat (length os) <= x_regs s RSP < 18446744073709551616 ->
  exec sys (map Push os) s =
    set_xmem (pushed (map (value s) os) (x_mem s) (x_regs s RSP)) (set_reg RSP (x_regs s RSP - 8 * Z.of_nat (length os)) s).
Proof.
  revert s. induction os as [|o os IH]; intros s Ho Hsp; cbn [map length pushed].
  - cbn. destruct s; unfold set_xmem, set_reg; cbn. f_equal. apply functional_extensionality. intros r. unfold setr. case_bool_decide; [subst r; lia|done].
  - cbn [forallb length] in Ho, Hsp. apply andb_prop in Ho as [Ho Hos]. change (exec sys (Push o :: map Push os) s) with (exec sys (map Push os) (push (value s o) s)).
    unfold push. set (sp := u64 _). assert (sp = x_regs s RSP - 8) as Esp by (apply u64_small; lia).
    rewrite IH; [|done|change (x_regs _ RSP) with sp; lia].
    assert (map (value (set_xmem (store64 (x_mem s) sp (value s o)) (set_reg RSP sp s))) os = map (value s) os) as ->.
    { apply map_ext_in. intros o' Hin. destruct o' as [r|]; [|done]. cbn. unfold setr. case_bool_decide; [|done]. subst r.
      rewrite forallb_forall in Hos. specialize (Hos (Rg RSP) Hin). done. }
    unfold set_xmem, set_reg; cbn. rewrite setr_setr. change (setr RSP sp (x_regs s) RSP) with sp. rewrite Esp. f_equal. f_equal. lia.
Qed.

Lemma popped_ext rs m a g g' : (forall r, r <> RSP -> g r = g' r) -> popped rs m a g = popped rs m a g'.
Proof.
  revert g g' a. induction rs as [|r1 rs IH]; intros g g' a Hg; cbn [popped].
  - apply functional_extensionality. intros r. unfold setr. case_bool_decide; [done|]. apply Hg. congruence.
  - apply IH. intros r Hr. unfold setr. case_bool_decide; [done|]. by apply Hg.
Qed.

Lemma exec_pop rs s : RSP ∉ rs -> 0 <= x_regs s RSP -> x_regs s RSP + 8 * Z.of_nat (length rs) < 18446744073709551616 ->
  exec sys (map Pop rs) s = X86 (popped rs (x_mem s) (x_regs s RSP) (x_regs s)) (x_rip s) (x_rflags s) (x_cs s) (x_ss s) (x_mem s).
Proof.
  revert s. induction rs as [|r rs IH]; intros s Hr Hlo Hhi; cbn [map length popped] in *.
  - cbn. destruct s; cbn. f_equal. apply functional_extensionality. intros r. unfold setr. case_bool_decide; [by subst r|done].
  - apply not_elem_of_cons in Hr as [Hr Hrs]. change (exec sys (Pop r :: map Pop rs) s) with (exec sys (map Pop rs) (set_reg r (popv s) (drop s))).
    assert (u64 (x_regs s RSP + 8) = x_regs s RSP + 8) as Esp by (apply u64_small; lia).
    assert (x_regs (set_reg r (popv s) (drop s)) RSP = x_regs s RSP + 8) as E2.
    { cbn. unfold setr. rewrite bool_decide_false by done. by rewrite bool_decide_true. }
    rewrite IH by (rewrite ?E2; done || lia). rewrite E2. cbn. f_equal. apply popped_ext. intros r' Hr'. unfold setr at 1 3.
    case_bool_decide; [done|]. unfold setr. by rewrite bool_decide_false by congruence.
Qed.

End Run.

(** ** The context switch *)

Record context := Context_ { c_r15 : Z; c_r14 : Z; c_r13 : Z; c_r12 : Z; c_rbx : Z; c_rbp : Z; c_rip : Z }.
Definition context_of_words (l : list Z) : context :=
  Context_ (nth 0 l 0) (nth 1 l 0) (nth 2 l 0) (nth 3 l 0) (nth 4 l 0) (nth 5 l 0) (nth 6 l 0).
Definition context_of (m : mem) (a : Z) : context := context_of_words (words 7 m a).

(** The registers that a C function preserves, and where its return takes it. *)
Definition saved_regs (f : reg -> Z) (rip : Z) : context := Context_ (f R15) (f R14) (f R13) (f R12) (f RBX) (f RBP) rip.

Definition regs_ok (s : x86) : Prop := forall r, word64 (x_regs s r).

(** A call of swtch: the stack of the caller, the word that [old] points to and the saved
    context [new] do not overlap. *)
Record switching (s : x86) : Prop := Switching {
  sw_regs : regs_ok s;
  sw_bytes : bytes_ok (x_mem s);
  sw_stack : 48 <= x_regs s RSP < 18446744073709551616 - 8;
  sw_new : x_regs s RSI + 56 < 18446744073709551616;
  sw_old_stack : x_regs s RDI + 8 <= x_regs s RSP - 48 \/ x_regs s RSP + 8 <= x_regs s RDI;
  sw_old_new : x_regs s RDI + 8 <= x_regs s RSI \/ x_regs s RSI + 56 <= x_regs s RDI;
  sw_new_stack : x_regs s RSI + 56 <= x_regs s RSP - 48 \/ x_regs s RSP <= x_regs s RSI
}.

Section Swtch.
Context (sys : sysregs) (s : x86) (H : switching s).
Let sp := x_regs s RSP.
Let old := x_regs s RDI.
Let new := x_regs s RSI.
Let vs := map (x_regs s) [RBP; RBX; R12; R13; R14; R15].
Let m1 := store64 (pushed vs (x_mem s) sp) old (sp - 48).

Lemma swtch_mem_out x : ~ (sp - 48 <= x < sp) -> ~ (old <= x < old + 8) -> m1 x = x_mem s x.
Proof using. intros H1 H2. unfold m1. rewrite store64_out by lia. apply pushed_out. simpl. lia. Qed.

Lemma swtch_saved : load64 m1 old = sp - 48 /\ context_of m1 (sp - 48) = saved_regs (x_regs s) (load64 (x_mem s) sp).
Proof using H.
  destruct H as [H1 H2 H3 H4 H5 H6 H7]. split; [apply load64_store64; unfold sp; lia|].
  assert (words 6 m1 (sp - 48) = rev vs) as E6.
  { rewrite <- (words_pushed vs (x_mem s) sp) by (repeat constructor; apply H1). change (sp - 8 * Z.of_nat (length vs)) with (sp - 48).
    apply words_ext. intros x Hx. change (length vs) with 6%nat in Hx. apply store64_out. unfold sp, old in *. lia. }
  unfold context_of. change 7%nat with (6 + 1)%nat. rewrite words_app, E6. cbn -[Z.add Z.mul]. unfold saved_regs, context_of_words. cbn [nth]. f_equal.
  replace (sp - 48 + 8 * Z.of_nat 6) with sp by lia. apply load64_other. intros x Hx. apply swtch_mem_out; unfold sp, old in *; lia.
Qed.

Lemma swtch_run : let c := context_of (x_mem s) new in let s1 := exec sys swtch s in
  x_mem s1 = m1 /\ x_rip s1 = c_rip c /\ x_regs s1 RSP = new + 56 /\ saved_regs (x_regs s1) (x_rip s1) = c /\
  (forall r, r ∈ [RAX; RCX; RDX; RSI; RDI; R8; R9; R10; R11] -> x_regs s1 r = x_regs s r).
Proof using H.
  cbn zeta. change swtch with (map Push (map Rg [RBP; RBX; R12; R13; R14; R15]) ++ [Store RSP 0 RDI; Mov (Rg RSI) RSP] ++
    map Pop [R15; R14; R13; R12; RBX; RBP] ++ [Retq]).
  pose proof H as [H1 H2 H3 H4 H5 H6 H7]. rewrite exec_app, exec_push by (done || (simpl; lia)). rewrite exec_app.
  match goal with |- context [exec sys [Store _ _ _; _] ?t] => set (s0 := t) end.
  assert (exec sys [Store RSP 0 RDI; Mov (Rg RSI) RSP] s0 = set_reg RSP new (set_xmem m1 (set_reg RSP (sp - 48) s))) as ->.
  { cbn. change (x_regs s0 RDI) with old. rewrite Z.add_0_r, u64_small by apply H1. reflexivity. }
  set (s2 := set_reg RSP new _). pose proof (H1 RSI) as [Hn _]. fold new in Hn.
  assert (x_regs s2 RSP = new) as E2 by done. rewrite exec_app, exec_pop; [|set_solver|rewrite E2; done|rewrite E2; unfold new; simpl; lia].
  assert (words 7 m1 new = words 7 (x_mem s) new) as Ew.
  { apply words_ext. intros x Hx. apply swtch_mem_out; unfold sp, old, new in *; simpl in Hx; lia. }
  rewrite E2. change (x_mem s2) with m1. unfold context_of. rewrite <- Ew. cbn -[load64]. rewrite <- !Z.add_assoc. cbn [Z.add Pos.add Pos.succ Pos.add_carry].
  split_and!; try done.
  - change (u64 (new + 48 + 8) = new + 56). rewrite u64_small; unfold new in *; lia.
  - intros r Hr. repeat (apply elem_of_cons in Hr as [->|Hr]; [done|]). by apply not_elem_of_nil in Hr.
Qed.

End Swtch.

Lemma saved_regs_eq f g a b : saved_regs f a = saved_regs g b -> forall r, r ∈ [RBX; RBP; R12; R13; R14; R15] -> f r = g r.
Proof.
  intros [= E15 E14 E13 E12 Eb Ep _] r Hr. repeat (apply elem_of_cons in Hr as [->|Hr]; [done|]). by apply not_elem_of_nil in Hr.
Qed.

(** C10: swtch(old, new) saves the calling thread as a struct context on its stack, with the return
    address of the call as its rip, stores the address of that context in [*old], and goes
    on as the thread whose context is at [new]; of memory only these 56 bytes change.  And
    whenever another thread later switches to the saved context, with its 56 bytes as they
    were left, the first thread is back behind its call of swtch with all the registers
    that the caller relies on, and its stack. *)
Theorem swtch_roundtrip sys s :
  switching s -> let sp := x_regs s RSP in let s1 := exec sys swtch s in
  load64 (x_mem s1) (x_regs s RDI) = sp - 48 /\
  context_of (x_mem s1) (sp - 48) = saved_regs (x_regs s) (load64 (x_mem s) sp) /\
  saved_regs (x_regs s1) (x_rip s1) = context_of (x_mem s) (x_regs s RSI) /\ x_regs s1 RSP = x_regs s RSI + 56 /\
  (forall x, ~ (sp - 48 <= x < sp) -> ~ (x_regs s RDI <= x < x_regs s RDI + 8) -> x_mem s1 x = x_mem s x) /\
  (forall s2, switching s2 -> x_regs s2 RSI = sp - 48 -> (forall x, sp - 48 <= x < sp + 8 -> x_mem s2 x = x_mem s1 x) ->
     let s3 := exec sys swtch s2 in
     x_rip s3 = load64 (x_mem s) sp /\ x_regs s3 RSP = sp + 8 /\
     (forall r, r ∈ [RBX; RBP; R12; R13; R14; R15] -> x_regs s3 r = x_regs s r)).
Proof.
  intros H. cbn zeta. destruct (swtch_run sys s H) as (E1 & E2 & E3 & E4 & _). destruct (swtch_saved s H) as [F1 F2]. rewrite E1.
  split_and!; try done.
  - intros x. apply swtch_mem_out.
  - intros s2 H2 Er Em. destruct (swtch_run sys s2 H2) as (_ & G2 & G3 & G4 & _). rewrite Er in G2, G3, G4.
    assert (context_of (x_mem s2) (x_regs s RSP - 48) = saved_regs (x_regs s) (load64 (x_mem s) (x_regs s RSP))) as Ec.
    { rewrite <- F2. unfold context_of. f_equal. apply words_ext. intros x Hx. apply Em. lia. }
    rewrite Ec in G2, G4. split_and!; [exact G2|lia|]. exact (saved_regs_eq _ _ _ _ G4).
Qed.

(** ** Trap frames *)

Definition frame_of_words (l : list Z) : trapframe :=
  Trapframe (nth 0 l 0) (nth 1 l 0) (nth 2 l 0) (nth 3 l 0) (nth 4 l 0) (nth 5 l 0) (nth 6 l 0) (nth 7 l 0) (nth 8 l 0) (nth 9 l 0)
    (nth 10 l 0) (nth 11 l 0) (nth 12 l 0) (nth 13 l 0) (nth 14 l 0) (nth 15 l 0) (nth 16 l 0) (nth 17 l 0) (nth 18 l 0) (nth 19 l 0)
    (nth 20 l 0) (nth 21 l 0).
Definition frame_of (m : mem) (a : Z) : trapframe := frame_of_words (words 22 m a).

(** The registers of a frame. *)
Definition frame_regs (tf : trapframe) (r : reg) : Z :=
  match r with
  | RAX => tf_rax tf | RBX => tf_rbx tf | RCX => tf_rcx tf | RDX => tf_rdx tf | RBP => tf_rbp tf | RSI => tf_rsi tf | RDI => tf_rdi tf
  | R8 => tf_r8 tf | R9 => tf_r9 tf | R10 => tf_r10 tf | R11 => tf_r11 tf | R12 => tf_r12 tf | R13 => tf_r13 tf | R14 => tf_r14 tf
  | R15 => tf_r15 tf | RSP => tf_rsp tf
  end.
Definition make_frame (f : reg -> Z) (trapno err rip cs rflags rsp ss : Z) : trapframe :=
  Trapframe (f RAX) (f RBX) (f RCX) (f RDX) (f RBP) (f RSI) (f RDI) (f R8) (f R9) (f R10) (f R11) (f R12) (f R13) (f R14) (f R15)
    trapno err rip cs rflags rsp ss.

Section Frames.
Context (sys : sysregs).

Lemma pop_regs_run s : let a := x_regs s RSP in 0 <= a -> a + 176 <= 18446744073709551616 ->
  exec sys pop_regs s = X86 (setr RSP (a + 120) (frame_regs (frame_of (x_mem s) a))) (x_rip s) (x_rflags s) (x_cs s) (x_ss s) (x_mem s).
Proof.
  intros a H0 H1. unfold pop_regs. rewrite exec_pop; [|set_solver|done|simpl; fold a; lia]. fold a. f_equal.
  apply functional_extensionality. intros r. unfold frame_of. cbn [popped words]. rewrite <- !Z.add_assoc. cbn [Z.add Pos.add Pos.succ Pos.add_carry].
  by destruct r.
Qed.

(** trapret loads the registers and goes to where the frame says. *)
Lemma trapret_run s : let a := x_regs s RSP in let tf := frame_of (x_mem s) a in 0 <= a -> a + 176 <= 18446744073709551616 ->
  exec sys trapret s = X86 (frame_regs tf) (tf_rip tf) (tf_rflags tf) (tf_cs tf) (tf_ss tf) (x_mem s).
Proof.
  intros a tf H0 H1. unfold trapret. rewrite exec_app, pop_regs_run by done. fold a. fold tf. cbn -[load64 frame_of].
  change (setr RSP (a + 120) (frame_regs tf) RSP) with (a + 120). rewrite (u64_small (a + 120 + 16)) by lia.
  change (setr RSP (a + 120 + 16) _ RSP) with (a + 120 + 16).
  rewrite !u64_small by lia. unfold set_reg, set_segs, set_rflags, set_rip. cbn [x_regs x_rip x_rflags x_cs x_ss x_mem].
  unfold tf, frame_of. cbn [words]. rewrite <- !Z.add_assoc. cbn [Z.add Pos.add Pos.succ Pos.add_carry Z.mul Pos.mul]. f_equal; try done.
  apply functional_extensionality. by intros [].
Qed.

Lemma syscall_trapret_run s : let a := x_regs s RSP in let tf := frame_of (x_mem s) a in 0 <= a -> a + 176 <= 18446744073709551616 ->
  exec sys syscall_trapret s = X86 (frame_regs tf) (tf_rcx tf) (Z.lor (Z.land (tf_r11 tf) 0x3C7FD7) 2)
    (Z.lor (u16 (Z.shiftr (msr_star sys) 48 + 16)) 3) (Z.lor (u16 (Z.shiftr (msr_star sys) 48 + 8)) 3) (x_mem s).
Proof.
  intros a tf H0 H1. unfold syscall_trapret. rewrite exec_app, pop_regs_run by done. fold a. fold tf. cbn -[load64 frame_of].
  change (setr RSP (a + 120) (frame_regs tf) RSP) with (a + 120). rewrite (u64_small (a + 120 + 40)) by lia.
  change (setr RSP (a + 120 + 40) _ RSP) with (a + 120 + 40).
  rewrite !u64_small by lia. unfold set_reg, set_segs, set_rflags, set_rip. cbn [x_regs x_rip x_rflags x_cs x_ss x_mem]. f_equal.
  unfold tf, frame_of. cbn [words]. rewrite <- !Z.add_assoc. cbn [Z.add Pos.add Pos.succ Pos.add_carry Z.mul Pos.mul].
  apply functional_extensionality. by intros [].
Qed.

End Frames.

Lemma pushed_app vs ws m a : pushed (vs ++ ws) m a = pushed ws (pushed vs m a) (a - 8 * Z.of_nat (length vs)).
Proof.
  revert m a. induction vs as [|v vs IH]; intros m a; cbn [pushed app length]; [f_equal; lia|]. rewrite IH. f_equal. lia.
Qed.

Lemma setr_same f : setr RSP (f RSP) f = f.
Proof. apply functional_extensionality. intros r. unfold setr. case_bool_decide; [by subst r|done]. Qed.

Lemma pushes_run vs s : 8 * Z.of_nat (length vs) <= x_regs s RSP < 18446744073709551616 ->
  fold_left (fun s v => push v s) vs s =
    set_xmem (pushed vs (x_mem s) (x_regs s RSP)) (set_reg RSP (x_regs s RSP - 8 * Z.of_nat (length vs)) s).
Proof.
  revert s. induction vs as [|v vs IH]; intros s Hsp; cbn [length pushed fold_left] in *.
  - destruct s; unfold set_xmem, set_reg; cbn. rewrite Z.sub_0_r, setr_same. done.
  - unfold push at 2. set (sp := u64 _). assert (sp = x_regs s RSP - 8) as Esp by (apply u64_small; lia).
    rewrite IH by (change (x_regs _ RSP) with sp; lia). unfold set_xmem, set_reg; cbn. rewrite setr_setr.
    change (setr RSP sp (x_regs s) RSP) with sp. rewrite Esp. f_equal. f_equal. lia.
Qed.

Lemma has_error_spec n : has_error n = ((n =? 8) || (n >=? 10) && (n <=? 14) || (n =? 17)).
Proof. unfold has_error. cbn [existsb]. lia. Qed.

(** The words that an interrupt leaves on the stack, from the top. *)
Definition intr_words (n err : Z) (s : x86) : list Z :=
  [x_ss s; x_regs s RSP; x_rflags s; x_cs s; x_rip s; (if has_error n then err else 0); n] ++
  map (x_regs s) [R15; R14; R13; R12; R11; R10; R9; R8; RDI; RSI; RBP; RDX; RCX; RBX; RAX].

Section Traps.
Context (sys : sysregs) (n err trap ret : Z) (s : x86).
Context (Hn : 0 <= n < 256) (Htop : 184 <= intr_top sys s < 18446744073709551616).
Let top := intr_top sys s.

Lemma trap_pushes : exec sys (vector n ++ push_regs) (interrupt sys n err s) =
  X86 (setr RSP (top - 176) (x_regs s)) (x_rip s) (Z.ldiff (x_rflags s) (Z.lor (Z.lor FL_IF FL_TF) (Z.lor FL_NT FL_RF)))
    KERNEL_CS (if from_user s then 0 else x_ss s) (pushed (intr_words n err s) (x_mem s) top).
Proof using Hn Htop.
  set (ws := [x_ss s; x_regs s RSP; x_rflags s; x_cs s; x_rip s] ++ (if has_error n then [err] else [])).
  set (os := (if has_error n then [] else [Im 0]) ++ [Im n] ++ map Rg [R15; R14; R13; R12; R11; R10; R9; R8; RDI; RSI; RBP; RDX; RCX; RBX; RAX]).
  assert (vector n ++ push_regs = map Push os) as -> by (unfold vector, push_regs, os; rewrite <- has_error_spec; by destruct (has_error n)).
  assert (Z.of_nat (length ws) + Z.of_nat (length os) = 22) as El by (unfold ws, os; by destruct (has_error n)).
  assert (interrupt sys n err s = set_segs KERNEL_CS (if from_user s then 0 else x_ss s) (set_rflags (Z.ldiff (x_rflags s) (Z.lor (Z.lor FL_IF FL_TF) (Z.lor FL_NT FL_RF)))
    (fold_left (fun s v => push v s) ws (set_reg RSP top s)))) as -> by (unfold interrupt, ws; by destruct (has_error n)).
  rewrite pushes_run by (change (x_regs _ RSP) with top; unfold top; lia). change (x_regs (set_reg RSP top s) RSP) with top.
  set (s1 := set_segs _ _ _). assert (x_regs s1 = setr RSP (top - 8 * Z.of_nat (length ws)) (x_regs s)) as Er by (unfold s1; cbn; apply setr_setr).
  assert (x_regs s1 RSP = top - 8 * Z.of_nat (length ws)) as Esp by (by rewrite Er).
  rewrite exec_push; [|unfold os; by destruct (has_error n)|rewrite Esp; unfold top; lia].
  assert (map (value s1) os = (if has_error n then [] else [0]) ++ [n] ++ map (x_regs s) [R15; R14; R13; R12; R11; R10; R9; R8; RDI; RSI; RBP; RDX; RCX; RBX; RAX]) as ->.
  { unfold os. rewrite !map_app. f_equal; [by destruct (has_error n)|]. cbn [map value app]. rewrite u64_small by lia. by rewrite Er. }
  rewrite Esp. unfold set_xmem, set_reg. change (x_mem s1) with (pushed ws (x_mem s) top). rewrite <- pushed_app, Er, setr_setr. cbn [x_rip x_rflags x_cs x_ss s1 set_segs set_rflags].
  replace (top - 8 * Z.of_nat (length ws) - 8 * Z.of_nat (length os)) with (top - 176) by lia. f_equal. f_equal. unfold ws, intr_words. by destruct (has_error n).
Qed.

Lemma trap_entry : let s1 := exec sys (vector n ++ alltraps trap ret) (interrupt sys n err s) in
  x_mem s1 = store64 (pushed (intr_words n err s) (x_mem s) top) (top - 184) ret /\
  x_regs s1 = setr RSP (top - 184) (setr RDI (top - 176) (x_regs s)) /\ x_rip s1 = trap.
Proof using Hn Htop.
  cbn zeta. unfold alltraps. rewrite app_assoc, exec_app, trap_pushes. cbn -[intr_words store64 pushed].
  change (setr RSP (top - 176) (x_regs s) RSP) with (top - 176). change (setr RDI (top - 176) (setr RSP (top - 176) (x_regs s)) RSP) with (top - 176).
  rewrite u64_small by (unfold top; lia). replace (top - 176 - 8) with (top - 184) by lia. split_and!; [done| |done].
  apply functional_extensionality. by intros [].
Qed.

Lemma trap_frame (Hr : regs_ok s) (Hv : word64 (x_ss s) /\ word64 (x_rflags s) /\ word64 (x_cs s) /\ word64 (x_rip s) /\ word64 err) :
  frame_of (store64 (pushed (intr_words n err s) (x_mem s) top) (top - 184) ret) (top - 176) =
    make_frame (x_regs s) n (if has_error n then err else 0) (x_rip s) (x_cs s) (x_rflags s) (x_regs s RSP) (x_ss s).
Proof using Hn Htop.
  unfold frame_of. assert (words 22 (store64 (pushed (intr_words n err s) (x_mem s) top) (top - 184) ret) (top - 176) = rev (intr_words n err s)) as ->; [|done].
  rewrite <- (words_pushed (intr_words n err s) (x_mem s) top).
  - change (length (intr_words n err s)) with 22%nat. apply words_ext. intros x Hx. apply store64_out. lia.
  - destruct Hv as (V1 & V2 & V3 & V4 & V5). repeat constructor; try apply Hr; try done; try lia. all: destruct (has_error n); unfold word64 in *; lia.
Qed.

End Traps.

(** C9: An interrupt or exception [n] reaches the C function trap with the complete state of the
    interrupted program: its argument points to a struct trapframe on the kernel stack
    (the one in the task state segment, when the program was in user mode) that holds all sixteen registers,
    the flags, the instruction pointer and the selectors, the number [n], and the error
    code of the exceptions that have one; of memory only the 184 bytes below the top of that stack are
    written.  When trap returns, trapret continues the program that the frame then
    describes: with an unchanged frame, exactly where and as it was interrupted. *)
Theorem trap_roundtrip sys n err trap ret s :
  0 <= n < 256 -> regs_ok s -> word64 (x_ss s) /\ word64 (x_rflags s) /\ word64 (x_cs s) /\ word64 (x_rip s) /\ word64 err -> word64 ret ->
  let top := intr_top sys s in 184 <= top < 18446744073709551616 ->
  let s1 := exec sys (vector n ++ alltraps trap ret) (interrupt sys n err s) in
  let tf := make_frame (x_regs s) n (if has_error n then err else 0) (x_rip s) (x_cs s) (x_rflags s) (x_regs s RSP) (x_ss s) in
  x_rip s1 = trap /\ x_regs s1 RDI = top - 176 /\ x_regs s1 RSP = top - 184 /\ load64 (x_mem s1) (top - 184) = ret /\
  frame_of (x_mem s1) (top - 176) = tf /\ (forall x, ~ (top - 184 <= x < top) -> x_mem s1 x = x_mem s x) /\
  forall s2, x_regs s2 RSP = top - 176 -> let tf2 := frame_of (x_mem s2) (top - 176) in let s3 := exec sys trapret s2 in
    s3 = X86 (frame_regs tf2) (tf_rip tf2) (tf_rflags tf2) (tf_cs tf2) (tf_ss tf2) (x_mem s2) /\
    (tf2 = tf -> s3 = set_xmem (x_mem s2) s).
Proof.
  intros Hn Hr Hv Hret top Htop. cbn zeta. destruct (trap_entry sys n err trap ret s Hn Htop) as (E1 & E2 & E3). fold top in E1, E2. rewrite E1, E2, E3.
  split_and!; try done.
  - by apply load64_store64.
  - by apply trap_frame.
  - intros x Hx. rewrite store64_out by lia. apply pushed_out. change (length (intr_words n err s)) with 22%nat. lia.
  - intros s2 Es. pose proof (trapret_run sys s2) as Et. cbn zeta in Et. rewrite Es in Et. specialize (Et ltac:(lia) ltac:(lia)).
    split; [exact Et|]. intros Ef. rewrite Et, Ef. unfold make_frame, set_xmem. cbn. f_equal. apply functional_extensionality. by intros [].
Qed.

(** ** System calls *)

Lemma setr_eq r v f : setr r v f r = v.
Proof. unfold setr. by rewrite bool_decide_true. Qed.
Lemma setr_ne r r' v f : r <> r' -> setr r v f r' = f r'.
Proof. intros Hne. unfold setr. by rewrite bool_decide_false. Qed.

(** The CPU-local words and the kernel stack of the running process, as seginit, switchuvm
    and allocproc leave them: the variable proc at fs:(-8), its field kstack, and a stack that
    overlaps neither the local words nor the struct proc. *)
Record kernel_ready (sys : sysregs) (kstack : Z) (s : x86) : Prop := Kernel_ready {
  kr_fs : 8 <= fs_base sys < 18446744073709551616 - 8;
  kr_proc : let p := load64 (x_mem s) (fs_base sys - 8) in
    0 <= p /\ p + 24 <= 18446744073709551616 /\ load64 (x_mem s) (p + 16) = kstack /\
    (p + 24 <= fs_base sys \/ fs_base sys + 8 <= p + 16);
  kr_stack : 0 <= kstack /\ kstack + 4096 <= 18446744073709551616 /\ (kstack + 4096 <= fs_base sys \/ fs_base sys + 8 <= kstack)
}.

(** The words below the saved stack pointer of the user, from the top. *)
Definition call_words (s : x86) : list Z :=
  [x_regs s R11; 0; x_regs s RCX; 0; 0] ++ map (x_regs s) [R15; R14; R13; R12; R11; R10; R9; R8; RDI; RSI; RBP; RDX; RCX; RBX; RAX].

Section Calls.
Context (sys : sysregs) (kstack sc ret : Z) (s : x86) (H : kernel_ready sys kstack s) (Hr : regs_ok s).
Let top := kstack + 4096.
Let m0 := store64 (store64 (x_mem s) (fs_base sys) (x_regs s RAX)) (top - 16) (x_regs s RSP).

Lemma call_stack : exec sys [StoreFs RAX 0; LoadFs (-8) RAX; Load 0x10 RAX RAX; Add (4096 - 16) RAX; Store RSP 0 RAX; Mov (Rg RAX) RSP; LoadFs 0 RAX] s =
  set_xmem m0 (set_reg RSP (top - 16) s).
Proof using H Hr.
  destruct H as [K1 K2 K3]. cbn zeta in K2. set (p := load64 (x_mem s) (fs_base sys - 8)) in *. destruct K2 as (P1 & P2 & P3 & P4), K3 as (S1 & S2 & S3).
  cbn -[Z.add Z.sub]. rewrite !Z.add_0_r, !(u64_small (fs_base sys)), !(u64_small (fs_base sys + -8)) by lia.
  set (m1 := store64 (x_mem s) (fs_base sys) (x_regs s RAX)).
  rewrite !setr_eq.
  assert (load64 m1 (fs_base sys + -8) = p) as -> by (unfold p; replace (fs_base sys - 8) with (fs_base sys + -8) by lia; apply load64_other; intros x Hx; apply store64_out; lia).
  rewrite (u64_small (p + 16)) by lia.
  assert (load64 m1 (p + 16) = kstack) as -> by (rewrite <- P3; apply load64_other; intros x Hx; apply store64_out; lia).
  replace (u64 (kstack + (4096 - 16))) with (top - 16) by (rewrite u64_small; unfold top; lia). rewrite (u64_small (top - 16)) by (unfold top; lia).
  rewrite !(setr_ne RAX RSP) by done. unfold set_xmem, set_reg. cbn [x_regs x_rip x_rflags x_cs x_ss x_mem]. f_equal.
  assert (load64 (store64 m1 (top - 16) (x_regs s RSP)) (fs_base sys) = x_regs s RAX) as E.
  { rewrite <- (load64_store64 (x_mem s) (fs_base sys) (x_regs s RAX)) by apply Hr. apply load64_other. intros x Hx. apply store64_out. unfold top. lia. }
  apply functional_extensionality. intros r. unfold setr. repeat case_bool_decide; subst; done.
Qed.

End Calls.

Section Call_entry.
Context (sys : sysregs) (kstack sc ret : Z) (s : x86) (H : kernel_ready sys kstack s) (Hr : regs_ok s).
Let top := kstack + 4096.
Let m0 := store64 (store64 (x_mem s) (fs_base sys) (x_regs s RAX)) (top - 16) (x_regs s RSP).

Lemma call_entry : let s1 := exec sys (syscall_entry sc ret) s in
  x_mem s1 = store64 (pushed (call_words s) m0 (top - 16)) (top - 184) ret /\
  x_regs s1 = setr RSP (top - 184) (setr RDI (top - 176) (x_regs s)) /\ x_rip s1 = sc.
Proof using H Hr.
  cbn zeta. pose proof (kr_stack _ _ _ H) as (S1 & S2 & _).
  set (os := [Rg R11; Im 0; Rg RCX; Im 0; Im 0] ++ map Rg [R15; R14; R13; R12; R11; R10; R9; R8; RDI; RSI; RBP; RDX; RCX; RBX; RAX]).
  change (syscall_entry sc ret) with ([StoreFs RAX 0; LoadFs (-8) RAX; Load 0x10 RAX RAX; Add (4096 - 16) RAX; Store RSP 0 RAX; Mov (Rg RAX) RSP; LoadFs 0 RAX] ++
    map Push os ++ [Mov (Rg RSP) RDI; Call sc ret]).
  rewrite exec_app, (call_stack sys kstack s H Hr), exec_app. fold top m0. set (s1 := set_xmem m0 _). assert (x_regs s1 RSP = top - 16) as Esp by done.
  rewrite exec_push; [|done|rewrite Esp; change (length os) with 20%nat; unfold top; lia]. rewrite Esp. change (map (value s1) os) with (call_words s).
  change (length os) with 20%nat. change (x_mem s1) with m0. replace (top - 16 - 8 * Z.of_nat 20) with (top - 176) by lia.
  cbn -[call_words pushed Z.sub]. rewrite setr_setr, !setr_eq, !(setr_ne RDI RSP), setr_eq by done. rewrite u64_small by (unfold top; lia).
  replace (top - 176 - 8) with (top - 184) by lia. split_and!; [done| |done]. apply functional_extensionality. by intros [].
Qed.

Lemma call_frame : frame_of (store64 (pushed (call_words s) m0 (top - 16)) (top - 184) ret) (top - 176) =
  make_frame (x_regs s) 0 0 (x_regs s RCX) 0 (x_regs s R11) (x_regs s RSP) (load64 (x_mem s) (top - 8)).
Proof using H Hr.
  pose proof (kr_stack _ _ _ H) as (S1 & S2 & S3). set (m1 := store64 _ (top - 184) ret).
  assert (words 22 m1 (top - 176) = rev (call_words s) ++ [x_regs s RSP; load64 (x_mem s) (top - 8)]) as Ew; [|unfold frame_of; by rewrite Ew].
  change 22%nat with (20 + 2)%nat. rewrite words_app. f_equal.
  - rewrite <- (words_pushed (call_words s) m0 (top - 16)) by (repeat constructor; try apply Hr; done || lia).
    change (length (call_words s)) with 20%nat. replace (top - 16 - 8 * Z.of_nat 20) with (top - 176) by lia.
    apply words_ext. intros x Hx. apply store64_out. lia.
  - replace (top - 176 + 8 * Z.of_nat 20) with (top - 16) by lia. cbn [words]. replace (top - 16 + 8) with (top - 8) by lia.
    assert (forall x, top - 16 <= x < top -> m1 x = m0 x) as Em.
    { intros x Hx. unfold m1. rewrite store64_out by lia. apply pushed_out. lia. }
    f_equal; [|f_equal].
    + rewrite <- (load64_store64 (store64 (x_mem s) (fs_base sys) (x_regs s RAX)) (top - 16) (x_regs s RSP)) by apply Hr. apply load64_other. intros x Hx. apply Em. lia.
    + apply load64_other. intros x Hx. rewrite Em by lia. unfold m0. rewrite !store64_out; [done| |lia]. unfold top in *. lia.
Qed.

Lemma call_mem_out x : ~ (top - 184 <= x < top) -> ~ (fs_base sys <= x < fs_base sys + 8) ->
  store64 (pushed (call_words s) m0 (top - 16)) (top - 184) ret x = x_mem s x.
Proof using.
  intros H1 H2. rewrite store64_out by lia. rewrite pushed_out by (change (length (call_words s)) with 20%nat; lia). unfold m0. by rewrite !store64_out by lia.
Qed.

End Call_entry.

Lemma stub_run sys num next s : word64 num ->
  exec sys (SYSCALL num next) s = X86 (setr R11 (x_rflags s) (setr RCX next (setr R10 (x_regs s RCX) (setr RAX num (x_regs s)))))
    (msr_lstar sys) (Z.ldiff (x_rflags s) (msr_sfmask sys))
    (Z.land (Z.shiftr (msr_star sys) 32) 0xFFFC) (u16 (Z.shiftr (msr_star sys) 32 + 8)) (x_mem s).
Proof. intros Hn. cbn. by rewrite (u64_small num) by done. Qed.

(** The arguments of a C function. *)
Definition arg_regs : list reg := [RDI; RSI; RDX; RCX; R8; R9].

(** C8: A user program that calls the stub of a system call in usys.S gets into the kernel and
    back as the kernel and the compiler assume: the kernel runs syscall on the kernel stack of the process, with a frame
    whose rax is the number of the call, whose handler in the table of syscall.c has the name of the stub, and
    fetcharg finds the six arguments that the program passed in registers; of memory only the
    top of the kernel stack and one CPU-local word are written.  When syscall returns with
    its result [v] in the frame, the program continues behind the call with [v] in rax, its stack
    popped, its flags, and every register except those that the instruction syscall takes, and
    at the privilege of the selectors in the register STAR. *)
Theorem system_call_roundtrip `{LK : Linker} `{DR : BlockDriver} `{DV : DevSw} `{SY : Symbols} fuel sys kstack sc ret name num next s :
  (name, num) ∈ usys -> kernel_ready sys kstack s -> regs_ok s -> word64 next -> word64 (x_rflags s) -> word64 ret ->
  let top := kstack + 4096 in
  let s1 := exec sys (syscall_entry sc ret) (exec sys (SYSCALL num next) s) in
  let tf := frame_of (x_mem s1) (top - 176) in
  x_rip (exec sys (SYSCALL num next) s) = msr_lstar sys /\ x_rip s1 = sc /\ x_regs s1 RDI = top - 176 /\ x_regs s1 RSP = top - 184 /\ load64 (x_mem s1) (top - 184) = ret /\
  tf_rax tf = num /\ (exists h, syscalls fuel !! Z.to_nat (num - 1) = Some (name, h)) /\
  (forall i ks k r, cpu_proc (k_cpu ks) = Some i -> p_tf (proc_at i ks) = tf -> arg_regs !! k = Some r -> fetcharg k ks = Ret (x_regs s r) ks) /\
  (forall x, ~ (top - 184 <= x < top) -> ~ (fs_base sys <= x < fs_base sys + 8) -> x_mem s1 x = x_mem s x) /\
  forall v s2, x_regs s2 RSP = top - 176 -> frame_of (x_mem s2) (top - 176) = set_tf_rax v tf ->
    Z.lor (Z.land (x_rflags s) 0x3C7FD7) 2 = x_rflags s -> x_regs s RSP + 8 < 18446744073709551616 ->
    let s3 := exec sys SYSCALL_ret (exec sys syscall_trapret s2) in
    x_rip (exec sys syscall_trapret s2) = next /\
    x_rip s3 = load64 (x_mem s2) (x_regs s RSP) /\ x_regs s3 RSP = x_regs s RSP + 8 /\ x_regs s3 RAX = v /\ x_rflags s3 = x_rflags s /\
    (forall r, r ∉ [RAX; RCX; R10; R11; RSP] -> x_regs s3 r = x_regs s r) /\
    x_cs s3 = Z.lor (u16 (Z.shiftr (msr_star sys) 48 + 16)) 3 /\ x_ss s3 = Z.lor (u16 (Z.shiftr (msr_star sys) 48 + 8)) 3.
Proof.
  intros Hu Hk Hr Hnx Hfl Hret top.
  assert (word64 num /\ exists h, syscalls fuel !! Z.to_nat (num - 1) = Some (name, h)) as [Hn Hh].
  { unfold usys in Hu. cbn in Hu. repeat (apply elem_of_cons in Hu as [[= -> ->]|Hu]; [split; [done|by eexists]|]). by apply not_elem_of_nil in Hu. }
  cbn zeta. rewrite (stub_run sys num next s Hn). set (s0 := X86 _ _ _ _ _ _).
  assert (kernel_ready sys kstack s0) as Hk0 by (by destruct Hk; split).
  assert (regs_ok s0) as Hr0 by (intros []; try apply Hr; done). pose proof (kr_stack _ _ _ Hk) as (S1 & S2 & _).
  destruct (call_entry sys kstack sc ret s0 Hk0 Hr0) as (E1 & E2 & E3). fold top in E1, E2. rewrite E1, E2, E3.
  pose proof (call_frame sys kstack ret s0 Hk0 Hr0) as Ef0. fold top in Ef0. rewrite Ef0. split_and!; try done.
  - by apply load64_store64.
  - intros i ks k r Hp Ht Ha. unfold fetcharg. rewrite (bind_myproc i) by done. unfold bind, gets. rewrite Ht.
    do 6 (destruct k as [|k]; [by injection Ha as <-|]). done.
  - intros x. exact (call_mem_out sys kstack ret s0 x).
  - intros v s2 Es Ef Hf Hsp. pose proof (syscall_trapret_run sys s2) as Et. cbn zeta in Et. rewrite Es in Et. specialize (Et ltac:(unfold top; lia) ltac:(unfold top; lia)).
    rewrite Ef in Et. rewrite Et. set (t := X86 _ _ _ _ _ _). pose proof (Hr RSP) as [Hsp0 _].
    assert (exec sys SYSCALL_ret t = set_rip (load64 (x_mem s2) (x_regs s RSP)) (set_reg RSP (x_regs s RSP + 8) t)) as ->.
    { rewrite <- (u64_small (x_regs s RSP + 8)) by lia. done. }
    split_and!; try done. clear - t. intros r Hne. rewrite !not_elem_of_cons in Hne. destruct Hne as (N1 & N2 & N3 & N4 & N5 & _). destruct r; first [reflexivity|congruence].
Qed.


(** ** The first program *)

(** initcode asks for exec(init, argv), and its loop for exit. *)
Lemma initcode_calls sys kstack sc ret init argv next s (H : kernel_ready sys kstack s) (Hr : regs_ok s) :
  word64 init -> word64 argv -> word64 next -> word64 (x_rflags s) ->
  let frame c := frame_of (x_mem (exec sys (syscall_entry sc ret) (exec sys c s))) (kstack + 4096 - 176) in
  let tf := frame (initcode init argv next) in
  tf_rax tf = SYS_ "exec" /\ tf_rdi tf = init /\ tf_rsi tf = argv /\ tf_rcx tf = next /\ tf_rax (frame (initcode_exit next)) = SYS_ "exit".
Proof.
  intros Hi Ha Hn Hf. cbv beta zeta.
  set (s1 := exec sys (initcode init argv next) s). set (s2 := exec sys (initcode_exit next) s).
  assert (forall t, x_mem t = x_mem s -> kernel_ready sys kstack t) as Hk by (intros t Em; destruct H; split; by rewrite ?Em).
  assert (regs_ok s1) as R1 by (intros []; try apply Hr; try done; cbn; unfold setr; cbn; rewrite ?u64_small by done; try done; word_lia).
  assert (regs_ok s2) as R2 by (intros []; try apply Hr; done).
  destruct (call_entry sys kstack sc ret s1 (Hk s1 eq_refl) R1) as (-> & _). destruct (call_entry sys kstack sc ret s2 (Hk s2 eq_refl) R2) as (-> & _).
  rewrite (call_frame sys kstack ret s1 (Hk s1 eq_refl) R1), (call_frame sys kstack ret s2 (Hk s2 eq_refl) R2).
  split_and!; try done; [exact (u64_small init Hi)|exact (u64_small argv Ha)].
Qed.

(** *** Witnesses *)

Definition asm_regs (r : reg) : Z :=
  match r with RSP => 0x9000 | RDI => 0x5000 | RSI => new_context 0x10000 | RAX => 11 | RBX => 12 | RBP => 13 | R12 => 14 | R13 => 15 | R14 => 16 | R15 => 17 | _ => 7 end.
Definition asm_state (m : mem) : x86 := X86 asm_regs 0x4000 0x202 0x23 0x1b m.
(** fs:(-8) points to a struct proc at 0x3000 whose kernel stack is at 0x10000; the task state
    segment is at 0x6000. *)
Definition asm_sys : sysregs := Sysregs 0x2800 0x6000 0x0013000800000000 0x1000 0x47700.
Definition asm_mem : mem := store64 (store64 (store64 (fun _ => 0) 0x27f8 0x3000) 0x3010 0x10000) 0x6004 0x11000.

Lemma asm_regs_ok m : regs_ok (asm_state m).
Proof. by intros []. Qed.

Lemma asm_bytes : bytes_ok (stack_mem 0x1111 0x2222 0x10000 (fun _ => 0)).
Proof. apply stack_mem_bytes. intros x. lia. Qed.

Lemma asm_switching : switching (asm_state (stack_mem 0x1111 0x2222 0x10000 (fun _ => 0))).
Proof. split; [apply asm_regs_ok|apply asm_bytes|..]; vm_compute; intuition congruence. Qed.

Lemma swtch_roundtrip_witness : let s := asm_state (stack_mem 0x1111 0x2222 0x10000 (fun _ => 0)) in
  load64 (x_mem (exec asm_sys swtch s)) 0x5000 = 0x9000 - 48.
Proof. exact (proj1 (swtch_roundtrip asm_sys _ asm_switching)). Defined.


Lemma trap_roundtrip_witness : frame_of (x_mem (exec asm_sys (vector 14 ++ alltraps 0x1234 0x5678) (interrupt asm_sys 14 6 (asm_state asm_mem)))) (0x11000 - 176) =
  make_frame asm_regs 14 6 0x4000 0x23 0x202 0x9000 0x1b.
Proof.
  refine (proj1 (proj2 (proj2 (proj2 (proj2 (trap_roundtrip asm_sys 14 6 0x1234 0x5678 (asm_state asm_mem) _ (asm_regs_ok _) _ _ _)))))); vm_compute; intuition congruence.
Defined.

Lemma asm_kernel_ready : kernel_ready asm_sys 0x10000 (asm_state asm_mem).
Proof. split; vm_compute; intuition congruence. Qed.

Lemma system_call_roundtrip_witness :
  tf_rax (frame_of (x_mem (exec asm_sys (syscall_entry 0x1234 0x5678) (exec asm_sys (SYSCALL 16 0x4444) (asm_state asm_mem)))) (0x11000 - 176)) = 16.
Proof.
  refine (proj1 (proj2 (proj2 (proj2 (proj2 (proj2 (@system_call_roundtrip witness_linker (memide_driver 1000) witness_devices witness_symbols 10 asm_sys 0x10000 0x1234 0x5678 "write" 16 0x4444 (asm_state asm_mem)
    _ asm_kernel_ready (asm_regs_ok _) _ _ _))))))); [|vm_compute; intuition congruence..].
  unfold usys. cbn. set_solver.
Defined.
