(* ===== verification/Trap.v ===== *)
(** * Trap: trap.c, interrupts and exceptions

    The frame of a trap is an argument; what the devices deliver to their interrupt
    handlers is in [irq_input].  The acknowledgement to the local APIC has no effect on
    the state of the kernel. *)

From S2P Require Import Prelude Machine Spinlock Cstring Ktrace Layout Kalloc Vm.
From S2P Require Import Sched Sleeplock Pipe Bio Log Fs Console File Proc.
#[local] Open Scope prog_scope.

Definition T_ILLOP : Z := 6.
Definition T_PGFLT : Z := 14.
Definition T_IRQ0 : Z := 32.
Definition IRQ_TIMER : Z := 0.
Definition IRQ_KBD : Z := 1.
Definition IRQ_COM1 : Z := 4.
Definition IRQ_IDE : Z := 14.
Definition IRQ_SPURIOUS : Z := 31.
Definition DPL_USER : Z := 3.
Definition KERNEL_CS : Z := 8.

(** The four words of an interrupt gate. *)
Definition mkgate (kva pl : Z) : list Z :=
  [Z.lor (Z.land kva 65535) (Z.shiftl KERNEL_CS 16);
   u32 (Z.lor (Z.lor (Z.land kva 4294901760) 36352) (Z.shiftl (Z.land pl 3) 13));
   u32 (Z.shiftr kva 32);
   0].

(** tvinit fills the page of the IDT from the table of entry points. *)
Definition tvinit (vectors : nat -> Z) : kprog Z :=
  idt <- kalloc;;
  modify (upd_mem (fun m => memset m idt 0 PGSIZE));;;
  for_each (seq 0 256) (fun n =>
    for_each (imap (fun j w => (idt + 16 * Z.of_nat n + 4 * Z.of_nat j, w)) (mkgate (vectors n) 0))
      (fun p => st32 (fst p) (snd p)));;;
  ret idt.

Record irq_input := Irq_input { ide_error : bool; kbd_codes : list Z; uart_bytes : list Z; fault_addr : Z }.

Section Trap.
Context `{LK : Linker} `{DR : BlockDriver} `{DV : DevSw} (fuel : nat) (in_ : irq_input).

Definition timer_tick : kprog unit :=
  cpu <- gets (fun s => cpu_id (k_cpu s));;
  when cpu =? 0 do
    acquire LKtick;;;
    modify (fun s => set_k_ticks (u32 (k_ticks s + 1)) s);;;
    wakeup ChTicks;;;
    release LKtick.

(** An exception: the kernel's own are fatal, those of a process kill it. *)
Definition fault (tf : trapframe) : kprog unit :=
  c <- gets k_cpu;;
  match cpu_proc c with
  | Some i =>
    p <- gets (proc_at i);;
    if Z.land (tf_cs tf) 3 =? 0 then
      cprintf (lit "unexpected trap %d from cpu %d rip %p (cr2=0x%p)" ++ [newline])
        [FInt (i32 (tf_trapno tf)); FInt (cpu_id c); FPtr (tf_rip tf); FPtr (fault_addr in_)];;;
      cprintf (lit "proc id: %d" ++ [newline]) [FInt (p_pid p)];;;
      panic "trap"
    else
    cprintf (lit "pid %d %s: trap %d err %d on cpu %d rip 0x%p addr 0x%p--kill proc" ++ [newline])
      [FInt (p_pid p); FStr (Some (c_str (p_name p))); FInt (i32 (tf_trapno tf)); FInt (i32 (tf_err tf));
       FInt (cpu_id c); FPtr (tf_rip tf); FPtr (fault_addr in_)];;;
    traceevent TRACE_TYPE_TRAP (p_pid p) (i32 (tf_trapno tf)) (i32 (tf_err tf)) 0
      (Some (lit (if tf_trapno tf =? T_PGFLT then "pagefault"
                  else if tf_trapno tf =? T_ILLOP then "illegalop" else "usertrap")));;;
    modify (upd_proc i (set_p_killed 1))
  | None =>
    cprintf (lit "unexpected trap %d from cpu %d rip %p (cr2=0x%p)" ++ [newline])
      [FInt (i32 (tf_trapno tf)); FInt (cpu_id c); FPtr (tf_rip tf); FPtr (fault_addr in_)];;;
    panic "trap"
  end.

Definition handle (tf : trapframe) : kprog unit :=
  let irq := tf_trapno tf - T_IRQ0 in
  if irq =? IRQ_TIMER then timer_tick
  else if irq =? IRQ_IDE then ideintr (ide_error in_)
  else if irq =? IRQ_IDE + 1 then ret tt
  else if irq =? IRQ_KBD then kbdintr (kbd_codes in_)
  else if irq =? IRQ_COM1 then uartintr (uart_bytes in_)
  else if (irq =? 7) || (irq =? IRQ_SPURIOUS) then
    c <- gets k_cpu;;
    cprintf (lit "cpu%d: spurious interrupt at %p:%p" ++ [newline])
      [FInt (cpu_id c); FPtr (tf_cs tf); FPtr (tf_rip tf)]
  else fault tf.

(** A killed process exits on its way back to user space. *)
Definition exit_if_killed (tf : trapframe) : kprog unit :=
  c <- gets k_cpu;;
  match cpu_proc c with
  | None => ret tt
  | Some i =>
    p <- gets (proc_at i);;
    when negb (p_killed p =? 0) && (Z.land (tf_cs tf) 3 =? DPL_USER) do exit fuel
  end.

Definition trap (tf : trapframe) : kprog unit :=
  handle tf;;;
  exit_if_killed tf;;;
  c <- gets k_cpu;;
  (match cpu_proc c with
   | None => ret tt
   | Some i =>
     p <- gets (proc_at i);;
     when bool_decide (p_state p = RUNNING) && (tf_trapno tf =? T_IRQ0 + IRQ_TIMER) do yield
   end);;;
  exit_if_killed tf.

End Trap.
