(* ===== verification/Dashboard.v ===== *)
(** * Dashboard: the user program trace.c

    The program is a loop around traceread(): it keeps the newest wanted events in a
    ring of 32 rows, counts events by kind, keeps an event-rate graph of 50 ticks, and
    redraws the screen.  What it draws is the list of its calls to vidclear and
    vidputs; what the kernel answers in one round of the loop is a [reply].  A C string
    is the list of its bytes before the NUL. *)

From S2P Require Import Prelude Machine Cstring Ktrace.

Module Trace.

Definition MAX_TRACE_ROWS : Z := 32.
Definition DEFAULT_DISPLAY_ROWS : Z := 15.
Definition GRAPH_WIDTH : Z := 50.
Definition COLOR_NORMAL : Z := 7.
Definition COLOR_TITLE : Z := 15.
Definition COLOR_GREEN : Z := 10.
Definition COLOR_CYAN : Z := 11.
Definition COLOR_YELLOW : Z := 14.
Definition COLOR_RED : Z := 12.

(** The system calls of the program, other than traceread and uptime. *)
Inductive call :=
| Vidclear
| Vidputs (row col : Z) (s : list Z) (color : Z)
| Printf (s : list Z)
| Sleep (n : Z).

Definition typename (type : Z) : list Z :=
  if type =? TRACE_TYPE_SYSCALL then lit "syscall"
  else if type =? TRACE_TYPE_PROC then lit "proc"
  else if type =? TRACE_TYPE_TRAP then lit "trap"
  else if type =? TRACE_TYPE_MEM then lit "mem"
  else lit "all".

Definition type_color (type : Z) : Z :=
  if type =? TRACE_TYPE_SYSCALL then COLOR_CYAN
  else if type =? TRACE_TYPE_PROC then COLOR_GREEN
  else if type =? TRACE_TYPE_MEM then COLOR_YELLOW
  else if type =? TRACE_TYPE_TRAP then COLOR_RED
  else COLOR_NORMAL.

Definition detail_color (e : trace_event) : Z :=
  if te_type e =? TRACE_TYPE_TRAP then COLOR_RED
  else if te_type e =? TRACE_TYPE_MEM then COLOR_YELLOW
  else if te_type e =? TRACE_TYPE_PROC then COLOR_GREEN
  else if te_type e =? TRACE_TYPE_SYSCALL then
    if te_arg1 e <? 0 then COLOR_RED else COLOR_CYAN
  else COLOR_NORMAL.

Definition latency_color (latency : Z) : Z :=
  if latency >=? 5 then COLOR_RED else if latency >=? 2 then COLOR_YELLOW else COLOR_GREEN.

Definition want_event (e : trace_event) (type_filter pid_filter self_pid : Z) : bool :=
  if te_pid e =? self_pid then false
  else if negb (type_filter =? 0) && negb (te_type e =? type_filter) then false
  else if negb (pid_filter =? -1) && negb (te_pid e =? pid_filter) then false
  else true.

(** The four counters of events shown, and the four of all events read. *)
Record counts := Counts { c_sys : Z; c_proc : Z; c_mem : Z; c_trap : Z }.

Definition update_counts (e : trace_event) (c : counts) : counts :=
  let '(Counts s p m t) := c in
  if te_type e =? TRACE_TYPE_SYSCALL then Counts (i32 (s + 1)) p m t
  else if te_type e =? TRACE_TYPE_PROC then Counts s (i32 (p + 1)) m t
  else if te_type e =? TRACE_TYPE_MEM then Counts s p (i32 (m + 1)) t
  else if te_type e =? TRACE_TYPE_TRAP then Counts s p m (i32 (t + 1))
  else c.

(** ** Numbers

    The digits are collected in [temp], last one first, and copied out backwards:
    [acc] is the part of the output that is known so far.  [temp] holds 15 characters. *)
Fixpoint itoa_loop (room : nat) (val : Z) (acc : list Z) : list Z :=
  match room with
  | O => acc
  | S room => if val >? 0 then itoa_loop room (val / 10) (48 + val mod 10 :: acc) else acc
  end.

Definition itoa (val : Z) : list Z :=
  let neg := val <? 0 in
  let val := if neg then i32 (- val) else val in
  if val =? 0 then [48] else
  let ds := itoa_loop 15 val [] in
  if neg && (length ds <? 15)%nat then 45 :: ds else ds.

Definition hex (d : Z) : Z := if d <? 10 then 48 + d else 87 + d.

Fixpoint itox_loop (room : nat) (val : Z) (acc : list Z) : list Z :=
  match room with
  | O => acc
  | S room => if val >? 0 then itox_loop room (val / 16) (hex (val mod 16) :: acc) else acc
  end.

Definition itox (val : Z) : list Z := if val =? 0 then [48] else itox_loop 15 val [].

(** ** Drawing *)

Definition drawnum (row col val color : Z) : list call := [Vidputs row col (itoa val) color].
Definition drawhex (row col val color : Z) : list call :=
  [Vidputs row col (lit "0x") color; Vidputs row (col + 2) (itox val) color].

(** The string that starts at the field comm (or event) of an event: the bytes of the
    struct from there to the first NUL. *)
Fixpoint until_nul (l : list Z) : list Z :=
  match l with [] => [] | c :: l => if c =? 0 then [] else c :: until_nul l end.
Definition event_str (e : trace_event) : list Z := until_nul (te_event e ++ le_bytes 4 (te_overwritten e)).
Definition comm_str (e : trace_event) : list Z :=
  until_nul (te_comm e ++ te_event e ++ le_bytes 4 (te_overwritten e)).

Definition draweventrow (row : Z) (e : trace_event) : list call :=
  let tc := type_color (te_type e) in
  [Vidputs row 0 (replicate 80 32) COLOR_NORMAL] ++
  drawnum row 0 (i32 (te_seq e)) COLOR_NORMAL ++
  drawnum row 5 (i32 (te_ticks e)) COLOR_NORMAL ++
  drawnum row 12 (te_pid e) tc ++
  [Vidputs row 17 (comm_str e) tc; Vidputs row 34 (typename (te_type e)) tc; Vidputs row 43 (event_str e) tc] ++
  if te_type e =? TRACE_TYPE_SYSCALL then
    [Vidputs row 54 (lit "num = ") COLOR_NORMAL] ++ drawnum row 60 (te_arg0 e) COLOR_CYAN ++
    [Vidputs row 64 (lit "ret = ") COLOR_NORMAL] ++ drawnum row 70 (te_arg1 e) (detail_color e)
  else if te_type e =? TRACE_TYPE_PROC then
    [Vidputs row 54 (lit "child = ") COLOR_NORMAL] ++ drawnum row 62 (te_arg0 e) COLOR_GREEN
  else if te_type e =? TRACE_TYPE_MEM then
    [Vidputs row 54 (lit "page = ") COLOR_NORMAL] ++ drawhex row 61 (u32 (te_arg0 e)) COLOR_YELLOW
  else if te_type e =? TRACE_TYPE_TRAP then
    [Vidputs row 54 (lit "cause = ") COLOR_RED] ++ drawnum row 62 (te_arg0 e) COLOR_RED ++
    [Vidputs row 66 (lit "err = ") COLOR_RED] ++ drawnum row 72 (te_arg1 e) COLOR_RED
  else [].

(** The character and the colour of one tick of the graph. *)
Definition graph_bar (count : Z) : Z * Z :=
  if count =? 0 then (46, COLOR_NORMAL)
  else if count <? 3 then (45, COLOR_GREEN)
  else if count <? 7 then (61, COLOR_YELLOW)
  else (35, COLOR_RED).

Definition cell (activity : list Z) (i : Z) : Z := nth (Z.to_nat i) activity 0.

Definition draw_graph (row col : Z) (activity : list Z) (activity_pos : Z) : list call :=
  Vidputs row col (lit "event rate last 50 ticks: . none | - low | = medium | # high") COLOR_TITLE ::
  map (fun i =>
    let '(bar, color) := graph_bar (cell activity ((activity_pos + 1 + i) mod GRAPH_WIDTH)) in
    Vidputs (row + 1) (col + i) [bar] color) (seqZ 0 GRAPH_WIDTH).

(** ** The state of the loop, and its options *)

Record options := Options { limit : Z; filter_type : Z; filter_pid : Z; display_rows : Z; self_pid : Z }.

Record dash := Dash {
  recent : list trace_event;
  recent_count : Z;
  recent_start : Z;
  seen : Z;
  activity : list Z;
  activity_pos : Z;
  last_tick : Z;
  overwritten : Z;
  shown : counts;
  total : counts;
}.

Definition no_event : trace_event := Trace_event 0 0 0 0 0 0 0 (replicate 16 0) (replicate 16 0) 0.
Definition no_counts : counts := Counts 0 0 0 0.
Definition start : dash :=
  Dash (replicate 32 no_event) 0 0 0 (replicate 50 0) 0 (-1) 0 no_counts no_counts.

(** The rows of the board, oldest event first. *)
Definition row_event (d : dash) (i : Z) : trace_event :=
  nth (Z.to_nat ((recent_start d + i) mod MAX_TRACE_ROWS)) (recent d) no_event.

Definition draw_counts (row : Z) (c : counts) : list call :=
  drawnum row 45 (c_sys c) COLOR_CYAN ++
  [Vidputs row 48 (lit " proc = ") COLOR_NORMAL] ++ drawnum row 56 (c_proc c) COLOR_GREEN ++
  [Vidputs row 59 (lit " mem = ") COLOR_NORMAL] ++ drawnum row 66 (c_mem c) COLOR_YELLOW ++
  [Vidputs row 69 (lit " trap = ") COLOR_NORMAL] ++ drawnum row 77 (c_trap c) COLOR_RED.

Definition draw_head (o : options) (d : dash) : list call :=
  [Vidclear; Vidputs 0 0 (lit "XV6 LIVE KERNEL TRACE DASHBOARD") COLOR_TITLE;
   Vidputs 0 36 (lit "FILTER:") COLOR_NORMAL;
   Vidputs 0 44 (typename (filter_type o)) (type_color (filter_type o));
   Vidputs 0 52 (lit "pid = ") COLOR_NORMAL] ++
  (if filter_pid o =? -1 then [Vidputs 0 58 (lit "all") COLOR_NORMAL] else drawnum 0 58 (filter_pid o) COLOR_NORMAL) ++
  [Vidputs 0 64 (lit "STATUS:") COLOR_NORMAL] ++
  (if limit o =? 0 then [Vidputs 0 72 (lit "ONESHOT") COLOR_YELLOW] else [Vidputs 0 72 (lit "LIVE") COLOR_GREEN]) ++
  [Vidputs 1 0 (lit "captured = ") COLOR_NORMAL] ++ drawnum 1 11 (seen d) COLOR_CYAN ++
  [Vidputs 1 15 (lit "/ ") COLOR_NORMAL] ++
  drawnum 1 17 (if limit o =? 0 then 128 else limit o) COLOR_CYAN ++
  [Vidputs 1 26 (lit "showing: syscall = ") COLOR_NORMAL] ++ draw_counts 1 (shown d) ++
  [Vidputs 2 0 (lit "overwritten = ") COLOR_NORMAL] ++
  drawnum 2 14 (overwritten d) (if overwritten d >? 0 then COLOR_RED else COLOR_NORMAL) ++
  [Vidputs 2 26 (lit "total:   syscall = ") COLOR_NORMAL] ++ draw_counts 2 (total d) ++
  [Vidputs 6 0 (lit "SEQ  TICKS  PID  PROC             SUBSYS   EVENT      DETAILS") COLOR_TITLE;
   Vidputs 7 0 (replicate 75 45) COLOR_NORMAL].

Definition rows (o : options) (d : dash) : Z :=
  Z.min (recent_count d) (Z.min (display_rows o) MAX_TRACE_ROWS).

Definition drawBoard (o : options) (d : dash) : list call :=
  draw_head o d ++ concat (map (fun i => draweventrow (8 + i) (row_event d i)) (seqZ 0 (rows o d))).

(** ** The arguments *)

Definition str_eq (a b : list Z) : bool :=
  match strcmp (S (length a)) (two_arrays a b) 0 src_base with Some 0 => true | _ => false end.
Definition str_num (a : list Z) : Z :=
  default 0 (atoi (S (length a)) (at_list 0 a (fun _ => 0)) 0).

Definition set_limit (v : Z) (o : options) : options :=
  Options v (filter_type o) (filter_pid o) (display_rows o) (self_pid o).
Definition set_filter_type (v : Z) (o : options) : options :=
  Options (limit o) v (filter_pid o) (display_rows o) (self_pid o).
Definition set_filter_pid (v : Z) (o : options) : options :=
  Options (limit o) (filter_type o) v (display_rows o) (self_pid o).
Definition set_display_rows (v : Z) (o : options) : options :=
  Options (limit o) (filter_type o) (filter_pid o) v (self_pid o).

(** An argument other than -n with its value; [limit_set] is carried along. *)
Definition parse_word (a : list Z) (limit_set : bool) (o : options) : bool * options :=
  if str_eq a (lit "syscall") then (limit_set, set_filter_type TRACE_TYPE_SYSCALL o)
  else if str_eq a (lit "proc") then (limit_set, set_filter_type TRACE_TYPE_PROC o)
  else if str_eq a (lit "mem") then (limit_set, set_filter_type TRACE_TYPE_MEM o)
  else if str_eq a (lit "trap") then (limit_set, set_filter_type TRACE_TYPE_TRAP o)
  else
    let val := str_num a in
    if (val >? 0) || str_eq a (lit "0") then
      if negb limit_set then (true, set_limit val o)
      else if filter_pid o =? -1 then (limit_set, set_filter_pid val o)
      else (limit_set, o)
    else (limit_set, o).

Fixpoint parse_args (args : list (list Z)) (limit_set : bool) (o : options) : options :=
  match args with
  | [] => o
  | a :: rest =>
    match rest with
    | v :: rest' =>
      if str_eq a (lit "-n") then
        parse_args rest' limit_set (set_display_rows (Z.min (str_num v) MAX_TRACE_ROWS) o)
      else let '(ls, o) := parse_word a limit_set o in parse_args rest ls o
    | [] => let '(ls, o) := parse_word a limit_set o in parse_args rest ls o
    end
  end.

Definition default_options (self : Z) : options := Options 0 0 (-1) DEFAULT_DISPLAY_ROWS self.

(** ** The loop *)

(** [diff] ticks have gone by without an event. *)
Fixpoint advance (diff : nat) (act : list Z) (pos : Z) : list Z * Z :=
  match diff with
  | O => (act, pos)
  | S diff => let pos := (pos + 1) mod GRAPH_WIDTH in advance diff (<[Z.to_nat pos := 0]> act) pos
  end.
Definition ticks_passed (diff : Z) : nat := Z.to_nat (if diff >? 50 then 50 else diff).

Definition set_graph (act : list Z) (pos last : Z) (d : dash) : dash :=
  Dash (recent d) (recent_count d) (recent_start d) (seen d) act pos last (overwritten d) (shown d) (total d).

(** What one round gets from the kernel: an error, no event (with what uptime() says,
    asked once or twice), or an event. *)
Inductive reply := Failed | NoEvent (up1 up2 : Z) | Event (e : trace_event).
Inductive verdict := Exit (cs : list call) | Next (d : dash) (cs : list call).

Definition idle_round (o : options) (d : dash) (up1 up2 : Z) : verdict :=
  if (limit o =? 0) && (recent_count d >? 0) then Exit [] else
  let '(quit, now) :=
    if (limit o =? 0) && (seen d =? 0) then (i32 (up1 - last_tick d) >? 10, up2) else (false, up1) in
  if quit : bool then Exit [] else
  let last := if last_tick d =? -1 then now else last_tick d in
  if now >? last then
    let '(act, pos) := advance (ticks_passed (i32 (now - last))) (activity d) (activity_pos d) in
    let d := set_graph act pos now d in
    Next d (drawBoard o d ++ draw_graph 4 0 act pos ++ [Sleep 10])
  else Next (set_graph (activity d) (activity_pos d) last d) [Sleep 10].

(** The graph and then the ring take in a wanted event. *)
Definition mark_tick (e : trace_event) (d : dash) : dash :=
  let last := if last_tick d =? -1 then i32 (te_ticks e) else last_tick d in
  let '(act, pos, last) :=
    if te_ticks e >? u32 last then
      let '(act, pos) := advance (ticks_passed (i32 (te_ticks e - last))) (activity d) (activity_pos d) in
      (act, pos, i32 (te_ticks e))
    else (activity d, activity_pos d, last) in
  set_graph (<[Z.to_nat pos := i32 (cell act pos + 1)]> act) pos last d.

Definition remember (e : trace_event) (d : dash) : dash :=
  if recent_count d <? MAX_TRACE_ROWS then
    Dash (<[Z.to_nat (recent_count d) := e]> (recent d)) (recent_count d + 1) (recent_start d) (seen d)
      (activity d) (activity_pos d) (last_tick d) (overwritten d) (shown d) (total d)
  else
    Dash (<[Z.to_nat (recent_start d) := e]> (recent d)) (recent_count d)
      ((recent_start d + 1) mod MAX_TRACE_ROWS) (seen d)
      (activity d) (activity_pos d) (last_tick d) (overwritten d) (shown d) (total d).

Definition count_total (e : trace_event) (d : dash) : dash :=
  Dash (recent d) (recent_count d) (recent_start d) (seen d) (activity d) (activity_pos d) (last_tick d)
    (i32 (te_overwritten e)) (shown d) (update_counts e (total d)).
Definition count_shown (e : trace_event) (d : dash) : dash :=
  Dash (recent d) (recent_count d) (recent_start d) (seen d) (activity d) (activity_pos d) (last_tick d)
    (overwritten d) (update_counts e (shown d)) (total d).
Definition count_seen (d : dash) : dash :=
  Dash (recent d) (recent_count d) (recent_start d) (i32 (seen d + 1)) (activity d) (activity_pos d)
    (last_tick d) (overwritten d) (shown d) (total d).

Definition event_round (o : options) (d : dash) (e : trace_event) : verdict :=
  let d := count_total e d in
  if negb (want_event e (filter_type o) (filter_pid o) (self_pid o)) then Next d [] else
  let d := remember e (mark_tick e (count_shown e d)) in
  Next (count_seen d) (drawBoard o d ++ draw_graph 4 0 (activity d) (activity_pos d)).

Definition round (o : options) (d : dash) (r : reply) : verdict :=
  match r with
  | Failed => Exit [Printf (lit "traceread failed" ++ [10])]
  | NoEvent up1 up2 => idle_round o d up1 up2
  | Event e => event_round o d e
  end.

(** The loop, as long as there are replies: its calls, its last state, and whether it
    has come to exit(). *)
Fixpoint loop (o : options) (d : dash) (rs : list reply) : list call * dash * bool :=
  if negb (limit o =? 0) && negb (seen d <? limit o) then ([], d, true) else
  match rs with
  | [] => ([], d, false)
  | r :: rs =>
    match round o d r with
    | Exit cs => (cs, d, true)
    | Next d cs => let '(cs', d, over) := loop o d rs in (cs ++ cs', d, over)
    end
  end.

Definition main (args : list (list Z)) (self : Z) (rs : list reply) : list call * dash * bool :=
  let o := parse_args args false (default_options self) in
  let '(cs, d, over) := loop o start rs in
  (replicate 25 (Printf [10]) ++ [Vidclear] ++ cs, d, over).

End Trace.

Import Trace.

(** ** Numbers *)

Definition is_digit (c : Z) : Prop := 48 <= c <= 57.
Definition dec_from (n : Z) (l : list Z) : Z := fold_left (fun n c => n * 10 + c - 48) l n.

Lemma dec_from_snoc n l c : dec_from n (l ++ [c]) = dec_from n l * 10 + c - 48.
Proof. unfold dec_from. by rewrite fold_left_app. Qed.

Lemma dec_from_ge n l : 0 <= n -> Forall is_digit l -> n <= dec_from n l.
Proof.
  revert n. induction l as [|c l IH]; intros n Hn Hl; [simpl; lia|].
  inversion Hl as [|? ? Hc Hl']; subst. unfold is_digit in Hc. cbn [dec_from fold_left].
  transitivity (n * 10 + c - 48); [lia|]. apply IH; [lia|done].
Qed.

Lemma itoa_loop_spec room val acc :
  0 <= val < 10 ^ Z.of_nat room ->
  exists ds, itoa_loop room val acc = ds ++ acc /\ Forall is_digit ds /\ dec_from 0 ds = val /\
    (forall k, val < 10 ^ Z.of_nat k -> (length ds <= k)%nat) /\ (0 < val -> ds <> []).
Proof.
  revert val acc. induction room as [|room IH]; intros val acc Hv.
  { exists []. simpl in Hv. repeat split; try done; simpl; intros; lia. }
  rewrite Nat2Z.inj_succ, Z.pow_succ_r in Hv by lia. cbn [itoa_loop].
  destruct (Z.gtb_spec val 0) as [Hp|Hp].
  2: { exists []. repeat split; try done; simpl; intros; lia. }
  destruct (IH (val / 10) (48 + val mod 10 :: acc)) as (ds & E & Hd & Hn & Hl & _).
  { split; [apply Z.div_pos; lia|]. apply Z.div_lt_upper_bound; lia. }
  exists (ds ++ [48 + val mod 10]). rewrite E, <- app_assoc.
  pose proof (Z.mod_pos_bound val 10 ltac:(lia)). repeat split; try done.
  - apply Forall_app. split; [done|]. constructor; [unfold is_digit; lia | constructor].
  - rewrite dec_from_snoc, Hn. pose proof (Z.div_mod val 10). lia.
  - intros [|k] Hk; [simpl in Hk; lia|]. rewrite Nat2Z.inj_succ, Z.pow_succ_r in Hk by lia.
    assert (val / 10 < 10 ^ Z.of_nat k) as Hk' by (apply Z.div_lt_upper_bound; lia).
    rewrite length_app. simpl. specialize (Hl k Hk'). lia.
  - intros _ ?%(f_equal length). rewrite length_app in *. simpl in *. lia.
Qed.

Lemma atoi_loop_digits l pre n :
  0 <= n -> Forall is_digit l -> dec_from n l < 2147483648 ->
  atoi_loop (S (length l)) (at_list 0 (pre ++ l) (fun _ => 0)) (Z.of_nat (length pre)) n = Some (dec_from n l).
Proof.
  revert pre n. induction l as [|c l IH]; intros pre n Hn Hl Hb.
  - cbn [length atoi_loop]. rewrite app_nil_r, at_list_out by lia. done.
  - inversion Hl as [|? ? Hc Hl']; subst. unfold is_digit in Hc.
    pose proof (dec_from_ge (n * 10 + c - 48) l ltac:(lia) Hl') as Hge.
    change (dec_from n (c :: l)) with (dec_from (n * 10 + c - 48) l) in Hb |- *.
    assert (at_list 0 (pre ++ c :: l) (fun _ => 0) (Z.of_nat (length pre)) = c) as Ec.
    { change (Z.of_nat (length pre)) with (0 + Z.of_nat (length pre)). rewrite at_list_nth by (rewrite length_app; simpl; lia). by rewrite app_nth2, Nat.sub_diag by lia. }
    cbn [length]. remember (S (length l)) as f. cbn [atoi_loop]. rewrite Ec.
    destruct (Z.leb_spec 48 c); [|lia]. destruct (Z.leb_spec c 57); [|lia]. cbn [andb].
    rewrite i32_small by lia.
    specialize (IH (pre ++ [c]) (n * 10 + c - 48) ltac:(lia) Hl' Hb).
    rewrite <- app_assoc, length_app, Nat2Z.inj_add in IH. exact IH.
Qed.

Lemma str_num_digits l : Forall is_digit l -> dec_from 0 l < 2147483648 -> str_num l = dec_from 0 l.
Proof.
  intros Hl Hb. unfold str_num, atoi. pose proof (atoi_loop_digits l [] 0 ltac:(lia) Hl Hb) as E.
  change (Z.of_nat (length [])) with 0 in E. cbn [app] in E. by rewrite E.
Qed.

(** itoa prints an int so that atoi reads it back: a negative number other than
    INT_MIN is a minus sign and the digits of its absolute value, the text always fits
    the 16-byte buffers of the drawing routines, and INT_MIN, whose negation overflows,
    comes out as a lone minus sign. *)
Theorem itoa_atoi_roundtrip (v : Z) :
  -2147483648 <= v < 2147483648 ->
  (length (itoa v) < 16)%nat /\
  (0 <= v -> str_num (itoa v) = v) /\
  (-2147483648 < v < 0 -> exists ds, itoa v = 45 :: ds /\ str_num ds = - v) /\
  (v = -2147483648 -> itoa v = [45]).
Proof.
  intros Hv. destruct (decide (v = -2147483648)) as [->|Hmin].
  { repeat split; try (intros; lia). vm_compute. lia. }
  unfold itoa. set (w := if v <? 0 then i32 (- v) else v).
  assert (w = Z.abs v) as Ew by (unfold w; destruct (Z.ltb_spec v 0); [rewrite i32_small|]; lia).
  clearbody w. destruct (Z.eqb_spec w 0) as [E0|E0].
  { assert (v = 0) as -> by lia. repeat split; intros; try lia; simpl; lia. }
  destruct (itoa_loop_spec 15 w []) as (ds & -> & Hd & Hn & Hl & _); [simpl; lia|].
  rewrite app_nil_r. assert (str_num ds = Z.abs v) as En by (rewrite str_num_digits; [lia | done | lia]).
  specialize (Hl 10%nat ltac:(simpl; lia)).
  destruct (Z.ltb_spec v 0) as [Hneg|Hpos]; cbn [andb].
  - destruct (Nat.ltb_spec (length ds) 15) as [_|]; [|lia].
    split_and!; try (intros; lia); [simpl; lia|]. intros _. exists ds. split; [done|lia].
  - split_and!; intros; lia.
Qed.

Lemma itoa_atoi_roundtrip_witness : str_num (itoa 4096) = 4096.
Proof. destruct (itoa_atoi_roundtrip 4096) as (_ & H & _); [lia | apply H; lia]. Defined.

(** ** What the board stands for *)

Definition events (rs : list reply) : list trace_event :=
  omap (fun r => match r with Event e => Some e | _ => None end) rs.
Definition wants (o : options) (e : trace_event) : bool :=
  want_event e (filter_type o) (filter_pid o) (self_pid o).
Definition wanted (o : options) (rs : list reply) : list trace_event :=
  filter (fun e => wants o e = true) (events rs).

Definition of_type (t : Z) (l : list trace_event) : Z := Z.of_nat (length (filter (fun e => te_type e = t) l)).
Definition tally (l : list trace_event) : counts :=
  Counts (of_type TRACE_TYPE_SYSCALL l) (of_type TRACE_TYPE_PROC l) (of_type TRACE_TYPE_MEM l)
    (of_type TRACE_TYPE_TRAP l).

(** The newest 32 of a list of events. *)
Definition newest (l : list trace_event) : list trace_event := drop (length l - 32) l.

(** The ring of rows holds the newest wanted events, the one with index [i] in slot
    [i mod 32]; the counters count. *)
Record board (o : options) (rs : list reply) (d : dash) : Prop := {
  bd_len : length (recent d) = 32%nat;
  bd_count : recent_count d = Z.min 32 (Z.of_nat (length (wanted o rs)));
  bd_start : recent_start d =
    if (length (wanted o rs) <? 32)%nat then 0 else Z.of_nat (length (wanted o rs)) mod 32;
  bd_recent : forall i, (i < length (wanted o rs) <= i + 32)%nat -> recent d !! (i mod 32)%nat = wanted o rs !! i;
  bd_seen : seen d = Z.of_nat (length (wanted o rs));
  bd_shown : shown d = tally (wanted o rs);
  bd_total : total d = tally (events rs);
  bd_over : overwritten d = from_option (fun e => i32 (te_overwritten e)) 0 (last (events rs));
}.

Lemma events_snoc rs r : events (rs ++ [r]) = events rs ++ events [r].
Proof. unfold events. by rewrite omap_app. Qed.

Lemma wanted_snoc o rs r : wanted o (rs ++ [r]) = wanted o rs ++ wanted o [r].
Proof. unfold wanted. by rewrite events_snoc, filter_app. Qed.

Lemma of_type_snoc t l e : of_type t (l ++ [e]) = of_type t l + if te_type e =? t then 1 else 0.
Proof.
  unfold of_type. rewrite filter_app, length_app, filter_cons, filter_nil.
  destruct (Z.eqb_spec (te_type e) t); [rewrite decide_True | rewrite decide_False]; simpl; try done; lia.
Qed.

Lemma length_wanted o rs : (length (wanted o rs) <= length (events rs) <= length rs)%nat.
Proof.
  split; [apply length_filter|]. unfold events.
  induction rs as [|[] rs IH]; cbn [omap list_omap length] in *; unfold omap in *; lia.
Qed.

Lemma of_type_le t l : 0 <= of_type t l <= Z.of_nat (length l).
Proof. unfold of_type. pose proof (length_filter (fun e => te_type e = t) l). lia. Qed.

Lemma tally_snoc l e :
  Z.of_nat (length l) < 2147483647 -> update_counts e (tally l) = tally (l ++ [e]).
Proof.
  intros Hl. unfold tally. rewrite !of_type_snoc.
  pose proof (of_type_le TRACE_TYPE_SYSCALL l). pose proof (of_type_le TRACE_TYPE_PROC l).
  pose proof (of_type_le TRACE_TYPE_MEM l). pose proof (of_type_le TRACE_TYPE_TRAP l).
  unfold update_counts, TRACE_TYPE_SYSCALL, TRACE_TYPE_PROC, TRACE_TYPE_MEM, TRACE_TYPE_TRAP in *.
  destruct (Z.eqb_spec (te_type e) 1), (Z.eqb_spec (te_type e) 2), (Z.eqb_spec (te_type e) 3),
    (Z.eqb_spec (te_type e) 4); try lia; f_equal; rewrite ?i32_small by lia; lia.
Qed.

Lemma board_start o : board o [] start.
Proof. split; try done. intros i Hi. cbn in Hi. lia. Qed.

(** The graph is kept apart from the rows and the counters. *)
Lemma board_graph o rs d act pos last : board o rs d -> board o rs (set_graph act pos last d).
Proof. intros []. by split. Qed.

Lemma board_idle o rs up1 up2 d : board o rs d -> board o (rs ++ [NoEvent up1 up2]) d.
Proof.
  intros []. split; rewrite ?wanted_snoc, ?events_snoc; cbn [events omap list_omap wanted filter list_filter];
    rewrite ?app_nil_r; done.
Qed.

Lemma board_skip o rs e d :
  Z.of_nat (length rs) < 2147483647 -> wants o e = false -> board o rs d ->
  board o (rs ++ [Event e]) (count_total e d).
Proof.
  intros Hn Hw []. assert (wanted o (rs ++ [Event e]) = wanted o rs) as E.
  { rewrite wanted_snoc. unfold wanted at 2. cbn. rewrite decide_False by congruence. apply app_nil_r. }
  split; rewrite ?E; try done; rewrite events_snoc; cbn [events omap list_omap count_total total overwritten].
  - rewrite bd_total0. apply tally_snoc. pose proof (length_wanted o rs). lia.
  - by rewrite last_snoc.
Qed.

Lemma remember_slot (l : list trace_event) (i n : nat) e (ws : list trace_event) :
  length l = 32%nat -> n = length ws -> (i < n + 1 <= i + 32)%nat ->
  (forall i, (i < n <= i + 32)%nat -> l !! (i mod 32)%nat = ws !! i) ->
  <[(n mod 32)%nat := e]> l !! (i mod 32)%nat = (ws ++ [e]) !! i.
Proof.
  intros Hl -> Hi H. pose proof (Nat.mod_upper_bound (length ws) 32 ltac:(lia)).
  destruct (decide (i = length ws)) as [->|Hne].
  - rewrite list_lookup_insert_eq by lia. by rewrite lookup_app_r, Nat.sub_diag by lia.
  - rewrite list_lookup_insert_ne.
    + rewrite lookup_app_l by lia. apply H. lia.
    + intros E. pose proof (Nat.div_mod_eq i 32). pose proof (Nat.div_mod_eq (length ws) 32). lia.
Qed.

Lemma mark_tick_graph e d : exists act pos last, mark_tick e d = set_graph act pos last d.
Proof.
  unfold mark_tick. destruct (te_ticks e >? u32 _); [destruct (advance _ _ _) as [act pos]|]; eauto.
Qed.

Lemma wanted_event o rs e : wants o e = true -> wanted o (rs ++ [Event e]) = wanted o rs ++ [e].
Proof. intros Hw. rewrite wanted_snoc. unfold wanted at 2. cbn. by rewrite decide_True. Qed.

(** Where the next event goes, and how the ring's indices move. *)
Lemma remember_ring (n : nat) e d :
  recent_count d = Z.min 32 (Z.of_nat n) ->
  recent_start d = (if (n <? 32)%nat then 0 else Z.of_nat n mod 32) ->
  remember e d = Dash (<[(n mod 32)%nat := e]> (recent d)) (Z.min 32 (Z.of_nat (n + 1)))
    (if (n + 1 <? 32)%nat then 0 else Z.of_nat (n + 1) mod 32) (seen d)
    (activity d) (activity_pos d) (last_tick d) (overwritten d) (shown d) (total d).
Proof.
  intros Hc Hs. unfold remember, MAX_TRACE_ROWS. rewrite Hc, Hs.
  destruct (Z.ltb_spec (Z.min 32 (Z.of_nat n)) 32), (Nat.ltb_spec n 32), (Nat.ltb_spec (n + 1) 32); try lia;
    f_equal; try lia; try (f_equal; rewrite ?Nat.mod_small by lia; lia).
  - assert (n + 1 = 32)%nat as -> by lia. done.
  - f_equal. by rewrite <- (Nat2Z.id (n mod 32)), Nat2Z.inj_mod.
  - rewrite Nat2Z.inj_add, Zplus_mod_idemp_l. done.
Qed.

Lemma board_take o rs e d :
  Z.of_nat (length rs) < 2147483647 -> wants o e = true -> board o rs d ->
  board o (rs ++ [Event e]) (count_seen (remember e (mark_tick e (count_shown e (count_total e d))))).
Proof.
  intros Hn Hw []. destruct (mark_tick_graph e (count_shown e (count_total e d))) as (act & pos & lt & ->).
  pose proof (length_wanted o rs).
  assert (wanted o (rs ++ [Event e]) = wanted o rs ++ [e]) as E by (by apply wanted_event).
  assert (events (rs ++ [Event e]) = events rs ++ [e]) as E' by (by rewrite events_snoc).
  rewrite (remember_ring (length (wanted o rs))) by done.
  split; rewrite ?E, ?E', ?last_snoc, ?length_app; try done.
  - cbn. by rewrite length_insert.
  - intros i Hi. apply remember_slot; done.
  - cbn. rewrite i32_small; lia.
  - cbn. rewrite bd_shown0. apply tally_snoc. lia.
  - cbn. rewrite bd_total0. apply tally_snoc. lia.
Qed.

Lemma board_round o rs r d d' cs :
  Z.of_nat (length rs) < 2147483647 -> board o rs d -> round o d r = Next d' cs -> board o (rs ++ [r]) d'.
Proof.
  intros Hn Hb. destruct r as [|up1 up2|e]; cbn [round]; [done| |].
  - unfold idle_round. destruct (_ && _); [done|].
    destruct (if _ && _ then _ else _) as [[] now]; [done|].
    destruct (now >? _); [destruct (advance _ _ _)|]; intros [= <- _]; by apply board_idle, board_graph.
  - unfold event_round. change (want_event _ _ _ _) with (wants o e).
    destruct (wants o e) eqn:Hw; cbn [negb]; intros [= <- _]; [by apply board_take | by apply board_skip].
Qed.

Lemma board_loop o rs d hist cs d' over :
  Z.of_nat (length (hist ++ rs)) < 2147483647 -> board o hist d -> loop o d rs = (cs, d', over) ->
  exists used rest, rs = used ++ rest /\ board o (hist ++ used) d' /\ (over = false -> rest = []) /\
    (limit o <> 0 -> seen d <= limit o -> seen d' <= limit o).
Proof.
  revert d hist cs. induction rs as [|r rs IH]; intros d hist cs Hn Hb; cbn [loop].
  { case_match; intros [= <- <- <-]; exists [], []; rewrite (app_nil_r hist); split_and!; done. }
  destruct (negb (limit o =? 0) && negb (seen d <? limit o)) eqn:Hlim.
  { intros [= <- <- <-]. exists [], (r :: rs). rewrite (app_nil_r hist). split_and!; done. }
  destruct (round o d r) as [cs1|d1 cs1] eqn:Er.
  { intros [= <- <- <-]. exists [], (r :: rs). rewrite (app_nil_r hist). split_and!; done. }
  destruct (loop o d1 rs) as [[cs2 d2] ov] eqn:El. intros [= <- <- <-].
  rewrite length_app in Hn. cbn [length] in Hn.
  pose proof (board_round o hist r d d1 cs1 ltac:(lia) Hb Er) as Hb1.
  destruct (IH d1 (hist ++ [r]) cs2) as (used & rest & -> & Hbd & Hov & Hlt); [rewrite !length_app; simpl; lia|done|done|].
  exists (r :: used), rest. rewrite <- app_assoc in Hbd. split_and!; try done.
  intros Hne Hle. apply Hlt; [done|]. rewrite (bd_seen _ _ _ Hb1), wanted_snoc, length_app.
  rewrite (bd_seen _ _ _ Hb) in *. pose proof (length_wanted o [r]). simpl in *.
  apply Z.eqb_neq in Hne. rewrite Hne in Hlim. cbn [negb andb] in Hlim.
  destruct (Z.ltb_spec (Z.of_nat (length (wanted o hist))) (limit o)); [lia | done].
Qed.

(** The rows of the ring in order are the newest wanted events. *)
Lemma board_rows o rs d i :
  board o rs d -> 0 <= i < recent_count d -> newest (wanted o rs) !! Z.to_nat i = Some (row_event d i).
Proof.
  intros [] Hi. unfold newest, row_event, MAX_TRACE_ROWS. rewrite bd_count0 in Hi. rewrite lookup_drop.
  set (n := length (wanted o rs)) in *. set (j := (n - 32 + Z.to_nat i)%nat).
  assert (Z.to_nat ((recent_start d + i) mod 32) = j mod 32)%nat as ->.
  { rewrite bd_start0. apply Nat2Z.inj. rewrite Z2Nat.id, Nat2Z.inj_mod by (apply Z.mod_pos_bound; lia).
    destruct (Nat.ltb_spec n 32); [f_equal; lia|]. rewrite Zplus_mod_idemp_l.
    replace (Z.of_nat n + i) with (Z.of_nat j + 1 * 32) by lia. by rewrite Z.mod_add. }
  rewrite <- bd_recent0 by lia. rewrite nth_lookup.
  destruct (recent d !! (j mod 32)%nat) eqn:E; [done|].
  apply lookup_ge_None in E. pose proof (Nat.mod_upper_bound j 32). lia.
Qed.

Lemma board_drawn o rs d :
  board o rs d ->
  drawBoard o d = draw_head o d ++
    concat (imap (fun i e => draweventrow (8 + Z.of_nat i) e) (take (Z.to_nat (display_rows o)) (newest (wanted o rs)))).
Proof.
  intros Hb. unfold drawBoard. f_equal. f_equal. apply list_eq. intros i.
  rewrite list_lookup_imap, list_lookup_fmap. pose proof (board_rows o rs d (Z.of_nat i) Hb) as Hr.
  rewrite Nat2Z.id in Hr. destruct Hb as [? Hc ? ? ? ? ? ?].
  destruct (decide (Z.of_nat i < rows o d)) as [Hi|Hi].
  - rewrite lookup_seqZ_lt by lia. unfold rows, MAX_TRACE_ROWS in Hi. rewrite lookup_take_lt by lia.
    rewrite Hr by lia. done.
  - rewrite lookup_seqZ_ge by lia. cbn. unfold rows, MAX_TRACE_ROWS in Hi. rewrite lookup_ge_None_2; [done|].
    rewrite length_take. unfold newest. rewrite length_drop. lia.
Qed.

(** ** The event-rate graph *)

(** The events of tick [t]. *)
Definition at_tick (t : Z) (l : list trace_event) : Z := Z.of_nat (length (filter (fun e => te_ticks e = t) l)).

(** The clock readings of the replies do not run backwards from [t]: the ticks of the
    wanted events, and what uptime() says in an idle round. *)
Fixpoint clocked (o : options) (t : Z) (rs : list reply) : Prop :=
  match rs with
  | [] => True
  | Failed :: rs => clocked o t rs
  | NoEvent up1 up2 :: rs => t <= up1 <= up2 /\ up2 < 2147483648 /\ clocked o up2 rs
  | Event e :: rs =>
    if wants o e then t <= te_ticks e < 2147483648 /\ clocked o (te_ticks e) rs else clocked o t rs
  end.

(** [k] ticks back from the current one stands in the graph the number of events of
    that tick.  [t] bounds the clock. *)
Record graph (ws : list trace_event) (t : Z) (d : dash) : Prop := {
  gr_len : length (activity d) = 50%nat;
  gr_pos : 0 <= activity_pos d < 50;
  gr_last : -1 <= last_tick d <= t;
  gr_none : last_tick d = -1 -> ws = [];
  gr_ticks : Forall (fun e => te_ticks e <= last_tick d) ws;
  gr_cells : forall k, 0 <= k < 50 ->
    cell (activity d) ((activity_pos d - k) mod 50) = at_tick (last_tick d - k) ws;
}.

Lemma cell_insert act i j v :
  length act = 50%nat -> 0 <= i < 50 -> 0 <= j < 50 ->
  cell (<[Z.to_nat i := v]> act) j = if j =? i then v else cell act j.
Proof.
  intros Hl Hi Hj. unfold cell. rewrite !nth_lookup. destruct (Z.eqb_spec j i) as [->|Hne].
  - rewrite list_lookup_insert_eq; [done|lia].
  - rewrite list_lookup_insert_ne; [done|lia].
Qed.

Lemma advance_spec n act pos act' pos' :
  (n <= 50)%nat -> length act = 50%nat -> 0 <= pos < 50 -> advance n act pos = (act', pos') ->
  length act' = 50%nat /\ pos' = (pos + Z.of_nat n) mod 50 /\
  forall k, 0 <= k < 50 -> cell act' ((pos' - k) mod 50) =
    if k <? Z.of_nat n then 0 else cell act ((pos' - k) mod 50).
Proof.
  revert act pos. induction n as [|n IH]; intros act pos Hn Hl Hp; cbn [advance].
  { intros [= <- <-]. rewrite Z.add_0_r, Z.mod_small by lia. split_and!; try done.
    intros k Hk. destruct (Z.ltb_spec k (Z.of_nat 0)); [lia|done]. }
  unfold GRAPH_WIDTH. intros E. pose proof (Z.mod_pos_bound (pos + 1) 50 ltac:(lia)) as Hp1.
  apply IH in E as (Hl' & Hpos & Hc); [|lia|by rewrite length_insert|done].
  rewrite Zplus_mod_idemp_l in Hpos. split_and!; [done|rewrite Hpos; f_equal; lia|].
  intros k Hk. rewrite (Hc k Hk).
  assert (0 <= (pos' - k) mod 50 < 50) as Hj by (apply Z.mod_pos_bound; lia).
  destruct (Z.ltb_spec k (Z.of_nat n)), (Z.ltb_spec k (Z.of_nat (S n))); try lia; [|].
  - assert (k = Z.of_nat n) as -> by lia. rewrite cell_insert by done.
    rewrite Hpos, Zminus_mod_idemp_l. replace (pos + 1 + Z.of_nat n - Z.of_nat n) with (pos + 1) by lia.
    by rewrite Z.eqb_refl.
  - rewrite cell_insert by done. destruct (Z.eqb_spec ((pos' - k) mod 50) ((pos + 1) mod 50)) as [Eq|]; [|done].
    exfalso. rewrite Hpos, Zminus_mod_idemp_l in Eq.
    pose proof (Z.div_mod (pos + 1 + Z.of_nat n - k) 50). pose proof (Z.div_mod (pos + 1) 50). lia.
Qed.

Lemma at_tick_snoc t l e : at_tick t (l ++ [e]) = at_tick t l + if te_ticks e =? t then 1 else 0.
Proof.
  unfold at_tick. rewrite filter_app, length_app, filter_cons, filter_nil.
  destruct (Z.eqb_spec (te_ticks e) t); [rewrite decide_True | rewrite decide_False]; simpl; try done; lia.
Qed.

Lemma at_tick_late t last l : Forall (fun e => te_ticks e <= last) l -> last < t -> at_tick t l = 0.
Proof.
  intros Hl Ht. unfold at_tick. induction Hl as [|e l He Hl IH]; [done|].
  rewrite filter_cons, decide_False by lia. done.
Qed.

Lemma at_tick_le t l : 0 <= at_tick t l <= Z.of_nat (length l).
Proof. unfold at_tick. pose proof (length_filter (fun e => te_ticks e = t) l). lia. Qed.

(** The clock moves on to [now]. *)
Lemma graph_advance ws t d now act pos :
  graph ws t d -> last_tick d <> -1 -> last_tick d < now < 2147483648 ->
  advance (ticks_passed (i32 (now - last_tick d))) (activity d) (activity_pos d) = (act, pos) ->
  graph ws now (set_graph act pos now d).
Proof.
  intros [] Hne Hnow. rewrite i32_small by lia. intros E. apply advance_spec in E as (Hl & Hp & Hc); try done.
  2: { unfold ticks_passed. destruct (Z.gtb_spec (now - last_tick d) 50); lia. }
  split; cbn [activity activity_pos last_tick set_graph]; try done; try lia.
  - subst pos. apply Z.mod_pos_bound. lia.
  - eapply Forall_impl; [exact gr_ticks0|]. simpl. lia.
  - intros k Hk. rewrite (Hc k Hk). unfold ticks_passed in *.
    destruct (Z.ltb_spec k (Z.of_nat (Z.to_nat (if now - last_tick d >? 50 then 50 else now - last_tick d)))) as [Hlt|Hge].
    + symmetry. eapply at_tick_late; [exact gr_ticks0|]. destruct (Z.gtb_spec (now - last_tick d) 50); lia.
    + destruct (Z.gtb_spec (now - last_tick d) 50); [lia|].
      rewrite Z2Nat.id in * by lia. subst pos. rewrite Zminus_mod_idemp_l.
      replace (activity_pos d + (now - last_tick d) - k) with (activity_pos d - (k - (now - last_tick d))) by lia.
      rewrite gr_cells0 by lia. f_equal. lia.
Qed.

(** The first clock reading. *)
Lemma graph_first ws t d now :
  graph ws t d -> last_tick d = -1 -> t <= now -> 0 <= now -> graph ws now (set_graph (activity d) (activity_pos d) now d).
Proof.
  intros [] Hne Ht Hn. rewrite (gr_none0 Hne) in *. split; cbn [activity activity_pos last_tick set_graph]; try done; lia.
Qed.

Lemma graph_later ws t t' d : graph ws t d -> t <= t' -> graph ws t' d.
Proof. intros [] ?. split; try done. lia. Qed.

(** An event of the current tick. *)
Lemma graph_event ws d e :
  Z.of_nat (length ws) < 2147483647 -> 0 <= te_ticks e -> graph ws (te_ticks e) d -> last_tick d = te_ticks e ->
  graph (ws ++ [e]) (te_ticks e)
    (set_graph (<[Z.to_nat (activity_pos d) := i32 (cell (activity d) (activity_pos d) + 1)]> (activity d))
      (activity_pos d) (last_tick d) d).
Proof.
  intros Hn Ht [] He. split; cbn [activity activity_pos last_tick set_graph]; try done; try lia.
  - by rewrite length_insert.
  - apply Forall_app. split; [done|]. constructor; [lia|constructor].
  - intros k Hk. pose proof (Z.mod_pos_bound (activity_pos d - k) 50 ltac:(lia)).
    rewrite cell_insert, at_tick_snoc by done.
    pose proof (gr_cells0 0 ltac:(lia)) as H0. rewrite !Z.sub_0_r, (Z.mod_small (activity_pos d)) in H0 by lia.
    destruct (Z.eqb_spec (te_ticks e) (last_tick d - k)) as [Ek|Ek].
    + assert (k = 0) as -> by lia. rewrite !Z.sub_0_r, Z.mod_small, Z.eqb_refl by lia. rewrite H0.
      pose proof (at_tick_le (last_tick d) ws). rewrite i32_small; lia.
    + rewrite gr_cells0 by done. destruct (Z.eqb_spec ((activity_pos d - k) mod 50) (activity_pos d)) as [E|]; [|lia].
      exfalso. pose proof (Z.div_mod (activity_pos d - k) 50). lia.
Qed.

Lemma graph_same ws t d d' :
  activity d' = activity d -> activity_pos d' = activity_pos d -> last_tick d' = last_tick d ->
  graph ws t d -> graph ws t d'.
Proof. intros Ea Ep El []. split; rewrite ?Ea, ?Ep, ?El; done. Qed.

Lemma graph_mark ws t d e :
  Z.of_nat (length ws) < 2147483647 -> 0 <= t <= te_ticks e -> te_ticks e < 2147483648 -> graph ws t d ->
  graph (ws ++ [e]) (te_ticks e) (mark_tick e d).
Proof.
  intros Hn Ht He Hg. unfold mark_tick. pose proof (gr_last _ _ _ Hg) as Hl.
  destruct (Z.eqb_spec (last_tick d) (-1)) as [E|E].
  - rewrite i32_small, u32_small, Z.gtb_ltb, Z.ltb_irrefl by lia.
    apply (graph_event ws (set_graph (activity d) (activity_pos d) (te_ticks e) d)); try done; try lia.
    apply (graph_first ws t); try done; lia.
  - rewrite u32_small by lia. destruct (Z.gtb_spec (te_ticks e) (last_tick d)) as [Hgt|Hle].
    + destruct (advance _ _ _) as [act pos] eqn:Ea. rewrite (i32_small (te_ticks e)) by lia.
      apply (graph_event ws (set_graph act pos (te_ticks e) d)); try done; try lia.
      eapply graph_advance; try done; lia.
    + apply graph_event; try done; try lia. apply (graph_later _ t); [done|lia].
Qed.

Lemma graph_idle ws t o d up1 up2 d' cs :
  0 <= t -> t <= up1 <= up2 -> up2 < 2147483648 -> graph ws t d ->
  idle_round o d up1 up2 = Next d' cs -> graph ws up2 d'.
Proof.
  intros H0 Ht Hup Hg. unfold idle_round. destruct (_ && _); [done|].
  destruct (if _ && _ then _ else _) as [[] now] eqn:En; [done|].
  assert (now = up1 \/ now = up2) as Hnow by (destruct (_ && _); injection En; auto).
  pose proof (gr_last _ _ _ Hg) as Hl. destruct (Z.eqb_spec (last_tick d) (-1)) as [E|E].
  - rewrite Z.gtb_ltb, Z.ltb_irrefl. intros [= <- _].
    apply (graph_later _ now); [|lia]. apply (graph_first ws t); try done; lia.
  - destruct (Z.gtb_spec now (last_tick d)) as [Hgt|Hle].
    + destruct (advance _ _ _) as [act pos] eqn:Ea. intros [= <- _].
      apply (graph_later _ now); [|lia]. eapply graph_advance; try done; lia.
    + intros [= <- _]. apply (graph_later _ t); [|lia]. by apply (graph_same _ _ d).
Qed.

Lemma graph_loop o rs d hist t cs d' over :
  Z.of_nat (length (hist ++ rs)) < 2147483647 -> 0 <= t -> clocked o t rs ->
  graph (wanted o hist) t d -> loop o d rs = (cs, d', over) ->
  exists used rest t', rs = used ++ rest /\ graph (wanted o (hist ++ used)) t' d' /\ (over = false -> rest = []).
Proof.
  revert d hist t cs. induction rs as [|r rs IH]; intros d hist t cs Hn H0 Hc Hg; cbn [loop].
  { case_match; intros [= <- <- <-]; exists [], [], t; rewrite (app_nil_r hist); done. }
  destruct (negb (limit o =? 0) && negb (seen d <? limit o)).
  { intros [= <- <- <-]. exists [], (r :: rs), t. by rewrite (app_nil_r hist). }
  destruct (round o d r) as [cs1|d1 cs1] eqn:Er.
  { intros [= <- <- <-]. exists [], (r :: rs), t. by rewrite (app_nil_r hist). }
  destruct (loop o d1 rs) as [[cs2 d2] ov] eqn:El. intros [= <- <- <-].
  rewrite length_app in Hn. cbn [length] in Hn. pose proof (length_wanted o hist).
  assert (exists t1, 0 <= t1 /\ clocked o t1 rs /\ graph (wanted o (hist ++ [r])) t1 d1) as (t1 & H1 & Hc1 & Hg1).
  { destruct r as [|up1 up2|e]; cbn [round] in Er; [done| |]; cbn [clocked] in Hc.
    - destruct Hc as (Ht & Hup & Hc). exists up2. split_and!; [lia|done|].
      rewrite wanted_snoc, app_nil_r. by apply (graph_idle _ t o d up1 up2 d1 cs1).
    - unfold event_round in Er. change (want_event _ _ _ _) with (wants o e) in Er.
      destruct (wants o e) eqn:Hw; cbn [negb] in Er; injection Er as <- _.
      + destruct Hc as [Ht Hc]. exists (te_ticks e). split_and!; [lia|done|]. rewrite wanted_event by done.
        eapply graph_same; [..|apply (graph_mark _ t (count_shown e (count_total e d)))]; try lia;
          [unfold remember; by destruct (_ <? _) ..|]. by apply (graph_same _ _ d).
      + exists t. split_and!; [done|done|]. rewrite wanted_snoc. unfold wanted at 2. cbn.
        rewrite decide_False, app_nil_r by congruence. by apply (graph_same _ _ d). }
  destruct (IH d1 (hist ++ [r]) t1 cs2) as (used & rest & t' & -> & Hg' & Hov); try done.
  { rewrite !length_app. simpl. lia. }
  exists (r :: used), rest, t'. rewrite <- app_assoc in Hg'. done.
Qed.


(** The event-rate graph is right.  When the clock readings the program gets do not
    run backwards, the cell that stands k places before the current one in the ring
    of 50, for every k, holds the number of wanted events of the tick k before the
    last. *)
Theorem graph_counts_ticks (args : list (list Z)) (self : Z) (rs : list reply) cs d over :
  Z.of_nat (length rs) < 2147483647 ->
  let o := parse_args args false (default_options self) in
  clocked o 0 rs ->
  main args self rs = (cs, d, over) ->
  exists used rest, rs = used ++ rest /\ (over = false -> rest = []) /\
    length (activity d) = 50%nat /\ 0 <= activity_pos d < GRAPH_WIDTH /\
    forall k, 0 <= k < GRAPH_WIDTH ->
      cell (activity d) ((activity_pos d - k) mod GRAPH_WIDTH) = at_tick (last_tick d - k) (wanted o used).
Proof.
  intros Hn o Hc Hm. unfold main in Hm. fold o in Hm.
  destruct (loop o start rs) as [[cs' d0] ov] eqn:El. injection Hm as _ <- <-.
  destruct (graph_loop o rs start [] 0 cs' d0 ov) as (used & rest & t' & -> & [] & Hov); try done.
  { split; try done. intros k Hk. unfold cell, at_tick. cbn [activity start]. rewrite nth_lookup.
    destruct (replicate 50 0 !! _) eqn:E; [by apply lookup_replicate in E as [-> _] | done]. }
  exists used, rest. split_and!; try done; apply gr_pos0.
Qed.

(** Two events, of which the second is the dashboard's own. *)
Definition demo_event (seq pid : Z) : trace_event :=
  Trace_event seq 3 TRACE_TYPE_SYSCALL pid 16 1 0 (arr_safestrcpy (replicate 16 0) (lit "sh") 16)
    (arr_safestrcpy (replicate 16 0) (lit "write") 16) 0.
Definition demo_replies : list reply := [Event (demo_event 0 2); Event (demo_event 1 5); NoEvent 4 4].


Lemma graph_counts_ticks_witness :
  let '(_, d, _) := main [lit "4"] 5 demo_replies in length (activity d) = 50%nat.
Proof.
  destruct (main [lit "4"] 5 demo_replies) as [[cs d] over] eqn:E.
  destruct (graph_counts_ticks [lit "4"] 5 demo_replies cs d over) as (used & rest & _ & _ & Hl & _).
  - vm_compute. reflexivity.
  - vm_compute. repeat split; discriminate.
  - exact E.
  - exact Hl.
Defined.
