(* ===== verification/Textutils.v ===== *)
(** * Textutils: the user programs grep.c, wc.c and cat.c

    A C string is the list of its bytes before the NUL.  A file descriptor is what it
    will deliver: a list of segments, of which one read() returns the first, or as much
    of it as fits the count (a regular file is one segment, a pipe or the console
    several), and possibly a read() that fails.  What a program writes is the list of
    its write() and printf() calls. *)

From S2P Require Import Prelude Cstring.

Inductive seg := Data (s : list Z) | Error.
Definition fd := list seg.

(** What read(fd, buf, k) returns: bytes (none at the end of the input, or for k = 0),
    or an error. *)
Definition read (k : nat) (f : fd) : option (list Z) * fd :=
  match f with
  | [] => (Some [], [])
  | Error :: f => (None, f)
  | Data s :: f => if (length s <=? k)%nat then (Some s, f) else (Some (take k s), Data (drop k s) :: f)
  end.

(** An upper bound of the number of read() calls that return bytes. *)
Definition reads (f : fd) : nat :=
  sum_list_with (fun s => match s with Data s => S (length s) | Error => 1 end)%nat f.

Module Grep.

(** [matchstar c re text], with the matcher of [re] as a parameter: the loop tries it
    at each position reached by characters that [c] stands for. *)
Fixpoint matchstar (matchhere : list Z -> bool) (c : Z) (text : list Z) : bool :=
  if matchhere text then true else
  match text with
  | [] => false
  | t :: text => if (t =? c) || (c =? 46) then matchstar matchhere c text else false
  end.

Fixpoint matchhere (re text : list Z) : bool :=
  match re with
  | [] => true
  | c :: re1 =>
    let here :=
      if (c =? 36) && (match re1 with [] => true | _ => false end) then
        match text with [] => true | _ => false end
      else
        match text with
        | [] => false
        | t :: text => if (c =? 46) || (c =? t) then matchhere re1 text else false
        end in
    match re1 with
    | [] => here
    | s :: re2 => if s =? 42 then matchstar (matchhere re2) c text else here
    end
  end.

(** The search at every position of the text, its end included. *)
Fixpoint match_any (re text : list Z) : bool :=
  if matchhere re text then true else
  match text with [] => false | _ :: text => match_any re text end.

Definition match_ (re text : list Z) : bool :=
  match re with
  | c :: re' => if c =? 94 then matchhere re' text else match_any re text
  | [] => match_any re text
  end.

(** strchr(p, '\n'): the line at p and what follows its newline; the search ends at a
    NUL byte. *)
Fixpoint find_line (p : list Z) : option (list Z * list Z) :=
  match p with
  | [] => None
  | c :: p =>
    if c =? 0 then None
    else if c =? 10 then Some ([], p)
    else match find_line p with Some (l, r) => Some (c :: l, r) | None => None end
  end.

(** The inner loop: the write() calls, and the bytes from p on when no newline is left. *)
Fixpoint scan_lines (fuel : nat) (pattern p : list Z) : list (list Z) * list Z :=
  match fuel with
  | O => ([], p)
  | S fuel =>
    match find_line p with
    | None => ([], p)
    | Some (l, p) =>
      let '(out, p) := scan_lines fuel pattern p in
      (if match_ pattern l then (l ++ [10]) :: out else out, p)
    end
  end.

(** [buf] is what is left of the last round (its length is m), in a buffer of 1024.
    The rounds end with the input; [None]: more rounds than the bound. *)
Fixpoint grep_loop (fuel : nat) (pattern buf : list Z) (f : fd) : option (list (list Z)) :=
  match fuel with
  | O => None
  | S fuel =>
    match read (1023 - length buf) f with
    | (None, _) | (Some [], _) => Some []
    | (Some bytes, f) =>
      let buf := buf ++ bytes in
      let '(out, p) := scan_lines (S (length buf)) pattern buf in
      let buf := if (length p =? length buf)%nat then [] else p in
      app out <$> grep_loop fuel pattern buf f
    end
  end.

Definition grep (pattern : list Z) (f : fd) : option (list (list Z)) :=
  grep_loop (S (reads f)) pattern [] f.

End Grep.

Module Wc.

Record totals := Totals { l : Z; w : Z; c : Z; inword : bool }.

(** strchr(whitespace, b) also finds the NUL that ends the string in other C libraries;
    this one stops before it. *)
Definition is_space (b : Z) : bool :=
  match strchr 6 (at_list 1 (lit " " ++ [13; 9; 10; 11]) (fun _ => 0)) 1 b with Some 0 => false | _ => true end.

Definition count (t : totals) (b : Z) : totals :=
  let lines := if b =? 10 then i32 (l t + 1) else l t in
  let chars := i32 (c t + 1) in
  if is_space b then Totals lines (w t) chars false
  else if negb (inword t) then Totals lines (i32 (w t + 1)) chars true
  else Totals lines (w t) chars (inword t).

(** The totals, or [None] for a read error. *)
Fixpoint wc_loop (fuel : nat) (t : totals) (f : fd) : option (option totals) :=
  match fuel with
  | O => None
  | S fuel =>
    match read 512 f with
    | (None, _) => Some None
    | (Some [], _) => Some (Some t)
    | (Some bytes, f) => wc_loop fuel (fold_left count bytes t) f
    end
  end.
Definition wc (f : fd) : option (option totals) := wc_loop (S (reads f)) (Totals 0 0 0 false) f.

End Wc.

Module Cat.

(** [write] is what write(1, buf, n) returns for the bytes it is given.  The result is what
    the program writes, and whether it goes on: after an error it exits. *)
Fixpoint cat_loop (write : list Z -> Z) (fuel : nat) (f : fd) : option (list (list Z) * bool) :=
  match fuel with
  | O => None
  | S fuel =>
    match read 512 f with
    | (None, _) => Some ([lit "cat: read error" ++ [10]], false)
    | (Some [], _) => Some ([], true)
    | (Some bytes, f) =>
      if negb (write bytes =? Z.of_nat (length bytes)) then Some ([bytes; lit "cat: write error" ++ [10]], false)
      else match cat_loop write fuel f with Some (out, ok) => Some (bytes :: out, ok) | None => None end
    end
  end.
Definition cat (write : list Z -> Z) (f : fd) : option (list (list Z) * bool) := cat_loop write (S (reads f)) f.

End Cat.

(** ** What a pattern means *)

Module Regexp.

(** A pattern is a sequence of characters, any-characters and repetitions of these,
    which a final $ anchors at the end of the line and an initial ^ at its start. *)
Inductive atom := AnyChar | Char (c : Z).
Inductive item := One (a : atom) | Star (a : atom).

Definition atom_of (c : Z) : atom := if c =? 46 then AnyChar else Char c.
Definition stands_for (a : atom) (t : Z) : Prop := match a with AnyChar => True | Char c => t = c end.

Definition item_word (i : item) (u : list Z) : Prop :=
  match i with
  | One a => exists t, u = [t] /\ stands_for a t
  | Star a => Forall (stands_for a) u
  end.

(** The items of a pattern without ^, and whether it ends with $. *)
Fixpoint items (re : list Z) : list item * bool :=
  match re with
  | [] => ([], false)
  | c :: re1 =>
    let one := if (c =? 36) && (match re1 with [] => true | _ => false end) then ([], true)
               else let '(its, e) := items re1 in (One (atom_of c) :: its, e) in
    match re1 with
    | [] => one
    | s :: re2 => if s =? 42 then let '(its, e) := items re2 in (Star (atom_of c) :: its, e) else one
    end
  end.

(** The pattern matches at the start of the text. *)
Definition matches_here (re text : list Z) : Prop :=
  exists us rest, text = concat us ++ rest /\ Forall2 item_word (items re).1 us /\
    ((items re).2 = true -> rest = []).

(** The pattern matches somewhere in the text. *)
Definition matches (re text : list Z) : Prop :=
  match re with
  | c :: re' => if c =? 94 then matches_here re' text
                else exists pre rest, text = pre ++ rest /\ matches_here re rest
  | [] => True
  end.

End Regexp.

Import Grep Regexp.

Lemma stands_for_spec c t : (c =? 46) || (c =? t) = true <-> stands_for (atom_of c) t.
Proof.
  unfold atom_of. destruct (Z.eqb_spec c 46), (Z.eqb_spec c t); simpl; split; intros; try done; congruence.
Qed.

Lemma matchstar_spec f c text :
  matchstar f c text = true <->
  exists u rest, text = u ++ rest /\ Forall (stands_for (atom_of c)) u /\ f rest = true.
Proof.
  induction text as [|t text IH]; cbn [matchstar].
  - destruct (f []) eqn:E; split; try done.
    + intros _. by exists [], [].
    + intros (u & rest & Hu & _ & Hf). symmetry in Hu. apply app_nil in Hu as [-> ->]. congruence.
  - destruct (f (t :: text)) eqn:E; [split; [intros _; by exists [], (t :: text) | done]|].
    assert ((t =? c) || (c =? 46) = true <-> stands_for (atom_of c) t) as Ht.
    { rewrite <- stands_for_spec, orb_comm. by rewrite (Z.eqb_sym t c). }
    destruct ((t =? c) || (c =? 46)).
    + rewrite IH. split.
      * intros (u & rest & -> & Hu & Hf). exists (t :: u), rest. split_and!; try done. constructor; [by apply Ht | done].
      * intros ([|t' u] & rest & Hu & Hs & Hf); [simpl in Hu; subst; congruence|].
        injection Hu as -> ->. inversion Hs; subst. by exists u, rest.
    + split; [done|]. intros ([|t' u] & rest & Hu & Hs & Hf); [simpl in Hu; subst; congruence|].
      injection Hu as -> ->. inversion Hs; subst. by apply Ht.
Qed.

Lemma matches_here_one c re1 text :
  items (c :: re1) = (let '(its, e) := items re1 in (One (atom_of c) :: its, e)) ->
  matches_here (c :: re1) text <->
  match text with [] => False | t :: text => stands_for (atom_of c) t /\ matches_here re1 text end.
Proof.
  intros Ei. unfold matches_here. rewrite Ei. destruct (items re1) as [its e]. cbn [fst snd]. split.
  - intros (us & rest & -> & Hus & He). inversion Hus as [|? u ? us' Hu Hus']; subst.
    destruct Hu as (t & -> & Ht). cbn. split; [done|]. by exists us', rest.
  - destruct text as [|t text]; [done|]. intros (Ht & us & rest & -> & Hus & He).
    exists ([t] :: us), rest. split_and!; try done. constructor; [|done]. by exists t.
Qed.

Lemma matches_here_star c re2 text :
  matches_here (c :: 42 :: re2) text <->
  exists u rest, text = u ++ rest /\ Forall (stands_for (atom_of c)) u /\ matches_here re2 rest.
Proof.
  unfold matches_here. cbn [items]. rewrite Z.eqb_refl. destruct (items re2) as [its e]. cbn [fst snd]. split.
  - intros (us & rest & -> & Hus & He). inversion Hus as [|? u ? us' Hu Hus']; subst.
    exists u, (concat us' ++ rest). split_and!; [by cbn; rewrite <- app_assoc | done|]. by exists us', rest.
  - intros (u & r & -> & Hu & us & rest & -> & Hus & He).
    exists (u :: us), rest. split_and!; [by cbn; rewrite <- app_assoc | by constructor | done].
Qed.

Lemma matchhere_spec re text : matchhere re text = true <-> matches_here re text.
Proof.
  revert text. induction re as [re IH] using (induction_ltof1 _ (@length Z)). intros text.
  unfold ltof in IH. destruct re as [|c [|s re2]].
  - split; [intros _; by exists [], text | done].
  - cbn [matchhere]. destruct (Z.eqb_spec c 36) as [->|Hc]; cbn [andb].
    + split.
      * intros H. exists [], text. split_and!; try done. by destruct text.
      * intros (us & rest & -> & Hus & He). inversion Hus. by rewrite (He eq_refl).
    + rewrite matches_here_one by (cbn; by rewrite (proj2 (Z.eqb_neq c 36) Hc)).
      destruct text as [|t text]; [done|]. rewrite <- stands_for_spec, <- (IH []) by (simpl; lia).
      by destruct (_ || _); split; intros; naive_solver.
  - destruct (Z.eqb_spec s 42) as [->|Hs].
    + rewrite matches_here_star. cbn [matchhere]. rewrite Z.eqb_refl, matchstar_spec.
      by setoid_rewrite (IH re2 ltac:(simpl; lia)).
    + assert (items (c :: s :: re2) = let '(its, e) := items (s :: re2) in (One (atom_of c) :: its, e)) as Ei.
      { cbn [items]. rewrite (proj2 (Z.eqb_neq s 42) Hs), andb_false_r. done. }
      rewrite (matches_here_one _ _ _ Ei). destruct text as [|t text].
      * cbn [matchhere]. by rewrite (proj2 (Z.eqb_neq s 42) Hs), andb_false_r.
      * rewrite <- stands_for_spec, <- (IH (s :: re2)) by (simpl; lia).
        change (matchhere (c :: s :: re2) (t :: text)) with
          (let here := if (c =? 36) && false then false else
             if (c =? 46) || (c =? t) then matchhere (s :: re2) text else false in
           if s =? 42 then matchstar (matchhere re2) c (t :: text) else here).
        rewrite (proj2 (Z.eqb_neq s 42) Hs), andb_false_r.
        by destruct (_ || _); split; intros; naive_solver.
Qed.

Lemma match_any_spec re text :
  match_any re text = true <-> exists pre rest, text = pre ++ rest /\ matches_here re rest.
Proof.
  setoid_rewrite <- matchhere_spec. induction text as [|t text IH]; cbn [match_any].
  - destruct (matchhere re []) eqn:E; split; try done.
    + intros _. by exists [], [].
    + intros (pre & rest & Hp & Hm). symmetry in Hp. apply app_nil in Hp as [-> ->]. congruence.
  - destruct (matchhere re (t :: text)) eqn:E; [split; [intros _; by exists [], (t :: text) | done]|].
    rewrite IH. split.
    + intros (pre & rest & -> & Hm). by exists (t :: pre), rest.
    + intros ([|t' pre] & rest & Hp & Hm); [simpl in Hp; subst; congruence|].
      injection Hp as -> ->. by exists pre, rest.
Qed.

(** C37: the matcher of grep decides the language of patterns: match says yes for exactly
    the lines in which some stretch is a word of the pattern, a stretch that starts
    the line when the pattern begins with ^ and ends it when the pattern ends with $.
    The recursion ends on every pattern and text. *)
Theorem match_decides_pattern (re text : list Z) : match_ re text = true <-> matches re text.
Proof.
  unfold match_, matches. destruct re as [|c re]; [by destruct text|].
  destruct (c =? 94); [apply matchhere_spec | apply match_any_spec].
Qed.

(** ** The lines of a file *)

Definition text_of (ls : list (list Z)) : list Z := concat (map (fun l => l ++ [10]) ls).
(** A line that fits the buffer, without its newline. *)
Definition line_ok (l : list Z) : Prop := Forall (fun c => c <> 0 /\ c <> 10) l /\ (length l <= 1022)%nat.
Definition found (pattern : list Z) (ls : list (list Z)) : list (list Z) :=
  map (fun l => l ++ [10]) (filter (fun l => match_ pattern l = true) ls).

Lemma find_line_found l p : Forall (fun c => c <> 0 /\ c <> 10) l -> find_line (l ++ 10 :: p) = Some (l, p).
Proof.
  induction 1 as [|c l [H0 H10] Hl IH]; [done|]. cbn [app find_line].
  rewrite (proj2 (Z.eqb_neq c 0) H0), (proj2 (Z.eqb_neq c 10) H10). by rewrite IH.
Qed.

Lemma find_line_none p : Forall (fun c => c <> 0 /\ c <> 10) p -> find_line p = None.
Proof.
  induction 1 as [|c l [H0 H10] Hl IH]; [done|]. cbn [find_line].
  rewrite (proj2 (Z.eqb_neq c 0) H0), (proj2 (Z.eqb_neq c 10) H10). by rewrite IH.
Qed.

(** A start of the text is scanned as its complete lines and a piece of the next one. *)
Lemma scan_text fuel pattern b r ls :
  Forall line_ok ls -> (length b < fuel)%nat -> b ++ r = text_of ls ->
  exists ls1 ls2 p, ls = ls1 ++ ls2 /\ scan_lines fuel pattern b = (found pattern ls1, p) /\
    p ++ r = text_of ls2 /\ b = text_of ls1 ++ p /\ Forall (fun c => c <> 0 /\ c <> 10) p /\ (length p <= 1022)%nat.
Proof.
  revert fuel b. induction ls as [|l ls IH]; intros fuel b Hls Hf Eb.
  { apply app_nil in Eb as [-> ->]. destruct fuel; [lia|]. exists [], [], []. split_and!; try done. simpl. lia. }
  inversion Hls as [|? ? [Hl Hlen] Hls']; subst. destruct fuel as [|fuel]; [lia|].
  change (text_of (l :: ls)) with ((l ++ [10]) ++ text_of ls) in Eb. rewrite <- app_assoc in Eb. cbn [app] in Eb.
  destruct (decide (length b <= length l)%nat) as [Hs|Hs].
  - assert (exists l', l = b ++ l') as [l' ->].
    { exists (drop (length b) l). rewrite <- (take_drop (length b) l) at 1. f_equal.
      apply (f_equal (take (length b))) in Eb. rewrite take_app_length, take_app_le in Eb by done. done. }
    apply Forall_app in Hl as [Hb Hl']. exists [], ((b ++ l') :: ls), b.
    cbn [scan_lines]. rewrite (find_line_none b) by done. split_and!; try done.
    + rewrite Eb. unfold text_of. cbn. by rewrite <- !app_assoc.
    + rewrite length_app in Hlen. lia.
  - assert (exists b', b = l ++ 10 :: b') as [b' ->].
    { exists (drop (S (length l)) b). apply (f_equal (take (S (length l)))) in Eb.
      rewrite take_app_le in Eb by lia. rewrite take_app_ge in Eb by lia.
      replace (S (length l) - length l)%nat with 1%nat in Eb by lia.
      rewrite <- (take_drop (S (length l)) b) at 1. rewrite Eb, <- app_assoc. done. }
    rewrite <- app_assoc in Eb. apply app_inv_head in Eb. injection Eb as Eb.
    rewrite length_app in Hf. cbn [length] in Hf.
    destruct (IH fuel b' Hls' ltac:(lia) Eb) as (ls1 & ls2 & p & -> & Es & Er & -> & Hp & Hpl).
    exists (l :: ls1), ls2, p. split_and!; try done.
    + cbn [scan_lines]. rewrite find_line_found by done. rewrite Es. unfold found. rewrite filter_cons.
      destruct (match_ pattern l) eqn:Em; [rewrite decide_True | rewrite decide_False]; done.
    + unfold text_of. cbn. by rewrite <- !app_assoc.
Qed.

Lemma found_app pattern ls1 ls2 : found pattern (ls1 ++ ls2) = found pattern ls1 ++ found pattern ls2.
Proof. unfold found. by rewrite filter_app, map_app. Qed.

Lemma text_of_nil ls : Forall (fun c => c <> 0 /\ c <> 10) (text_of ls) -> ls = [].
Proof.
  destruct ls as [|l ls]; [done|]. unfold text_of. cbn. rewrite <- app_assoc, Forall_app. cbn [app].
  intros [_ Hl]. inversion Hl as [|? ? [_ ?]]. done.
Qed.

(** The rounds on one segment: its last lines are in [buf] and in the rest [s]. *)
Lemma grep_segment fuel pattern buf s f ls :
  Forall line_ok ls -> buf ++ s = text_of ls -> s <> [] -> (length buf <= 1022)%nat ->
  (length s < fuel)%nat ->
  exists used, (used <= length s)%nat /\
    grep_loop fuel pattern buf (Data s :: f) = app (found pattern ls) <$> grep_loop (fuel - used) pattern [] f.
Proof.
  revert fuel buf ls. induction s as [s IH] using (induction_ltof1 _ (@length Z)). unfold ltof in IH.
  intros fuel buf ls Hls Eb Hs Hbuf Hf. destruct fuel as [|fuel]; [lia|].
  cbn [grep_loop read]. destruct (Nat.leb_spec (length s) (1023 - length buf)) as [Hk|Hk].
  - destruct s as [|c s']; [done|]. set (s := c :: s') in *.
    destruct (scan_text (S (length (buf ++ s))) pattern (buf ++ s) [] ls) as (ls1 & ls2 & p & -> & Es & Er & Ep & Hp & _);
      [done|lia|by rewrite app_nil_r|].
    rewrite app_nil_r in Er. rewrite Er in Hp. apply text_of_nil in Hp as ->. cbn in Er. subst p.
    rewrite Es. cbn [length]. destruct (Nat.eqb_spec 0 (length (buf ++ s))) as [E0|_].
    { rewrite length_app in E0. unfold s in E0. simpl in E0. lia. }
    exists 1%nat. split; [unfold s; simpl; lia|]. rewrite app_nil_r. simpl. by rewrite Nat.sub_0_r.
  - set (k := (1023 - length buf)%nat) in *. destruct (take k s) as [|c t] eqn:Et.
    { apply (f_equal length) in Et. rewrite length_take in Et. simpl in Et. lia. }
    rewrite <- Et. clear c t Et.
    assert (length (buf ++ take k s) = 1023%nat) as Hlen by (rewrite length_app, length_take; lia).
    destruct (scan_text (S (length (buf ++ take k s))) pattern (buf ++ take k s) (drop k s) ls)
      as (ls1 & ls2 & p & -> & Es & Er & Ep & Hp & Hpl); [done|lia|by rewrite <- app_assoc, take_drop|].
    rewrite Es. destruct (Nat.eqb_spec (length p) (length (buf ++ take k s))) as [|_]; [lia|].
    apply Forall_app in Hls as [_ Hls2]. assert (length (drop k s) = length s - k)%nat as Hd by apply length_drop.
    assert (drop k s <> []) as Hne by (intros E; rewrite E in Hd; simpl in Hd; lia).
    destruct (IH (drop k s) ltac:(lia) fuel p ls2 Hls2 Er Hne Hpl ltac:(lia)) as (used & Hu & ->).
    exists (S used). split; [lia|]. rewrite found_app. cbn [Nat.sub].
    destruct (grep_loop (fuel - used) pattern [] f); cbn; [by rewrite app_assoc | done].
Qed.

Lemma grep_segments fuel pattern lss :
  Forall (fun ls => Forall line_ok ls /\ ls <> []) lss ->
  (reads (map (fun ls => Data (text_of ls)) lss) < fuel)%nat ->
  grep_loop fuel pattern [] (map (fun ls => Data (text_of ls)) lss) = Some (found pattern (concat lss)).
Proof.
  intros H. revert fuel. induction H as [|ls lss [Hls Hne] H IH]; intros fuel Hf.
  { destruct fuel; [cbn in Hf; lia | done]. }
  unfold reads in Hf. cbn [map sum_list_with] in Hf. fold (reads (map (fun ls => Data (text_of ls)) lss)) in Hf.
  cbn [map concat]. destruct (grep_segment fuel pattern [] (text_of ls) (map (fun ls => Data (text_of ls)) lss) ls)
    as (used & Hu & ->); try done; [|simpl; lia|lia|].
  { intros E. apply Hne, text_of_nil. rewrite E. constructor. }
  rewrite IH by lia. cbn. by rewrite found_app.
Qed.

(** grep terminates and writes exactly the matching lines, in order and whole, of an
    input that consists of lines shorter than its buffer (without NUL bytes), however long
    it is and wherever the reads of at most the buffer's room cut it, provided every
    segment that a single read could deliver ends at the end of a line.  (A regular
    file is one segment; a terminal delivers a line at a time.) *)
Theorem grep_prints_matching_lines (pattern : list Z) (lss : list (list (list Z))) :
  Forall (fun ls => Forall line_ok ls /\ ls <> []) lss ->
  grep pattern (map (fun ls => Data (text_of ls)) lss) =
    Some (map (fun l => l ++ [10]) (filter (fun l => match_ pattern l = true) (concat lss))).
Proof. intros H. apply grep_segments; [done|lia]. Qed.

Lemma grep_prints_matching_lines_witness :
  grep (lit "^a*b") (map (fun ls => Data (text_of ls)) [[lit "aab"; lit "cab"]; [lit "b"]]) =
    Some [lit "aab" ++ [10]; lit "b" ++ [10]].
Proof.
  rewrite (grep_prints_matching_lines (lit "^a*b") [[lit "aab"; lit "cab"]; [lit "b"]]).
  - vm_compute. reflexivity.
  - repeat (constructor; [split; [repeat (constructor; [split; [repeat constructor; discriminate | simpl; lia]|]); constructor | discriminate]|]).
    constructor.
Defined.

(** A segment that does not end at the end of a line is lost: the buffer holds no newline, and grep
    starts afresh. *)
Example grep_loses_split_line :
  grep (lit "ab") [Data (lit "a"); Data (lit "b" ++ [10])] = Some [].
Proof. vm_compute. reflexivity. Qed.

(** ** cat and wc *)

(** The bytes that a descriptor delivers, when no read() fails. *)
Fixpoint contents (f : fd) : option (list Z) :=
  match f with
  | [] => Some []
  | Error :: _ => None
  | Data [] :: _ => None
  | Data s :: f => app s <$> contents f
  end.

(** A read() that returns bytes takes them from the contents, and leaves less to read. *)
Lemma read_contents k f t : (0 < k)%nat -> contents f = Some t ->
  match read k f with
  | (Some [], _) => t = []
  | (Some b, f') => exists t', t = b ++ t' /\ contents f' = Some t' /\ (reads f' < reads f)%nat
  | (None, _) => False
  end.
Proof.
  intros Hk Hc. destruct f as [|[[|c s]|] f]; cbn [contents read] in *; try done; [by injection Hc as <-|].
  apply fmap_Some in Hc as (t' & Hc & ->). destruct (Nat.leb_spec (length (c :: s)) k) as [Hl|Hl].
  - exists t'. split_and!; [done|done|]. unfold reads. cbn [sum_list_with length]. lia.
  - destruct k as [|k]; [lia|]. cbn [take drop length] in *. exists (drop k s ++ t'). split_and!.
    + cbn [app]. f_equal. by rewrite app_assoc, take_drop.
    + destruct (drop k s) as [|d s'] eqn:Ed; [apply (f_equal length) in Ed; rewrite length_drop in Ed; cbn in Ed; lia|]. cbn [contents]. by rewrite Hc.
    + unfold reads. cbn [sum_list_with length]. rewrite length_drop. lia.
Qed.

(** cat copies what it reads: the writes make up the contents of the input. *)
Lemma cat_loop_copies write fuel f t : contents f = Some t -> (reads f < fuel)%nat ->
  (forall b, write b = Z.of_nat (length b)) -> exists out, Cat.cat_loop write fuel f = Some (out, true) /\ concat out = t.
Proof.
  intros Hc Hf Hw. revert f t Hc Hf. induction fuel as [|fuel IH]; intros f t Hc Hf; [lia|]. cbn [Cat.cat_loop].
  pose proof (read_contents 512 f t ltac:(lia) Hc) as Hr. destruct (read 512 f) as [[[|c b]|] f']; [|destruct Hr as (t' & -> & Hc' & Hl)|done].
  - exists []. by rewrite Hr.
  - destruct (IH f' t' Hc' ltac:(lia)) as (out & E & <-). exists ((c :: b) :: out). rewrite Hw, Z.eqb_refl. cbn [negb]. by rewrite E.
Qed.

Lemma cat_copies write f t : contents f = Some t -> (forall b, write b = Z.of_nat (length b)) ->
  exists out, Cat.cat write f = Some (out, true) /\ concat out = t.
Proof. intros Hc Hw. apply cat_loop_copies; [done|lia|done]. Qed.

(** wc counts every byte of the input once, however read() cuts it. *)
Lemma wc_loop_counts fuel f t a : contents f = Some t -> (reads f < fuel)%nat ->
  Wc.wc_loop fuel a f = Some (Some (fold_left Wc.count t a)).
Proof.
  revert f t a. induction fuel as [|fuel IH]; intros f t a Hc Hf; [lia|]. cbn [Wc.wc_loop].
  pose proof (read_contents 512 f t ltac:(lia) Hc) as Hr. destruct (read 512 f) as [[[|c b]|] f']; [by rewrite Hr|destruct Hr as (t' & -> & Hc' & Hl)|done].
  rewrite (IH f' t' _ Hc' ltac:(lia)). by rewrite fold_left_app.
Qed.

(** The number of words: the places where a byte that is no blank follows a blank, or the start. *)
Fixpoint words_from (inword : bool) (t : list Z) : nat :=
  match t with
  | [] => 0
  | b :: t => if Wc.is_space b then words_from false t else ((if inword then 0 else 1) + words_from true t)%nat
  end.

Lemma words_from_length t i : (words_from i t <= length t)%nat.
Proof. revert i. induction t as [|b t IH]; intros i; [done|]. cbn [words_from length]. pose proof (IH false). pose proof (IH true). destruct (Wc.is_space b), i; lia. Qed.

Lemma count_totals t a : Z.of_nat (length t) < 2147483648 -> 0 <= Wc.l a -> 0 <= Wc.w a -> 0 <= Wc.c a ->
  Wc.l a + Z.of_nat (length t) < 2147483648 -> Wc.w a + Z.of_nat (length t) < 2147483648 -> Wc.c a + Z.of_nat (length t) < 2147483648 ->
  let r := fold_left Wc.count t a in
  Wc.l r = Wc.l a + Z.of_nat (length (filter (fun b => b = 10) t)) /\ Wc.w r = Wc.w a + Z.of_nat (words_from (Wc.inword a) t) /\
  Wc.c r = Wc.c a + Z.of_nat (length t).
Proof.
  revert a. induction t as [|b t IH]; intros a Hn H1 H2 H3 H4 H5 H6; [cbn; lia|]. cbn [fold_left length words_from] in *. unfold Wc.count at 2 4 6.
  rewrite !i32_small by lia. rewrite filter_cons. destruct (Z.eqb_spec b 10) as [Hb|Hb]; [rewrite decide_True by done|rewrite decide_False by done];
    destruct (Wc.is_space b), (Wc.inword a); cbn [negb];
    (match goal with |- context [fold_left Wc.count t ?a'] => destruct (IH a') as (I1 & I2 & I3); cbn [Wc.l Wc.w Wc.c Wc.inword length] in *; [lia..|] end);
    split_and!; lia.
Qed.

(** wc reports the newlines, the words and the bytes of an input shorter than 2 GB. *)
Lemma wc_counts f t : contents f = Some t -> Z.of_nat (length t) < 2147483648 ->
  exists r, Wc.wc f = Some (Some r) /\ Wc.l r = Z.of_nat (length (filter (fun b => b = 10) t)) /\
    Wc.w r = Z.of_nat (words_from false t) /\ Wc.c r = Z.of_nat (length t).
Proof.
  intros Hc Hn. exists (fold_left Wc.count t (Wc.Totals 0 0 0 false)). split; [apply wc_loop_counts; [done|lia]|].
  apply (count_totals t (Wc.Totals 0 0 0 false)); cbn; lia.
Qed.
