(* ===== verification/Shell.v ===== *)
(** * Shell: the user program sh.c

    A line is the list of the bytes before its NUL, and a pointer into it is an offset:
    the state of a parser is the pointer *ps.  Reading at the end of the line gives the
    NUL.  The shell's panic() prints its message and exits: it is the outcome [Panic].
    Running a command is a tree of system calls, with a branch for each result. *)

From S2P Require Import Prelude Machine Cstring Ktrace Layout.
#[local] Open Scope prog_scope.

Module Sh.

Definition MAXARGS : nat := 10.
Definition O_RDONLY : Z := 0.
Definition O_WRONLY : Z := 1.
Definition O_RDWR : Z := 2.
Definition O_CREATE : Z := 512.

(** A parsed command.  A string is given by the pointers to its first character and
    to the one after its last; the argument vector ends at its null pointer. *)
Inductive cmd :=
| Execcmd (argv : list (nat * nat))
| Redircmd (c : cmd) (file efile : nat) (mode fd : Z)
| Pipecmd (left right : cmd)
| Listcmd (left right : cmd)
| Backcmd (c : cmd).

Definition whitespace : list Z := [32; 9; 13; 10; 11].
Definition symbols : list Z := lit "<|>&;()".

(** strchr(l, c) != 0, for a character that is not NUL. *)
Definition has (l : list Z) (c : Z) : bool := existsb (Z.eqb c) l.
Definition plain (c : Z) : bool := negb (has whitespace c) && negb (has symbols c).

Definition TOK_WORD : Z := 97.
Definition TOK_APPEND : Z := 43.

Section Parse.
Context (line : list Z).

Definition es : nat := length line.
Definition at_ (s : nat) : Z := nth s line 0.

(** while(s < es && f( *s)) s++, for [n] = es - s. *)
Fixpoint skip_while (f : Z -> bool) (n s : nat) : nat :=
  match n with
  | O => s
  | S n => if f (at_ s) then skip_while f n (S s) else s
  end.
Definition skip_space (s : nat) : nat := skip_while (has whitespace) (es - s) s.

(** The token, and the pointers q and eq around its text. *)
Definition gettoken : prog nat (Z * nat * nat) := fun s =>
  let s := skip_space s in
  let q := s in
  let c := at_ s in
  let '(tok, s) :=
    if c =? 0 then (0, s)
    else if has (lit "|();&<") c then (c, S s)
    else if c =? 62 then if at_ (S s) =? 62 then (TOK_APPEND, S (S s)) else (62, S s)
    else (TOK_WORD, skip_while plain (es - s) s) in
  Ret (tok, q, s) (skip_space s).

Definition peek (toks : list Z) : prog nat bool := fun s =>
  let s := skip_space s in
  Ret (negb (at_ s =? 0) && has toks (at_ s)) s.

(** The while loops of the parsers, with a bound on their rounds. *)
Fixpoint back_loop (fuel : nat) (c : cmd) : prog nat cmd :=
  match fuel with
  | O => fun s => NoFuel s
  | S fuel =>
    b <- peek (lit "&");;
    if b : bool then gettoken;;; back_loop fuel (Backcmd c) else ret c
  end.

Fixpoint parseredirs (fuel : nat) (c : cmd) : prog nat cmd :=
  match fuel with
  | O => fun s => NoFuel s
  | S fuel =>
    b <- peek (lit "<>");;
    if b : bool then
      t <- gettoken;;
      w <- gettoken;;
      let '(tok, _, _) := t in
      let '(word, q, eq) := w in
      if negb (word =? TOK_WORD) then panic "missing file for redirection" else
      parseredirs fuel
        (if tok =? 60 then Redircmd c q eq O_RDONLY 0
         else if tok =? 62 then Redircmd c q eq (Z.lor O_WRONLY O_CREATE) 1
         else if tok =? TOK_APPEND then Redircmd c q eq (Z.lor O_WRONLY O_CREATE) 1
         else c)
    else ret c
  end.

(** The exec command that parseexec fills in is the innermost one of the command that
    the redirections have been wrapped around. *)
Fixpoint add_arg (arg : nat * nat) (c : cmd) : cmd :=
  match c with
  | Execcmd argv => Execcmd (argv ++ [arg])
  | Redircmd c file efile mode fd => Redircmd (add_arg arg c) file efile mode fd
  | c => c
  end.

Fixpoint args_loop (fuel : nat) (argc : nat) (c : cmd) : prog nat cmd :=
  match fuel with
  | O => fun s => NoFuel s
  | S fuel =>
    b <- peek (lit "|)&;");;
    if b : bool then ret c else
    t <- gettoken;;
    let '(tok, q, eq) := t in
    if tok =? 0 then ret c else
    if negb (tok =? TOK_WORD) then panic "syntax" else
    let c := add_arg (q, eq) c in
    let argc := S argc in
    if (MAXARGS <=? argc)%nat then panic "too many args" else
    c <- parseredirs fuel c;;
    args_loop fuel argc c
  end.

Fixpoint parseline (fuel : nat) : prog nat cmd :=
  match fuel with
  | O => fun s => NoFuel s
  | S fuel =>
    c <- parsepipe fuel;;
    c <- back_loop fuel c;;
    b <- peek (lit ";");;
    if b : bool then gettoken;;; r <- parseline fuel;; ret (Listcmd c r) else ret c
  end
with parsepipe (fuel : nat) : prog nat cmd :=
  match fuel with
  | O => fun s => NoFuel s
  | S fuel =>
    c <- parseexec fuel;;
    b <- peek (lit "|");;
    if b : bool then gettoken;;; r <- parsepipe fuel;; ret (Pipecmd c r) else ret c
  end
with parseexec (fuel : nat) : prog nat cmd :=
  match fuel with
  | O => fun s => NoFuel s
  | S fuel =>
    b <- peek (lit "(");;
    if b : bool then parseblock fuel else
    c <- parseredirs fuel (Execcmd []);;
    args_loop fuel 0 c
  end
with parseblock (fuel : nat) : prog nat cmd :=
  match fuel with
  | O => fun s => NoFuel s
  | S fuel =>
    b <- peek (lit "(");;
    if negb b then panic "parseblock" else
    gettoken;;;
    c <- parseline fuel;;
    b <- peek (lit ")");;
    if negb b then panic "syntax - missing )" else
    gettoken;;;
    parseredirs fuel c
  end.

End Parse.

(** [*p = 0] in the buffer that holds the line and its NUL. *)
Definition put_nul (p : nat) (buf : list Z) : list Z := <[p := 0]> buf.

Fixpoint nulterminate (c : cmd) (buf : list Z) : list Z :=
  match c with
  | Execcmd argv => fold_left (fun buf a => put_nul (snd a) buf) argv buf
  | Redircmd c _ efile _ _ => put_nul efile (nulterminate c buf)
  | Pipecmd l r | Listcmd l r => nulterminate r (nulterminate l buf)
  | Backcmd c => nulterminate c buf
  end.

(** The command and the buffer that its strings lie in, or what is left of the line,
    which is reported before panic(syntax). *)
Definition parsecmd (fuel : nat) (line : list Z) : prog nat (cmd * list Z + list Z) :=
  c <- parseline line fuel;;
  peek line [];;;
  s <- gets id;;
  if negb (s =? es line)%nat then ret (inr (drop s line)) else
  ret (inl (c, nulterminate c (line ++ [0]))).

(** The string at [p] of a buffer. *)
Fixpoint until_nul (l : list Z) : list Z :=
  match l with [] => [] | c :: l => if c =? 0 then [] else c :: until_nul l end.
Definition cstr (buf : list Z) (p : nat) : list Z := until_nul (drop p buf).

(** ** Running commands

    The system calls of a process with the results they may have.  exec only returns
    when it fails; fork returns in the parent and in the child. *)
Inductive call :=
| Close (fd : Z)
| Open (file : list Z) (mode : Z)
| Exec (path : list Z) (argv : list (list Z))
| Fork
| Wait
| Dup (fd : Z)
| Chdir (dir : list Z)
| Printf (fd : Z) (s : list Z).

Inductive run :=
| Exit
| Syscall (c : call) (k : Z -> run)
| Pipe (k : option (Z * Z) -> run)
| OutOfFuel.

Notation "'do!' c ;; k" := (Syscall c (fun _ => k)) (at level 100, c at next level, right associativity).

Definition shpanic (msg : list Z) : run := do! Printf 2 (msg ++ [10]);; Exit.

Definition fork1 (k : Z -> run) : run :=
  Syscall Fork (fun pid => if pid =? -1 then shpanic (lit "fork") else k pid).

Section Run.
Context (buf : list Z).

Fixpoint runcmd (c : cmd) : run :=
  match c with
  | Execcmd [] => Exit
  | Execcmd (((q, _) :: _) as argv) =>
    do! Exec (cstr buf q) (map (fun a => cstr buf (fst a)) argv);;
    do! Printf 2 (lit "exec " ++ cstr buf q ++ lit " failed" ++ [10]);;
    Exit
  | Redircmd c file _ mode fd =>
    do! Close fd;;
    Syscall (Open (cstr buf file) mode) (fun r =>
      if r <? 0 then do! Printf 2 (lit "open " ++ cstr buf file ++ lit " failed" ++ [10]);; Exit
      else runcmd c)
  | Listcmd l r =>
    fork1 (fun pid => if pid =? 0 then runcmd l else do! Wait;; runcmd r)
  | Pipecmd l r =>
    Pipe (fun p =>
      match p with
      | None => shpanic (lit "pipe")
      | Some (p0, p1) =>
        fork1 (fun pid =>
          if pid =? 0 then do! Close 1;; do! Dup p1;; do! Close p0;; do! Close p1;; runcmd l
          else fork1 (fun pid =>
            if pid =? 0 then do! Close 0;; do! Dup p0;; do! Close p0;; do! Close p1;; runcmd r
            else do! Close p0;; do! Close p1;; do! Wait;; do! Wait;; Exit))
      end)
  | Backcmd c => fork1 (fun pid => if pid =? 0 then runcmd c else Exit)
  end.

End Run.

(** What gets reads of the input for a buffer with room for [n] characters. *)
Fixpoint gets_ (n : nat) (input : list Z) : list Z * list Z :=
  match n, input with
  | S n, c :: input =>
    if (c =? 10) || (c =? 13) then ([c], input)
    else let '(l, rest) := gets_ n input in (c :: l, rest)
  | _, _ => ([], input)
  end.

(** The line, unless its first character is NUL (the end of the input). *)
Definition getcmd (nbuf : nat) (input : list Z) (k : option (list Z) -> list Z -> run) : run :=
  do! Printf 2 (lit "$ ");;
  let '(buf, rest) := gets_ (nbuf - 1) input in
  let s := until_nul buf in
  k (match s with [] => None | _ => Some s end) rest.

Definition fuel_for (line : list Z) : nat := 4 * length line + 4.

(** The child: parse and run the line. *)
Definition run_line (line : list Z) : run :=
  match parsecmd (fuel_for line) line 0%nat with
  | Ret (inl (c, buf)) _ => runcmd buf c
  | Ret (inr rest) _ => do! Printf 2 (lit "leftovers: " ++ rest ++ [10]);; shpanic (lit "syntax")
  | Panic msg _ => shpanic (lit msg)
  | _ => OutOfFuel
  end.

Fixpoint open_console (fuel : nat) (k : run) : run :=
  match fuel with
  | O => OutOfFuel
  | S fuel =>
    Syscall (Open (lit "console") O_RDWR) (fun fd =>
      if fd <? 0 then k else if fd >=? 3 then do! Close fd;; k else open_console fuel k)
  end.

Fixpoint main_loop (fuel : nat) (input : list Z) : run :=
  match fuel with
  | O => OutOfFuel
  | S fuel =>
    getcmd 100 input (fun line rest =>
      match line with
      | None => Exit
      | Some s =>
        if bool_decide (take 3 s = lit "cd ") then
          let dir := drop 3 (removelast s) in
          Syscall (Chdir dir) (fun r =>
            if r <? 0 then do! Printf 2 (lit "cannot cd " ++ dir ++ [10]);; main_loop fuel rest
            else main_loop fuel rest)
        else fork1 (fun pid => if pid =? 0 then run_line s else do! Wait;; main_loop fuel rest)
      end)
  end.

Definition main (fuel : nat) (input : list Z) : run := open_console fuel (main_loop fuel input).

End Sh.

Import Sh.

(** ** Tokens

    [ends m s Q]: the parser [m] comes to an end at [s]: it panics, or it returns with
    [Q].  In particular it does not run out of fuel. *)
Definition ends {A} (m : prog nat A) (s : nat) (Q : A -> nat -> Prop) : Prop :=
  match m s with Ret a s' => Q a s' | Panic _ _ => True | _ => False end.

Lemma ends_bind {A B} (m : prog nat A) (f : A -> prog nat B) s Q :
  ends m s (fun a s' => ends (f a) s' Q) -> ends (bind m f) s Q.
Proof. unfold ends, bind. by destruct (m s). Qed.

Lemma ends_mono {A} (m : prog nat A) s (P Q : A -> nat -> Prop) :
  ends m s P -> (forall a s', P a s' -> Q a s') -> ends m s Q.
Proof. unfold ends. intros H HPQ. destruct (m s); auto. Qed.

Section Tokens.
Context (line : list Z).

(** A word of the line: characters that are neither white space nor symbols, up to one
    that is or to the end of the line. *)
Definition is_token (a : nat * nat) : Prop :=
  (fst a < snd a <= es line)%nat /\
  (forall i, (fst a <= i < snd a)%nat -> plain (at_ line i) = true) /\
  (snd a = es line \/ plain (at_ line (snd a)) = false).

Fixpoint tokens_ok (c : cmd) : Prop :=
  match c with
  | Execcmd argv => Forall is_token argv /\ (length argv < MAXARGS)%nat
  | Redircmd c q e _ fd => tokens_ok c /\ is_token (q, e) /\ (fd = 0 \/ fd = 1)
  | Pipecmd l r | Listcmd l r => tokens_ok l /\ tokens_ok r
  | Backcmd c => tokens_ok c
  end.

Lemma at_es s : (es line <= s)%nat -> at_ line s = 0.
Proof. intros H. unfold at_. by apply nth_overflow. Qed.

Lemma at_lt s : at_ line s <> 0 -> (s < es line)%nat.
Proof. intros H. destruct (decide (s < es line)%nat); [done|]. exfalso. apply H, at_es. lia. Qed.

Lemma skip_while_spec f n s : (n = es line - s)%nat -> (s <= es line)%nat ->
  let s' := skip_while line f n s in
  (s <= s' <= es line)%nat /\ (forall i, (s <= i < s')%nat -> f (at_ line i) = true) /\
  (s' = es line \/ f (at_ line s') = false).
Proof.
  revert s. induction n as [|n IH]; intros s Hn Hs; cbn [skip_while].
  - split_and!; [lia|lia|lia|left; lia].
  - destruct (f (at_ line s)) eqn:E.
    + destruct (IH (S s)) as (H1 & H2 & H3); [lia|lia|]. split_and!; [lia|lia| |done].
      intros i Hi. destruct (decide (i = s)) as [->|]; [done|]. apply H2. lia.
    + split_and!; [lia|lia|lia|by right].
Qed.

Lemma skip_space_spec s : (s <= es line)%nat ->
  (s <= skip_space line s <= es line)%nat /\
  (at_ line (skip_space line s) = 0 \/ has whitespace (at_ line (skip_space line s)) = false).
Proof.
  intros Hs. destruct (skip_while_spec (has whitespace) _ s eq_refl Hs) as (H1 & _ & H2).
  split; [exact H1|]. destruct H2 as [E|E]; [left; apply at_es; unfold skip_space; lia|by right].
Qed.

Lemma plain_not_symbol c : has whitespace c = false -> has (lit "|();&<") c = false -> c <> 62 -> plain c = true.
Proof.
  unfold plain. intros -> H Hc. change (lit "|();&<") with [124; 40; 41; 59; 38; 60] in H.
  change symbols with [60; 124; 62; 38; 59; 40; 41]. unfold has, existsb in *. rewrite (proj2 (Z.eqb_neq c 62) Hc).
  repeat match goal with H : _ || _ = false |- _ => apply orb_false_elim in H as [-> H] end. done.
Qed.

Lemma gettoken_spec s : (s <= es line)%nat ->
  ends (gettoken line) s (fun r s' => let '(t, q, e) := r in
    (s <= s' <= es line)%nat /\ (t <> 0 -> (s < s')%nat) /\ (t = TOK_WORD -> is_token (q, e)) /\
    (at_ line (skip_space line s) <> 0 -> t <> 0)).
Proof.
  intros Hs. destruct (skip_space_spec s Hs) as [Hr Hw]. unfold ends, gettoken.
  set (p := skip_space line s) in *. cbv zeta.
  assert (forall p', (p < p' <= es line)%nat -> (s <= skip_space line p' <= es line)%nat /\ (s < skip_space line p')%nat) as Hadv.
  { intros p' Hp'. destruct (skip_space_spec p') as [? _]; lia. }
  destruct (Z.eqb_spec (at_ line p) 0) as [E0|E0].
  { destruct (skip_space_spec p) as [? _]; [lia|]. split_and!; [lia|lia|done|done|done]. }
  pose proof (at_lt p E0) as Hlt. destruct Hw as [Hw|Hw]; [done|].
  destruct (has (lit "|();&<") (at_ line p)) eqn:Es.
  { destruct (Hadv (S p)); [lia|]. split_and!; [lia|lia|done| |done].
    intros E. rewrite E in Es. discriminate Es. }
  destruct (Z.eqb_spec (at_ line p) 62) as [Eg|Eg].
  { destruct (Z.eqb_spec (at_ line (S p)) 62) as [E2|E2].
    - pose proof (at_lt (S p)) as Hl2. rewrite E2 in Hl2. destruct (Hadv (S (S p))); [specialize (Hl2 ltac:(done)); lia|].
      split_and!; [lia|lia|done|done|done].
    - destruct (Hadv (S p)); [lia|]. split_and!; [lia|lia|done|done|done]. }
  pose proof (plain_not_symbol _ Hw Es Eg) as Hp.
  destruct (skip_while_spec plain _ p eq_refl) as (H1 & H2 & H3); [lia|]. cbv zeta in *.
  set (e := skip_while line plain (es line - p) p) in *.
  assert (p < e)%nat as Hpe. { destruct (decide (e = p)) as [Ee|]; [|lia]. rewrite Ee in H3. destruct H3; [lia|congruence]. }
  destruct (Hadv e); [lia|]. split_and!; [lia|lia|done| |done].
  intros _. split_and!; cbn; [lia|lia|done|done].
Qed.

Lemma peek_spec toks s : (s <= es line)%nat ->
  ends (peek line toks) s (fun b s' => (s <= s' <= es line)%nat /\ (b = true -> at_ line (skip_space line s') <> 0)).
Proof.
  intros Hs. destruct (skip_space_spec s Hs) as [Hr Hw]. unfold ends, peek. cbv zeta.
  set (p := skip_space line s) in *. split; [done|]. intros [Hb _]%andb_prop.
  destruct (Z.eqb_spec (at_ line p) 0) as [|E0]; [done|]. destruct Hw as [|Hw]; [done|].
  unfold skip_space. destruct (es line - p)%nat eqn:En; cbn [skip_while]; [done|]. by rewrite Hw.
Qed.
End Tokens.

(** ** Every parser ends, with the words of the line in its command *)

Fixpoint argc_of (c : cmd) : option nat :=
  match c with
  | Execcmd argv => Some (length argv)
  | Redircmd c _ _ _ _ => argc_of c
  | _ => None
  end.

Section Ends.
Context (line : list Z).

Lemma add_arg_ok a c n : tokens_ok line c -> argc_of c = Some n -> is_token line a -> (S n < MAXARGS)%nat ->
  tokens_ok line (add_arg a c) /\ argc_of (add_arg a c) = Some (S n).
Proof.
  intros Hc Hn Ha Hlt. induction c as [argv|c IH q e mode fd| | |]; try done; cbn in *.
  - injection Hn as <-. destruct Hc as [Hf _]. rewrite length_app, Nat.add_1_r. split_and!; [|done|done].
    apply Forall_app. split; [done|by constructor].
  - destruct Hc as (H1 & H2 & H3). destruct (IH H1 Hn). done.
Qed.

(** One more token, when peek has just seen its first character. *)
Lemma next_token s : (s <= es line)%nat -> at_ line (skip_space line s) <> 0 ->
  ends (gettoken line) s (fun r s' => (s < s' <= es line)%nat).
Proof.
  intros Hs Hp. eapply ends_mono; [by apply gettoken_spec|]. intros [[t q] e] s' (H1 & H2 & _ & H4).
  specialize (H2 (H4 Hp)). lia.
Qed.

Lemma back_loop_ends fuel c s : (s <= es line)%nat -> (es line - s < fuel)%nat -> tokens_ok line c ->
  ends (back_loop line fuel c) s (fun c' s' => (s <= s' <= es line)%nat /\ tokens_ok line c').
Proof.
  revert c s. induction fuel as [|fuel IH]; intros c s Hs Hf Hc; [lia|]. cbn [back_loop]. apply ends_bind.
  eapply ends_mono; [by apply peek_spec|]. intros b s1 [H1 Hb]. destruct b; [|by split].
  apply ends_bind. eapply ends_mono; [apply next_token; [lia|by apply Hb]|]. intros r s2 [H2 H2'].
  eapply ends_mono; [apply IH; [lia|lia|done]|]. intros c' s3 [H3 Hc']. split; [lia|done].
Qed.

Lemma parseredirs_ends fuel c s : (s <= es line)%nat -> (es line - s < fuel)%nat -> tokens_ok line c ->
  ends (parseredirs line fuel c) s (fun c' s' =>
    (s <= s' <= es line)%nat /\ tokens_ok line c' /\ argc_of c' = argc_of c).
Proof.
  revert c s. induction fuel as [|fuel IH]; intros c s Hs Hf Hc; [lia|]. cbn [parseredirs]. apply ends_bind.
  eapply ends_mono; [by apply peek_spec|]. intros b s1 [H1 Hb]. destruct b; [|by split].
  apply ends_bind. eapply ends_mono; [apply next_token; [lia|by apply Hb]|]. intros [[tok q0] e0] s2 [H2 H2'].
  apply ends_bind. eapply ends_mono; [apply gettoken_spec; lia|]. intros [[w q] e] s3 (H3 & _ & Hw & _).
  destruct (Z.eqb_spec w TOK_WORD) as [->|]; [|done]. cbn [negb]. specialize (Hw eq_refl).
  match goal with |- ends (parseredirs _ _ ?c') _ _ => assert (tokens_ok line c' /\ argc_of c' = argc_of c) as [Hc' Ha] end.
  { repeat case_match; cbn; auto. }
  eapply ends_mono; [apply IH; [lia|lia|done]|]. intros c'' s4 (H4 & Hc'' & Ha'). split_and!; [lia|lia|done|congruence].
Qed.

Lemma args_loop_ends fuel argc c s : (s <= es line)%nat -> (es line - s < fuel)%nat ->
  tokens_ok line c -> argc_of c = Some argc ->
  ends (args_loop line fuel argc c) s (fun c' s' => (s <= s' <= es line)%nat /\ tokens_ok line c').
Proof.
  revert argc c s. induction fuel as [|fuel IH]; intros argc c s Hs Hf Hc Hn; [lia|]. cbn [args_loop]. apply ends_bind.
  eapply ends_mono; [by apply peek_spec|]. intros b s1 [H1 _]. destruct b; [by split|].
  apply ends_bind. eapply ends_mono; [apply gettoken_spec; lia|]. intros [[tok q] e] s2 (H2 & Hadv & Hw & _).
  destruct (Z.eqb_spec tok 0) as [|E0]; [split; [lia|done]|]. specialize (Hadv E0).
  destruct (Z.eqb_spec tok TOK_WORD) as [->|]; [|done]. specialize (Hw eq_refl). cbn [negb].
  destruct (Nat.leb_spec MAXARGS (S argc)) as [|Hlt]; [done|].
  destruct (add_arg_ok (q, e) c argc Hc Hn Hw Hlt) as [Hc' Hn'].
  apply ends_bind. eapply ends_mono; [apply parseredirs_ends; [lia|lia|done]|].
  intros c' s3 (H3 & Hc'' & Hn''). eapply ends_mono; [apply IH; [lia|lia|done|congruence]|].
  intros c3 s4 [H4 Hc4]. split; [lia|done].
Qed.

Definition parses (m : prog nat cmd) (s : nat) : Prop :=
  ends m s (fun c s' => (s <= s' <= es line)%nat /\ tokens_ok line c).

Lemma parsers_end fuel s : (s <= es line)%nat ->
  let n := (4 * (es line - s))%nat in
  ((n + 4 <= fuel)%nat -> parses (parseline line fuel) s) /\
  ((n + 3 <= fuel)%nat -> parses (parsepipe line fuel) s) /\
  ((n + 2 <= fuel)%nat -> parses (parseexec line fuel) s) /\
  ((n + 1 <= fuel)%nat -> parses (parseblock line fuel) s).
Proof.
  revert s. induction fuel as [|fuel IH]; intros s Hs n; [split_and!; lia|]. subst n.
  destruct (IH s Hs) as (_ & Hpipe & Hexec & Hblock). unfold parses in *.
  split_and!; intros Hf; cbn [parseline parsepipe parseexec parseblock]; apply ends_bind.
  - eapply ends_mono; [apply Hpipe; lia|]. intros c s1 [H1 Hc].
    apply ends_bind. eapply ends_mono; [apply back_loop_ends; [lia|lia|done]|]. intros c2 s2 [H2 Hc2].
    apply ends_bind. eapply ends_mono; [apply peek_spec; lia|]. intros b s3 [H3 Hb]. destruct b; [|split; [lia|done]].
    apply ends_bind. eapply ends_mono; [apply next_token; [lia|by apply Hb]|]. intros r s4 [H4 H4'].
    apply ends_bind. eapply ends_mono; [apply (IH s4); lia|]. intros c5 s5 [H5 Hc5]. split; [lia|done].
  - eapply ends_mono; [apply Hexec; lia|]. intros c s1 [H1 Hc].
    apply ends_bind. eapply ends_mono; [apply peek_spec; lia|]. intros b s3 [H3 Hb]. destruct b; [|split; [lia|done]].
    apply ends_bind. eapply ends_mono; [apply next_token; [lia|by apply Hb]|]. intros r s4 [H4 H4'].
    apply ends_bind. eapply ends_mono; [apply (IH s4); lia|]. intros c5 s5 [H5 Hc5]. split; [lia|done].
  - eapply ends_mono; [apply peek_spec; lia|]. intros b s1 [H1 Hb]. destruct b.
    + eapply ends_mono; [apply (IH s1); lia|]. intros c5 s5 [H5 Hc5]. split; [lia|done].
    + apply ends_bind. eapply ends_mono.
      { apply (parseredirs_ends fuel (Execcmd []) s1); [lia|lia|]. cbn. split; [constructor|unfold MAXARGS; lia]. }
      intros c s2 (H2 & Hc & Hn). eapply ends_mono; [apply args_loop_ends; [lia|lia|done|done]|].
      intros c5 s5 [H5 Hc5]. split; [lia|done].
  - eapply ends_mono; [apply peek_spec; lia|]. intros b s1 [H1 Hb]. destruct b; [|done]. cbn [negb].
    apply ends_bind. eapply ends_mono; [apply next_token; [lia|by apply Hb]|]. intros r s2 [H2 H2'].
    apply ends_bind. eapply ends_mono; [apply (IH s2); lia|]. intros c s3 [H3 Hc].
    apply ends_bind. eapply ends_mono; [apply peek_spec; lia|]. intros b s4 [H4 Hb4]. destruct b; [|done]. cbn [negb].
    apply ends_bind. eapply ends_mono; [apply next_token; [lia|by apply Hb4]|]. intros r5 s5 [H5 H5'].
    eapply ends_mono; [apply parseredirs_ends; [lia|lia|done]|]. intros c6 s6 (H6 & Hc6 & _). split; [lia|done].
Qed.
End Ends.

(** ** nulterminate *)

(** The strings of a command, in the order in which nulterminate cuts them off. *)
Fixpoint words (c : cmd) : list (nat * nat) :=
  match c with
  | Execcmd argv => argv
  | Redircmd c q e _ _ => words c ++ [(q, e)]
  | Pipecmd l r | Listcmd l r => words l ++ words r
  | Backcmd c => words c
  end.

Lemma nulterminate_words c buf : nulterminate c buf = fold_left (fun buf (a : nat * nat) => put_nul (snd a) buf) (words c) buf.
Proof.
  revert buf. induction c as [|? IH|? IHl ? IHr|? IHl ? IHr|]; intros buf; cbn; rewrite ?fold_left_app; auto.
  - cbn. by rewrite IH.
  - by rewrite IHl, IHr.
  - by rewrite IHl, IHr.
Qed.

Lemma cut_nth ws buf i : nth i (fold_left (fun buf (a : nat * nat) => put_nul (snd a) buf) ws buf) 0 =
  if bool_decide (i ∈ map (snd (A := nat)) ws) then 0 else nth i buf 0.
Proof.
  revert buf. induction ws as [|[q e] ws IH]; intros buf; cbn [fold_left map]; [done|]. rewrite IH. unfold put_nul. cbn [snd].
  destruct (decide (i = e)) as [->|Hne].
  - rewrite (bool_decide_true (e ∈ e :: _)) by set_solver. case_bool_decide; [done|].
    destruct (decide (e < length buf)%nat); [by rewrite nth_lookup, list_lookup_insert_eq|].
    rewrite nth_overflow; [done|]. rewrite length_insert. lia.
  - rewrite (nth_lookup (<[_:=_]> _)), list_lookup_insert_ne, <- nth_lookup by done.
    case_bool_decide; case_bool_decide; set_solver.
Qed.

Lemma cstr_slice buf line n q : (q + n <= length line)%nat ->
  (forall i, (q <= i < q + n)%nat -> nth i buf 0 = nth i line 0 /\ nth i line 0 <> 0) -> nth (q + n) buf 0 = 0 ->
  cstr buf q = take n (drop q line).
Proof.
  unfold cstr. revert q. induction n as [|n IH]; intros q Hn Hi He.
  - rewrite Nat.add_0_r in He. destruct (decide (q < length buf)%nat) as [Hq|Hq].
    + destruct (lookup_lt_is_Some_2 buf q Hq) as [x Hx]. rewrite (drop_S _ _ _ Hx). cbn.
      rewrite (nth_lookup_Some buf q 0 x Hx) in He. subst x. done.
    + by rewrite drop_ge by lia.
  - destruct (Hi q) as [E1 E2]; [lia|]. destruct (decide (q < length buf)%nat) as [Hq|Hq]; [|rewrite nth_overflow in E1; [congruence|lia]].
    destruct (lookup_lt_is_Some_2 buf q Hq) as [x Hx]. destruct (lookup_lt_is_Some_2 line q) as [y Hy]; [lia|].
    rewrite (drop_S _ _ _ Hx), (drop_S _ _ _ Hy). rewrite (nth_lookup_Some buf q 0 x Hx), (nth_lookup_Some line q 0 y Hy) in E1.
    rewrite (nth_lookup_Some line q 0 y Hy) in E2. subst y. cbn [until_nul take]. rewrite (proj2 (Z.eqb_neq x 0) E2).
    f_equal. apply IH; [lia| |]; [intros i Hr; apply Hi; lia|]. by rewrite Nat.add_succ_comm.
Qed.

Lemma tokens_ok_words line c : tokens_ok line c -> Forall (is_token line) (words c).
Proof.
  induction c as [|c IH q e m fd|l IHl r IHr|l IHl r IHr|]; cbn; rewrite ?Forall_app, ?Forall_singleton; naive_solver.
Qed.

(** After nulterminate every string of the command is the word it points to. *)
Lemma nulterminate_cstr line c q e : Forall (fun x => x <> 0) line -> tokens_ok line c -> (q, e) ∈ words c ->
  cstr (nulterminate c (line ++ [0])) q = take (e - q) (drop q line).
Proof.
  intros Hz Hc%tokens_ok_words Hin. rewrite Forall_forall in Hc. pose proof (Hc _ Hin) as ((Hq & He) & Hp & _). cbn in *.
  assert (forall i, (i < length line)%nat -> nth i (line ++ [0]) 0 = nth i line 0) as Happ by (intros; by apply app_nth1).
  rewrite nulterminate_words. unfold es in *. apply cstr_slice; [lia| |].
  - intros i Hi. rewrite cut_nth, Happ by lia. split.
    + rewrite bool_decide_false; [done|]. intros ([q' e'] & -> & Ht)%list_elem_of_fmap. cbn in Hi.
      apply Hc in Ht as (_ & _ & [Hend|Hend]); cbn in Hend; [unfold es in Hend; lia|]. rewrite (Hp e') in Hend; [done|lia].
    + rewrite Forall_forall in Hz. apply Hz, list_elem_of_In, nth_In. lia.
  - replace (q + (e - q))%nat with e by lia. rewrite cut_nth, bool_decide_true; [done|].
    apply list_elem_of_fmap. by exists (q, e).
Qed.

(** the shell's parser comes to an end on every line, by reporting a syntax error, by
    finding text it cannot parse (which it returns), or with a command.  Each string of the
    command, read from the buffer after nulterminate has written its NULs into it, is
    then exactly one whole word of the line: no NUL cuts another word short, and there
    are fewer than MAXARGS arguments to each program. *)
Theorem parsecmd_splits_words (line : list Z) : Forall (fun x => x <> 0) line ->
  match parsecmd (fuel_for line) line 0%nat with
  | Ret (inl (c, buf)) s => s = es line /\ tokens_ok line c /\
      forall q e, (q, e) ∈ words c -> cstr buf q = take (e - q) (drop q line)
  | Ret (inr rest) s => (s < es line)%nat /\ rest = drop s line
  | Panic _ _ => True
  | _ => False
  end.
Proof.
  intros Hz. destruct (parsers_end line (fuel_for line) 0%nat) as [Hp _]; [lia|]. specialize (Hp ltac:(unfold fuel_for, es; lia)).
  unfold parses, ends in Hp. unfold parsecmd, bind at 1. destruct (parseline line (fuel_for line) 0%nat) as [c s| | | | |]; try done.
  destruct Hp as [Hs Hc]. cbn [obind]. pose proof (peek_spec line [] s ltac:(lia)) as Hk. unfold ends in Hk. unfold bind at 1.
  destruct (peek line [] s) as [b s'| | | | |]; try done. destruct Hk as [Hs' _]. cbn [obind]. rewrite bind_gets. unfold id.
  destruct (Nat.eqb_spec s' (es line)) as [->|Hne]; cbn [negb ret]; [|split; [lia|done]].
  split_and!; [done|done|]. intros q e. by apply nulterminate_cstr.
Qed.

Lemma parsecmd_splits_words_witness : exists c buf s, parsecmd (fuel_for (lit "ls >out")) (lit "ls >out") 0%nat = Ret (inl (c, buf)) s /\
  map (fun a => cstr buf (fst a)) (words c) = [lit "ls"; lit "out"].
Proof.
  pose proof (parsecmd_splits_words (lit "ls >out") ltac:(repeat constructor; discriminate)) as H.
  let r := eval vm_compute in (parsecmd (fuel_for (lit "ls >out")) (lit "ls >out") 0%nat) in
    assert (parsecmd (fuel_for (lit "ls >out")) (lit "ls >out") 0%nat = r) as E by (vm_compute; reflexivity).
  rewrite E in H. destruct H as (_ & _ & H). do 3 eexists. split; [exact E|]. cbn [words app map fst] in *.
  rewrite (H 0%nat 2%nat ltac:(left)), (H 4%nat 7%nat ltac:(right; left)). reflexivity.
Defined.

(** ** Printing commands and parsing them back *)

Inductive tree :=
| TExec (args : list (list Z))
| TRedir (t : tree) (file : list Z) (mode fd : Z)
| TPipe (l r : tree)
| TList (l r : tree)
| TBack (t : tree).

Fixpoint tree_of (str : nat * nat -> list Z) (c : cmd) : tree :=
  match c with
  | Execcmd argv => TExec (map str argv)
  | Redircmd c q e mode fd => TRedir (tree_of str c) (str (q, e)) mode fd
  | Pipecmd l r => TPipe (tree_of str l) (tree_of str r)
  | Listcmd l r => TList (tree_of str l) (tree_of str r)
  | Backcmd c => TBack (tree_of str c)
  end.

Fixpoint join (args : list (list Z)) : list Z :=
  match args with
  | [] => []
  | w :: rest => match rest with [] => w | _ => w ++ 32 :: join rest end
  end.

(** A line for a command: every part of it in parentheses. *)
Fixpoint show (t : tree) : list Z :=
  match t with
  | TExec args => join args
  | TRedir t file _ fd => [40] ++ show t ++ [41] ++ (if fd =? 0 then 60 else 62) :: file
  | TPipe l r => [40] ++ show l ++ [41] ++ 124 :: [40] ++ show r ++ [41]
  | TList l r => [40] ++ show l ++ [41] ++ 59 :: [40] ++ show r ++ [41]
  | TBack t => [40] ++ show t ++ [41] ++ [38]
  end.

Definition word_ok (w : list Z) : Prop := w <> [] /\ Forall (fun c => c <> 0 /\ plain c = true) w.

(** The commands that lines can describe. *)
Fixpoint tree_ok (t : tree) : Prop :=
  match t with
  | TExec args => Forall word_ok args /\ (length args < MAXARGS)%nat
  | TRedir t file mode fd => tree_ok t /\ word_ok file /\
      (mode = O_RDONLY /\ fd = 0 \/ mode = Z.lor O_WRONLY O_CREATE /\ fd = 1)
  | TPipe l r | TList l r => tree_ok l /\ tree_ok r
  | TBack t => tree_ok t
  end.

(** Both sides of an equation between concatenations, or of a bound on their lengths. *)
Ltac app_eq := repeat (progress (cbn [app]; rewrite <- ?app_assoc)); done.
Ltac len_lia := repeat (progress (cbn [app length] in *; rewrite ?length_app in * )); lia.

Section RoundTrip.
Context (line : list Z).

Definition slice (a : nat * nat) : list Z := take (snd a - fst a) (drop (fst a) line).

Lemma at_here pre post : line = pre ++ post -> at_ line (length pre) = hd 0 post.
Proof. intros ->. unfold at_. rewrite app_nth2, Nat.sub_diag by lia. by destruct post. Qed.

Lemma skip_run f pre w post : line = pre ++ w ++ post -> Forall (fun c => f c = true) w ->
  post = [] \/ f (hd 0 post) = false ->
  skip_while line f (es line - length pre) (length pre) = length (pre ++ w).
Proof.
  intros E Hw Hp. assert (es line - length pre = length w + length post)%nat as -> by (unfold es; rewrite E, !length_app; lia).
  revert pre E. induction Hw as [|c w Hc Hw IH]; intros pre E.
  - rewrite app_nil_r. cbn [length Nat.add]. destruct post as [|c post]; [done|]. destruct Hp as [Hp|Hp]; [done|].
    cbn [length skip_while]. rewrite (at_here pre (c :: post) E). by rewrite Hp.
  - cbn [length Nat.add skip_while]. rewrite (at_here pre _ E). cbn [hd app]. rewrite Hc.
    replace (S (length pre)) with (length (pre ++ [c])) by (rewrite length_app; cbn; lia).
    rewrite IH by (by rewrite E, <- app_assoc). by rewrite <- app_assoc.
Qed.

Lemma skip_to pre sp post : line = pre ++ sp ++ post -> Forall (fun c => has whitespace c = true) sp ->
  has whitespace (hd 0 post) = false -> skip_space line (length pre) = length (pre ++ sp).
Proof. intros E Hs Hp. eapply skip_run; [exact E|done|by right]. Qed.

Lemma skip_here pre post : line = pre ++ post -> has whitespace (hd 0 post) = false ->
  skip_space line (length pre) = length pre.
Proof. intros E Hp. rewrite (skip_to pre [] post) by done. by rewrite app_nil_r. Qed.

Lemma peek_here toks pre post : line = pre ++ post -> has whitespace (hd 0 post) = false ->
  peek line toks (length pre) = Ret (negb (hd 0 post =? 0) && has toks (hd 0 post)) (length pre).
Proof. intros E Hp. unfold peek. by rewrite (skip_here pre post), (at_here pre post). Qed.

Lemma peek_is toks b pre c post : line = pre ++ c :: post -> has whitespace c = false -> c <> 0 -> has toks c = b ->
  peek line toks (length pre) = Ret b (length pre).
Proof. intros E Hw H0 <-. rewrite (peek_here toks pre (c :: post)) by done. cbn [hd]. by rewrite (proj2 (Z.eqb_neq c 0) H0). Qed.

Lemma token_sym pre c post : line = pre ++ c :: post -> has (62 :: lit "|();&<") c = true ->
  has whitespace (hd 0 post) = false -> (c = 62 -> hd 0 post <> 62) ->
  gettoken line (length pre) = Ret (c, length pre, length (pre ++ [c])) (length (pre ++ [c])).
Proof.
  intros E Hc Hp Hg. assert (c <> 0) as H0 by (intros ->; discriminate Hc).
  assert (has whitespace c = false) as Hw.
  { destruct (has whitespace c) eqn:Hw; [|done]. apply existsb_exists in Hw as (x & Hx & ->%Z.eqb_eq).
    cbn in Hx. by destruct Hx as [<-|[<-|[<-|[<-|[<-|[]]]]]]. }
  assert (S (length pre) = length (pre ++ [c])) as El by (rewrite length_app; cbn; lia).
  assert (line = (pre ++ [c]) ++ post) as E' by (by rewrite <- app_assoc).
  unfold gettoken. rewrite (skip_here pre (c :: post)), (at_here pre (c :: post)) by done. cbn [hd].
  rewrite (proj2 (Z.eqb_neq c 0) H0), El by done.
  destruct (has (lit "|();&<") c) eqn:Hs; [by rewrite (skip_here _ post)|].
  cbn [has existsb] in Hc. unfold has in Hs. rewrite Hs, orb_false_r in Hc. rewrite Hc. apply Z.eqb_eq in Hc as ->.
  rewrite (at_here (pre ++ [62]) post), (proj2 (Z.eqb_neq _ 62) (Hg eq_refl)) by done. by rewrite (skip_here _ post).
Qed.

Lemma token_word pre w sp post : line = pre ++ w ++ sp ++ post -> word_ok w ->
  Forall (fun c => has whitespace c = true) sp -> has whitespace (hd 0 post) = false ->
  sp ++ post = [] \/ plain (hd 0 (sp ++ post)) = false ->
  gettoken line (length pre) = Ret (TOK_WORD, length pre, length (pre ++ w)) (length (pre ++ w ++ sp)).
Proof.
  intros E [Hn Hw] Hs Hp He. destruct w as [|c w]; [done|]. pose proof Hw as [[H0 Hc] _]%Forall_cons_1.
  pose proof Hc as [Hws Hsym]%andb_prop. apply negb_true_iff in Hws, Hsym.
  unfold gettoken. rewrite (skip_here pre _ E), (at_here pre _ E) by done. cbn [hd app].
  rewrite (proj2 (Z.eqb_neq c 0) H0).
  assert (has (lit "|();&<") c = false /\ c =? 62 = false) as [-> ->].
  { change symbols with [60; 124; 62; 38; 59; 40; 41] in Hsym. change (lit "|();&<") with [124; 40; 41; 59; 38; 60].
    unfold has, existsb in *. by repeat match goal with H : _ || _ = false |- _ => apply orb_false_elim in H as [-> H] end. }
  rewrite (skip_run plain pre (c :: w) (sp ++ post)); [|done|by eapply Forall_impl; [exact Hw|intros ? []]|done].
  rewrite (skip_to (pre ++ c :: w) sp post); [|by rewrite <- app_assoc|done|done]. by rewrite <- app_assoc.
Qed.

Lemma slice_here pre w post : line = pre ++ w ++ post -> slice (length pre, length (pre ++ w)) = w.
Proof.
  intros E. unfold slice. rewrite E. cbn. rewrite length_app, drop_app_length. replace (_ - _)%nat with (length w) by lia.
  by rewrite take_app_length.
Qed.

(** What comes after a part of the line that has been parsed: its end, or a closing
    parenthesis; and what is at the front of a list of arguments. *)
Definition stop (post : list Z) : Prop := post = [] \/ exists p, post = 41 :: p.
Definition calm (c : Z) : Prop := c = 0 \/ c = 41 \/ plain c = true.

Lemma plain_has l c : plain c = true -> forallb (has symbols) l = true -> has l c = false.
Proof.
  intros [_ Hs%negb_true_iff]%andb_prop Hl. destruct (has l c) eqn:E; [|done].
  apply existsb_exists in E as (x & Hx & ->%Z.eqb_eq). rewrite forallb_forall in Hl. by rewrite Hl in Hs.
Qed.

Lemma calm_space c : calm c -> has whitespace c = false.
Proof. intros [->|[->|[H _]%andb_prop]]; [done|done|]. by apply negb_true_iff. Qed.

Lemma calm_has l c : calm c -> forallb (has symbols) l = true -> has l 41 = false -> negb (c =? 0) && has l c = false.
Proof. intros [->|[->|H]] Hl H41; [done|by rewrite H41|]. rewrite (plain_has l c) by done. apply andb_false_r. Qed.

Lemma stop_calm post : stop post -> calm (hd 0 post).
Proof. intros [->|[p ->]]; [by left|by right; left]. Qed.

Lemma join_calm args post : Forall word_ok args -> stop post -> calm (hd 0 (join args ++ post)).
Proof.
  intros Ha Hs. destruct Ha as [|w rest [Hn Hw] _]; [by apply stop_calm|]. destruct w as [|c w]; [done|].
  apply Forall_cons_1 in Hw as [[_ Hc] _]. right; right. by destruct rest.
Qed.

Lemma redirs_none fuel c pre post : line = pre ++ post -> has whitespace (hd 0 post) = false ->
  negb (hd 0 post =? 0) && has (lit "<>") (hd 0 post) = false ->
  parseredirs line (S fuel) c (length pre) = Ret c (length pre).
Proof. intros E Hw Hr. cbn [parseredirs]. mret (peek_here (lit "<>") pre post E Hw). by rewrite Hr. Qed.

Lemma backs_none fuel c pre post : line = pre ++ post -> has whitespace (hd 0 post) = false ->
  negb (hd 0 post =? 0) && has (lit "&") (hd 0 post) = false -> back_loop line (S fuel) c (length pre) = Ret c (length pre).
Proof. intros E Hw Hb. cbn [back_loop]. mret (peek_here (lit "&") pre post E Hw). by rewrite Hb. Qed.

Lemma args_end fuel c argc pre post : line = pre ++ post -> stop post ->
  args_loop line (S fuel) argc c (length pre) = Ret c (length pre).
Proof.
  intros E Hs. pose proof (calm_space _ (stop_calm _ Hs)) as Hw. cbn [args_loop]. mret (peek_here (lit "|)&;") pre post E Hw).
  destruct Hs as [->|[p ->]]; [|done]. cbn [hd Z.eqb negb andb].
  assert (gettoken line (length pre) = Ret (0, length pre, length pre) (length pre)) as Et; [|by mret Et].
  unfold gettoken. rewrite (skip_here pre []), (at_here pre []) by done. cbn. by rewrite (skip_here pre []).
Qed.

Lemma args_run args pre post argv fuel : line = pre ++ join args ++ post -> stop post -> Forall word_ok args ->
  (length argv + length args < MAXARGS)%nat -> (length args < fuel)%nat ->
  exists l, args_loop line fuel (length argv) (Execcmd argv) (length pre) =
    Ret (Execcmd (argv ++ l)) (length (pre ++ join args)) /\ map slice l = args.
Proof.
  intros E Hs Ha. revert pre argv fuel E.
  induction Ha as [|w rest Hw Ha IH]; intros pre argv fuel E Hlen Hf; (destruct fuel as [|fuel]; [cbn in Hf; lia|]).
  - exists []. rewrite !app_nil_r. split; [|done]. by apply args_end with (post := post).
  - set (sp := match rest with [] => [] | _ => [32] end).
    assert (join (w :: rest) = w ++ sp ++ join rest) as Ej by (unfold sp; by destruct rest; cbn; rewrite ?app_nil_r).
    rewrite Ej in *. rewrite <- !app_assoc in E. pose proof (join_calm rest post Ha Hs) as Hc.
    assert (calm (hd 0 (w ++ sp ++ join rest ++ post))) as Hc0.
    { pose proof (join_calm (w :: rest) post ltac:(by constructor) Hs) as H. by rewrite Ej, <- !app_assoc in H. }
    cbn [args_loop]. mret (peek_here (lit "|)&;") pre _ E (calm_space _ Hc0)).
    assert (hd 0 (w ++ sp ++ join rest ++ post) = hd 0 w /\ plain (hd 0 w) = true) as [-> Hp].
    { destruct Hw as [Hn Hw]. destruct w as [|c w]; [done|]. apply Forall_cons_1 in Hw as [[_ ?] _]. done. }
    rewrite (plain_has (lit "|)&;") _ Hp), andb_false_r by done.
    assert (sp ++ join rest ++ post = [] \/ plain (hd 0 (sp ++ join rest ++ post)) = false) as Hend.
    { unfold sp. destruct rest as [|w2 rest]; [|by right]. cbn. destruct Hs as [->|[p ->]]; [by left|by right]. }
    assert (Forall (fun c => has whitespace c = true) sp) as Hsp by (unfold sp; destruct rest; by repeat constructor).
    mret (token_word pre w sp _ E Hw Hsp (calm_space _ Hc) Hend). cbn [length] in Hlen.
    change (TOK_WORD =? 0) with false. change (negb (TOK_WORD =? TOK_WORD)) with false. cbv iota. cbn [add_arg].
    rewrite (proj2 (Nat.leb_gt _ _)) by lia. destruct fuel as [|fuel]; [cbn in Hf; lia|].
    assert (line = (pre ++ w ++ sp) ++ join rest ++ post) as E' by (by rewrite <- !app_assoc).
    mret (redirs_none fuel (Execcmd (argv ++ [(length pre, length (pre ++ w))])) _ _ E' (calm_space _ Hc) (calm_has (lit "<>") _ Hc eq_refl eq_refl)).
    destruct (IH (pre ++ w ++ sp) (argv ++ [(length pre, length (pre ++ w))]) (S fuel) E') as (l & El & Em);
      [rewrite length_app; cbn; lia|cbn in Hf; lia|].
    rewrite length_app in El. cbn [length] in El. rewrite Nat.add_1_r in El. exists ((length pre, length (pre ++ w)) :: l).
    rewrite El. rewrite <- !app_assoc. split; [done|]. cbn [map]. rewrite Em. f_equal. by apply slice_here with (post := sp ++ join rest ++ post).
Qed.

Definition parses_back (t : tree) : Prop := forall pre post fuel,
  line = pre ++ show t ++ post -> stop post -> (4 * length (show t ++ post) + 4 <= fuel)%nat ->
  exists c, parseline line fuel (length pre) = Ret c (length (pre ++ show t)) /\ tree_of slice c = t.

Lemma show_head t post : tree_ok t -> stop post -> has whitespace (hd 0 (show t ++ post)) = false.
Proof. intros Ht Hs. destruct t; try done. apply calm_space, join_calm; [apply Ht|done]. Qed.

(** A command in parentheses, up to the redirections after it. *)
Lemma block_run t pre post fuel : tree_ok t -> parses_back t -> line = pre ++ [40] ++ show t ++ [41] ++ post ->
  has whitespace (hd 0 post) = false -> (4 * (length (show t) + 1 + length post) + 4 <= fuel)%nat ->
  exists c, parseexec line (S (S fuel)) (length pre) = parseredirs line fuel c (length (pre ++ [40] ++ show t ++ [41])) /\
    tree_of slice c = t.
Proof.
  intros Hok Ht E Hp Hf. assert (stop ([41] ++ post)) as Hs by (right; by exists post).
  assert (line = (pre ++ [40]) ++ show t ++ [41] ++ post) as E1 by (by rewrite <- app_assoc).
  assert (line = ((pre ++ [40]) ++ show t) ++ [41] ++ post) as E2 by (by rewrite <- !app_assoc).
  destruct (Ht (pre ++ [40]) ([41] ++ post) fuel E1 Hs) as (c & Ec & Etree); [rewrite !length_app; cbn [length]; lia|].
  exists c. split; [|done]. cbn [parseexec parseblock]. mret (peek_is (lit "(") true pre 40 _ E eq_refl ltac:(done) eq_refl).
  mret (peek_is (lit "(") true pre 40 _ E eq_refl ltac:(done) eq_refl). cbn [negb].
  mret (token_sym pre 40 (show t ++ [41] ++ post) E eq_refl (show_head t _ Hok Hs) ltac:(done)). mret Ec.
  mret (peek_is (lit ")") true _ 41 _ E2 eq_refl ltac:(done) eq_refl). cbn [negb].
  mret (token_sym _ 41 post E2 eq_refl Hp ltac:(done)). by rewrite <- !app_assoc.
Qed.

(** What parseline and parsepipe do after their first part. *)
Definition line_rest (fuel : nat) (c : cmd) : prog nat cmd :=
  bind (back_loop line fuel c) (fun c => bind (peek line (lit ";")) (fun b : bool =>
    if b then bind (gettoken line) (fun _ => bind (parseline line fuel) (fun r => ret (Listcmd c r))) else ret c)).
Definition pipe_rest (fuel : nat) (c : cmd) : prog nat cmd :=
  bind (peek line (lit "|")) (fun b : bool =>
    if b then bind (gettoken line) (fun _ => bind (parsepipe line fuel) (fun r => ret (Pipecmd c r))) else ret c).

Lemma parseline_S fuel : parseline line (S fuel) = bind (parsepipe line fuel) (line_rest fuel).
Proof. done. Qed.
Lemma parsepipe_S fuel : parsepipe line (S fuel) = bind (parseexec line fuel) (pipe_rest fuel).
Proof. done. Qed.

Lemma line_end fuel pre post c : line = pre ++ post -> stop post -> line_rest (S fuel) c (length pre) = Ret c (length pre).
Proof.
  intros E Hs. pose proof (stop_calm _ Hs) as Hc. unfold line_rest.
  mret (backs_none fuel c pre post E (calm_space _ Hc) (calm_has (lit "&") _ Hc eq_refl eq_refl)).
  mret (peek_here (lit ";") pre post E (calm_space _ Hc)). by rewrite (calm_has (lit ";") _ Hc).
Qed.

Lemma pipe_end fuel pre post c : line = pre ++ post -> has whitespace (hd 0 post) = false ->
  negb (hd 0 post =? 0) && has (lit "|") (hd 0 post) = false -> pipe_rest fuel c (length pre) = Ret c (length pre).
Proof. intros E Hw Hb. unfold pipe_rest. mret (peek_here (lit "|") pre post E Hw). by rewrite Hb. Qed.

Lemma stop_end fuel fuel' pre post c : line = pre ++ post -> stop post ->
  pipe_rest fuel c (length pre) = Ret c (length pre) /\ line_rest (S fuel') c (length pre) = Ret c (length pre).
Proof.
  intros E Hs. pose proof (stop_calm _ Hs) as Hc. split; [|by apply line_end with (post := post)].
  apply pipe_end with (post := post); [done|by apply calm_space|by apply calm_has].
Qed.

Lemma exec_back args : tree_ok (TExec args) -> parses_back (TExec args).
Proof.
  intros [Ha Hl] pre post fuel E Hs Hf. cbn [show] in *. destruct fuel as [|[|[|[|fuel]]]]; [lia..|].
  pose proof (join_calm args post Ha Hs) as Hc. assert (line = (pre ++ join args) ++ post) as E1 by (by rewrite <- app_assoc).
  destruct (args_run args pre post [] (S fuel) E Hs Ha Hl) as (l & El & Em).
  { rewrite length_app in Hf. assert (length args <= length (join args))%nat; [|lia]. clear -Ha.
    induction Ha as [|w rest [Hn _] Ha IH]; [done|]. destruct w as [|x w]; [done|]. destruct rest; cbn [join length] in *; rewrite ?length_app; cbn in *; lia. }
  assert (parseexec line (S (S fuel)) (length pre) = Ret (Execcmd l) (length (pre ++ join args))) as Ee.
  { cbn [parseexec]. mret (peek_here (lit "(") pre _ E (calm_space _ Hc)). rewrite (calm_has (lit "(") _ Hc) by done.
    mret (redirs_none fuel (Execcmd []) _ _ E (calm_space _ Hc) (calm_has (lit "<>") _ Hc eq_refl eq_refl)). exact El. }
  exists (Execcmd l). split; [|by rewrite <- Em]. destruct (stop_end (S (S fuel)) (S (S fuel)) _ post (Execcmd l) E1 Hs) as [Hp Hl'].
  rewrite parseline_S, parsepipe_S, bind_assoc. mret Ee. mret Hp. exact Hl'.
Qed.

Lemma block_plain t pre post fuel : tree_ok t -> parses_back t -> line = pre ++ [40] ++ show t ++ [41] ++ post ->
  has whitespace (hd 0 post) = false -> negb (hd 0 post =? 0) && has (lit "<>") (hd 0 post) = false ->
  (4 * (length (show t) + 1 + length post) + 6 <= fuel)%nat ->
  exists c, parseexec line fuel (length pre) = Ret c (length (pre ++ [40] ++ show t ++ [41])) /\ tree_of slice c = t.
Proof.
  intros Hok Ht E Hw Hr Hf. destruct fuel as [|[|[|fuel]]]; [lia..|].
  destruct (block_run t pre post (S fuel) Hok Ht E Hw ltac:(lia)) as (c & Ec & Etree). exists c. split; [|done].
  rewrite Ec. apply redirs_none with (post := post); [|done|done]. by rewrite E, <- !app_assoc.
Qed.

Lemma pipe_back l r : tree_ok l -> tree_ok r -> parses_back l -> parses_back r -> parses_back (TPipe l r).
Proof.
  intros Hokl Hokr Hl Hr pre post fuel E Hs Hf. cbn [show] in *. destruct fuel as [|[|[|[|fuel]]]]; [len_lia..|]. pose proof (stop_calm _ Hs) as Hc.
  set (pre1 := pre ++ [40] ++ show l ++ [41]). set (pre2 := (pre1 ++ [124]) ++ [40] ++ show r ++ [41]).
  assert (line = pre ++ [40] ++ show l ++ [41] ++ 124 :: [40] ++ show r ++ [41] ++ post) as E0 by (rewrite E; app_eq).
  assert (line = pre1 ++ 124 :: [40] ++ show r ++ [41] ++ post) as E1 by (rewrite E0; unfold pre1; app_eq).
  assert (line = (pre1 ++ [124]) ++ [40] ++ show r ++ [41] ++ post) as E2 by (rewrite E1; app_eq).
  assert (line = pre2 ++ post) as E3 by (rewrite E2; unfold pre2; app_eq).
  destruct (block_plain l pre _ (S (S fuel)) Hokl Hl E0 eq_refl eq_refl) as (cl & Ecl & Etl); [len_lia|].
  destruct (block_plain r (pre1 ++ [124]) post (S fuel) Hokr Hr E2 (calm_space _ Hc) (calm_has (lit "<>") _ Hc eq_refl eq_refl)) as (cr & Ecr & Etr); [len_lia|].
  fold pre1 in Ecl. fold pre2 in Ecr. exists (Pipecmd cl cr). split; [|cbn; congruence].
  replace (length (pre ++ _)) with (length pre2) by (unfold pre2, pre1; len_lia).
  destruct (stop_end (S fuel) (S (S fuel)) pre2 post (Pipecmd cl cr) E3 Hs) as [_ Hle].
  destruct (stop_end (S fuel) O pre2 post cr E3 Hs) as [Hpe _].
  rewrite parseline_S, parsepipe_S, bind_assoc. mret Ecl. unfold pipe_rest at 1. rewrite bind_assoc.
  mret (peek_is (lit "|") true pre1 124 _ E1 eq_refl ltac:(done) eq_refl). rewrite bind_assoc.
  mret (token_sym pre1 124 _ E1 eq_refl eq_refl ltac:(done)). rewrite parsepipe_S, !bind_assoc. mret Ecr. mret Hpe. exact Hle.
Qed.

Lemma list_back l r : tree_ok l -> tree_ok r -> parses_back l -> parses_back r -> parses_back (TList l r).
Proof.
  intros Hokl Hokr Hl Hr pre post fuel E Hs Hf. cbn [show] in *. destruct fuel as [|[|[|[|fuel]]]]; [len_lia..|].
  pose proof (stop_calm _ Hs) as Hc.
  set (pre1 := pre ++ [40] ++ show l ++ [41]). set (pre2 := (pre1 ++ [59]) ++ [40] ++ show r ++ [41]).
  assert (line = pre ++ [40] ++ show l ++ [41] ++ 59 :: [40] ++ show r ++ [41] ++ post) as E0 by (rewrite E; app_eq).
  assert (line = pre1 ++ 59 :: [40] ++ show r ++ [41] ++ post) as E1 by (rewrite E0; unfold pre1; app_eq).
  assert (line = (pre1 ++ [59]) ++ [40] ++ show r ++ [41] ++ post) as E2 by (rewrite E1; app_eq).
  assert (line = pre2 ++ post) as E3 by (rewrite E2; unfold pre2; app_eq).
  destruct (block_plain l pre _ (S (S fuel)) Hokl Hl E0 eq_refl eq_refl) as (cl & Ecl & Etl); [len_lia|].
  destruct (block_plain r (pre1 ++ [59]) post (S fuel) Hokr Hr E2 (calm_space _ Hc) (calm_has (lit "<>") _ Hc eq_refl eq_refl)) as (cr & Ecr & Etr); [len_lia|].
  fold pre1 in Ecl. fold pre2 in Ecr. exists (Listcmd cl cr). split; [|cbn; congruence].
  replace (length (pre ++ _)) with (length pre2) by (unfold pre2, pre1; len_lia).
  destruct (stop_end (S fuel) (S fuel) pre2 post cr E3 Hs) as [Hpe Hle].
  rewrite parseline_S, parsepipe_S, bind_assoc. mret Ecl. mret (pipe_end (S (S fuel)) pre1 _ cl E1 eq_refl eq_refl).
  unfold line_rest at 1. mret (backs_none (S (S fuel)) cl pre1 _ E1 eq_refl eq_refl).
  mret (peek_is (lit ";") true pre1 59 _ E1 eq_refl ltac:(done) eq_refl).
  mret (token_sym pre1 59 _ E1 eq_refl eq_refl ltac:(done)). rewrite parseline_S, parsepipe_S, !bind_assoc. mret Ecr. mret Hpe.
  by mret Hle.
Qed.

Lemma back_back t : tree_ok t -> parses_back t -> parses_back (TBack t).
Proof.
  intros Hok Ht pre post fuel E Hs Hf. cbn [show] in *. destruct fuel as [|[|[|[|fuel]]]]; [len_lia..|].
  pose proof (stop_calm _ Hs) as Hc. set (pre1 := pre ++ [40] ++ show t ++ [41]).
  assert (line = pre ++ [40] ++ show t ++ [41] ++ 38 :: post) as E0 by (rewrite E; app_eq).
  assert (line = pre1 ++ 38 :: post) as E1 by (rewrite E0; unfold pre1; app_eq).
  assert (line = (pre1 ++ [38]) ++ post) as E2 by (rewrite E1; app_eq).
  destruct (block_plain t pre _ (S (S fuel)) Hok Ht E0 eq_refl eq_refl) as (c & Ec & Et); [len_lia|].
  fold pre1 in Ec. exists (Backcmd c). split; [|cbn; congruence].
  replace (length (pre ++ _)) with (length (pre1 ++ [38])) by (unfold pre1; len_lia).
  rewrite parseline_S, parsepipe_S, bind_assoc. mret Ec. mret (pipe_end (S (S fuel)) pre1 _ c E1 eq_refl eq_refl).
  unfold line_rest. change (back_loop line (S (S (S fuel))) c) with (bind (peek line (lit "&")) (fun b : bool =>
    if b then bind (gettoken line) (fun _ => back_loop line (S (S fuel)) (Backcmd c)) else ret c)).
  rewrite bind_assoc. mret (peek_is (lit "&") true pre1 38 _ E1 eq_refl ltac:(done) eq_refl).
  rewrite bind_assoc. mret (token_sym pre1 38 _ E1 eq_refl (calm_space _ Hc) ltac:(done)).
  mret (backs_none (S fuel) (Backcmd c) _ post E2 (calm_space _ Hc) (calm_has (lit "&") _ Hc eq_refl eq_refl)).
  mret (peek_here (lit ";") _ post E2 (calm_space _ Hc)). by rewrite (calm_has (lit ";") _ Hc).
Qed.

(** One redirection at the end of a part of the line. *)
Lemma redir_run fuel c pre file post mode fd : line = pre ++ (if fd =? 0 then 60 else 62) :: file ++ post -> word_ok file ->
  stop post -> mode = O_RDONLY /\ fd = 0 \/ mode = Z.lor O_WRONLY O_CREATE /\ fd = 1 ->
  exists q e, parseredirs line (S (S fuel)) c (length pre) =
    Ret (Redircmd c q e mode fd) (length (pre ++ (if fd =? 0 then 60 else 62) :: file)) /\ slice (q, e) = file.
Proof.
  intros E Hw Hs Hm. set (op := if fd =? 0 then 60 else 62) in *. pose proof (stop_calm _ Hs) as Hc.
  assert (line = (pre ++ [op]) ++ file ++ [] ++ post) as E1 by (rewrite E; app_eq).
  assert (line = ((pre ++ [op]) ++ file ++ []) ++ post) as E2 by (rewrite E; app_eq).
  assert (has (lit "<>") op = true /\ has whitespace op = false /\ op <> 0 /\ has (62 :: lit "|();&<") op = true) as (H1 & H2 & H3 & H4)
    by (unfold op; by destruct (fd =? 0)).
  assert (calm (hd 0 (file ++ post)) /\ hd 0 (file ++ post) <> 62) as [Hcf Hgt].
  { destruct Hw as [Hn Hw]. destruct file as [|x file]; [done|]. apply Forall_cons_1 in Hw as [[_ Hx] _]. cbn.
    split; [by right; right|]. intros ->. done. }
  exists (length (pre ++ [op])), (length ((pre ++ [op]) ++ file)). split; [|by apply slice_here with (post := post)].
  change (parseredirs line (S (S fuel)) c (length pre)) with
    (bind (peek line (lit "<>")) (fun b : bool => if b then
      bind (gettoken line) (fun t => bind (gettoken line) (fun w => let '(tok, _, _) := t in let '(word, q, eq) := w in
        if negb (word =? TOK_WORD) then panic "missing file for redirection" else
        parseredirs line (S fuel) (if tok =? 60 then Redircmd c q eq O_RDONLY 0
         else if tok =? 62 then Redircmd c q eq (Z.lor O_WRONLY O_CREATE) 1
         else if tok =? TOK_APPEND then Redircmd c q eq (Z.lor O_WRONLY O_CREATE) 1 else c))) else ret c) (length pre)).
  mret (peek_is (lit "<>") true pre op _ E H2 H3 H1). mret (token_sym pre op _ E H4 (calm_space _ Hcf) ltac:(done)).
  assert ([] ++ post = [] \/ plain (hd 0 ([] ++ post)) = false) as He by (destruct Hs as [->|[p ->]]; [by left|by right]).
  mret (token_word (pre ++ [op]) file [] post E1 Hw ltac:(constructor) (calm_space _ Hc) He). change (negb (TOK_WORD =? TOK_WORD)) with false. cbv iota.
  rewrite (redirs_none fuel _ _ post E2 (calm_space _ Hc) (calm_has (lit "<>") _ Hc eq_refl eq_refl)). f_equal; [|len_lia].
  destruct Hm as [[-> ->]|[-> ->]]; done.
Qed.

Lemma redir_back t file mode fd : tree_ok (TRedir t file mode fd) -> parses_back t -> parses_back (TRedir t file mode fd).
Proof.
  intros (Hok & Hw & Hm) Ht pre post fuel E Hs Hf. cbn [show] in *. destruct fuel as [|[|[|[|[|[|fuel]]]]]]; [len_lia..|].
  set (op := if fd =? 0 then 60 else 62) in *. set (pre1 := pre ++ [40] ++ show t ++ [41]).
  assert (line = pre ++ [40] ++ show t ++ [41] ++ op :: file ++ post) as E0 by (rewrite E; app_eq).
  assert (line = pre1 ++ op :: file ++ post) as E1 by (rewrite E0; unfold pre1; app_eq).
  assert (line = (pre1 ++ op :: file) ++ post) as E2 by (rewrite E1; app_eq).
  destruct (block_run t pre _ (S (S fuel)) Hok Ht E0) as (c & Ec & Et); [unfold op; by destruct (fd =? 0)|len_lia|]. fold pre1 in Ec.
  destruct (redir_run fuel c pre1 file post mode fd E1 Hw Hs Hm) as (q & e & Er & Esl). fold op in Er.
  exists (Redircmd c q e mode fd). split; [|cbn [tree_of]; congruence].
  replace (length (pre ++ _)) with (length (pre1 ++ op :: file)) by (unfold pre1; len_lia).
  destruct (stop_end (S (S (S (S fuel)))) (S (S (S (S fuel)))) _ post (Redircmd c q e mode fd) E2 Hs) as [Hpe Hle].
  rewrite parseline_S, parsepipe_S, bind_assoc. rewrite Er in Ec. mret Ec. mret Hpe. exact Hle.
Qed.

Lemma show_parses t : tree_ok t -> parses_back t.
Proof.
  induction t as [args|t IH file mode fd|l IHl r IHr|l IHl r IHr|t IH]; intros Hok.
  - by apply exec_back.
  - apply redir_back; [done|]. apply IH, Hok.
  - destruct Hok. apply pipe_back; auto.
  - destruct Hok. apply list_back; auto.
  - apply back_back; auto.
Qed.
End RoundTrip.

Lemma tree_of_ext f g c : (forall a, a ∈ words c -> f a = g a) -> tree_of f c = tree_of g c.
Proof.
  induction c as [argv|c IH q e mode fd|l IHl r IHr|l IHl r IHr|c IH]; intros H; cbn [tree_of words] in *.
  - f_equal. apply map_ext_in. intros a Ha. apply H, list_elem_of_In, Ha.
  - rewrite IH by (intros; apply H; set_solver). f_equal. apply H. set_solver.
  - rewrite IHl, IHr; [done|set_solver|set_solver].
  - rewrite IHl, IHr; [done|set_solver|set_solver].
  - by rewrite IH.
Qed.

Lemma join_nonzero args : Forall word_ok args -> Forall (fun x => x <> 0) (join args).
Proof.
  induction 1 as [|w rest [_ Hw] Ha IH]; [constructor|].
  assert (Forall (fun x => x <> 0) w) by (eapply Forall_impl; [exact Hw|intros ? []; done]).
  destruct rest; cbn [join]; [done|]. apply Forall_app. split; [done|]. constructor; [done|exact IH].
Qed.

Lemma show_nonzero t : tree_ok t -> Forall (fun x => x <> 0) (show t).
Proof.
  induction t as [args|t IH file mode fd|l IHl r IHr|l IHl r IHr|t IH]; cbn [tree_ok show]; intros Hok.
  - apply join_nonzero, Hok.
  - destruct Hok as (Ht & [_ Hw] & _). rewrite !Forall_app, !Forall_cons. split_and!; try done; [by apply IH|by destruct (fd =? 0)|].
    eapply Forall_impl; [exact Hw|intros ? []; done].
  - destruct Hok. rewrite !Forall_app, !Forall_cons, !Forall_app. split_and!; auto.
  - destruct Hok. rewrite !Forall_app, !Forall_cons, !Forall_app. split_and!; auto.
  - rewrite !Forall_app, !Forall_cons. split_and!; auto.
Qed.

(** C12: every command that a line can describe is read back from its printed form: the
    parser of the shell accepts the line, with pipes, lists, background commands,
    redirections and parentheses nested in any way, and the command it builds has, in the
    buffer that nulterminate has cut up, exactly the structure, the arguments and the
    files of the command printed. *)
Theorem parsecmd_show_roundtrip (t : tree) : tree_ok t ->
  exists c buf s, parsecmd (fuel_for (show t)) (show t) 0%nat = Ret (inl (c, buf)) s /\
    tree_of (fun a => cstr buf (fst a)) c = t.
Proof.
  intros Hok. destruct (show_parses (show t) t Hok [] [] (fuel_for (show t))) as (c & Ec & Et);
    [by rewrite app_nil_r|by left|rewrite app_nil_r; unfold fuel_for; lia|].
  cbn [app length] in Ec. destruct (parsers_end (show t) (fuel_for (show t)) 0%nat) as [Hp _]; [lia|].
  specialize (Hp ltac:(unfold fuel_for, es; lia)). unfold parses, ends in Hp. rewrite Ec in Hp. destruct Hp as [_ Hc].
  exists c, (nulterminate c (show t ++ [0])), (length (show t)). split.
  - unfold parsecmd. mret Ec. mret (peek_here (show t) [] (show t) [] ltac:(by rewrite app_nil_r) eq_refl).
    rewrite bind_gets. unfold id, es. by rewrite Nat.eqb_refl.
  - transitivity (tree_of (slice (show t)) c); [|exact Et]. apply tree_of_ext. intros [q e] Hin. by apply nulterminate_cstr; [apply show_nonzero| |].
Qed.

Lemma parsecmd_show_roundtrip_witness :
  let t := TPipe (TRedir (TExec [lit "cat"]) (lit "in") O_RDONLY 0) (TBack (TExec [lit "grep"; lit "x"])) in
  exists c buf s, parsecmd (fuel_for (lit "((cat)<in)|((grep x)&)")) (lit "((cat)<in)|((grep x)&)") 0%nat = Ret (inl (c, buf)) s /\
    tree_of (fun a => cstr buf (fst a)) c = t.
Proof.
  intros t. assert (show t = lit "((cat)<in)|((grep x)&)") as <- by reflexivity. apply parsecmd_show_roundtrip.
  cbn [tree_ok t]. assert (forall w, forallb (fun c => negb (c =? 0) && plain c) w = true -> w <> [] -> word_ok w) as Hw.
  { intros w Hf Hn. split; [done|]. rewrite forallb_forall in Hf. apply Forall_forall. intros c Hc%list_elem_of_In.
    apply Hf, andb_prop in Hc as [H0 Hc]. split; [|done]. intros ->. done. }
  assert (Forall word_ok [lit "cat"]) as H1 by (apply Forall_singleton, Hw; done).
  assert (Forall word_ok [lit "grep"; lit "x"]) as H2 by (rewrite Forall_cons, Forall_singleton; split; apply Hw; done).
  assert (word_ok (lit "in")) as H3 by (apply Hw; done).
  split_and!; [exact H1|unfold MAXARGS; cbn; lia|exact H3|by left|exact H2|unfold MAXARGS; cbn; lia].
Defined.

(** ** Running commands: the processes that a command starts, and their files

    When every call succeeds: a descriptor table holds what is open at each number, and
    a new descriptor gets the lowest free number.  A process is named by the forks on the
    way to it (false in the child), and a pipe by the process that made it. *)

Inductive obj := Given (n : nat) | File (name : list Z) (mode : Z) | ReadEnd (id : list bool) | WriteEnd (id : list bool).
Definition fdtable := list (option obj).

Fixpoint lowest (t : fdtable) : nat :=
  match t with Some _ :: t => S (lowest t) | _ => O end.

(** A program that has been started: its path, its arguments and its descriptors. *)
Definition proc_started : Type := list Z * list (list Z) * fdtable.

Section Procs.
Context (buf : list Z) (newpid : Z) (newpid_positive : 0 < newpid).

Fixpoint procs (r : run) (id : list bool) (t : fdtable) : list proc_started :=
  match r with
  | Exit | OutOfFuel => []
  | Syscall c k =>
    match c with
    | Close fd => procs (k 0) id (<[Z.to_nat fd := None]> t)
    | Open file mode => procs (k (Z.of_nat (lowest t))) id (<[lowest t := Some (File file mode)]> t)
    | Dup fd => procs (k (Z.of_nat (lowest t))) id (<[lowest t := mjoin (t !! Z.to_nat fd)]> t)
    | Exec path argv => [(path, argv, t)]
    | Fork => procs (k 0) (id ++ [false]) t ++ procs (k newpid) (id ++ [true]) t
    | Wait | Chdir _ | Printf _ _ => procs (k 0) id t
    end
  | Pipe k =>
    let rd := lowest t in
    let t := <[rd := Some (ReadEnd id)]> t in
    let wr := lowest t in
    procs (k (Some (Z.of_nat rd, Z.of_nat wr))) id (<[wr := Some (WriteEnd id)]> t)
  end.

(** Three descriptors and no other. *)
Definition std (i o e : obj) : fdtable := [Some i; Some o; Some e] ++ replicate 13 None.

(** What a command means: the programs of its parts, each with a standard input, output
    and error output. *)
Fixpoint wired (c : cmd) (id : list bool) (i o e : obj) : list proc_started :=
  match c with
  | Execcmd [] => []
  | Execcmd (((q, _) :: _) as argv) => [(cstr buf q, map (fun a => cstr buf (fst a)) argv, std i o e)]
  | Redircmd c file _ mode fd =>
    if fd =? 0 then wired c id (File (cstr buf file) mode) o e else wired c id i (File (cstr buf file) mode) e
  | Listcmd l r => wired l (id ++ [false]) i o e ++ wired r (id ++ [true]) i o e
  | Pipecmd l r => wired l (id ++ [false]) i (WriteEnd id) e ++ wired r (id ++ [true] ++ [false]) (ReadEnd id) o e
  | Backcmd c => wired c (id ++ [false]) i o e
  end.

Lemma procs_fork1 k id t : procs (fork1 k) id t = procs (k 0) (id ++ [false]) t ++ procs (k newpid) (id ++ [true]) t.
Proof. cbn [procs fork1]. by rewrite (proj2 (Z.eqb_neq newpid (-1))) by lia. Qed.

End Procs.


(** ** The main loop

    A process that is never cut off by the bounds of the model, whatever its calls return. *)
Fixpoint in_fuel (r : run) : Prop :=
  match r with
  | Exit => True
  | OutOfFuel => False
  | Syscall _ k => forall v, in_fuel (k v)
  | Pipe k => forall p, in_fuel (k p)
  end.

Lemma fork1_in_fuel k : (forall pid, in_fuel (k pid)) -> in_fuel (fork1 k).
Proof. intros Hk pid. cbn. destruct (pid =? -1); [by cbn|apply Hk]. Qed.

Lemma runcmd_in_fuel buf c : in_fuel (runcmd buf c).
Proof.
  induction c as [argv|c IH file efile mode fd|l IHl r IHr|l IHl r IHr|c IH]; cbn [runcmd in_fuel].
  - by destruct argv as [|[q e] argv].
  - intros _ v. destruct (v <? 0); cbn; auto.
  - intros [[p0 p1]|]; [|by cbn]. apply fork1_in_fuel. intros pid. destruct (pid =? 0); [by cbn|].
    apply fork1_in_fuel. intros pid'. destruct (pid' =? 0); cbn; auto.
  - apply fork1_in_fuel. intros pid. destruct (pid =? 0); cbn; auto.
  - apply fork1_in_fuel. intros pid. destruct (pid =? 0); cbn; auto.
Qed.

Lemma run_line_in_fuel line : in_fuel (run_line line).
Proof.
  destruct (parsers_end line (fuel_for line) 0%nat) as [Hp _]; [lia|]. specialize (Hp ltac:(unfold fuel_for, es; lia)).
  unfold parses, ends in Hp. unfold run_line, parsecmd, bind at 1. destruct (parseline line (fuel_for line) 0%nat) as [c s| | | | |]; try done.
  cbn [obind]. unfold peek. cbv [bind gets ret obind id]. destruct (negb _); [done|]. apply runcmd_in_fuel.
Qed.

Lemma gets_shorter n input l rest : gets_ n input = (l, rest) -> (length l + length rest = length input)%nat.
Proof.
  revert input l rest. induction n as [|n IH]; intros [|c input] l rest; cbn [gets_]; try (intros [= <- <-]; done).
  destruct (_ || _); [intros [= <- <-]; done|]. destruct (gets_ n input) as [l' rest'] eqn:E. intros [= <- <-].
  apply IH in E. cbn. lia.
Qed.

(** The shell reads its input to the end: one round for each line, of which there are
    at most as many as there are characters. *)
Lemma main_loop_in_fuel fuel input : (length input < fuel)%nat -> in_fuel (main_loop fuel input).
Proof.
  revert input. induction fuel as [|fuel IH]; intros input Hf; [lia|]. cbn [main_loop]. unfold getcmd.
  destruct (gets_ (100 - 1) input) as [l rest] eqn:E. apply gets_shorter in E. intros _.
  destruct (until_nul l) as [|c s] eqn:Es; [done|]. assert (length rest < fuel)%nat as Hr by (destruct l; [done|cbn in E; lia]).
  case_bool_decide.
  - intros v. destruct (v <? 0); [intros _|]; by apply IH.
  - apply fork1_in_fuel. intros pid. destruct (pid =? 0); [apply run_line_in_fuel|]. intros _. by apply IH.
Qed.
