(* ===== verification/Umalloc.v ===== *)
(** * Umalloc: the allocator of the user library, umalloc.c

    A header is the pair of fields ptr and size at an address; the memory of a process
    is modelled as far as headers go, by the two fields of every address.  Sizes count
    units of sizeof(Header) = 16 bytes, the header's own unit included.  The free blocks
    form a ring of headers; [base] is a header of size 0 in the program's data, below the
    memory that sbrk() hands out.  sbrk(n) returns the old end of the process's memory,
    and moves it by n, or fails: whether it succeeds is a parameter. *)

From S2P Require Import Prelude.
#[local] Open Scope prog_scope.

Record heap := Heap { h_ptr : Z -> Z; h_size : Z -> Z; freep : Z; brk : Z }.

Definition upd (f : Z -> Z) (a v : Z) : Z -> Z := fun x => if x =? a then v else f x.
Definition set_ptr (a v : Z) (s : heap) : heap := Heap (upd (h_ptr s) a v) (h_size s) (freep s) (brk s).
Definition set_size (a v : Z) (s : heap) : heap := Heap (h_ptr s) (upd (h_size s) a v) (freep s) (brk s).
Definition set_freep (v : Z) (s : heap) : heap := Heap (h_ptr s) (h_size s) v (brk s).
Definition set_brk (v : Z) (s : heap) : heap := Heap (h_ptr s) (h_size s) (freep s) v.

Definition sizeof_header : Z := 16.

(** The address [n] headers after [p]. *)
Definition plus (p n : Z) : Z := p + sizeof_header * n.

Section Umalloc.
Context (base : Z) (grant : Z -> Z -> bool) (fuel : nat).

(** sbrk, from the break [brk s]; -1 is its failure. *)
Definition sbrk (n : Z) : prog heap Z := fun s =>
  if grant (brk s) n then Ret (brk s) (set_brk (brk s + n) s) else Ret (-1) s.

(** The loop of free: the block after which [bp] belongs. *)
Fixpoint find_place (rounds : nat) (bp p : Z) : prog heap Z :=
  match rounds with
  | O => fun s => NoFuel s
  | S rounds =>
    next <- gets (fun s => h_ptr s p);;
    if (p <? bp) && (bp <? next) then ret p else
    if (next <=? p) && ((p <? bp) || (bp <? next)) then ret p else
    find_place rounds bp next
  end.

Definition free (ap : Z) : prog heap unit :=
  let bp := plus ap (-1) in
  f <- gets freep;;
  if f =? 0 then undef "free: null pointer" else
  p <- find_place fuel bp f;;
  next <- gets (fun s => h_ptr s p);;
  size <- gets (fun s => h_size s bp);;
  (if plus bp size =? next then
     modify (fun s => set_size bp (u32 (h_size s bp + h_size s next)) s);;;
     modify (fun s => set_ptr bp (h_ptr s next) s)
   else modify (set_ptr bp next));;;
  psize <- gets (fun s => h_size s p);;
  (if plus p psize =? bp then
     modify (fun s => set_size p (u32 (h_size s p + h_size s bp)) s);;;
     modify (fun s => set_ptr p (h_ptr s bp) s)
   else modify (set_ptr p bp));;;
  modify (set_freep p).

Definition morecore (nu : Z) : prog heap Z :=
  let nu := if nu <? 4096 then 4096 else nu in
  p <- sbrk (u64 (nu * sizeof_header));;
  if p =? -1 then ret 0 else
  modify (set_size p nu);;;
  free (plus p 1);;;
  gets freep.

(** A block of at least [nunits] units at [p], after [prevp]: all of it, or its end. *)
Definition take_block (nunits prevp p : Z) : prog heap Z :=
  size <- gets (fun s => h_size s p);;
  p <- (if size =? nunits then
          modify (fun s => set_ptr prevp (h_ptr s p) s);;; ret p
        else
          modify (set_size p (u32 (size - nunits)));;;
          left <- gets (fun s => h_size s p);;
          let p := plus p left in
          modify (set_size p nunits);;; ret p);;
  modify (set_freep prevp);;;
  ret (plus p 1).

Fixpoint malloc_loop (rounds : nat) (nunits prevp p : Z) : prog heap Z :=
  match rounds with
  | O => fun s => NoFuel s
  | S rounds =>
    size <- gets (fun s => h_size s p);;
    if size >=? nunits then take_block nunits prevp p else
    f <- gets freep;;
    if p =? f then
      p <- morecore nunits;;
      if p =? 0 then ret 0 else
      next <- gets (fun s => h_ptr s p);; malloc_loop rounds nunits p next
    else
      next <- gets (fun s => h_ptr s p);; malloc_loop rounds nunits p next
  end.

Definition malloc (nbytes : Z) : prog heap Z :=
  let nunits := u32 ((nbytes + sizeof_header - 1) / sizeof_header + 1) in
  f <- gets freep;;
  prevp <- (if f =? 0 then
              modify (set_freep base);;; modify (set_ptr base base);;;
              modify (set_size base 0);;; ret base
            else ret f);;
  p <- gets (fun s => h_ptr s prevp);;
  malloc_loop fuel nunits prevp p.

End Umalloc.

(** ** The ring of free blocks

    [ns] lists its nodes in the order of their addresses, [base] first. *)

Definition end_of (s : heap) (a : Z) : Z := plus a (h_size s a).

(** Each node points to the next one, and the last one to [z]. *)
Fixpoint linked (s : heap) (ns : list Z) (z : Z) : Prop :=
  match ns with
  | [] => True
  | a :: ns => h_ptr s a = hd z ns /\ linked s ns z
  end.

(** The blocks are in order with something between any two of them, up to [z]. *)
Fixpoint spaced (s : heap) (ns : list Z) (z : Z) : Prop :=
  match ns with
  | [] => True
  | a :: ns => match ns with [] => end_of s a <= z | x :: _ => end_of s a < x end /\ spaced s ns z
  end.

Lemma linked_app s n1 n2 z : linked s (n1 ++ n2) z <-> linked s n1 (hd z n2) /\ linked s n2 z.
Proof.
  induction n1 as [|a n1 IH]; cbn [app linked]; [tauto|]. rewrite IH. destruct n1; cbn [app hd]; tauto.
Qed.

Lemma spaced_tail s n1 n2 z : spaced s (n1 ++ n2) z -> spaced s n2 z.
Proof. induction n1 as [|a n1 IH]; [done|]. intros [_ H]. by apply IH. Qed.

(** What is not touched keeps its place. *)
Lemma nodes_ext s s' ns z : (forall a, a ∈ ns -> h_ptr s' a = h_ptr s a) -> linked s ns z -> linked s' ns z.
Proof.
  induction ns as [|a ns IH]; [done|]. intros H [Hp Hl]. split.
  - rewrite H; [done|by left].
  - apply IH; [|done]. intros b Hb. apply H. by right.
Qed.

Lemma spaced_ext s s' ns z z' : (forall a, a ∈ ns -> h_size s' a = h_size s a) -> z <= z' -> spaced s ns z -> spaced s' ns z'.
Proof.
  intros Hs Hz. induction ns as [|a ns IH]; [done|]. intros [Hp Hl]. split.
  - unfold end_of in *. rewrite Hs by (by left). destruct ns; [lia|done].
  - apply IH; [|done]. intros b Hb. apply Hs. by right.
Qed.

(** A block in front of a spaced list. *)
Definition before (s : heap) (a : Z) (ns : list Z) (z : Z) : Prop :=
  match ns with [] => end_of s a <= z | x :: _ => end_of s a < x end.

Lemma spaced_cons s a ns z : spaced s (a :: ns) z <-> before s a ns z /\ spaced s ns z.
Proof. done. Qed.

Lemma spaced_mid s n1 a n2 z : spaced s (n1 ++ a :: n2) z <->
  spaced s n1 (a - 1) /\ spaced s (a :: n2) z.
Proof.
  induction n1 as [|b n1 IH]; cbn [app]; [cbn [spaced]; tauto|]. rewrite !(spaced_cons s b), IH.
  destruct n1; cbn [app before]; intuition lia.
Qed.

(** Sizes are not negative, so later nodes are at higher addresses. *)
Definition sizes_ok (s : heap) (ns : list Z) : Prop := forall a, a ∈ ns -> 0 <= h_size s a.

Lemma spaced_above s a ns z b : spaced s (a :: ns) z -> sizes_ok s (a :: ns) -> b ∈ ns -> end_of s a < b.
Proof.
  revert a. induction ns as [|c ns IH]; intros a Hs Hok Hb; [by apply not_elem_of_nil in Hb|].
  destruct Hs as [H1 H2]. apply elem_of_cons in Hb as [->|Hb]; [done|].
  assert (end_of s c < b) by (apply IH; [done| |done]; intros x Hx; apply Hok; by right).
  specialize (Hok c ltac:(right; left)). unfold end_of, plus, sizeof_header in *. lia.
Qed.

Lemma spaced_end s ns z a : spaced s ns z -> sizes_ok s ns -> a ∈ ns -> end_of s a <= z.
Proof.
  revert a. induction ns as [|c ns IH]; intros a Hs Hok Ha; [by apply not_elem_of_nil in Ha|]. destruct Hs as [H1 H2].
  apply elem_of_cons in Ha as [->|Ha].
  - destruct ns as [|x ns]; [done|]. assert (end_of s x <= z).
    { apply IH; [done|intros y Hy; apply Hok; by right|by left]. }
    specialize (Hok x ltac:(right; left)). unfold end_of, plus, sizeof_header in *. lia.
  - apply IH; [done|intros y Hy; apply Hok; by right|done].
Qed.

(** The memory of the free blocks. *)
Definition in_block (s : heap) (a x : Z) : Prop := a <= x < end_of s a.
Definition covered (s : heap) (ns : list Z) (x : Z) : Prop := exists a, a ∈ ns /\ in_block s a x.

Lemma covered_app s n1 n2 x : covered s (n1 ++ n2) x <-> covered s n1 x \/ covered s n2 x.
Proof. unfold covered. setoid_rewrite elem_of_app. naive_solver. Qed.
Lemma covered_cons s a ns x : covered s (a :: ns) x <-> in_block s a x \/ covered s ns x.
Proof. unfold covered. setoid_rewrite elem_of_cons. naive_solver. Qed.
Lemma covered_ext s s' ns x : (forall a, a ∈ ns -> h_size s' a = h_size s a) -> covered s' ns x <-> covered s ns x.
Proof.
  intros H. unfold covered, in_block, end_of. split; intros (a & Ha & Hx); exists a; (split; [done|]); [by rewrite <- (H a Ha)|by rewrite (H a Ha)].
Qed.

Section Ring.
Context (base : Z).

(** The invariant of the allocator. *)
Record ring (s : heap) (ns : list Z) : Prop := Ring {
  r_pos : 0 < base;
  r_head : exists l, ns = base :: l;
  r_links : linked s ns base;
  r_space : spaced s ns (brk s);
  r_base : h_size s base = 0;
  r_size : forall a, a ∈ ns -> a <> base -> 1 <= h_size s a /\ base + sizeof_header <= a;
  r_freep : freep s ∈ ns;
  r_brk : base + sizeof_header <= brk s <= 68719476736
}.

Lemma ring_sizes s ns : ring s ns -> sizes_ok s ns.
Proof.
  intros R a Ha. destruct (decide (a = base)) as [->|Hne]; [rewrite (r_base _ _ R); lia|].
  destruct (r_size _ _ R a Ha Hne). lia.
Qed.

Lemma ring_base_le s ns a : ring s ns -> a ∈ ns -> base <= a.
Proof.
  intros R Ha. destruct (decide (a = base)) as [->|Hne]; [lia|]. destruct (r_size _ _ R a Ha Hne). unfold sizeof_header in *. lia.
Qed.

(** [p] is the last node below [bp]. *)
Record place (bp p : Z) (n1 n2 : list Z) : Prop := Place {
  pl_below : forall a, a ∈ n1 -> a < p;
  pl_here : p < bp;
  pl_above : forall a, a ∈ n2 -> bp < a
}.

Lemma ring_sorted s n1 p n2 : sizes_ok s (n1 ++ p :: n2) -> spaced s (n1 ++ p :: n2) (brk s) ->
  (forall a, a ∈ n1 -> a < p) /\ (forall a, a ∈ n2 -> p < a).
Proof.
  intros Hok Hs. split; intros a Ha.
  - apply list_elem_of_split in Ha as (m1 & m2 & ->). rewrite <- app_assoc in *. apply spaced_tail in Hs. cbn [app] in *.
    assert (sizes_ok s (a :: m2 ++ p :: n2)) as Hok' by (intros b Hb; apply Hok; set_solver).
    pose proof (spaced_above s a (m2 ++ p :: n2) _ p Hs Hok' ltac:(set_solver)) as H.
    specialize (Hok a ltac:(set_solver)). unfold end_of, plus, sizeof_header in H. lia.
  - apply spaced_tail in Hs. assert (sizes_ok s (p :: n2)) as Hok' by (intros b Hb; apply Hok; set_solver).
    pose proof (spaced_above s p n2 _ a Hs Hok' Ha) as H.
    specialize (Hok p ltac:(set_solver)). unfold end_of, plus, sizeof_header in H. lia.
Qed.

Definition moves_on (s : heap) (bp x : Z) : Prop :=
  forall k, find_place (S k) bp x s = find_place k bp (h_ptr s x) s.

Lemma walk s bp w z k : linked s w z -> (forall x, x ∈ w -> moves_on s bp x) ->
  find_place (length w + k) bp (hd z w) s = find_place k bp z s.
Proof.
  induction w as [|x w IH]; intros Hl Hm; [done|]. destruct Hl as [Hp Hl]. cbn [length Nat.add hd].
  rewrite (Hm x) by (by left). rewrite Hp. apply IH; [done|]. intros y Hy. apply Hm. by right.
Qed.

Lemma passes_below s bp n1 p n2 x : ring s (n1 ++ p :: n2) -> place bp p n1 n2 -> x ∈ n1 -> moves_on s bp x.
Proof.
  intros R [Hb Hp Ha] Hx k. cbn [find_place]. rewrite bind_gets.
  assert (x < h_ptr s x <= p) as [H1 H2].
  { pose proof (ring_sizes _ _ R) as Hok. pose proof (r_links _ _ R) as Hl. pose proof (r_space _ _ R) as Hs.
    apply list_elem_of_split in Hx as (m1 & m2 & ->). rewrite <- app_assoc in *. cbn [app] in *.
    apply linked_app in Hl as [_ [-> _]]. destruct (ring_sorted s m1 x (m2 ++ p :: n2) Hok Hs) as [_ Hgt].
    destruct m2 as [|y m2]; cbn [app hd].
    - split; [apply Hgt; set_solver|lia].
    - split; [apply Hgt; set_solver|]. specialize (Hb y ltac:(set_solver)). lia. }
  rewrite (proj2 (Z.ltb_ge bp _)), andb_false_r by lia. rewrite (proj2 (Z.leb_gt _ x)) by lia. done.
Qed.

Lemma passes_above s bp n1 p n2 x : ring s (n1 ++ p :: n2) -> place bp p n1 n2 -> base < bp -> x ∈ n2 -> moves_on s bp x.
Proof.
  intros R [Hb Hp Ha] Hbp Hx k. cbn [find_place]. rewrite bind_gets. pose proof (Ha x Hx) as Hxb.
  rewrite (proj2 (Z.ltb_ge x bp)) by lia. cbn [andb orb].
  destruct (Z.leb_spec (h_ptr s x) x) as [Hle|]; [|done]. cbn [andb].
  rewrite (proj2 (Z.ltb_ge bp _)); [done|].
  pose proof (ring_sizes _ _ R) as Hok. pose proof (r_links _ _ R) as Hl. pose proof (r_space _ _ R) as Hs.
  apply list_elem_of_split in Hx as (m1 & m2 & ->).
  replace (n1 ++ p :: m1 ++ x :: m2) with ((n1 ++ p :: m1) ++ x :: m2) in * by (by rewrite <- app_assoc).
  apply linked_app in Hl as [_ [E _]]. rewrite E in *. destruct m2 as [|y m2]; cbn [hd] in *; [lia|].
  destruct (ring_sorted s _ x (y :: m2) Hok Hs) as [_ Hgt]. specialize (Hgt y ltac:(left)). lia.
Qed.

Lemma stops_here s bp n1 p n2 k : ring s (n1 ++ p :: n2) -> place bp p n1 n2 -> base < bp ->
  find_place (S k) bp p s = Ret p s.
Proof.
  intros R [Hb Hp Ha] Hbp. cbn [find_place]. rewrite bind_gets. rewrite (proj2 (Z.ltb_lt p bp)) by lia. cbn [andb orb].
  destruct (Z.ltb_spec bp (h_ptr s p)) as [|Hge]; [done|]. rewrite andb_true_r.
  pose proof (r_links _ _ R) as Hl. apply linked_app in Hl as [_ [E _]].
  destruct n2 as [|y n2]; cbn [hd] in E.
  - rewrite E. rewrite (proj2 (Z.leb_le base p)); [done|]. apply (ring_base_le _ _ _ R). set_solver.
  - specialize (Ha y ltac:(left)). lia.
Qed.

Lemma find_place_run s bp n1 p n2 fuel : ring s (n1 ++ p :: n2) -> place bp p n1 n2 -> base < bp ->
  (length (n1 ++ p :: n2) < fuel)%nat -> find_place fuel bp (freep s) s = Ret p s.
Proof.
  intros R P Hbp Hf. pose proof (r_freep _ _ R) as Hin. pose proof (r_links _ _ R) as Hl.
  rewrite length_app in Hf. cbn [length] in Hf. apply elem_of_app in Hin as [Hin|[Hin|Hin]%elem_of_cons].
  - pose proof (list_elem_of_split _ _ Hin) as (m1 & m2 & E). rewrite E in Hl, Hf. rewrite <- app_assoc in Hl. apply linked_app in Hl as [_ Hl].
    apply linked_app in Hl as [Hl _]. cbn [hd] in Hl. rewrite length_app in Hf. cbn [length] in Hf.
    replace fuel with (length (freep s :: m2) + S (fuel - S (S (length m2))))%nat by (cbn [length]; lia).
    rewrite (walk s bp (freep s :: m2) p _ Hl); [by eapply stops_here|].
    intros x Hx. apply (passes_below s bp n1 p n2 x R P). rewrite E. set_solver.
  - rewrite Hin. destruct fuel as [|fuel]; [lia|]. by eapply stops_here.
  - pose proof (list_elem_of_split _ _ Hin) as (m1 & m2 & E). pose proof Hl as Hl0. rewrite E in Hl, Hf. rewrite app_comm_cons, app_assoc in Hl.
    apply linked_app in Hl as [_ Hl]. rewrite length_app in Hf. cbn [length] in Hf.
    replace fuel with (length (freep s :: m2) + (length n1 + S (fuel - S (S (length m2 + length n1)))))%nat by (cbn [length]; lia).
    rewrite (walk s bp (freep s :: m2) base _ Hl).
    2: { intros x Hx. apply (passes_above s bp n1 p n2 x R P Hbp). rewrite E. set_solver. }
    apply linked_app in Hl0 as [Hl0 _]. cbn [hd] in Hl0.
    assert (base = hd p n1) as Eb by (destruct (r_head _ _ R) as [l El]; destruct n1; cbn in El |- *; congruence).
    rewrite Eb, (walk s bp n1 p _ Hl0); [by eapply stops_here|]. intros x Hx. by apply (passes_below s bp n1 p n2 x R P).
Qed.
End Ring.

(** ** Joining a block to the ones after it *)

(** What free does with the block [a] and the block [b] that follows it. *)
Definition attach (a b : Z) (s : heap) : heap :=
  if plus a (h_size s a) =? b
  then set_ptr a (h_ptr s b) (set_size a (u32 (h_size s a + h_size s b)) s)
  else set_ptr a b s.

Lemma upd_same f a v : upd f a v a = v.
Proof. unfold upd. by rewrite Z.eqb_refl. Qed.
Lemma upd_other f a v x : x <> a -> upd f a v x = f x.
Proof. intros H. unfold upd. by rewrite (proj2 (Z.eqb_neq x a) H). Qed.

Lemma attach_frame a b s : freep (attach a b s) = freep s /\ brk (attach a b s) = brk s /\
  forall x, x <> a -> h_ptr (attach a b s) x = h_ptr s x /\ h_size (attach a b s) x = h_size s x.
Proof.
  unfold attach. destruct (_ =? _); cbn; split_and!; try done; intros x Hx; by rewrite ?upd_other.
Qed.

(** [m0] is what comes after [a]; [m] what comes after it when it has been joined. *)
Lemma attach_run s a m0 z k :
  linked s m0 z -> spaced s m0 k -> sizes_ok s m0 -> a ∉ m0 -> 0 < a -> 0 <= h_size s a -> k <= 68719476736 ->
  match m0 with [] => end_of s a <> z /\ end_of s a <= k | b :: _ => end_of s a <= b end ->
  exists m, (forall x, x ∈ m -> x ∈ m0) /\ (length m <= length m0)%nat /\ linked (attach a (hd z m0) s) (a :: m) z /\
    spaced (attach a (hd z m0) s) (a :: m) k /\ h_size s a <= h_size (attach a (hd z m0) s) a /\
    (forall b, b ∈ m0 -> exists c, c ∈ a :: m /\ h_size s b <= h_size (attach a (hd z m0) s) c) /\
    forall x, covered (attach a (hd z m0) s) (a :: m) x <-> in_block s a x \/ covered s m0 x.
Proof.
  intros Hl Hs Hok Ha Hpos Hsz Hk Hend. destruct (attach_frame a (hd z m0) s) as (_ & _ & Hfr).
  set (s' := attach a (hd z m0) s) in *. fold (end_of s a) in *.
  assert (forall x, x ∈ m0 -> h_ptr s' x = h_ptr s x /\ h_size s' x = h_size s x) as Hfr0.
  { intros x Hx. apply Hfr. intros ->. done. }
  destruct (decide (end_of s a = hd z m0)) as [Ej|Ej].
  - destruct m0 as [|b m]; [by destruct Hend|]. cbn [hd] in Ej. destruct Hl as [Hb Hl]. apply spaced_cons in Hs as [Hbf Hs].
    assert (0 <= h_size s b) as Hszb by (apply Hok; by left).
    assert (end_of s b <= k) as Hek.
    { apply (spaced_end s (b :: m) k b); [by split|done|by left]. }
    assert (h_size s' a = h_size s a + h_size s b /\ h_ptr s' a = h_ptr s b) as [Es Ep].
    { unfold s', attach. cbn [hd]. fold (end_of s a). rewrite (proj2 (Z.eqb_eq _ _) Ej). cbn. rewrite !upd_same. split; [|done].
      apply u32_small. unfold end_of, plus, sizeof_header in *. lia. }
    assert (end_of s' a = end_of s b) as Ee by (unfold end_of, plus in *; rewrite Es; unfold sizeof_header in *; lia).
    exists m. split_and!.
    + intros x Hx. by right.
    + cbn. lia.
    + cbn [linked]. split; [congruence|]. eapply nodes_ext; [|exact Hl]. intros x Hx. apply Hfr0. by right.
    + apply spaced_cons. split; [unfold before in *; by rewrite Ee|]. eapply spaced_ext; [|reflexivity|exact Hs].
      intros x Hx. apply Hfr0. by right.
    + lia.
    + intros c [->|Hc]%elem_of_cons; [exists a; split; [by left|lia]|]. exists c. split; [by right|].
      by rewrite (proj2 (Hfr0 c ltac:(by right))).
    + intros x. rewrite !covered_cons, (covered_ext s s' m) by (intros y Hy; apply Hfr0; by right).
      unfold in_block. rewrite Ee. rewrite Ej in *. unfold end_of, plus, sizeof_header in *. intuition lia.
  - assert (h_size s' a = h_size s a /\ h_ptr s' a = hd z m0) as [Es Ep].
    { unfold s', attach. fold (end_of s a). rewrite (proj2 (Z.eqb_neq _ _) Ej). cbn. by rewrite upd_same. }
    assert (end_of s' a = end_of s a) as Ee by (unfold end_of; by rewrite Es).
    exists m0. split_and!.
    + done.
    + done.
    + split; [done|]. eapply nodes_ext; [|exact Hl]. intros x Hx. by apply Hfr0.
    + apply spaced_cons. split.
      * unfold before. rewrite Ee. destruct m0 as [|b m0]; [apply Hend|]. cbn [hd] in Ej. lia.
      * eapply spaced_ext; [|reflexivity|exact Hs]. intros x Hx. by apply Hfr0.
    + lia.
    + intros c Hc. exists c. split; [by right|]. by rewrite (proj2 (Hfr0 c Hc)).
    + intros x. rewrite covered_cons, (covered_ext s s' m0) by (intros y Hy; by apply Hfr0). unfold in_block. by rewrite Ee.
Qed.

Section Free.
Context (base : Z).

Lemma sorted_place s bp l p0 z : spaced s (p0 :: l) z -> sizes_ok s (p0 :: l) -> p0 < bp -> bp ∉ l ->
  exists n1 p n2, p0 :: l = n1 ++ p :: n2 /\ place bp p n1 n2.
Proof.
  revert p0. induction l as [|c l IH]; intros p0 Hs Hok Hlt Hn.
  - exists [], p0, []. split; [done|]. split; [intros a Ha; by apply not_elem_of_nil in Ha|done|intros a Ha; by apply not_elem_of_nil in Ha].
  - apply not_elem_of_cons in Hn as [Hc Hn]. assert (sizes_ok s (c :: l)) as Hok' by (intros a Ha; apply Hok; by right).
    destruct (decide (c < bp)) as [Hcb|Hcb].
    + destruct (IH c (proj2 Hs) Hok' Hcb Hn) as (n1 & p & n2 & E & P). exists (p0 :: n1), p, n2. rewrite E. split; [done|].
      destruct P as [P1 P2 P3]. split; [|done|done]. intros a [->|Ha]%elem_of_cons; [|by apply P1].
      pose proof (spaced_above s p0 (c :: l) z p Hs Hok ltac:(rewrite E; set_solver)) as H.
      specialize (Hok p0 ltac:(left)). unfold end_of, plus, sizeof_header in H. lia.
    + exists [], p0, (c :: l). split; [done|]. split; [intros a Ha; by apply not_elem_of_nil in Ha|done|].
      intros a [->|Ha]%elem_of_cons; [lia|]. pose proof (spaced_above s c l z a (proj2 Hs) Hok' Ha) as H.
      specialize (Hok' c ltac:(left)). unfold end_of, plus, sizeof_header in H. lia.
Qed.

(** A block of the process's memory that no free block overlaps. *)
Record outside (s : heap) (ns : list Z) (bp : Z) : Prop := Outside {
  o_low : base + sizeof_header <= bp;
  o_size : 1 <= h_size s bp;
  o_end : end_of s bp <= brk s;
  o_free : forall x, in_block s bp x -> ~ covered s ns x
}.

Lemma outside_not_node s ns bp : ring base s ns -> outside s ns bp -> bp ∉ ns.
Proof.
  intros R O Hin. assert (in_block s bp bp) as Hb.
  { pose proof (o_size _ _ _ O). unfold in_block, end_of, plus, sizeof_header. lia. }
  apply (o_free _ _ _ O bp Hb). by exists bp.
Qed.

(** The neighbours of the block do not reach into it, nor it into them. *)
Lemma outside_neighbours s n1 p n2 bp : ring base s (n1 ++ p :: n2) -> outside s (n1 ++ p :: n2) bp -> place bp p n1 n2 ->
  end_of s p <= bp /\ match n2 with [] => True | y :: _ => end_of s bp <= y end.
Proof.
  intros R O P. pose proof (o_size _ _ _ O) as Hsz. split.
  - destruct (decide (end_of s p <= bp)) as [|Hgt]; [done|]. exfalso. apply (o_free _ _ _ O bp).
    + unfold in_block, end_of, plus, sizeof_header. lia.
    + exists p. split; [set_solver|]. pose proof (pl_here _ _ _ _ P). unfold in_block. lia.
  - destruct n2 as [|y n2]; [done|]. destruct (decide (end_of s bp <= y)) as [|Hgt]; [done|]. exfalso.
    pose proof (pl_above _ _ _ _ P y ltac:(left)) as Hy. apply (o_free _ _ _ O y); [unfold in_block; lia|].
    exists y. split; [set_solver|]. assert (y <> base) as Hne by (pose proof (o_low _ _ _ O); unfold sizeof_header in *; lia).
    destruct (r_size _ _ _ R y ltac:(set_solver) Hne). unfold in_block, end_of, plus, sizeof_header. lia.
Qed.

(** free as two joins. *)
Lemma free_attach s bp p fuel : freep s <> 0 -> find_place fuel bp (freep s) s = Ret p s ->
  free fuel (plus bp 1) s = Ret tt (set_freep p (attach p bp (attach bp (h_ptr s p) s))).
Proof.
  intros Hf E. unfold free. rewrite bind_gets. rewrite (proj2 (Z.eqb_neq _ 0) Hf).
  replace (plus (plus bp 1) (-1)) with bp by (unfold plus, sizeof_header; lia). mret E. rewrite !bind_gets.
  assert (forall a b s, (if plus a (h_size s a) =? b then
      bind (modify (fun s => set_size a (u32 (h_size s a + h_size s b)) s)) (fun _ => modify (fun s => set_ptr a (h_ptr s b) s))
    else modify (set_ptr a b)) s = Ret tt (attach a b s)) as Ha.
  { intros a b s0. unfold attach. by destruct (_ =? _). }
  mret (Ha bp (h_ptr s p) s). rewrite bind_gets. by mret (Ha p bp (attach bp (h_ptr s p) s)).
Qed.
End Free.

Section FreeRun.
Context (base : Z).

(** What free promises of the block [bp]. *)
Record freed (s s' : heap) (ns ns' : list Z) (bp : Z) : Prop := Freed {
  fr_ring : ring base s' ns';
  fr_brk : brk s' = brk s;
  fr_covered : forall x, covered s' ns' x <-> covered s ns x \/ in_block s bp x;
  fr_frame : forall a, a ∉ ns -> a <> bp -> h_size s' a = h_size s a;
  fr_fit : exists c, c ∈ ns' /\ h_size s bp <= h_size s' c
}.

Lemma ring_change s s' n1 p n2 m : ring base s (n1 ++ p :: n2) -> freep s' = p -> brk s' = brk s ->
  (forall a, a ∈ n1 -> h_ptr s' a = h_ptr s a /\ h_size s' a = h_size s a) ->
  linked s' (p :: m) base -> spaced s' (p :: m) (brk s) -> (p = base -> h_size s' p = 0) ->
  (forall a, a ∈ p :: m -> a <> base -> 1 <= h_size s' a /\ base + sizeof_header <= a) -> ring base s' (n1 ++ p :: m).
Proof.
  intros R Ef Eb Hfr Hl Hs H0 Hsz. destruct R as [Hpos Hh Hlk Hsp Hb Hok _ Hbrk].
  apply linked_app in Hlk as [Hlk _]. apply spaced_mid in Hsp as [Hsp _].
  split; rewrite ?Eb; try done.
  - destruct Hh as [l Hh]. destruct n1 as [|b n1]; cbn in Hh |- *; injection Hh as -> _; by eexists.
  - apply linked_app. split; [|done]. eapply nodes_ext; [|exact Hlk]. intros a Ha. by apply Hfr.
  - apply spaced_mid. split; [|done]. eapply spaced_ext; [|reflexivity|exact Hsp]. intros a Ha. by apply Hfr.
  - destruct (decide (p = base)) as [<-|Hne]; [by apply H0|]. rewrite (proj2 (Hfr base ltac:(destruct Hh as [l Hh]; destruct n1; cbn in Hh; injection Hh; intros; subst; [done|by left]))). done.
  - intros a [Ha|Ha]%elem_of_app Hne; [|by apply Hsz]. rewrite (proj2 (Hfr a Ha)). apply Hok; [set_solver|done].
  - rewrite Ef. set_solver.
Qed.

(** The two joins: [p] with the block, and the block with what comes after it. *)
Lemma two_joins s n1 p n2 bp : ring base s (n1 ++ p :: n2) -> outside base s (n1 ++ p :: n2) bp -> place bp p n1 n2 ->
  let s2 := attach p bp (attach bp (h_ptr s p) s) in
  exists m, (length m <= S (length n2))%nat /\ linked s2 (p :: m) base /\ spaced s2 (p :: m) (brk s) /\
    (forall a, a <> p -> a <> bp -> h_ptr s2 a = h_ptr s a /\ h_size s2 a = h_size s a) /\
    (forall a, a ∈ m -> a = bp \/ a ∈ n2) /\ h_size s p <= h_size s2 p /\ h_size s bp <= h_size s2 bp /\
    (exists c, c ∈ p :: m /\ h_size s bp <= h_size s2 c) /\
    forall x, covered s2 (p :: m) x <-> covered s (p :: n2) x \/ in_block s bp x.
Proof.
  intros R O P. pose proof (outside_not_node _ _ _ _ R O) as Hnot. pose proof (ring_sizes _ _ _ R) as Hok.
  pose proof (o_low _ _ _ _ O) as Hlow. pose proof (o_size _ _ _ _ O) as Hsz. pose proof (r_pos _ _ _ R) as Hpos.
  pose proof (r_brk _ _ _ R) as Hbrk. unfold sizeof_header in Hlow.
  destruct (outside_neighbours _ _ _ _ _ _ R O P) as [Hpb Hby].
  pose proof (r_links _ _ _ R) as Hl. apply linked_app in Hl as [_ [Ep Hl]].
  pose proof (r_space _ _ _ R) as Hs. apply spaced_mid in Hs as [_ Hs]. apply spaced_cons in Hs as [_ Hs].
  destruct (ring_sorted s n1 p n2 Hok (r_space _ _ _ R)) as [_ Habove].
  destruct (attach_run s bp n2 base (brk s)) as (m & Hm & Hlen1 & Hl1 & Hs1 & Hsz1 & _ & Hc1);
    [done|done|intros a Ha; apply Hok; set_solver|set_solver|lia|lia|lia| |].
  { destruct n2; [|done]. pose proof (o_end _ _ _ _ O). split; [|done]. unfold end_of, plus, sizeof_header. lia. }
  destruct (attach_frame bp (hd base n2) s) as (_ & _ & Hfr1). rewrite <- Ep in *. set (s1 := attach bp (h_ptr s p) s) in *.
  assert (p <> bp) as Hne by (pose proof (pl_here _ _ _ _ P); lia).
  assert (end_of s1 p = end_of s p) as Eend by (unfold end_of; by rewrite (proj2 (Hfr1 p Hne))).
  destruct (attach_run s1 p (bp :: m) base (brk s)) as (m' & Hm' & Hlen2 & Hl2 & Hs2 & Hsz2 & Hfit & Hc2); cbn [hd length] in *.
  { done. } { done. }
  { intros a [->|Ha]%elem_of_cons; [lia|]. rewrite (proj2 (Hfr1 a ltac:(set_solver))). apply Hok. set_solver. }
  { intros [->|Hin]%elem_of_cons; [done|]. specialize (Habove p (Hm p Hin)). lia. }
  { apply (Z.lt_le_trans _ base); [done|]. apply (ring_base_le _ _ _ _ R). set_solver. }
  { rewrite (proj2 (Hfr1 p Hne)). apply Hok. set_solver. } { lia. } { by rewrite Eend. }
  destruct (attach_frame p bp s1) as (_ & _ & Hfr2). exists m'. split_and!; [lia|done|done| | | | | |].
  - intros a Hap Hab. destruct (Hfr2 a Hap) as [-> ->]. by apply Hfr1.
  - intros a Ha. apply Hm', elem_of_cons in Ha as [->|Ha]; [by left|right; by apply Hm].
  - by rewrite <- (proj2 (Hfr1 p Hne)).
  - rewrite (proj2 (Hfr2 bp ltac:(done))). done.
  - destruct (Hfit bp ltac:(left)) as (c & Hc & Hle). exists c. split; [done|lia].
  - intros x. rewrite Hc2, Hc1, covered_cons. unfold in_block at 1. rewrite Eend. unfold in_block. tauto.
Qed.

Lemma free_run s ns bp fuel : ring base s ns -> outside base s ns bp -> (length ns < fuel)%nat ->
  exists s' ns', free fuel (plus bp 1) s = Ret tt s' /\ freed s s' ns ns' bp /\ (length ns' <= S (length ns))%nat.
Proof.
  intros R O Hf. pose proof (outside_not_node _ _ _ _ R O) as Hnot. pose proof (ring_sizes _ _ _ R) as Hok.
  pose proof (o_low _ _ _ _ O) as Hlow. unfold sizeof_header in Hlow. pose proof (o_size _ _ _ _ O) as Hsz.
  assert (exists n1 p n2, ns = n1 ++ p :: n2 /\ place bp p n1 n2) as (n1 & p & n2 & -> & P).
  { destruct (r_head _ _ _ R) as [l ->]. eapply sorted_place; [apply (r_space _ _ _ R)|done|lia|set_solver]. }
  destruct (two_joins s n1 p n2 bp R O P) as (m & Hlen & Hl & Hs & Hfr & Hm & Hszp & Hszb & (c & Hc & Hle) & Hcov).
  destruct (ring_sorted s n1 p n2 Hok (r_space _ _ _ R)) as [Hbelow _]. pose proof (pl_here _ _ _ _ P) as Hpb.
  destruct (attach_frame bp (h_ptr s p) s) as (_ & Eb1 & Hfr1), (attach_frame p bp (attach bp (h_ptr s p) s)) as (_ & Eb2 & _).
  set (s2 := attach p bp (attach bp (h_ptr s p) s)) in *.
  assert (forall a, a ∈ n1 -> h_ptr s2 a = h_ptr s a /\ h_size s2 a = h_size s a) as Hn1.
  { intros a Ha. apply Hfr; [specialize (Hbelow a Ha); lia|set_solver]. }
  exists (set_freep p s2), (n1 ++ p :: m). split_and!.
  - apply free_attach; [|by eapply find_place_run; [exact R|exact P|lia|exact Hf]].
    pose proof (ring_base_le _ _ _ _ R (r_freep _ _ _ R)). pose proof (r_pos _ _ _ R). lia.
  - split; [|cbn; congruence| |intros a Ha Hab; change (h_size s2 a = h_size s a); apply Hfr; set_solver|exists c; split; [set_solver|done]].
    + apply (ring_change s _ n1 p n2); [done|done|cbn; congruence|done|eapply nodes_ext; [|exact Hl]; done|
        eapply spaced_ext; [|reflexivity|exact Hs]; done| |].
      * intros ->. change (h_size s2 base = 0). pose proof (r_base _ _ _ R) as H0. unfold s2, attach at 1.
        rewrite (proj2 (Hfr1 base ltac:(lia))), H0.
        rewrite (proj2 (Z.eqb_neq _ bp)) by (unfold plus, sizeof_header; lia). cbn. by rewrite (proj2 (Hfr1 base ltac:(lia))).
      * intros a Ha Hab. change (h_size (set_freep p s2)) with (h_size s2). destruct (decide (a = p)) as [->|Hap].
        { destruct (r_size _ _ _ R p ltac:(set_solver) Hab). lia. }
        apply elem_of_cons in Ha as [?|Ha]; [done|]. destruct (Hm a Ha) as [->|Ha']; [unfold sizeof_header; lia|].
        rewrite (proj2 (Hfr a Hap ltac:(set_solver))). apply (r_size _ _ _ R); [set_solver|done].
    + intros x. change (covered (set_freep p s2) ?l x) with (covered s2 l x).
      rewrite !covered_app, (covered_ext s s2 n1) by (intros a Ha; by apply Hn1). rewrite Hcov. tauto.
  - rewrite !length_app. cbn [length]. lia.
Qed.
End FreeRun.

(** ** Taking a block off the ring *)

Section Take.
Context (base : Z).

Lemma ring_apart s ns a b x : ring base s ns -> a ∈ ns -> b ∈ ns -> in_block s a x -> in_block s b x -> a = b.
Proof.
  intros R Ha Hb Hxa Hxb. destruct (decide (a = b)) as [|Hne]; [done|exfalso].
  pose proof (ring_sizes _ _ _ R) as Hok. pose proof (r_space _ _ _ R) as Hs.
  apply list_elem_of_split in Ha as (m1 & m2 & ->). apply elem_of_app in Hb as [Hb|[Hb|Hb]%elem_of_cons]; [|done|].
  - apply list_elem_of_split in Hb as (k1 & k2 & ->). rewrite <- app_assoc in *. apply spaced_tail in Hs. cbn [app] in *.
    assert (end_of s b < a) by (eapply spaced_above; [exact Hs|intros y Hy; apply Hok; set_solver|set_solver]).
    unfold in_block in *. lia.
  - apply spaced_tail in Hs. assert (end_of s a < b) by (eapply spaced_above; [exact Hs|intros y Hy; apply Hok; set_solver|done]).
    unfold in_block in *. lia.
Qed.

Lemma ring_node_apart s n1 a n2 x : ring base s (n1 ++ a :: n2) -> in_block s a x -> ~ covered s n1 x /\ ~ covered s n2 x.
Proof.
  intros R Hx. destruct (ring_sorted s n1 a n2 (ring_sizes _ _ _ R) (r_space _ _ _ R)) as [H1 H2].
  split; intros (b & Hb & Hxb).
  - assert (a = b) as -> by (eapply ring_apart; [exact R|set_solver|set_solver|done|done]). specialize (H1 b Hb). lia.
  - assert (a = b) as -> by (eapply ring_apart; [exact R|set_solver|set_solver|done|done]). specialize (H2 b Hb). lia.
Qed.

(** What is promised of the block [p] that is taken out of the free memory. *)
Record carved (s s' : heap) (ns ns' : list Z) (p nunits : Z) : Prop := Carved {
  ca_ring : ring base s' ns';
  ca_brk : brk s' = brk s;
  ca_size : h_size s' p = nunits;
  ca_low : base + sizeof_header <= p;
  ca_covered : forall x, covered s ns x <-> covered s' ns' x \/ in_block s' p x;
  ca_apart : forall x, in_block s' p x -> ~ covered s' ns' x;
  ca_frame : forall a, ~ covered s ns a -> a <> base -> h_size s' a = h_size s a;
  ca_len : (length ns' <= length ns)%nat
}.

Lemma take_whole s n1 q x n2 : ring base s (n1 ++ q :: x :: n2) -> 1 <= h_size s x -> x <> base ->
  exists s', take_block (h_size s x) q x s = Ret (plus x 1) s' /\
    carved s s' (n1 ++ q :: x :: n2) (n1 ++ q :: n2) x (h_size s x).
Proof.
  intros R Hsz Hx. unfold take_block. rewrite bind_gets, Z.eqb_refl. eexists. split; [reflexivity|].
  pose proof (r_links _ _ _ R) as Hl. apply linked_app in Hl as [_ (Hq & Hxl & Hl)]. cbn [hd] in Hq.
  pose proof (ring_sizes _ _ _ R) as Hok. pose proof (r_space _ _ _ R) as Hs.
  destruct (ring_sorted s n1 q (x :: n2) Hok Hs) as [Hlo Hhi]. apply spaced_mid in Hs as [_ [Hqx Hs]]. pose proof Hs as [Hxn Hs2].
  assert (forall a, a <> q -> upd (h_ptr s) q (h_ptr s x) a = h_ptr s a) as Hfr by (intros a Ha; by rewrite upd_other).
  assert (q <> x) as Hqx' by (specialize (Hhi x ltac:(left)); lia).
  split; cbn; try done.
  - apply (ring_change base s _ n1 q (x :: n2) n2); cbn [freep brk h_ptr h_size set_ptr set_freep]; try done.
    + intros a Ha. cbn. rewrite Hfr; [done|]. specialize (Hlo a Ha). lia.
    + split; [cbn; by rewrite upd_same|]. eapply nodes_ext; [|exact Hl]. intros a Ha. cbn. apply Hfr.
      specialize (Hhi a ltac:(by right)). lia.
    + apply spaced_cons. split; [|eapply spaced_ext; [|reflexivity|exact Hs2]; done].
      pose proof (Hok q ltac:(set_solver)). unfold before in *. change (end_of (set_freep _ _) q) with (end_of s q).
      destruct n2 as [|y n2]; unfold end_of, plus, sizeof_header in *; lia.
    + intros ->. apply (r_base _ _ _ R).
    + intros a Ha Hab. apply (r_size _ _ _ R); [set_solver|done].
  - apply (r_size _ _ _ R); [set_solver|done].
  - intros y. rewrite !covered_app, !covered_cons. change (covered (set_freep _ _) ?l y) with (covered s l y).
    change (in_block (set_freep _ _) ?l y) with (in_block s l y). tauto.
  - intros y Hy. change (in_block s x y) in Hy. change (~ covered s (n1 ++ q :: n2) y).
    replace (n1 ++ q :: x :: n2) with ((n1 ++ [q]) ++ x :: n2) in R by (by rewrite <- app_assoc).
    destruct (ring_node_apart s (n1 ++ [q]) x n2 y R Hy) as [Ha Hb]. rewrite covered_app, !covered_cons in *.
    unfold covered in *. set_solver.
  - rewrite !length_app. cbn. lia.
Qed.

Lemma take_part s n1 q x n2 nunits : ring base s (n1 ++ q :: x :: n2) -> 1 <= nunits < h_size s x -> x <> base ->
  exists s' p, take_block nunits q x s = Ret (plus p 1) s' /\
    carved s s' (n1 ++ q :: x :: n2) (n1 ++ q :: x :: n2) p nunits.
Proof.
  intros R Hsz Hx. unfold take_block. rewrite bind_gets. rewrite (proj2 (Z.eqb_neq _ nunits)) by lia.
  pose proof (ring_sizes _ _ _ R) as Hok. pose proof (r_space _ _ _ R) as Hs0.
  replace (n1 ++ q :: x :: n2) with ((n1 ++ [q]) ++ x :: n2) in * by (by rewrite <- app_assoc).
  pose proof (r_brk _ _ _ R) as Hbrk. pose proof (ring_base_le base s _ x R ltac:(set_solver)) as Hbx. pose proof (r_pos _ _ _ R) as Hpos.
  assert (end_of s x <= brk s) as Hend by (eapply spaced_end; [exact Hs0|done|set_solver]).
  rewrite u32_small by (unfold end_of, plus, sizeof_header in *; lia). set (rest := h_size s x - nunits).
  rewrite bind_assoc, bind_modify, bind_assoc, bind_gets, bind_assoc, bind_modify, bind_ret, bind_modify. cbn [h_size set_size]. rewrite upd_same.
  set (p := plus x rest). eexists _, p. split; [reflexivity|].
  assert (x < p < end_of s x) as Hp by (unfold p, end_of, plus, sizeof_header, rest; lia).
  assert (in_block s x p) as Hpx by (unfold in_block; lia).
  set (s' := set_freep q _).
  assert (forall a, a <> x -> a <> p -> h_size s' a = h_size s a) as Hfr by (intros a H1 H2; cbn; by rewrite !upd_other).
  assert (h_size s' p = nunits) as Ep by (cbn; by rewrite upd_same).
  assert (h_size s' x = rest) as Ex by (cbn; rewrite upd_other by lia; by rewrite upd_same).
  assert (forall a, a ∈ n1 ++ [q] \/ a ∈ n2 -> h_size s' a = h_size s a) as Hno.
  { destruct (ring_sorted s _ x n2 Hok Hs0) as [Hlo Hhi]. apply spaced_mid in Hs0 as [_ Hs0].
    intros a [Ha|Ha]; apply Hfr; [specialize (Hlo a Ha); lia|specialize (Hlo a Ha); lia|specialize (Hhi a Ha); lia|].
    assert (end_of s x < a) by (eapply spaced_above; [exact Hs0|intros y Hy; apply Hok; set_solver|done]). lia. }
  assert (end_of s' x = p) as Eex by (unfold end_of; by rewrite Ex).
  assert (end_of s' p = end_of s x) as Eep by (unfold end_of; rewrite Ep; unfold p, plus, sizeof_header, rest; lia).
  apply spaced_mid in Hs0 as [Hs1 [Hbf Hs2]]. split.
  - split; try done.
    + apply (r_head _ _ _ R).
    + eapply nodes_ext; [|exact (r_links _ _ _ R)]. done.
    + apply spaced_mid. split; [eapply spaced_ext; [|reflexivity|exact Hs1]; intros a Ha; apply Hno; by left|].
      apply spaced_cons. split; [|eapply spaced_ext; [|reflexivity|exact Hs2]; intros a Ha; apply Hno; by right].
      unfold before in *. rewrite Eex. destruct n2; [change (brk s') with (brk s)|]; lia.
    + rewrite Hfr by lia. apply (r_base _ _ _ R).
    + intros a Ha Hab. destruct (decide (a = x)) as [->|Hax]; [rewrite Ex; destruct (r_size _ _ _ R x Ha Hx); unfold rest; lia|].
      rewrite Hno by set_solver. by apply (r_size _ _ _ R).
    + cbn. set_solver.
  - done.
  - done.
  - destruct (r_size _ _ _ R x ltac:(set_solver) Hx). lia.
  - intros y. rewrite !(covered_app _ (n1 ++ [q])), !covered_cons, (covered_ext s s' (n1 ++ [q])), (covered_ext s s' n2) by (intros a Ha; apply Hno; auto).
    unfold in_block. rewrite Eex, Eep. intuition lia.
  - intros y Hy. assert (in_block s x y) as Hyx by (unfold in_block in *; rewrite Eep in Hy; lia).
    destruct (ring_node_apart s (n1 ++ [q]) x n2 y R Hyx) as [Ha Hb].
    rewrite (covered_app _ (n1 ++ [q])), covered_cons, (covered_ext s s' (n1 ++ [q])), (covered_ext s s' n2) by (intros a Ha'; apply Hno; auto).
    unfold in_block in *. rewrite Eex. intuition lia.
  - intros a Ha _. apply Hfr; intros ->; apply Ha; exists x; (split; [set_solver|]); [unfold in_block; lia|done].
  - done.
Qed.
End Take.

(** ** The scan for a block that is large enough *)

Section Scan.
Context (base : Z) (grant : Z -> Z -> bool) (fuel : nat).

Lemma scan_walk s nunits w q z q' w' k : linked s (q :: w) z -> q :: w = w' ++ [q'] ->
  (forall x, x ∈ w -> h_size s x < nunits /\ x <> freep s) ->
  malloc_loop grant fuel (length w + k) nunits q (hd z w) s = malloc_loop grant fuel k nunits q' z s.
Proof.
  revert q w'. induction w as [|x w IH]; intros q w' Hl E Hw.
  - destruct w' as [|? [|]]; cbn in E; by injection E as ->.
  - destruct w' as [|y w']; cbn in E; [discriminate|]. injection E as <- E. destruct Hl as (_ & Hx & Hl).
    destruct (Hw x ltac:(left)) as [Hs Hf]. cbn [length Nat.add hd malloc_loop]. rewrite bind_gets.
    rewrite Z.geb_leb, (proj2 (Z.leb_gt nunits _)) by lia. rewrite bind_gets, (proj2 (Z.eqb_neq x _) Hf), bind_gets, Hx.
    apply (IH x w'); [done|done|]. intros y Hy. apply Hw. by right.
Qed.

Lemma snoc_of q (w : list Z) : exists w' q', q :: w = w' ++ [q'].
Proof. destruct (exists_last (l := q :: w)) as (w' & q' & E); [done|]. by exists w', q'. Qed.

Lemma loop_takes nunits q x s k : nunits <= h_size s x ->
  malloc_loop grant fuel (S k) nunits q x s = take_block nunits q x s.
Proof. intros H. cbn [malloc_loop]. rewrite bind_gets, Z.geb_leb, (proj2 (Z.leb_le _ _) H). done. Qed.

(** From the node before the ring's [base] to the node before [x], when nothing on the way fits. *)
Lemma scan_front s nunits n1 f n2 w x t q' w2 k : ring base s (n1 ++ f :: n2) -> freep s = f ->
  f :: n2 = w2 ++ [q'] -> n1 ++ [f] = w ++ x :: t -> 1 <= nunits -> x <> base ->
  (forall y, y ∈ w -> h_size s y < nunits) ->
  exists m1 q m2, n1 ++ f :: n2 = m1 ++ q :: x :: m2 /\
    malloc_loop grant fuel (length w + k) nunits q' base s = malloc_loop grant fuel k nunits q x s.
Proof.
  intros R Ef Eq E Hn Hx Hw. destruct (ring_sorted s n1 f n2 (ring_sizes _ _ _ R) (r_space _ _ _ R)) as [Hlo _].
  assert (n1 ++ f :: n2 = w ++ x :: t ++ n2) as Ens by (change (f :: n2) with ([f] ++ n2); rewrite app_assoc, E; by rewrite <- app_assoc).
  assert (exists w0, w = base :: w0) as [w0 Ew].
  { destruct (r_head _ _ _ R) as [l Hl]. destruct w as [|b w]; rewrite Ens in Hl; cbn in Hl; injection Hl as -> _; [done|by exists w]. }
  destruct (exists_last (l := w)) as (v & q & Ev); [by rewrite Ew|].
  exists v, q, (t ++ n2). rewrite Ens, Ev, <- app_assoc. split; [done|].
  pose proof (r_links _ _ _ R) as Hl. pose proof Hl as Hl2. rewrite Ens in Hl. apply linked_app in Hl as [Hl _]. cbn [hd] in Hl.
  apply linked_app in Hl2 as [_ Hl2]. rewrite Eq in Hl2. apply linked_app in Hl2 as [_ [Hq' _]]. cbn [hd] in Hq'.
  rewrite <- Ev. replace base with (hd x w) at 1 by (by rewrite Ew).
  apply (scan_walk s nunits w q' x q (q' :: v)); [split; [by rewrite Hq', Ew|done]|by rewrite Ev|].
  intros y Hy. split; [by apply Hw|]. rewrite Ef. intros ->.
  assert (f ∈ n1) as Hin; [|specialize (Hlo f Hin); lia].
  destruct (exists_last (l := x :: t)) as (t' & l' & Et); [done|]. rewrite Et, app_assoc in E.
  apply app_inj_tail in E as [-> _]. set_solver.
Qed.

Lemma scan_finds s ns nunits rounds : ring base s ns -> 1 <= nunits -> (exists x, x ∈ ns /\ nunits <= h_size s x) ->
  (length ns < rounds)%nat ->
  exists n1 q x n2, ns = n1 ++ q :: x :: n2 /\ nunits <= h_size s x /\ x <> base /\
    malloc_loop grant fuel rounds nunits (freep s) (h_ptr s (freep s)) s = take_block nunits q x s.
Proof.
  intros R Hn (y & Hy & Hfit) Hr. assert (forall x, nunits <= h_size s x -> x <> base) as Hnb.
  { intros x Hx ->. rewrite (r_base _ _ _ R) in Hx. lia. }
  pose proof (list_elem_of_split _ _ (r_freep _ _ _ R)) as (n1 & n2 & E). set (f := freep s) in *. subst ns.
  pose proof (r_links _ _ _ R) as Hl. apply linked_app in Hl as [_ Hl]. pose proof (proj1 Hl) as ->.
  destruct (ring_sorted s n1 f n2 (ring_sizes _ _ _ R) (r_space _ _ _ R)) as [Hlo Hhi].
  rewrite length_app in Hr. cbn [length] in Hr.
  destruct (decide (Exists (fun x => nunits <= h_size s x) n2)) as [Hex|Hex].
  - apply Exists_exists in Hex as (z & Hz & Hfz).
    destruct (exists_first (fun x => nunits <= h_size s x) n2 z Hz Hfz) as (w & x & t & -> & Hx & Hw).
    destruct (snoc_of f w) as (w' & q & Eq). exists (n1 ++ w'), q, x, t.
    split_and!; [|done|by apply Hnb|].
    + rewrite <- app_assoc. change (q :: x :: t) with ([q] ++ x :: t). rewrite (app_assoc w'), <- Eq. done.
    + rewrite length_app in Hr. cbn [length] in Hr. replace rounds with (length w + S (rounds - S (length w)))%nat by lia.
      replace (hd base (w ++ x :: t)) with (hd x w) by (by destruct w).
      rewrite (scan_walk s nunits w f x q w'); [by apply loop_takes| |done|].
      * change (f :: w ++ x :: t) with ((f :: w) ++ x :: t) in Hl. by apply linked_app in Hl as [Hl _].
      * intros a Ha. split; [specialize (Hw a Ha); lia|]. fold f. specialize (Hhi a ltac:(set_solver)). lia.
  - assert (forall a, a ∈ n2 -> h_size s a < nunits) as Hn2.
    { intros a Ha. destruct (decide (nunits <= h_size s a)); [|lia]. exfalso. apply Hex, Exists_exists. by exists a. }
    destruct (snoc_of f n2) as (w2 & q' & Eq').
    assert (y ∈ n1 ++ [f]) as Hy'.
    { destruct (decide (y ∈ n2)) as [Hin|]; [specialize (Hn2 y Hin); lia|]. set_solver. }
    destruct (exists_first (fun x => nunits <= h_size s x) (n1 ++ [f]) y Hy' Hfit) as (w & x & t & Ew & Hx & Hw).
    assert (forall z, z ∈ w -> h_size s z < nunits) as Hw' by (intros z Hz; specialize (Hw z Hz); lia).
    assert (length w <= length n1)%nat as Hlen.
    { apply (f_equal length) in Ew. rewrite !length_app in Ew. cbn in Ew. lia. }
    destruct (scan_front s nunits n1 f n2 w x t q' w2 (S (rounds - S (length n2 + length w))) R eq_refl Eq' Ew Hn (Hnb x Hx) Hw') as (m1 & q & m2 & Em & Erun).
    exists m1, q, x, m2. split_and!; [done|done|by apply Hnb|].
    replace rounds with (length n2 + (length w + S (rounds - S (length n2 + length w))))%nat by lia.
    rewrite (scan_walk s nunits n2 f base q' w2); [|done|done|].
    + rewrite Erun. by apply loop_takes.
    + intros a Ha. split; [by apply Hn2|]. fold f. specialize (Hhi a Ha). lia.
Qed.

(** Once around the ring when nothing fits. *)
Lemma scan_fails s ns nunits k : ring base s ns -> 1 <= nunits -> (forall x, x ∈ ns -> h_size s x < nunits) ->
  malloc_loop grant fuel (length ns + k) nunits (freep s) (h_ptr s (freep s)) s =
  bind (morecore grant fuel nunits) (fun p => if p =? 0 then ret 0 else
    bind (gets (fun s => h_ptr s p)) (fun next => malloc_loop grant fuel k nunits p next)) s.
Proof.
  intros R Hn Hsmall. pose proof (list_elem_of_split _ _ (r_freep _ _ _ R)) as (n1 & n2 & E). set (f := freep s) in *. subst ns.
  pose proof (r_links _ _ _ R) as Hl0. pose proof Hl0 as Hl. apply linked_app in Hl as [_ Hl]. pose proof (proj1 Hl) as ->.
  destruct (ring_sorted s n1 f n2 (ring_sizes _ _ _ R) (r_space _ _ _ R)) as [Hlo Hhi].
  destruct (snoc_of f n2) as (w2 & q' & Eq').
  assert (exists q, malloc_loop grant fuel (length n1 + S k) nunits q' base s = malloc_loop grant fuel (S k) nunits q f s) as [q Eq].
  { destruct (decide (f = base)) as [Efb|Hne].
    - exists q'. rewrite Efb. destruct n1 as [|b n1]; [done|]. destruct (r_head _ _ _ R) as [l Hh]. cbn in Hh. injection Hh as -> _.
      specialize (Hlo base ltac:(left)). lia.
    - destruct (scan_front s nunits n1 f n2 n1 f [] q' w2 (S k) R eq_refl Eq' eq_refl Hn Hne) as (m1 & q & m2 & _ & Er);
        [intros y Hy; apply Hsmall; set_solver|]. by exists q. }
  replace (length (n1 ++ f :: n2) + k)%nat with (length n2 + (length n1 + S k))%nat by (rewrite length_app; cbn; lia).
  rewrite (scan_walk s nunits n2 f base q' w2); [|done|done|].
  - rewrite Eq. cbn [malloc_loop]. rewrite bind_gets, Z.geb_leb, (proj2 (Z.leb_gt nunits _)) by (apply Hsmall; set_solver).
    rewrite bind_gets. fold f. by rewrite Z.eqb_refl.
  - intros a Ha. split; [apply Hsmall; set_solver|]. fold f. specialize (Hhi a Ha). lia.
Qed.
End Scan.

(** ** malloc *)

Section Malloc.
Context (base : Z) (grant : Z -> Z -> bool) (fuel : nat).

(** A process never has more memory than the machine can give it. *)
Hypothesis grant_bound : forall b n, grant b n = true -> b + n <= 68719476736.

Lemma ring_extend s ns p n : ring base s ns -> brk s = p -> 1 <= n -> p + sizeof_header * n <= 68719476736 ->
  ring base (set_size p n (set_brk (p + sizeof_header * n) s)) ns /\
  outside base (set_size p n (set_brk (p + sizeof_header * n) s)) ns p /\
  forall a, a ∈ ns -> a < p.
Proof.
  intros R <- Hn Hb. pose proof (ring_sizes _ _ _ R) as Hok. pose proof (r_brk _ _ _ R) as Hbrk.
  assert (forall a, a ∈ ns -> a < brk s /\ end_of s a <= brk s) as Hlt.
  { intros a Ha. pose proof (spaced_end s ns _ a (r_space _ _ _ R) Hok Ha) as He. split; [|done].
    destruct (decide (a = base)) as [->|Hne]; [unfold sizeof_header in *; lia|].
    destruct (r_size _ _ _ R a Ha Hne). unfold end_of, plus, sizeof_header in *. lia. }
  set (s' := set_size _ _ _).
  assert (forall a, a ∈ ns -> h_size s' a = h_size s a) as Hfr by (intros a Ha; cbn; rewrite upd_other; [done|]; specialize (Hlt a Ha); lia).
  assert (base ∈ ns) as Hbase by (destruct (r_head _ _ _ R) as [l ->]; left).
  split_and!.
  - destruct R as [Hp Hh Hl Hs H0 Hsz Hf _]. split; try done.
    + eapply nodes_ext; [|exact Hl]. done.
    + eapply spaced_ext; [exact Hfr| |exact Hs]. cbn. unfold sizeof_header. lia.
    + by rewrite Hfr.
    + intros a Ha Hne. rewrite Hfr by done. by apply Hsz.
    + cbn. unfold sizeof_header in *. lia.
  - assert (end_of s' (brk s) = brk s + sizeof_header * n) as Ee by (unfold end_of, plus; cbn; by rewrite upd_same).
    split; [lia|cbn; by rewrite upd_same|rewrite Ee; cbn; lia|].
    intros x [Hx _]. rewrite covered_ext by exact Hfr. intros (a & Ha & [_ Hx']). specialize (Hlt a Ha). lia.
  - intros a Ha. by apply Hlt.
Qed.

(** The ring after morecore: the new memory is free. *)
Record extended (s s' : heap) (ns ns' : list Z) (nunits : Z) : Prop := Extended {
  ex_ring : ring base s' ns';
  ex_brk : brk s <= brk s';
  ex_covered : forall x, covered s' ns' x <-> covered s ns x \/ brk s <= x < brk s';
  ex_frame : forall a, a ∉ ns -> a < brk s -> h_size s' a = h_size s a;
  ex_fit : exists c, c ∈ ns' /\ nunits <= h_size s' c;
  ex_len : (length ns' <= S (length ns))%nat
}.

Lemma morecore_run s ns nunits : ring base s ns -> 1 <= nunits < 4294967296 -> (length ns < fuel)%nat ->
  morecore grant fuel nunits s = Ret 0 s \/
  exists s' ns', morecore grant fuel nunits s = Ret (freep s') s' /\ extended s s' ns ns' nunits.
Proof.
  intros R Hn Hf. unfold morecore. set (nu := if nunits <? 4096 then 4096 else nunits).
  assert (nunits <= nu < 4294967296) as Hnu by (unfold nu; destruct (Z.ltb_spec nunits 4096); lia).
  replace (u64 (nu * sizeof_header)) with (sizeof_header * nu) by (unfold sizeof_header; rewrite u64_small; lia).
  pose proof (r_brk _ _ _ R) as Hbrk. pose proof (r_pos _ _ _ R) as Hpos.
  destruct (grant (brk s) (sizeof_header * nu)) eqn:Eg.
  2: { left. assert (sbrk grant (sizeof_header * nu) s = Ret (-1) s) as Es by (unfold sbrk; by rewrite Eg). by mret Es. }
  right. assert (sbrk grant (sizeof_header * nu) s = Ret (brk s) (set_brk (brk s + sizeof_header * nu) s)) as Es by (unfold sbrk; by rewrite Eg).
  mret Es.
  rewrite (proj2 (Z.eqb_neq (brk s) (-1))) by (unfold sizeof_header in *; lia).
  destruct (ring_extend s ns (brk s) nu R eq_refl ltac:(lia) (grant_bound _ _ Eg)) as (R1 & O1 & Hlt). rewrite bind_modify.
  set (s1 := set_size _ _ _) in *. destruct (free_run base s1 ns (brk s) fuel R1 O1 Hf) as (s2 & ns2 & E & F & Hlen).
  mret E. exists s2, ns2. split; [done|].
  assert (forall a, a ∈ ns -> h_size s1 a = h_size s a) as Hfr1 by (intros a Ha; cbn; rewrite upd_other; [done|]; specialize (Hlt a Ha); lia).
  assert (brk s2 = brk s + sizeof_header * nu) as Eb by (by rewrite (fr_brk _ _ _ _ _ _ F)).
  split.
  - apply F.
  - rewrite Eb. unfold sizeof_header. lia.
  - intros x. rewrite (fr_covered _ _ _ _ _ _ F), (covered_ext s s1 ns) by exact Hfr1. unfold in_block.
    assert (end_of s1 (brk s) = brk s2) as -> by (rewrite Eb; unfold end_of, plus; cbn; by rewrite upd_same). done.
  - intros a Ha Hab. rewrite (fr_frame _ _ _ _ _ _ F a Ha) by lia. cbn. by rewrite upd_other by lia.
  - destruct (fr_fit _ _ _ _ _ _ F) as (c & Hc & Hle). exists c. split; [done|]. cbn in Hle. rewrite upd_same in Hle. lia.
  - done.
Qed.

(** The block [p] that malloc has found, of the memory that was free or is new. *)
Record allocated (s s' : heap) (ns ns' : list Z) (p nunits : Z) : Prop := Allocated {
  al_ring : ring base s' ns';
  al_brk : brk s <= brk s';
  al_size : h_size s' p = nunits;
  al_low : base + sizeof_header <= p;
  al_covered : forall x, covered s ns x \/ brk s <= x < brk s' <-> covered s' ns' x \/ in_block s' p x;
  al_apart : forall x, in_block s' p x -> ~ covered s' ns' x;
  al_frame : forall a, ~ covered s ns a -> base < a < brk s -> h_size s' a = h_size s a;
  al_len : (length ns' <= S (length ns))%nat
}.

Lemma scan_carves s ns nunits rounds : ring base s ns -> 1 <= nunits -> (exists x, x ∈ ns /\ nunits <= h_size s x) ->
  (length ns < rounds)%nat ->
  exists s' ns' p, malloc_loop grant fuel rounds nunits (freep s) (h_ptr s (freep s)) s = Ret (plus p 1) s' /\
    carved base s s' ns ns' p nunits.
Proof.
  intros R Hn Hfit Hr. destruct (scan_finds base grant fuel s ns nunits rounds R Hn Hfit Hr) as (n1 & q & x & n2 & -> & Hx & Hb & ->).
  destruct (decide (h_size s x = nunits)) as [<-|Hne].
  - destruct (take_whole base s n1 q x n2 R Hn Hb) as (s' & E & C). eauto.
  - destruct (take_part base s n1 q x n2 nunits R ltac:(lia) Hb) as (s' & p & E & C). eauto.
Qed.

Lemma uncovered_not_node s ns a : ring base s ns -> ~ covered s ns a -> a <> base -> a ∉ ns.
Proof.
  intros R Hc Hb Ha. apply Hc. exists a. split; [done|]. destruct (r_size _ _ _ R a Ha Hb).
  unfold in_block, end_of, plus, sizeof_header. lia.
Qed.

Lemma malloc_loop_run s ns nunits : ring base s ns -> 1 <= nunits < 4294967296 -> (2 * length ns + 2 <= fuel)%nat ->
  malloc_loop grant fuel fuel nunits (freep s) (h_ptr s (freep s)) s = Ret 0 s \/
  exists s' ns' p, malloc_loop grant fuel fuel nunits (freep s) (h_ptr s (freep s)) s = Ret (plus p 1) s' /\
    allocated s s' ns ns' p nunits.
Proof.
  intros R Hn Hf. destruct (decide (Exists (fun x => nunits <= h_size s x) ns)) as [Hex|Hex].
  - right. apply Exists_exists in Hex. destruct (scan_carves s ns nunits fuel R ltac:(lia) Hex ltac:(lia)) as (s' & ns' & p & E & C).
    exists s', ns', p. split; [done|]. destruct C as [C1 C2 C3 C4 C5 C6 C7 C8].
    split; try done; [lia| |intros a Ha Hb; apply C7; [done|lia]|lia]. intros x. rewrite C5, C2. intuition lia.
  - assert (forall x, x ∈ ns -> h_size s x < nunits) as Hsmall.
    { intros x Hx. destruct (decide (nunits <= h_size s x)); [|lia]. exfalso. apply Hex, Exists_exists. by exists x. }
    pose proof (scan_fails base grant fuel s ns nunits (fuel - length ns) R ltac:(lia) Hsmall) as Esc.
    replace (length ns + (fuel - length ns))%nat with fuel in Esc by lia. rewrite Esc.
    destruct (morecore_run s ns nunits R Hn ltac:(lia)) as [E|(s1 & ns1 & E & X)]; [left; by mret E|right]. mret E.
    destruct X as [R1 Xb Xc Xf Xfit Xlen].
    assert (freep s1 <> 0) as Hf1 by (pose proof (ring_base_le _ _ _ _ R1 (r_freep _ _ _ R1)); pose proof (r_pos _ _ _ R); lia).
    rewrite (proj2 (Z.eqb_neq _ 0) Hf1), bind_gets.
    destruct (scan_carves s1 ns1 nunits (fuel - length ns)%nat R1 ltac:(lia) Xfit ltac:(lia)) as (s2 & ns2 & p & E2 & C).
    exists s2, ns2, p. split; [done|]. destruct C as [C1 C2 C3 C4 C5 C6 C7 C8].
    split; try done; [lia| | |lia].
    + intros x. rewrite <- C5, Xc, C2. done.
    + intros a Ha Hb. rewrite C7; [|rewrite Xc; intuition lia|lia].
      apply Xf; [|lia]. apply (uncovered_not_node s ns a R Ha). lia.
Qed.
End Malloc.

(** ** The heap: free and allocated blocks *)

Section Heap.
Context (base start : Z) (grant : Z -> Z -> bool) (fuel : nat).
Hypothesis grant_bound : forall b n, grant b n = true -> b + n <= 68719476736.

(** [al] lists the allocated blocks with their sizes; [start] is where the memory that
    sbrk() has handed out begins. *)
Record heap_inv (s : heap) (ns : list Z) (al : list (Z * Z)) : Prop := Heap_inv {
  hi_ring : ring base s ns;
  hi_low : base + sizeof_header <= start;
  hi_blocks : forall a n, (a, n) ∈ al -> h_size s a = n /\ outside base s ns a;
  hi_apart : forall a n a' n' x, (a, n) ∈ al -> (a', n') ∈ al -> in_block s a x -> in_block s a' x -> a = a';
  hi_total : forall x, start <= x < brk s -> covered s ns x \/ exists a n, (a, n) ∈ al /\ in_block s a x
}.

(** Before the first call there is no ring. *)
Definition heap_ok (n : nat) (s : heap) (al : list (Z * Z)) : Prop :=
  freep s = 0 /\ al = [] /\ 0 < base /\ base + sizeof_header <= start /\ brk s = start /\ start <= 68719476736 \/
  exists ns, heap_inv s ns al /\ (length ns <= n)%nat.

Lemma head_in_block s ns a : outside base s ns a -> in_block s a a /\ base < a < brk s.
Proof. intros [H1 H2 H3 _]. unfold in_block, end_of, plus, sizeof_header in *. lia. Qed.

Lemma heap_inv_malloc s s' ns ns' al p nunits : heap_inv s ns al -> allocated base s s' ns ns' p nunits -> 1 <= nunits ->
  heap_inv s' ns' ((p, nunits) :: al).
Proof.
  intros [R Hlow Hb Ha Ht] [A1 A2 A3 A4 A5 A6 A7 A8] Hn.
  assert (forall a n, (a, n) ∈ al -> h_size s' a = n /\ in_block s a = in_block s' a /\ outside base s' ns' a) as Hold.
  { intros a n Hin. destruct (Hb a n Hin) as [Hsz O]. destruct (head_in_block _ _ _ O) as [Hh Hr].
    assert (h_size s' a = n) as Hsz' by (rewrite A7; [done|apply (o_free _ _ _ _ O a Hh)|done]).
    assert (end_of s' a = end_of s a) as Ee by (unfold end_of; congruence). split_and!; [done|unfold in_block; by rewrite Ee|].
    destruct O as [O1 O2 O3 O4]. split; [done|lia|rewrite Ee; lia|]. intros x Hx Hc. unfold in_block in Hx. rewrite Ee in Hx.
    destruct (proj2 (A5 x) (or_introl Hc)) as [H|H]; [by apply (O4 x)|lia]. }
  assert (forall a n x, (a, n) ∈ al -> in_block s a x -> ~ in_block s' p x) as Hnew.
  { intros a n x Hin Hx Hp. destruct (Hb a n Hin) as [_ [O1 O2 O3 O4]].
    destruct (proj2 (A5 x) (or_intror Hp)) as [H|H]; [by apply (O4 x)|unfold in_block in Hx; lia]. }
  split; try done.
  - intros a n [[= -> ->]|Hin]%elem_of_cons; [|destruct (Hold a n Hin) as (? & _ & ?); done]. split; [done|].
    split; [done|lia| |done]. pose proof (r_brk _ _ _ A1) as Hbrk. pose proof (r_brk _ _ _ R) as Hbrk0.
    destruct (decide (end_of s' p <= brk s')) as [|Hgt]; [done|exfalso].
    assert (in_block s' p (end_of s' p - 1)) as Hlast by (unfold in_block, end_of, plus, sizeof_header in *; lia).
    destruct (proj2 (A5 _) (or_intror Hlast)) as [(c & Hc & Hx)|H]; [|lia].
    pose proof (spaced_end s ns _ c (r_space _ _ _ R) (ring_sizes _ _ _ R) Hc). unfold in_block in Hx. lia.
  - intros a n a' n' x [[= -> ->]|H1]%elem_of_cons [[= -> ->]|H2]%elem_of_cons Hx Hx'; [done| | |].
    + destruct (Hold a' n' H2) as (_ & E & _). rewrite <- E in Hx'. by destruct (Hnew a' n' x H2 Hx').
    + destruct (Hold a n H1) as (_ & E & _). rewrite <- E in Hx. by destruct (Hnew a n x H1 Hx).
    + destruct (Hold a n H1) as (_ & E & _), (Hold a' n' H2) as (_ & E' & _). rewrite <- E in Hx. rewrite <- E' in Hx'. by eapply Ha.
  - intros x Hx. assert (covered s ns x \/ brk s <= x < brk s' \/ exists a n, (a, n) ∈ al /\ in_block s a x) as Hcase.
    { destruct (decide (x < brk s)) as [Hlt|]; [destruct (Ht x ltac:(lia)); auto|right; left; lia]. }
    destruct Hcase as [H|[H|(a & n & Hin & H)]].
    + destruct (proj1 (A5 x) (or_introl H)); [by left|]. right. exists p, nunits. split; [by left|done].
    + destruct (proj1 (A5 x) (or_intror H)); [by left|]. right. exists p, nunits. split; [by left|done].
    + right. exists a, n. split; [by right|]. destruct (Hold a n Hin) as (_ & <- & _). done.
Qed.

Lemma heap_inv_free s s' ns ns' al p n : heap_inv s ns al -> (p, n) ∈ al -> freed base s s' ns ns' p ->
  heap_inv s' ns' (filter (fun b => fst b <> p) al).
Proof.
  intros [R Hlow Hb Ha Ht] Hp [F1 F2 F3 F4 F5].
  assert (forall a m, (a, m) ∈ filter (fun b => fst b <> p) al -> (a, m) ∈ al /\ a <> p) as Hf
    by (intros a m [Hne Hin]%list_elem_of_filter; done).
  assert (forall a m, (a, m) ∈ al -> a <> p -> h_size s' a = m /\ in_block s a = in_block s' a /\ outside base s' ns' a) as Hold.
  { intros a m Hin Hne. destruct (Hb a m Hin) as [Hsz O]. destruct (head_in_block _ _ _ O) as [Hh Hr].
    assert (h_size s' a = m) as Hsz'.
    { rewrite F4; [done| |done]. apply (uncovered_not_node base s ns a R); [by apply (o_free _ _ _ _ O)|lia]. }
    assert (end_of s' a = end_of s a) as Ee by (unfold end_of; congruence). split_and!; [done|unfold in_block; by rewrite Ee|].
    destruct O as [O1 O2 O3 O4]. split; [done|lia|rewrite Ee; lia|]. intros x Hx Hc. unfold in_block in Hx. rewrite Ee in Hx.
    apply F3 in Hc as [Hc|Hc]; [by apply (O4 x)|]. apply Hne. by eapply Ha. }
  split; try done.
  - intros a m [Hin Hne]%Hf. destruct (Hold a m Hin Hne) as (? & _ & ?). done.
  - intros a m a' m' x [H1 N1]%Hf [H2 N2]%Hf Hx Hx'.
    destruct (Hold a m H1 N1) as (_ & E & _), (Hold a' m' H2 N2) as (_ & E' & _). rewrite <- E in Hx. rewrite <- E' in Hx'. by eapply Ha.
  - intros x Hx. rewrite F2 in Hx. rewrite F3. destruct (Ht x Hx) as [H|(a & m & Hin & H)]; [auto|].
    destruct (decide (a = p)) as [->|Hne]; [auto|]. right. exists a, m. split; [by apply list_elem_of_filter|].
    destruct (Hold a m Hin Hne) as (_ & <- & _). done.
Qed.

Lemma first_ring s : freep s = 0 -> 0 < base -> base + sizeof_header <= start -> brk s = start -> start <= 68719476736 ->
  heap_inv (set_size base 0 (set_ptr base base (set_freep base s))) [base] [].
Proof.
  intros Hf Hp Hl Hb Hs. split; [|done|intros a n H; by apply not_elem_of_nil in H|intros a n a' n' x H; by apply not_elem_of_nil in H|intros x Hx; cbn in Hx; lia].
  split; cbn; try done.
  - by exists [].
  - by rewrite upd_same.
  - split; [|done]. unfold end_of, plus. cbn. rewrite upd_same, Hb. unfold sizeof_header in *. lia.
  - by rewrite upd_same.
  - intros a Ha Hne. apply list_elem_of_singleton in Ha. done.
  - by left.
  - lia.
Qed.

(** One malloc with a ring. *)
Lemma malloc_ring s ns al nbytes : heap_inv s ns al -> 0 <= nbytes < 4294967296 -> (2 * length ns + 2 <= fuel)%nat ->
  let nunits := u32 ((nbytes + sizeof_header - 1) / sizeof_header + 1) in
  nbytes <= sizeof_header * (nunits - 1) /\
  (malloc_loop grant fuel fuel nunits (freep s) (h_ptr s (freep s)) s = Ret 0 s \/
   exists s' ns' p, malloc_loop grant fuel fuel nunits (freep s) (h_ptr s (freep s)) s = Ret (plus p 1) s' /\
     heap_inv s' ns' ((p, nunits) :: al) /\ (length ns' <= S (length ns))%nat).
Proof.
  intros HI Hn Hf nunits. assert (1 <= nunits < 4294967296 /\ nbytes <= sizeof_header * (nunits - 1)) as [Hr Hbytes].
  { unfold nunits, sizeof_header. rewrite u32_small; Z.div_mod_to_equations; lia. }
  split; [done|]. destruct (malloc_loop_run base grant fuel grant_bound s ns nunits (hi_ring _ _ _ HI) Hr Hf) as [E|(s' & ns' & p & E & A)];
    [by left|right]. exists s', ns', p. split_and!; [done|eapply heap_inv_malloc; [exact HI|exact A|lia]|apply A].
Qed.

End Heap.

(** *** Witness: the first call of a program whose data end at 4096. *)
Definition new_heap : heap := Heap (fun _ => 0) (fun _ => 0) 0 4096.

Definition small_machine (b n : Z) : bool := b + n <=? 1048576.

