(* ===== verification/Mkfs.v ===== *)
(** * Mkfs: the image builder mkfs.c

    The image file is the disk that the kernel will see: a function from sector numbers
    to lists of bytes.  A struct dinode is the part of an in-memory inode that lies on
    the disk; its other fields have no meaning here.  A file to be copied is its name
    and the pieces that read() returns of it, each of at most a buffer.  A read behind the
    end of the image and a failed assertion end the program: they are panics.  The host's
    other file operations are taken to succeed. *)

From S2P Require Import Prelude Machine Spinlock Cstring Ktrace Layout Kalloc Vm Sched Sleeplock Bio Log Fs.
#[local] Open Scope prog_scope.

Module Mkfs.

Definition FSSIZE : Z := 1000.
Definition NINODES : Z := 200.
Definition nbitmap : Z := FSSIZE / (BSIZE * 8) + 1.
Definition ninodeblocks : Z := NINODES / IPB + 1.
Definition nlog : Z := LOGSIZE.
Definition nmeta : Z := 2 + nlog + ninodeblocks + nbitmap.
Definition nblocks : Z := FSSIZE - nmeta.

(** The image file has [nsec] sectors. *)
Record mk := Mk { sec : disk; nsec : Z; freeinode : Z; freeblock : Z }.

(** The value whose bytes in memory, on a little-endian machine, are those of [x]. *)
Definition xshort (x : Z) : Z := of_le_bytes [u8 x; u8 (Z.shiftr x 8)].
Definition xint (x : Z) : Z := of_le_bytes [u8 x; u8 (Z.shiftr x 8); u8 (Z.shiftr x 16); u8 (Z.shiftr x 24)].

Definition sb : superblock :=
  Superblock (xint FSSIZE) (xint nblocks) (xint NINODES) (xint nlog) (xint 2) (xint (2 + nlog)) (xint (2 + nlog + ninodeblocks)).
Definition sb_bytes : list Z :=
  concat (map (le_bytes 4) [sb_size sb; sb_nblocks sb; sb_ninodes sb; sb_nlog sb; sb_logstart sb; sb_inodestart sb; sb_bmapstart sb]).

Definition zeroes : list Z := replicate (Z.to_nat BSIZE) 0.
Definition put_sec (x : Z) (buf : list Z) (c : disk) : disk := fun y => if y =? x then buf else c y.

(** Writing behind the end of the file makes it longer, reading there fails. *)
Definition wsect (x : Z) (buf : list Z) : prog mk unit :=
  modify (fun s => Mk (put_sec x buf (sec s)) (Z.max (nsec s) (x + 1)) (freeinode s) (freeblock s)).
Definition rsect (x : Z) : prog mk (list Z) := fun s => if x <? nsec s then Ret (sec s x) s else Panic "read" s.

Definition no_inode : inode := zero_inode.

Definition winode (inum : Z) (ip : inode) : prog mk unit :=
  let bn := IBLOCK inum sb in
  buf <- rsect bn;;
  wsect bn (store_dinode (dinode_off inum) ip buf).

Definition rinode (inum : Z) : prog mk inode :=
  let bn := IBLOCK inum sb in
  buf <- rsect bn;;
  ret (load_dinode (dinode_off inum) buf no_inode).

Definition ialloc (type : Z) : prog mk Z :=
  inum <- gets freeinode;;
  modify (fun s => Mk (sec s) (nsec s) (u32 (freeinode s + 1)) (freeblock s));;;
  winode inum (set_i_size (xint 0) (set_i_nlink (i16 (xshort 1)) (set_i_type (i16 (xshort type)) no_inode)));;;
  ret inum.

(** The next free block. *)
Definition fresh : prog mk Z :=
  b <- gets freeblock;;
  modify (fun s => Mk (sec s) (nsec s) (freeinode s) (u32 (freeblock s + 1)));;;
  ret b.

Definition addr (din : inode) (k : nat) : Z := xint (nth k (i_addrs din) 0).
Definition set_addr (k : nat) (v : Z) (din : inode) : inode := set_i_addrs (<[k := xint v]> (i_addrs din)) din.

(** The block of the file for its block number [fbn], allocated when it has none. *)
Definition map_block (din : inode) (fbn : Z) : prog mk (inode * Z) :=
  if fbn <? Z.of_nat NDIRECT then
    let k := Z.to_nat fbn in
    din <- (if addr din k =? 0 then b <- fresh;; ret (set_addr k b din) else ret din);;
    ret (din, addr din k)
  else
    din <- (if addr din NDIRECT =? 0 then b <- fresh;; ret (set_addr NDIRECT b din) else ret din);;
    indirect <- rsect (addr din NDIRECT);;
    let k := Z.to_nat (fbn - Z.of_nat NDIRECT) in
    indirect <- (if get32 (4 * k) indirect =? 0 then
                   b <- fresh;;
                   let indirect := put32 (4 * k) (xint b) indirect in
                   wsect (addr din NDIRECT) indirect;;;
                   ret indirect
                 else ret indirect);;
    ret (din, xint (get32 (4 * k) indirect)).

Fixpoint iappend_loop (rounds : nat) (din : inode) (p : list Z) (off : Z) : prog mk (inode * Z) :=
  match p with
  | [] => ret (din, off)
  | _ =>
    match rounds with
    | O => fun s => NoFuel s
    | S rounds =>
      let fbn := off / BSIZE in
      if negb (fbn <? MAXFILE) then panic "assert" else
      r <- map_block din fbn;;
      let '(din, x) := r in
      let n1 := Z.min (Z.of_nat (length p)) ((fbn + 1) * BSIZE - off) in
      buf <- rsect x;;
      wsect x (splice (Z.to_nat (off - fbn * BSIZE)) (take (Z.to_nat n1) p) buf);;;
      iappend_loop rounds din (drop (Z.to_nat n1) p) (u32 (off + n1))
    end
  end.

Definition iappend (inum : Z) (xp : list Z) : prog mk unit :=
  din <- rinode inum;;
  r <- iappend_loop (length xp) din xp (xint (i_size din));;
  let '(din, off) := r in
  winode inum (set_i_size (xint off) din).

Definition balloc (used : Z) : prog mk unit :=
  if negb (used <? BSIZE * 8) then panic "assert" else
  wsect (sb_bmapstart sb)
    (fold_left (fun buf i => alter (fun x => Z.lor x (Z.shiftl 1 (i mod 8))) (Z.to_nat (i / 8)) buf) (seqZ 0 used) zeroes).

Definition dirent (inum : Z) (name : list Z) : list Z := le_bytes 2 (xshort inum) ++ name.

(** One file of the command line. *)
Definition add_file (rootino : Z) (f : list Z * list (list Z)) : prog mk unit :=
  let '(name, pieces) := f in
  if existsb (Z.eqb slash) name then panic "assert" else
  let name := match name with c :: rest => if c =? 95 then rest else name | [] => name end in
  inum <- ialloc T_FILE;;
  iappend rootino (dirent (u16 inum) (bytes_cpy DIRSIZ name));;;
  for_each pieces (fun buf => iappend inum buf).

Definition main (files : list (list Z * list (list Z))) : prog mk unit :=
  modify (fun s => Mk (sec s) (nsec s) (freeinode s) nmeta);;;
  for_each (seqZ 0 FSSIZE) (fun i => wsect i zeroes);;;
  wsect 1 (splice 0 sb_bytes zeroes);;;
  rootino <- ialloc T_DIR;;
  if negb (rootino =? ROOTINO) then panic "assert" else
  iappend rootino (dirent (u16 rootino) (splice 0 (lit "." ++ [0]) (replicate DIRSIZ 0)));;;
  iappend rootino (dirent (u16 rootino) (splice 0 (lit ".." ++ [0]) (replicate DIRSIZ 0)));;;
  for_each files (add_file rootino);;;
  din <- rinode rootino;;
  let off := xint (i_size din) in
  let off := u32 ((off / BSIZE + 1) * BSIZE) in
  winode rootino (set_i_size (xint off) din);;;
  used <- gets freeblock;;
  balloc used.

End Mkfs.

Import Mkfs.

(** ** Disk inodes in their sectors *)

(** Bounds on the length of a list into which fields have been written. *)
Ltac put_len := repeat (rewrite length_put; [|put_len]); lia.

Lemma length_put_addrs off addrs l : (off + 4 * length addrs <= length l)%nat -> length (put_addrs off addrs l) = length l.
Proof.
  revert off l. induction addrs as [|a addrs IH]; intros off l H; [done|]. cbn [put_addrs length] in *.
  unfold put32. rewrite IH by put_len. put_len.
Qed.

Lemma get_put_addrs_other n off addrs off' l : (off + 4 * length addrs <= length l)%nat ->
  (off' + n <= off \/ off + 4 * length addrs <= off')%nat -> get_le n off' (put_addrs off addrs l) = get_le n off' l.
Proof.
  revert off l. induction addrs as [|a addrs IH]; intros off l H Ho; [done|]. cbn [put_addrs length] in *.
  unfold put32. rewrite IH by put_len. apply get_put_other; lia.
Qed.

Lemma get_put_addrs off addrs l i a : (off + 4 * length addrs <= length l)%nat -> addrs !! i = Some a ->
  0 <= a < 4294967296 -> get32 (off + 4 * i) (put_addrs off addrs l) = a.
Proof.
  revert off l i. induction addrs as [|b addrs IH]; intros off l i H Hi Ha; [done|]. cbn [put_addrs length] in *.
  destruct i as [|i]; cbn in Hi.
  - injection Hi as ->. rewrite Nat.mul_0_r, Nat.add_0_r. unfold get32.
    unfold put32. rewrite get_put_addrs_other by put_len. apply get32_put32; [lia|done].
  - replace (off + 4 * S i)%nat with (off + 4 + 4 * i)%nat by lia.
    apply IH; [unfold put32; put_len|done|done].
Qed.

(** The part of an inode that is on the disk. *)
Record dinode_ok (x : inode) : Prop := Dinode_ok {
  d_rest : x = Inode 0 0 0 (i_lock no_inode) 0 (i_type x) 0 0 (i_nlink x) (i_size x) (i_addrs x);
  d_type : 0 <= i_type x < 32768;
  d_nlink : 0 <= i_nlink x < 32768;
  d_size : 0 <= i_size x < 4294967296;
  d_addrs : length (i_addrs x) = S NDIRECT /\ Forall (fun a => 0 <= a < 4294967296) (i_addrs x)
}.

Lemma length_store_dinode off x l : (off + 64 <= length l)%nat -> length (i_addrs x) = S NDIRECT ->
  length (store_dinode off x l) = length l.
Proof.
  intros H Ha. unfold store_dinode, put32, put16. unfold NDIRECT in Ha. rewrite length_put_addrs by put_len. put_len.
Qed.

Lemma get_store_other n off' off x l : (off + 64 <= length l)%nat -> length (i_addrs x) = S NDIRECT ->
  (off' + n <= off \/ off + 64 <= off')%nat -> get_le n off' (store_dinode off x l) = get_le n off' l.
Proof.
  intros H Ha Ho. unfold store_dinode, put32, put16. unfold NDIRECT in Ha.
  rewrite get_put_addrs_other by put_len. rewrite !get_put_other by put_len. done.
Qed.

Lemma load_store_other off' off x l ip : (off + 64 <= length l)%nat -> length (i_addrs x) = S NDIRECT ->
  (off' + 64 <= off \/ off + 64 <= off')%nat -> load_dinode off' (store_dinode off x l) ip = load_dinode off' l ip.
Proof.
  intros H Ha Ho. unfold load_dinode, get_addrs, get32, get16.
  rewrite !(get_store_other _ _ off x l) by lia.
  f_equal. apply map_ext_in. intros i Hi%list_elem_of_In%elem_of_seq. unfold NDIRECT in Hi. by rewrite get_store_other by lia.
Qed.

Lemma load_store_dinode off x l : (off + 64 <= length l)%nat -> dinode_ok x ->
  load_dinode off (store_dinode off x l) no_inode = x.
Proof.
  intros H D. destruct D as [E Ht Hn Hs [Ha Hr]]. unfold store_dinode. set (l1 := put32 (off + 8) _ _).
  assert (length l1 = length l) as Hl1 by (unfold l1, put32, put16; put_len).
  assert (forall n o, (o + n <= off + 12)%nat -> get_le n o (put_addrs (off + 12) (i_addrs x) l1) = get_le n o l1) as Hg
    by (intros n o Ho; apply get_put_addrs_other; rewrite ?Ha, ?Hl1; unfold NDIRECT; lia).
  unfold load_dinode, get32 at 1, get16. rewrite !Hg by lia.
  assert (get_addrs (off + 12) (put_addrs (off + 12) (i_addrs x) l1) = i_addrs x) as Eaddr.
  { unfold get_addrs. apply list_eq. intros i. rewrite list_lookup_fmap. destruct (decide (i < S NDIRECT)%nat) as [Hi|Hi].
    - rewrite lookup_seq_lt by done. cbn [fmap option_fmap option_map]. destruct (lookup_lt_is_Some_2 (i_addrs x) i) as [a Hai]; [lia|].
      rewrite Hai. f_equal. rewrite Nat.add_0_l. apply get_put_addrs; [rewrite Ha, Hl1; unfold NDIRECT; lia|done|].
      rewrite Forall_lookup in Hr. by eapply Hr.
    - rewrite lookup_seq_ge by lia. cbn. symmetry. apply lookup_ge_None_2. lia. }
  rewrite Eaddr. unfold l1, put32, put16.
  repeat first [rewrite get_put_same by put_len | rewrite get_put_other by put_len].
  rewrite E. cbn -[Z.modulo i16 u16 no_inode]. rewrite E. cbn -[Z.modulo i16 u16].
  rewrite (Z.mod_small (i_size x)) by lia.
  assert (forall v, 0 <= v < 32768 -> i16 (u16 v mod 256 ^ Z.of_nat 2) = v) as H16.
  { intros v Hv. change (256 ^ Z.of_nat 2) with 65536. unfold i16, u16. Z.div_mod_to_equations. lia. }
  rewrite !H16 by lia. done.
Qed.

(** ** The blocks of a file *)

Lemma xint_id x : 0 <= x < 4294967296 -> xint x = x.
Proof.
  intros H. unfold xint, u8. cbn [of_le_bytes]. rewrite !Z.shiftr_div_pow2 by lia.
  change (2 ^ 8) with 256. change (2 ^ 16) with 65536. change (2 ^ 24) with 16777216. Z.div_mod_to_equations. lia.
Qed.
Lemma xshort_id x : 0 <= x < 65536 -> xshort x = x.
Proof.
  intros H. unfold xshort, u8. cbn [of_le_bytes]. rewrite Z.shiftr_div_pow2 by lia. change (2 ^ 8) with 256. Z.div_mod_to_equations. lia.
Qed.

(** The data blocks [bl] of a file and its indirect block [ib], 0 when it has none. *)
Definition blocks (bl : list Z) (ib : Z) : list Z := bl ++ (if ib =? 0 then [] else [ib]).

(** A file with the bytes [f] on the disk [c], of which the blocks below [fb] are taken. *)
Record rep (c : disk) (fb : Z) (addrs f bl : list Z) (ib : Z) : Prop := Rep {
  rp_addrs : length addrs = S NDIRECT;
  rp_direct : forall k, (k < NDIRECT)%nat -> nth k addrs 0 = nth k bl 0;
  rp_ind : nth NDIRECT addrs 0 = ib;
  rp_ib : ib = 0 <-> (length bl <= NDIRECT)%nat;
  rp_entries : ib <> 0 -> forall k, (k < NINDIRECT)%nat -> get32 (4 * k) (c ib) = nth (NDIRECT + k) bl 0;
  rp_max : (length bl <= 140)%nat;
  rp_range : Forall (fun b => nmeta <= b < fb) (blocks bl ib);
  rp_nodup : NoDup (blocks bl ib);
  rp_room : (length f <= 512 * length bl)%nat;
  rp_bytes : forall j, (j < length f)%nat -> nth (j mod 512) (c (nth (j / 512) bl 0)) 0 = nth j f 0
}.

Definition sec_ok (c : disk) : Prop := forall b, 0 <= b < FSSIZE -> length (c b) = 512%nat.
Definition fresh_ok (c : disk) (fb : Z) : Prop := forall b, fb <= b < FSSIZE -> c b = zeroes.

Lemma nth_in_blocks bl ib k : (k < length bl)%nat -> nth k bl 0 ∈ blocks bl ib.
Proof. intros H. apply elem_of_app. left. apply list_elem_of_In, nth_In. done. Qed.

Lemma ib_in_blocks bl ib : ib <> 0 -> ib ∈ blocks bl ib.
Proof. intros H. unfold blocks. rewrite (proj2 (Z.eqb_neq ib 0) H). set_solver. Qed.

Lemma byte_block (f bl : list Z) j : (j < length f)%nat -> (length f <= 512 * length bl)%nat -> (j / 512 < length bl)%nat.
Proof. intros H1 H2. apply Nat.Div0.div_lt_upper_bound. lia. Qed.

Lemma rep_ext c c' fb fb' addrs f bl ib : rep c fb addrs f bl ib -> fb <= fb' ->
  (forall b, b ∈ blocks bl ib -> c' b = c b) -> rep c' fb' addrs f bl ib.
Proof.
  intros [Ra Rd Ri Rib Re Rm Rr Rn Rroom Rb] Hfb Hc. split; try done.
  - intros Hib k Hk. rewrite Hc by (by apply ib_in_blocks). auto.
  - eapply Forall_impl; [exact Rr|]. cbv beta. intros; lia.
  - intros j Hj. rewrite Hc; [auto|]. apply nth_in_blocks. by eapply byte_block.
Qed.

(** One more data block, for the addresses [addrs'] and the disk [c'] that show it. *)
Lemma rep_grow c c' fb fb' addrs addrs' f bl ib ib' new :
  rep c fb addrs f bl ib -> nmeta <= fb -> fb <= new < fb' -> (length bl < 140)%nat ->
  length addrs' = S NDIRECT -> (forall k, (k < NDIRECT)%nat -> nth k addrs' 0 = nth k (bl ++ [new]) 0) ->
  nth NDIRECT addrs' 0 = ib' -> (ib' = 0 <-> (S (length bl) <= NDIRECT)%nat) ->
  (ib' = ib \/ fb <= ib' < fb' /\ ib' <> new /\ ib = 0) ->
  (ib' <> 0 -> forall k, (k < NINDIRECT)%nat -> get32 (4 * k) (c' ib') = nth (NDIRECT + k) (bl ++ [new]) 0) ->
  (forall b, b ∈ bl -> c' b = c b) -> rep c' fb' addrs' f (bl ++ [new]) ib'.
Proof.
  change nmeta with 59. intros [Ra Rd Ri Rib Re Rm Rr Rn Rroom Rb] Hnm Hnew Hlen Ha Hd Hi Hib Hcase He Hc. change nmeta with 59 in *.
  assert (Forall (fun b => 59 <= b < fb) bl /\ NoDup bl) as [Hr Hn].
  { unfold blocks in *. apply Forall_app in Rr as [? _]. apply NoDup_app in Rn as (? & _). done. }
  assert (new ∉ bl) as Hnb by (intros H; rewrite Forall_forall in Hr; specialize (Hr _ H); lia).
  assert (ib' ∉ bl /\ ib' <> new /\ (ib' = 0 \/ 59 <= ib' < fb')) as (Hib1 & Hib2 & Hib3).
  { destruct Hcase as [->|(H1 & H2 & _)].
    - destruct (decide (ib = 0)) as [->|Hne].
      + split_and!; [|lia|by left]. intros H. rewrite Forall_forall in Hr. specialize (Hr _ H). lia.
      + pose proof (ib_in_blocks bl ib Hne) as Hin. rewrite Forall_forall in Rr. pose proof (Rr _ Hin).
        split_and!; [|lia|right; lia]. unfold blocks in Rn. rewrite (proj2 (Z.eqb_neq ib 0) Hne) in Rn.
        apply NoDup_app in Rn as (_ & Hd' & _). intros H'. apply (Hd' ib H'). set_solver.
    - split_and!; [|done|right; lia]. intros H. rewrite Forall_forall in Hr. specialize (Hr _ H). lia. }
  split; change nmeta with 59; try done.
  - rewrite length_app. cbn. rewrite Nat.add_1_r. done.
  - rewrite length_app. cbn. lia.
  - unfold blocks. rewrite <- app_assoc. apply Forall_app. split; [eapply Forall_impl; [exact Hr|cbv beta; intros; lia]|].
    constructor; [lia|]. destruct (Z.eqb_spec ib' 0); constructor; [destruct Hib3; [done|lia]|constructor].
  - unfold blocks. rewrite <- app_assoc. apply NoDup_app. split_and!; [done| |].
    + intros y Hy [->|Hin]%elem_of_cons; [done|]. destruct (ib' =? 0); [by apply not_elem_of_nil in Hin|].
      apply list_elem_of_singleton in Hin as ->. done.
    + destruct (Z.eqb_spec ib' 0); [apply NoDup_singleton|]. apply NoDup_cons. split; [set_solver|apply NoDup_singleton].
  - rewrite length_app. cbn. lia.
  - intros j Hj. pose proof (byte_block f bl j Hj Rroom) as Hk. rewrite app_nth1 by done.
    rewrite Hc by (apply list_elem_of_In, nth_In; done). auto.
Qed.

(** ** Allocating a block *)

Section MapBlock.
Context (fi : Z).
#[local] Notation st c fb := (Mk c FSSIZE fi fb).

Lemma rsect_run x c fb : x < FSSIZE -> rsect x (st c fb) = Ret (c x) (st c fb).
Proof. intros H. unfold rsect. cbn [nsec sec]. by rewrite (proj2 (Z.ltb_lt _ _) H). Qed.

Lemma wsect_run x buf c fb : x < FSSIZE -> wsect x buf (st c fb) = Ret tt (st (put_sec x buf c) fb).
Proof. intros H. unfold wsect, modify. cbn [nsec sec freeinode freeblock]. by rewrite Z.max_l by lia. Qed.

Lemma fresh_run c fb : 0 <= fb < FSSIZE -> fresh (st c fb) = Ret fb (st c (fb + 1)).
Proof. intros H. unfold fresh. rewrite bind_gets, bind_modify. cbn. unfold ret. rewrite u32_small; [done|]. unfold FSSIZE in H. lia. Qed.

Lemma set_i_addrs_same x : set_i_addrs (i_addrs x) x = x.
Proof. by destruct x. Qed.

Lemma rep_block c fb addrs f bl ib b : rep c fb addrs f bl ib -> b ∈ blocks bl ib -> fb <= FSSIZE ->
  b <> 0 /\ 0 <= b < FSSIZE /\ xint b = b.
Proof.
  intros R Hb Hfb. pose proof (rp_range _ _ _ _ _ _ R) as H. rewrite Forall_forall in H. specialize (H b Hb). cbv beta in H.
  change nmeta with 59 in H. change FSSIZE with 1000 in *. split_and!; [lia|lia|lia|]. apply xint_id. lia.
Qed.

(** What map_block does for block [fbn] of a file. *)
Definition mapped (x : inode) (f bl : list Z) (ib : Z) (c : disk) (fb : Z) (fbn : nat) : Prop :=
  exists addrs' c' fb' bl' ib',
    map_block x (Z.of_nat fbn) (st c fb) = Ret (set_i_addrs addrs' x, nth fbn bl' 0) (st c' fb') /\
    rep c' fb' addrs' f bl' ib' /\ sec_ok c' /\ fresh_ok c' fb' /\ length bl' = Nat.max (length bl) (S fbn) /\
    fb' = fb + Z.of_nat (length (blocks bl' ib')) - Z.of_nat (length (blocks bl ib)) /\ fb' <= FSSIZE /\
    (forall b, b < fb -> b ∉ blocks bl ib -> c' b = c b) /\
    (forall b, b ∈ blocks bl' ib' -> b ∈ blocks bl ib \/ fb <= b < fb').

Lemma map_block_old x f bl ib c fb fbn : rep c fb (i_addrs x) f bl ib -> sec_ok c -> fresh_ok c fb -> fb <= FSSIZE ->
  (fbn < length bl)%nat -> mapped x f bl ib c fb fbn.
Proof.
  intros R Hs Hf Hfb Hk. exists (i_addrs x), c, fb, bl, ib. rewrite set_i_addrs_same.
  destruct (rep_block _ _ _ _ _ _ (nth fbn bl 0) R (nth_in_blocks bl ib fbn Hk) Hfb) as (Hb0 & Hb & Hx).
  split_and!; try done; [|lia|lia|auto]. unfold map_block. destruct (Z.ltb_spec (Z.of_nat fbn) (Z.of_nat NDIRECT)) as [Hd|Hd].
  - rewrite Nat2Z.id. unfold addr. rewrite (rp_direct _ _ _ _ _ _ R) by lia. rewrite Hx, (proj2 (Z.eqb_neq _ 0) Hb0).
    rewrite bind_ret. unfold addr. rewrite (rp_direct _ _ _ _ _ _ R), Hx by lia. done.
  - assert (ib <> 0) as Hib by (rewrite (rp_ib _ _ _ _ _ _ R); lia).
    destruct (rep_block _ _ _ _ _ _ ib R (ib_in_blocks bl ib Hib) Hfb) as (_ & Hbi & Hxi).
    unfold addr at 1. rewrite (rp_ind _ _ _ _ _ _ R), Hxi, (proj2 (Z.eqb_neq _ 0) Hib), bind_ret.
    unfold addr. rewrite (rp_ind _ _ _ _ _ _ R), Hxi. mret (rsect_run ib c fb ltac:(lia)).
    replace (Z.to_nat (Z.of_nat fbn - Z.of_nat NDIRECT)) with (fbn - NDIRECT)%nat by lia.
    pose proof (rp_max _ _ _ _ _ _ R) as Hmax.
    assert (get32 (4 * (fbn - NDIRECT)) (c ib) = nth fbn bl 0) as Eg.
    { rewrite (rp_entries _ _ _ _ _ _ R Hib) by (unfold NDIRECT, NINDIRECT in *; lia). f_equal. lia. }
    rewrite Eg, (proj2 (Z.eqb_neq _ 0) Hb0), bind_ret, Eg, Hx. done.
Qed.

Lemma nth_snoc k (bl : list Z) b : nth k (bl ++ [b]) 0 = if (k =? length bl)%nat then b else nth k bl 0.
Proof.
  destruct (Nat.eqb_spec k (length bl)) as [->|Hne]; [by rewrite app_nth2, Nat.sub_diag by lia|].
  destruct (decide (k < length bl)%nat); [by rewrite app_nth1|]. rewrite !nth_overflow; [done|lia|rewrite length_app; cbn; lia].
Qed.

Lemma nth_insert k j (l : list Z) v : (j < length l)%nat -> nth k (<[j := v]> l) 0 = if (k =? j)%nat then v else nth k l 0.
Proof.
  intros H. rewrite !nth_lookup. destruct (Nat.eqb_spec k j) as [->|]; [by rewrite list_lookup_insert_eq|by rewrite list_lookup_insert_ne].
Qed.

Lemma blocks_snoc_len bl ib b : length (blocks (bl ++ [b]) ib) = S (length (blocks bl ib)).
Proof. unfold blocks. rewrite !length_app. cbn. lia. Qed.

Lemma map_block_direct x f bl ib c fb : rep c fb (i_addrs x) f bl ib -> sec_ok c -> fresh_ok c fb ->
  nmeta <= fb < FSSIZE -> (length bl < NDIRECT)%nat -> mapped x f bl ib c fb (length bl).
Proof.
  intros R Hs Hf Hfb Hk. change nmeta with 59 in Hfb. exists (<[length bl := fb]> (i_addrs x)), c, (fb + 1), (bl ++ [fb]), ib.
  assert (ib = 0) as Hib by (apply (rp_ib _ _ _ _ _ _ R); lia). pose proof (rp_addrs _ _ _ _ _ _ R) as Ha.
  assert (xint fb = fb) as Hx by (apply xint_id; unfold FSSIZE in *; lia).
  split_and!.
  - unfold map_block. rewrite (proj2 (Z.ltb_lt _ _)) by lia. rewrite Nat2Z.id. unfold addr at 1.
    rewrite (rp_direct _ _ _ _ _ _ R) by lia. rewrite nth_overflow by lia. change (xint 0 =? 0) with true. cbv iota.
    rewrite bind_assoc. mret (fresh_run c fb ltac:(lia)). rewrite bind_ret. unfold set_addr, addr. cbn [i_addrs set_i_addrs].
    rewrite Hx, nth_insert, nth_snoc, Nat.eqb_refl, Hx by lia. done.
  - apply (rep_grow c c fb (fb + 1) (i_addrs x) _ f bl ib ib fb R); try done; change nmeta with 59; try lia.
    + unfold NDIRECT in *. lia.
    + by rewrite length_insert.
    + intros k Hkd. rewrite nth_insert, nth_snoc, (rp_direct _ _ _ _ _ _ R) by lia. done.
    + rewrite nth_insert by lia. rewrite (proj2 (Nat.eqb_neq _ _)) by lia. apply (rp_ind _ _ _ _ _ _ R).
  - done.
  - intros b Hb. apply Hf. lia.
  - rewrite length_app. cbn. lia.
  - rewrite blocks_snoc_len. lia.
  - lia.
  - done.
  - intros b Hb. unfold blocks in *. rewrite <- app_assoc in Hb. apply elem_of_app in Hb as [Hb|Hb]; [left; set_solver|].
    apply elem_of_cons in Hb as [->|Hb]; [right; lia|left; set_solver].
Qed.

Lemma get32_zeroes k : (4 * k + 4 <= 512)%nat -> get32 (4 * k) zeroes = 0.
Proof.
  intros H. unfold get32, get_le, zeroes. rewrite drop_replicate, take_replicate.
  change (Z.to_nat BSIZE) with 512%nat. replace (4 `min` (512 - 4 * k))%nat with 4%nat by lia. done.
Qed.

Lemma get32_entry k k' v l : length l = 512%nat -> (k < NINDIRECT)%nat -> (k' < NINDIRECT)%nat -> 0 <= v < 4294967296 ->
  get32 (4 * k') (put32 (4 * k) v l) = if (k' =? k)%nat then v else get32 (4 * k') l.
Proof.
  intros Hl Hk Hk' Hv. unfold NINDIRECT in *. destruct (Nat.eqb_spec k' k) as [->|Hne]; [apply get32_put32; [lia|done]|].
  unfold get32, put32. apply get_put_other; lia.
Qed.

Lemma put_sec_ok x buf c : sec_ok c -> length buf = 512%nat -> sec_ok (put_sec x buf c).
Proof. intros H Hb b Hr. unfold put_sec. destruct (b =? x); [done|by apply H]. Qed.

Lemma put_sec_same x buf c : put_sec x buf c x = buf.
Proof. unfold put_sec. by rewrite Z.eqb_refl. Qed.
Lemma put_sec_other x buf c y : y <> x -> put_sec x buf c y = c y.
Proof. intros H. unfold put_sec. by rewrite (proj2 (Z.eqb_neq y x) H). Qed.

Lemma rep_ib_apart c fb addrs f bl ib : rep c fb addrs f bl ib -> ib <> 0 -> ib ∉ bl.
Proof.
  intros R Hib Hin. pose proof (rp_nodup _ _ _ _ _ _ R) as Hn. unfold blocks in Hn. rewrite (proj2 (Z.eqb_neq ib 0) Hib) in Hn.
  apply NoDup_app in Hn as (_ & Hd & _). apply (Hd ib Hin). set_solver.
Qed.

Lemma map_block_entry x f bl ib c fb : rep c fb (i_addrs x) f bl ib -> sec_ok c -> fresh_ok c fb ->
  nmeta <= fb < FSSIZE -> (NDIRECT < length bl < 140)%nat -> mapped x f bl ib c fb (length bl).
Proof.
  intros R Hs Hf Hfb Hk. change nmeta with 59 in Hfb.
  assert (ib <> 0) as Hib by (rewrite (rp_ib _ _ _ _ _ _ R); lia).
  destruct (rep_block _ _ _ _ _ _ ib R (ib_in_blocks bl ib Hib) ltac:(lia)) as (_ & Hbi & Hxi).
  pose proof (rp_range _ _ _ _ _ _ R) as Hrange. rewrite Forall_forall in Hrange.
  pose proof (Hrange ib (ib_in_blocks bl ib Hib)) as Hibr. change nmeta with 59 in Hibr.
  assert (0 <= fb < 4294967296) as Hfb' by (unfold FSSIZE in *; lia).
  set (k := (length bl - NDIRECT)%nat). set (entry := put32 (4 * k) fb (c ib)).
  assert (k < NINDIRECT)%nat as Hkn by (unfold k, NDIRECT, NINDIRECT in *; lia). assert (NDIRECT + k = length bl)%nat as Ek by (unfold k; lia).
  pose proof (Hs ib Hbi) as Hlen.
  exists (i_addrs x), (put_sec ib entry c), (fb + 1), (bl ++ [fb]), ib. rewrite set_i_addrs_same. split_and!.
  - unfold map_block. rewrite (proj2 (Z.ltb_ge _ _)) by lia. unfold addr at 1.
    rewrite (rp_ind _ _ _ _ _ _ R), Hxi, (proj2 (Z.eqb_neq _ 0) Hib), bind_ret.
    unfold addr. rewrite (rp_ind _ _ _ _ _ _ R), Hxi. mret (rsect_run ib c fb ltac:(lia)).
    replace (Z.to_nat (Z.of_nat (length bl) - Z.of_nat NDIRECT)) with k by (unfold k; lia).
    rewrite (rp_entries _ _ _ _ _ _ R Hib k Hkn), nth_overflow by lia. cbn [Z.eqb].
    rewrite bind_assoc. mret (fresh_run c fb ltac:(lia)). rewrite xint_id by done. fold entry. rewrite bind_assoc.
    mret (wsect_run ib entry c (fb + 1) ltac:(lia)). rewrite bind_ret. unfold entry. rewrite get32_entry, Nat.eqb_refl, nth_snoc, Nat.eqb_refl, xint_id by done. done.
  - apply (rep_grow c _ fb (fb + 1) (i_addrs x) _ f bl ib ib fb R); change nmeta with 59; try lia.
    + apply (rp_addrs _ _ _ _ _ _ R).
    + intros j Hj. rewrite nth_snoc, (proj2 (Nat.eqb_neq _ _)) by lia. by apply (rp_direct _ _ _ _ _ _ R).
    + apply (rp_ind _ _ _ _ _ _ R).
    + intros _ j Hj. rewrite put_sec_same. unfold entry. rewrite get32_entry, nth_snoc, (rp_entries _ _ _ _ _ _ R Hib) by done.
      destruct (Nat.eqb_spec j k) as [->|Hne]; [by rewrite (proj2 (Nat.eqb_eq _ _) Ek)|]. by rewrite (proj2 (Nat.eqb_neq _ _)) by lia.
    + intros b Hb. apply put_sec_other. intros ->. by eapply rep_ib_apart.
  - apply put_sec_ok; [done|]. unfold entry, put32. rewrite length_put; [done|unfold NINDIRECT in Hkn; lia].
  - intros b Hb. rewrite put_sec_other by lia. apply Hf. lia.
  - rewrite length_app. cbn. lia.
  - rewrite blocks_snoc_len. lia.
  - lia.
  - intros b Hb Hne. apply put_sec_other. intros ->. apply Hne. by apply ib_in_blocks.
  - intros b Hb. unfold blocks in *. rewrite <- app_assoc in Hb. apply elem_of_app in Hb as [Hb|Hb]; [left; set_solver|].
    apply elem_of_cons in Hb as [->|Hb]; [right; lia|left; set_solver].
Qed.

Lemma map_block_indirect x f bl ib c fb : rep c fb (i_addrs x) f bl ib -> sec_ok c -> fresh_ok c fb ->
  nmeta <= fb -> fb + 1 < FSSIZE -> length bl = NDIRECT -> mapped x f bl ib c fb (length bl).
Proof.
  intros R Hs Hf Hnm Hfb Hk. change nmeta with 59 in Hnm. assert (ib = 0) as -> by (apply (rp_ib _ _ _ _ _ _ R); lia).
  assert (0 <= fb /\ fb + 1 < 4294967296) as Hfb' by (unfold FSSIZE in *; lia). pose proof (rp_addrs _ _ _ _ _ _ R) as Ha.
  assert (xint fb = fb) as Hx by (apply xint_id; lia). set (entry := put32 0 (fb + 1) zeroes). assert (length zeroes = 512%nat) as Hz by done.
  exists (<[NDIRECT := fb]> (i_addrs x)), (put_sec fb entry c), (fb + 2), (bl ++ [fb + 1]), fb. split_and!.
  - unfold map_block. rewrite (proj2 (Z.ltb_ge _ _)) by lia. unfold addr at 1.
    rewrite (rp_ind _ _ _ _ _ _ R). change (xint 0 =? 0) with true. cbv iota. rewrite bind_assoc.
    mret (fresh_run c fb ltac:(lia)). rewrite bind_ret. unfold set_addr, addr. cbn [i_addrs set_i_addrs].
    rewrite nth_insert, Nat.eqb_refl, !Hx by lia. mret (rsect_run fb c (fb + 1) ltac:(lia)). rewrite (Hf fb ltac:(lia)).
    replace (Z.to_nat (Z.of_nat (length bl) - Z.of_nat NDIRECT)) with 0%nat by lia. rewrite Nat.mul_0_r.
    change (get32 0 zeroes =? 0) with true. cbv iota. rewrite bind_assoc. mret (fresh_run c (fb + 1) ltac:(lia)).
    rewrite xint_id by lia. fold entry. rewrite bind_assoc. mret (wsect_run fb entry c (fb + 1 + 1) ltac:(lia)). rewrite bind_ret.
    unfold entry. rewrite get32_put32, nth_snoc, Nat.eqb_refl, xint_id by (rewrite ?Hz; lia). replace (fb + 1 + 1) with (fb + 2) by lia. done.
  - apply (rep_grow c _ fb (fb + 2) (i_addrs x) _ f bl 0 fb (fb + 1) R); change nmeta with 59; try lia.
    + unfold NDIRECT in Hk. lia.
    + by rewrite length_insert.
    + intros j Hj. rewrite nth_insert, nth_snoc, !(proj2 (Nat.eqb_neq _ _)) by lia. by apply (rp_direct _ _ _ _ _ _ R).
    + rewrite nth_insert by lia. by rewrite Nat.eqb_refl.
    + intros _ j Hj. rewrite put_sec_same. unfold entry. change 0%nat with (4 * 0)%nat at 2.
      rewrite get32_entry, nth_snoc by (done || (unfold NINDIRECT; lia)).
      destruct (Nat.eqb_spec j 0) as [->|Hne]; [by rewrite (proj2 (Nat.eqb_eq _ _)) by lia|].
      rewrite (proj2 (Nat.eqb_neq _ _)) by lia. rewrite nth_overflow by lia. apply get32_zeroes. unfold NINDIRECT in Hj. lia.
    + intros b Hb. apply put_sec_other. intros ->. pose proof (rp_range _ _ _ _ _ _ R) as Hr. rewrite Forall_forall in Hr.
      specialize (Hr fb ltac:(unfold blocks; set_solver)). lia.
  - apply put_sec_ok; [done|]. unfold entry, put32. rewrite length_put; [done|rewrite Hz; lia].
  - intros b Hb. rewrite put_sec_other by lia. apply Hf. lia.
  - rewrite length_app. cbn. lia.
  - unfold blocks. rewrite (proj2 (Z.eqb_neq fb 0)) by lia. rewrite !length_app. cbn. lia.
  - lia.
  - intros b Hb Hne. apply put_sec_other. lia.
  - intros b Hb. unfold blocks in *. rewrite (proj2 (Z.eqb_neq fb 0)) in Hb by lia.
    rewrite <- app_assoc in Hb. apply elem_of_app in Hb as [Hb|Hb]; [left; set_solver|].
    apply elem_of_cons in Hb as [->|Hb]; [right; lia|]. apply list_elem_of_singleton in Hb as ->. right. lia.
Qed.

(** The blocks that a file of [n] data blocks takes. *)
Definition cost (n : nat) : Z := Z.of_nat n + if (NDIRECT <? n)%nat then 1 else 0.

Lemma blocks_cost c fb addrs f bl ib : rep c fb addrs f bl ib -> Z.of_nat (length (blocks bl ib)) = cost (length bl).
Proof.
  intros R. unfold blocks, cost. rewrite length_app. pose proof (rp_ib _ _ _ _ _ _ R) as Hib.
  destruct (Z.eqb_spec ib 0) as [E|E]; destruct (Nat.ltb_spec NDIRECT (length bl)) as [Hl|Hl]; cbn [length]; try lia; exfalso; rewrite Hib in E; lia.
Qed.

Lemma map_block_run x f bl ib c fb fbn : rep c fb (i_addrs x) f bl ib -> sec_ok c -> fresh_ok c fb -> nmeta <= fb ->
  (fbn <= length bl)%nat -> (fbn < 140)%nat -> fb + cost (Nat.max (length bl) (S fbn)) - cost (length bl) <= FSSIZE ->
  mapped x f bl ib c fb fbn.
Proof.
  intros R Hs Hf Hnm Hle Hmax Hroom. destruct (decide (fbn < length bl)%nat) as [Hlt|Hge].
  - apply map_block_old; try done. rewrite Nat.max_l in Hroom by lia. lia.
  - assert (fbn = length bl) as -> by lia. rewrite Nat.max_r in Hroom by lia. unfold cost in Hroom.
    destruct (Nat.ltb_spec NDIRECT (S (length bl))), (Nat.ltb_spec NDIRECT (length bl)); try lia.
    + apply map_block_entry; try done; lia.
    + apply map_block_indirect; try done; lia.
    + apply map_block_direct; try done; lia.
Qed.
End MapBlock.

(** ** Appending *)

Lemma nth_splice r chunk (l : list Z) i : (r + length chunk <= length l)%nat ->
  nth i (splice r chunk l) 0 = if decide (r <= i < r + length chunk)%nat then nth (i - r) chunk 0 else nth i l 0.
Proof. intros H. rewrite !nth_lookup, splice_lookup by done. by destruct (decide _). Qed.

Lemma NoDup_nth_apart (bl : list Z) i j : NoDup bl -> (i < length bl)%nat -> (j < length bl)%nat -> i <> j -> nth i bl 0 <> nth j bl 0.
Proof.
  intros Hn Hi Hj Hne E. apply Hne. destruct (lookup_lt_is_Some_2 bl i Hi) as [a Ha], (lookup_lt_is_Some_2 bl j Hj) as [b Hb].
  rewrite (nth_lookup_Some _ _ _ _ Ha), (nth_lookup_Some _ _ _ _ Hb) in E. subst b. by eapply NoDup_lookup.
Qed.

Lemma rep_write c fb addrs f bl ib chunk : rep c fb addrs f bl ib -> sec_ok c -> fb <= FSSIZE ->
  (length f / 512 < length bl)%nat -> (length f mod 512 + length chunk <= 512)%nat ->
  let b := nth (length f / 512) bl 0 in
  rep (put_sec b (splice (length f mod 512) chunk (c b)) c) fb addrs (f ++ chunk) bl ib.
Proof.
  intros R Hs Hfb Hk Hch b. set (k := (length f / 512)%nat) in *. set (r := (length f mod 512)%nat) in *.
  assert (length f = 512 * k + r)%nat as Elen by apply Nat.div_mod_eq. pose proof (Nat.mod_upper_bound (length f) 512 ltac:(lia)) as Hr.
  destruct (rep_block _ _ _ _ _ _ b R (nth_in_blocks bl ib k Hk) Hfb) as (_ & Hb & _). pose proof (Hs b Hb) as Hlb.
  assert (NoDup bl) as Hnd by (pose proof (rp_nodup _ _ _ _ _ _ R) as Hn; unfold blocks in Hn; by apply NoDup_app in Hn as [? _]).
  pose proof R as [Ra Rd Ri Rib Re Rm Rr Rn Rroom Rb]. split; try done.
  - intros Hib j Hj. rewrite put_sec_other; [by apply Re|]. intros E. apply (rep_ib_apart _ _ _ _ _ _ R Hib). rewrite E.
    apply list_elem_of_In, nth_In. done.
  - rewrite length_app. lia.
  - intros j Hj. rewrite length_app in Hj. pose proof (Nat.div_mod_eq j 512) as Ej. pose proof (Nat.mod_upper_bound j 512 ltac:(lia)) as Hjr.
    set (kj := (j / 512)%nat) in *. set (rj := (j mod 512)%nat) in *.
    destruct (decide (kj = k)) as [Ek|Hne].
    + rewrite Ek. fold b. rewrite put_sec_same, nth_splice by lia. destruct (decide _) as [Hin|Hout].
      * rewrite app_nth2 by lia. f_equal. lia.
      * rewrite app_nth1 by lia. pose proof (Rb j ltac:(lia)) as Hold. fold kj rj in Hold. by rewrite Ek in Hold.
    + assert (kj < k)%nat by lia. rewrite put_sec_other by (apply NoDup_nth_apart; [done|lia|lia|done]).
      rewrite app_nth1 by lia. apply Rb. lia.
Qed.

Definition nblk (n : nat) : nat := ((n + 511) / 512)%nat.

Lemma nblk_mono n m : (n <= m)%nat -> (nblk n <= nblk m)%nat.
Proof. intros H. unfold nblk. apply Nat.Div0.div_le_mono. lia. Qed.
Lemma cost_mono n m : (n <= m)%nat -> cost n <= cost m.
Proof. intros H. unfold cost. destruct (Nat.ltb_spec NDIRECT n), (Nat.ltb_spec NDIRECT m); lia. Qed.

(** The next round fills up the block at the end of the file. *)
Lemma nblk_round n m : (1 <= m)%nat -> (n mod 512 + m <= 512)%nat -> nblk (n + m) = S (n / 512) /\ Nat.max (nblk n) (S (n / 512)) = S (n / 512).
Proof.
  intros H1 H2. unfold nblk. pose proof (Nat.div_mod_eq n 512) as E. pose proof (Nat.mod_upper_bound n 512 ltac:(lia)).
  split.
  - symmetry. apply (Nat.div_unique _ 512 _ (n mod 512 + m - 1)); lia.
  - apply Nat.max_r. apply Nat.lt_succ_r, Nat.Div0.div_lt_upper_bound. lia.
Qed.

Section Append.
Context (fi : Z).
#[local] Notation st c fb := (Mk c FSSIZE fi fb).

(** What a part [p] of the appended bytes does to a file. *)
Record appended (c : disk) (fb : Z) (f bl : list Z) (ib : Z) (p : list Z) (c' : disk) (fb' : Z) (addrs' bl' : list Z) (ib' : Z) : Prop := Appended {
  ap_rep : rep c' fb' addrs' (f ++ p) bl' ib';
  ap_sec : sec_ok c';
  ap_fresh : fresh_ok c' fb';
  ap_len : length bl' = nblk (length f + length p);
  ap_fb : fb' = fb + cost (nblk (length f + length p)) - cost (nblk (length f));
  ap_frame : forall b, b < fb -> b ∉ blocks bl ib -> c' b = c b;
  ap_new : forall b, b ∈ blocks bl' ib' -> b ∈ blocks bl ib \/ fb <= b < fb'
}.

Lemma appended_nil c fb f addrs bl ib : rep c fb addrs f bl ib -> sec_ok c -> fresh_ok c fb -> length bl = nblk (length f) ->
  appended c fb f bl ib [] c fb addrs bl ib.
Proof. intros R Hs Hf Hl. split; cbn [length]; rewrite ?app_nil_r, ?Nat.add_0_r; try done; [lia|auto]. Qed.

Lemma appended_app c fb f bl ib p1 c1 fb1 a1 bl1 ib1 p2 c2 fb2 a2 bl2 ib2 :
  appended c fb f bl ib p1 c1 fb1 a1 bl1 ib1 -> appended c1 fb1 (f ++ p1) bl1 ib1 p2 c2 fb2 a2 bl2 ib2 ->
  appended c fb f bl ib (p1 ++ p2) c2 fb2 a2 bl2 ib2.
Proof.
  intros [_ _ _ _ Efb1 Hfr1 Hnew1] [R2 Hs2 Hf2 Hl2 Efb2 Hfr2 Hnew2]. rewrite !length_app in *. rewrite <- Nat.add_assoc in *.
  assert (fb <= fb1) by (rewrite Efb1; pose proof (cost_mono _ _ (nblk_mono (length f) (length f + length p1) ltac:(lia))); lia).
  assert (fb1 <= fb2).
  { rewrite Efb2. pose proof (cost_mono _ _ (nblk_mono (length f + length p1) (length f + (length p1 + length p2)) ltac:(lia))). lia. }
  split; rewrite ?length_app; try done.
  - by rewrite app_assoc.
  - lia.
  - intros y Hy Hnin. rewrite Hfr2; [by apply Hfr1|lia|]. intros Hin. destruct (Hnew1 y Hin); [done|lia].
  - intros y Hy. destruct (Hnew2 y Hy) as [Hin|]; [|right; lia]. destruct (Hnew1 y Hin); [by left|right; lia].
Qed.

(** One round writes the [n1] bytes that go into the last block of the file. *)
Lemma iappend_round rounds x f bl ib c fb a p0 : let p := a :: p0 in let n1 := Nat.min (length p) (512 - length f mod 512) in
  rep c fb (i_addrs x) f bl ib -> sec_ok c -> fresh_ok c fb -> nmeta <= fb -> length bl = nblk (length f) ->
  (nblk (length f + n1) <= 140)%nat -> fb + cost (nblk (length f + n1)) - cost (nblk (length f)) <= FSSIZE ->
  exists addrs1 c1 fb1 bl1 ib1, appended c fb f bl ib (take n1 p) c1 fb1 addrs1 bl1 ib1 /\
    iappend_loop (S rounds) x p (Z.of_nat (length f)) (st c fb) =
    iappend_loop rounds (set_i_addrs addrs1 x) (drop n1 p) (Z.of_nat (length f + n1)) (st c1 fb1).
Proof.
  intros p n1 R Hs Hf Hnm Hbl Hmax Hroom. set (k := (length f / 512)%nat). set (r := (length f mod 512)%nat) in *.
  assert (length f = 512 * k + r)%nat as Elen by apply Nat.div_mod_eq. assert (r < 512)%nat as Hr by (apply Nat.mod_upper_bound; lia).
  assert (1 <= n1 <= length p)%nat as Hn1 by (unfold n1, p; cbn [length]; lia).
  destruct (nblk_round (length f) n1) as [Hnb Hnm1]; [lia|fold r; lia|]. fold k in Hnb, Hnm1. rewrite <- Hbl in Hnm1. rewrite Hnb in *.
  assert (k <= length bl)%nat as Hkb by (rewrite Hbl; unfold nblk; apply Nat.div_le_lower_bound; lia).
  destruct (map_block_run fi x f bl ib c fb k R Hs Hf Hnm Hkb ltac:(lia)) as (addrs1 & c1 & fb1 & bl1 & ib1 & E1 & R1 & Hs1 & Hf1 & Hl1 & Efb1 & Hfb1 & Hfr1 & Hnew1);
    [rewrite Hnm1, <- Hbl in *; lia|].
  rewrite Hnm1 in Hl1. rewrite (blocks_cost _ _ _ _ _ _ R), (blocks_cost _ _ _ _ _ _ R1), Hl1, Hbl in Efb1.
  assert (length (take n1 p) = n1) as Hch by (rewrite length_take; lia).
  pose proof (rep_write c1 fb1 addrs1 f bl1 ib1 (take n1 p) R1 Hs1 Hfb1 ltac:(fold k; lia) ltac:(fold r; lia)) as R2. cbv zeta in R2. fold k r in R2.
  pose proof (nth_in_blocks bl1 ib1 k ltac:(lia)) as Hbin. set (b := nth k bl1 0) in *.
  destruct (rep_block _ _ _ _ _ _ b R1 Hbin Hfb1) as (_ & Hb & _).
  assert (nmeta <= b < fb1) as Hbr by (pose proof (rp_range _ _ _ _ _ _ R1) as H; rewrite Forall_forall in H; by apply H).
  eexists addrs1, _, fb1, bl1, ib1. split; [split|]; rewrite ?Hch, ?Hnb; [exact R2| | |done|lia| | |].
  - apply put_sec_ok; [done|]. rewrite length_splice; rewrite (Hs1 b Hb); lia.
  - intros y Hy. rewrite put_sec_other by lia. by apply Hf1.
  - intros y Hy Hnin. rewrite put_sec_other; [by apply Hfr1|]. intros ->. destruct (Hnew1 b Hbin); [done|lia].
  - intros y Hy. destruct (Hnew1 y Hy); [by left|right; lia].
  - unfold p at 1. cbn [iappend_loop]. fold p. change BSIZE with 512.
    assert (Z.of_nat (length f) / 512 = Z.of_nat k) as Ek by (unfold k; rewrite Nat2Z.inj_div; done).
    rewrite Ek, (proj2 (Z.ltb_lt _ _)) by (unfold MAXFILE; lia). cbn [negb]. mret E1. fold b.
    replace (Z.to_nat (Z.min (Z.of_nat (length p)) ((Z.of_nat k + 1) * 512 - Z.of_nat (length f)))) with n1 by (unfold n1; lia).
    replace (Z.to_nat (Z.of_nat (length f) - Z.of_nat k * 512)) with r by lia.
    mret (rsect_run fi b c1 fb1 ltac:(lia)). mret (wsect_run fi b (splice r (take n1 p) (c1 b)) c1 fb1 ltac:(lia)).
    replace (u32 (Z.of_nat (length f) + Z.min (Z.of_nat (length p)) ((Z.of_nat k + 1) * 512 - Z.of_nat (length f))))
      with (Z.of_nat (length f + n1)) by (rewrite u32_small; unfold n1; lia). done.
Qed.

Lemma iappend_loop_run rounds x f bl ib c fb p : rep c fb (i_addrs x) f bl ib -> sec_ok c -> fresh_ok c fb -> nmeta <= fb ->
  length bl = nblk (length f) -> (length p <= rounds)%nat -> (nblk (length f + length p) <= 140)%nat ->
  fb + cost (nblk (length f + length p)) - cost (nblk (length f)) <= FSSIZE ->
  exists addrs' c' fb' bl' ib', appended c fb f bl ib p c' fb' addrs' bl' ib' /\
    iappend_loop rounds x p (Z.of_nat (length f)) (st c fb) = Ret (set_i_addrs addrs' x, Z.of_nat (length f + length p)) (st c' fb').
Proof.
  revert x f bl ib c fb p. induction rounds as [|rounds IH]; intros x f bl ib c fb [|a p0] R Hs Hf Hnm Hbl Hp Hmax Hroom;
    [|cbn in Hp; lia| |].
  1, 2: exists (i_addrs x), c, fb, bl, ib; split; [by apply appended_nil|]; by rewrite set_i_addrs_same, Nat.add_0_r.
  set (p := a :: p0) in *. set (n1 := Nat.min (length p) (512 - length f mod 512)).
  assert (1 <= n1 <= length p)%nat as Hn1 by (pose proof (Nat.mod_upper_bound (length f) 512 ltac:(lia)); unfold n1, p; cbn [length]; lia).
  assert (nblk (length f + n1) <= nblk (length f + length p))%nat as Hmono by (apply nblk_mono; lia). pose proof (cost_mono _ _ Hmono).
  destruct (iappend_round rounds x f bl ib c fb a p0) as (addrs1 & c1 & fb1 & bl1 & ib1 & A1 & E1); try done; [fold p n1; lia|fold p n1; lia|].
  fold p n1 in A1, E1. pose proof (ap_fb _ _ _ _ _ _ _ _ _ _ _ A1) as Efb1. pose proof (ap_len _ _ _ _ _ _ _ _ _ _ _ A1) as Hl1.
  assert (length (take n1 p) = n1) as Hch by (rewrite length_take; lia). rewrite Hch in *.
  assert (length f + n1 + (length p - n1) = length f + length p)%nat as Elen by lia.
  pose proof (cost_mono _ _ (nblk_mono (length f) (length f + n1) ltac:(lia))).
  destruct (IH (set_i_addrs addrs1 x) (f ++ take n1 p) bl1 ib1 c1 fb1 (drop n1 p)) as (addrs' & c' & fb' & bl' & ib' & A & E);
    rewrite ?length_app, ?Hch, ?length_drop, ?Elen; try done; try lia; [apply A1|apply A1|apply A1|].
  rewrite length_app, Hch, length_drop, Elen in E. exists addrs', c', fb', bl', ib'. split.
  - pose proof (appended_app _ _ _ _ _ _ _ _ _ _ _ _ _ _ _ _ _ A1 A) as A'. by rewrite take_drop in A'.
  - rewrite E1, E. done.
Qed.
End Append.

(** ** The image: inodes and their files *)

Definition rd (c : disk) (inum : Z) : inode := load_dinode (dinode_off inum) (c (IBLOCK inum sb)) no_inode.

Record flay := Flay { f_type : Z; f_bytes : list Z; f_bl : list Z; f_ib : Z }.

Record holds (c : disk) (fb inum : Z) (fl : flay) : Prop := Holds {
  ho_dinode : dinode_ok (rd c inum);
  ho_type : i_type (rd c inum) = f_type fl;
  ho_nlink : i_nlink (rd c inum) = 1;
  ho_size : i_size (rd c inum) = Z.of_nat (length (f_bytes fl));
  ho_rep : rep c fb (i_addrs (rd c inum)) (f_bytes fl) (f_bl fl) (f_ib fl);
  ho_len : length (f_bl fl) = nblk (length (f_bytes fl))
}.

Definition fcost (fl : flay) : Z := cost (nblk (length (f_bytes fl))).
Fixpoint total (fls : list flay) : Z := match fls with [] => 0 | fl :: fls => fcost fl + total fls end.

Record image (s : mk) (fls : list flay) : Prop := Image {
  im_nsec : nsec s = FSSIZE;
  im_sec : sec_ok (sec s);
  im_fresh : fresh_ok (sec s) (freeblock s);
  im_inodes : freeinode s = 1 + Z.of_nat (length fls) /\ (length fls <= 199)%nat;
  im_files : forall i fl, fls !! i = Some fl -> holds (sec s) (freeblock s) (Z.of_nat i + 1) fl;
  im_apart : forall i j fl fl' b, fls !! i = Some fl -> fls !! j = Some fl' ->
    b ∈ blocks (f_bl fl) (f_ib fl) -> b ∈ blocks (f_bl fl') (f_ib fl') -> i = j;
  im_fb : freeblock s = nmeta + total fls /\ freeblock s <= FSSIZE;
  im_sb : sec s 1 = splice 0 sb_bytes zeroes
}.

Lemma iblock inum : 0 <= inum < 200 -> IBLOCK inum sb = inum / 8 + 32 /\ 32 <= IBLOCK inum sb < 58.
Proof.
  intros H. change (IBLOCK inum sb) with (u32 (inum / 8 + 32)). rewrite u32_small; Z.div_mod_to_equations; lia.
Qed.

Lemma dinode_off_fits inum : (dinode_off inum + 64 <= 512)%nat.
Proof. unfold dinode_off, IPB. pose proof (Z.mod_pos_bound inum 8 ltac:(lia)). lia. Qed.

Lemma nblk_0 : nblk 0 = 0%nat.
Proof. done. Qed.

Lemma total_nonneg fls : 0 <= total fls.
Proof. induction fls as [|fl fls IH]; cbn; [lia|]. unfold fcost, cost. destruct (_ <? _)%nat; lia. Qed.
Lemma total_insert fls i fl fl' : fls !! i = Some fl -> total (<[i := fl']> fls) = total fls + fcost fl' - fcost fl.
Proof.
  revert i. induction fls as [|f0 fls IH]; intros [|i] H; [done|done|injection H as ->; cbn; lia|].
  change (<[S i := fl']> (f0 :: fls)) with (f0 :: <[i := fl']> fls). cbn [total]. rewrite (IH i H). lia.
Qed.
Lemma total_snoc fls fl : total (fls ++ [fl]) = total fls + fcost fl.
Proof. induction fls as [|f0 fls IH]; cbn; lia. Qed.

Lemma holds_ext c c' fb fb' inum fl : holds c fb inum fl -> fb <= fb' -> rd c' inum = rd c inum ->
  (forall b, b ∈ blocks (f_bl fl) (f_ib fl) -> c' b = c b) -> holds c' fb' inum fl.
Proof. intros [] Hfb E Hc. split; rewrite ?E; try done. by eapply rep_ext. Qed.

(** Storing an inode leaves the other ones alone. *)
Lemma rd_winode c inum j x : sec_ok c -> 0 <= inum < 200 -> 0 <= j < 200 -> dinode_ok x ->
  rd (put_sec (IBLOCK inum sb) (store_dinode (dinode_off inum) x (c (IBLOCK inum sb))) c) j =
    if j =? inum then x else rd c j.
Proof.
  intros Hs Hi Hj D. destruct (iblock inum Hi) as [Ei Hri]. destruct (iblock j Hj) as [Ej _].
  pose proof (Hs (IBLOCK inum sb) ltac:(unfold FSSIZE; lia)) as Hlen. pose proof (dinode_off_fits inum).
  unfold rd. destruct (Z.eqb_spec j inum) as [->|Hne].
  - rewrite put_sec_same. apply load_store_dinode; [lia|done].
  - destruct (decide (IBLOCK j sb = IBLOCK inum sb)) as [Eb|Eb]; [|by rewrite put_sec_other].
    rewrite Eb, put_sec_same. apply load_store_other; [lia|apply D|].
    rewrite Ei, Ej in Eb. unfold dinode_off, IPB. Z.div_mod_to_equations. lia.
Qed.

Lemma rinode_run s inum : nsec s = FSSIZE -> 0 <= inum < 200 -> rinode inum s = Ret (rd (sec s) inum) s.
Proof.
  intros Hn Hi. destruct (iblock inum Hi) as [_ Hr]. unfold rinode. destruct s as [c ns fi fb]. cbn in Hn. subst ns.
  by mret (rsect_run fi (IBLOCK inum sb) c fb ltac:(unfold FSSIZE; lia)).
Qed.

Lemma winode_run c fi fb inum x : 0 <= inum < 200 -> winode inum x (Mk c FSSIZE fi fb) =
  Ret tt (Mk (put_sec (IBLOCK inum sb) (store_dinode (dinode_off inum) x (c (IBLOCK inum sb))) c) FSSIZE fi fb).
Proof.
  intros Hi. destruct (iblock inum Hi) as [_ Hr]. unfold winode.
  mret (rsect_run fi (IBLOCK inum sb) c fb ltac:(unfold FSSIZE; lia)). by apply wsect_run; unfold FSSIZE; lia.
Qed.

Lemma store_sec_ok c inum x : sec_ok c -> 0 <= inum < 200 -> dinode_ok x ->
  sec_ok (put_sec (IBLOCK inum sb) (store_dinode (dinode_off inum) x (c (IBLOCK inum sb))) c).
Proof.
  intros Hs Hi D. destruct (iblock inum Hi) as [_ Hr]. pose proof (Hs (IBLOCK inum sb) ltac:(unfold FSSIZE; lia)) as Hl.
  apply put_sec_ok; [done|]. pose proof (dinode_off_fits inum). rewrite length_store_dinode; [done|lia|apply D].
Qed.

Lemma image_block s fls i fl b : image s fls -> fls !! i = Some fl -> b ∈ blocks (f_bl fl) (f_ib fl) -> nmeta <= b < freeblock s.
Proof.
  intros I Hi Hb. pose proof (rp_range _ _ _ _ _ _ (ho_rep _ _ _ _ (im_files _ _ I i fl Hi))) as H.
  rewrite Forall_forall in H. by apply H.
Qed.

Lemma image_inum s fls i fl : image s fls -> fls !! i = Some fl -> 0 <= Z.of_nat i + 1 < 200 /\ (i < 199)%nat.
Proof. intros I Hi. pose proof (lookup_lt_Some _ _ _ Hi). destruct (im_inodes _ _ I). lia. Qed.

(** ** iappend and ialloc on the image *)

Lemma rep_addrs_ok c fb addrs f bl ib : rep c fb addrs f bl ib -> fb <= FSSIZE ->
  length addrs = S NDIRECT /\ Forall (fun a => 0 <= a < 4294967296) addrs.
Proof.
  intros R Hfb. pose proof (rp_addrs _ _ _ _ _ _ R) as Ha. split; [done|]. apply Forall_lookup. intros i a Hi.
  pose proof (lookup_lt_Some _ _ _ Hi) as Hlt. rewrite Ha in Hlt. apply (nth_lookup_Some _ _ 0) in Hi. subst a.
  assert (forall b, b = 0 \/ b ∈ blocks bl ib -> 0 <= b < 4294967296) as Hr.
  { intros b [->|Hb]; [lia|]. destruct (rep_block _ _ _ _ _ _ b R Hb Hfb) as (_ & H & _). unfold FSSIZE in H. lia. }
  apply Hr. destruct (decide (i < NDIRECT)%nat) as [Hd|Hd].
  - rewrite (rp_direct _ _ _ _ _ _ R) by done. destruct (decide (i < length bl)%nat); [right; by apply nth_in_blocks|left; apply nth_overflow; lia].
  - replace i with NDIRECT by lia. rewrite (rp_ind _ _ _ _ _ _ R). destruct (decide (ib = 0)); [by left|right; by apply ib_in_blocks].
Qed.

Lemma dinode_ok_update x sz addrs : dinode_ok x -> 0 <= sz < 4294967296 -> length addrs = S NDIRECT ->
  Forall (fun a => 0 <= a < 4294967296) addrs -> dinode_ok (set_i_size sz (set_i_addrs addrs x)).
Proof. intros [D1 D2 D3 D4 D5] Hs Hl Ha. rewrite D1. by split. Qed.

Lemma nblk_size n : (nblk n <= 140)%nat -> (n <= 140 * 512)%nat.
Proof. intros H. unfold nblk in H. pose proof (Nat.div_mod_eq (n + 511) 512). pose proof (Nat.mod_upper_bound (n + 511) 512 ltac:(lia)). lia. Qed.

Definition grow_file (fl : flay) (p bl : list Z) (ib : Z) : flay := Flay (f_type fl) (f_bytes fl ++ p) bl ib.

(** A file that takes only free blocks stays apart from the others. *)
Lemma apart_grow s fls i fl p bl ib : image s fls -> fls !! i = Some fl ->
  (forall b, b ∈ blocks bl ib -> b ∈ blocks (f_bl fl) (f_ib fl) \/ freeblock s <= b) ->
  forall j j' f1 f2 b, <[i := grow_file fl p bl ib]> fls !! j = Some f1 -> <[i := grow_file fl p bl ib]> fls !! j' = Some f2 ->
    b ∈ blocks (f_bl f1) (f_ib f1) -> b ∈ blocks (f_bl f2) (f_ib f2) -> j = j'.
Proof.
  intros I Hi Hnew j j' f1 f2 b H1 H2 Hb1 Hb2.
  assert (forall k f0, <[i := grow_file fl p bl ib]> fls !! k = Some f0 -> b ∈ blocks (f_bl f0) (f_ib f0) ->
    (exists f', fls !! k = Some f' /\ b ∈ blocks (f_bl f') (f_ib f')) \/ k = i /\ freeblock s <= b) as Hk.
  { intros k f0 Hk Hbk. destruct (decide (k = i)) as [->|Hne].
    - rewrite list_lookup_insert_eq in Hk by (by eapply lookup_lt_Some). injection Hk as <-.
      destruct (Hnew b Hbk); [left; by exists fl|by right].
    - rewrite list_lookup_insert_ne in Hk by done. left. by exists f0. }
  destruct (Hk j f1 H1 Hb1) as [(g1 & G1 & B1)|[-> K1]], (Hk j' f2 H2 Hb2) as [(g2 & G2 & B2)|[-> K2]]; try done.
  - by eapply (im_apart _ _ I).
  - pose proof (image_block _ _ _ _ _ I G1 B1). lia.
  - pose proof (image_block _ _ _ _ _ I G2 B2). lia.
Qed.

Lemma iappend_run s fls i fl p : image s fls -> fls !! i = Some fl ->
  (nblk (length (f_bytes fl) + length p) <= 140)%nat ->
  freeblock s + cost (nblk (length (f_bytes fl) + length p)) - fcost fl <= FSSIZE ->
  exists s' bl ib, iappend (Z.of_nat i + 1) p s = Ret tt s' /\ image s' (<[i := grow_file fl p bl ib]> fls).
Proof.
  intros I Hi Hmax Hroom. destruct (image_inum _ _ _ _ I Hi) as [Hin Hin']. pose proof (im_files _ _ I i fl Hi) as H.
  pose proof (im_fb _ _ I) as [Hfb Hfbs]. pose proof (total_nonneg fls) as Htot.
  set (x := rd (sec s) (Z.of_nat i + 1)) in *. pose proof (ho_dinode _ _ _ _ H) as D. fold x in D.
  destruct (iappend_loop_run (freeinode s) (length p) x (f_bytes fl) (f_bl fl) (f_ib fl) (sec s) (freeblock s) p)
    as (addrs & c & fb & bl & ib & [R Hs Hf Hl Efb Hfr Hnew] & E);
    [apply H|apply I|apply I|lia|apply H|done|done|done|].
  destruct s as [c0 ns fi fb0]. pose proof (im_nsec _ _ I) as Hns. cbn [nsec sec freeinode freeblock] in *. subst ns.
  assert (fb0 <= fb) as Hle.
  { rewrite Efb. pose proof (cost_mono _ _ (nblk_mono (length (f_bytes fl)) (length (f_bytes fl) + length p) ltac:(lia))). lia. }
  assert (fb <= FSSIZE) as Hfb' by (rewrite Efb; exact Hroom).
  set (x' := set_i_size (Z.of_nat (length (f_bytes fl) + length p)) (set_i_addrs addrs x)).
  apply nblk_size in Hmax as Hsz.
  assert (dinode_ok x') as D'.
  { destruct (rep_addrs_ok _ _ _ _ _ _ R Hfb'). apply dinode_ok_update; [done|lia|done|done]. }
  destruct (iblock (Z.of_nat i + 1) Hin) as [_ Hib].
  exists (Mk (put_sec (IBLOCK (Z.of_nat i + 1) sb) (store_dinode (dinode_off (Z.of_nat i + 1)) x' (c (IBLOCK (Z.of_nat i + 1) sb))) c) FSSIZE fi fb), bl, ib.
  split.
  { unfold iappend. mret (rinode_run (Mk c0 FSSIZE fi fb0) (Z.of_nat i + 1) eq_refl Hin). fold x. cbn [sec].
    rewrite xint_id by apply D. rewrite (ho_size _ _ _ _ H). cbn [sec] in E. mret E. rewrite xint_id by lia. by apply winode_run. }
  set (c' := put_sec _ _ c) in *.
  assert (forall j, 0 <= j < 200 -> rd c' j = if j =? Z.of_nat i + 1 then x' else rd c0 j) as Hrd.
  { intros j Hj. unfold c'. rewrite rd_winode by done. destruct (j =? Z.of_nat i + 1); [done|]. unfold rd.
    destruct (iblock j Hj) as [_ Hjb]. rewrite (Hfr (IBLOCK j sb)); [done|rewrite Hfb; change nmeta with 59; lia|].
    intros Hb. pose proof (image_block _ _ _ _ _ I Hi Hb) as Hr. change nmeta with 59 in Hr. lia. }
  assert (forall b, 58 <= b -> c' b = c b) as Hc' by (intros b Hb; apply put_sec_other; lia).
  assert (forall b, b ∈ blocks bl ib -> nmeta <= b < fb) as Hbr.
  { pose proof (rp_range _ _ _ _ _ _ R) as Hr. rewrite Forall_forall in Hr. exact Hr. }
  change nmeta with 59 in *.
  split; cbn [nsec sec freeinode freeblock]; try done.
  - by apply store_sec_ok.
  - intros b Hb. rewrite Hc' by lia. apply Hf. done.
  - rewrite length_insert. apply (im_inodes _ _ I).
  - intros j fl' Hj. destruct (decide (j = i)) as [->|Hne].
    + rewrite list_lookup_insert_eq in Hj by (by eapply lookup_lt_Some). injection Hj as <-.
      split; rewrite ?Hrd, ?Z.eqb_refl by done; cbn; try done.
      * apply (ho_type _ _ _ _ H).
      * apply (ho_nlink _ _ _ _ H).
      * by rewrite length_app.
      * eapply rep_ext; [exact R|lia|]. intros b Hb. apply Hc'. specialize (Hbr b Hb). lia.
      * by rewrite length_app.
    + rewrite list_lookup_insert_ne in Hj by done. destruct (image_inum _ _ _ _ I Hj) as [Hjn _].
      eapply holds_ext; [exact (im_files _ _ I j fl' Hj)|done| |].
      * rewrite Hrd by done. by rewrite (proj2 (Z.eqb_neq _ _)) by lia.
      * intros b Hb. pose proof (image_block _ _ _ _ _ I Hj Hb) as Hr. cbn in Hr. change nmeta with 59 in Hr. rewrite Hc' by lia.
        apply Hfr; [lia|]. intros Hb'. apply Hne. by eapply (im_apart _ _ I).
  - apply (apart_grow _ _ _ _ p bl ib I Hi). intros b Hb. destruct (Hnew b Hb); [by left|right; cbn; lia].
  - split; [|done]. rewrite (total_insert _ _ _ _ Hi), Efb, Hfb. change nmeta with 59. unfold fcost, grow_file. cbn [f_bytes]. rewrite length_app. lia.
  - unfold c'. rewrite put_sec_other by lia. rewrite Hfr; [apply (im_sb _ _ I)|lia|].
    intros Hb. pose proof (image_block _ _ _ _ _ I Hi Hb) as Hr. change nmeta with 59 in Hr. lia.
Qed.

Definition new_file (type : Z) : flay := Flay type [] [] 0.

Lemma rep_empty c fb : rep c fb (replicate (S NDIRECT) 0) [] [] 0.
Proof.
  split; try done.
  - intros k Hk. unfold NDIRECT in *. do 12 (destruct k as [|k]; [done|]). lia.
  - unfold NDIRECT. split; [cbn; lia|done].
  - cbn. lia.
  - constructor.
  - intros j Hj. cbn in Hj. lia.
Qed.

Lemma ialloc_run s fls type : image s fls -> (length fls < 199)%nat -> 0 <= type < 32768 ->
  exists s', ialloc type s = Ret (Z.of_nat (length fls) + 1) s' /\ image s' (fls ++ [new_file type]) /\ freeblock s' = freeblock s.
Proof.
  intros I Hlen Ht. destruct s as [c ns fi fb]. pose proof (im_nsec _ _ I) as Hns. pose proof (im_inodes _ _ I) as [Hfi _].
  pose proof (im_fb _ _ I) as [Hfb Hfbs]. pose proof (total_nonneg fls) as Htot. cbn [nsec sec freeinode freeblock] in *. subst ns.
  set (n := Z.of_nat (length fls) + 1). assert (fi = n) as -> by (unfold n; lia). assert (0 <= n < 200) as Hn by (unfold n; lia).
  set (x := Inode 0 0 0 (i_lock no_inode) 0 type 0 0 1 0 (replicate (S NDIRECT) 0)).
  assert (set_i_size (xint 0) (set_i_nlink (i16 (xshort 1)) (set_i_type (i16 (xshort type)) no_inode)) = x) as Ex.
  { rewrite (xshort_id type) by lia. replace (i16 type) with type by word_lia. done. }
  assert (dinode_ok x) as D by (split; cbn; try done; try lia; split; [done|repeat constructor; lia]).
  destruct (iblock n Hn) as [_ Hib]. change nmeta with 59 in *.
  eexists. unfold ialloc. rewrite bind_gets, bind_modify. cbn [sec nsec freeinode freeblock]. rewrite Ex, u32_small by lia.
  mret (winode_run c (n + 1) fb n x Hn). split; [reflexivity|]. split; [|done]. set (c' := put_sec _ _ c).
  assert (forall j, 0 <= j < 200 -> rd c' j = if j =? n then x else rd c j) as Hrd by (intros j Hj; apply rd_winode; [apply I|done|done|done]).
  assert (forall b, 58 <= b -> c' b = c b) as Hc' by (intros b Hb; apply put_sec_other; lia).
  split; cbn [nsec sec freeinode freeblock]; try done.
  - apply store_sec_ok; [apply I|done|done].
  - intros b Hb. rewrite Hc' by lia. by apply (im_fresh _ _ I).
  - rewrite length_app. cbn. unfold n. split; lia.
  - intros i fl Hi. apply lookup_app_Some in Hi as [Hi|[Hge Hi]].
    + destruct (image_inum _ _ _ _ I Hi) as [Hin _]. pose proof (lookup_lt_Some _ _ _ Hi).
      eapply holds_ext; [exact (im_files _ _ I i fl Hi)|done| |].
      * rewrite Hrd by done. by rewrite (proj2 (Z.eqb_neq _ _)) by (unfold n; lia).
      * intros b Hb. pose proof (image_block _ _ _ _ _ I Hi Hb) as Hr. change nmeta with 59 in Hr. apply Hc'. lia.
    + apply list_lookup_singleton_Some in Hi as [Hi <-]. replace (Z.of_nat i + 1) with n by (unfold n; lia).
      split; rewrite ?Hrd, ?Z.eqb_refl by done; try done. apply rep_empty.
  - intros i j fl fl' b Hi Hj Hbi Hbj.
    assert (forall k f, (fls ++ [new_file type]) !! k = Some f -> b ∈ blocks (f_bl f) (f_ib f) -> fls !! k = Some f) as Hk.
    { intros k f Hk Hb. apply lookup_app_Some in Hk as [Hk|[_ Hk]]; [done|]. apply list_lookup_singleton_Some in Hk as [_ <-].
      by apply not_elem_of_nil in Hb. }
    eapply (im_apart _ _ I); eauto.
  - rewrite total_snoc. change nmeta with 59. change (fcost (new_file type)) with 0. lia.
  - rewrite <- (im_sb _ _ I). apply put_sec_other. lia.
Qed.

(** A file in pieces. *)
Lemma appends_run pieces s fls i fl : image s fls -> fls !! i = Some fl ->
  (nblk (length (f_bytes fl) + length (concat pieces)) <= 140)%nat ->
  freeblock s + cost (nblk (length (f_bytes fl) + length (concat pieces))) - fcost fl <= FSSIZE ->
  exists s' bl ib, for_each pieces (fun buf => iappend (Z.of_nat i + 1) buf) s = Ret tt s' /\
    image s' (<[i := grow_file fl (concat pieces) bl ib]> fls).
Proof.
  revert s fls fl. induction pieces as [|p pieces IH]; intros s fls fl I Hi Hmax Hroom.
  - exists s, (f_bl fl), (f_ib fl). split; [done|]. cbn [concat]. unfold grow_file. rewrite app_nil_r. destruct fl. by rewrite list_insert_id.
  - cbn [concat] in *. rewrite length_app in *. set (n := length (f_bytes fl)) in *. set (m := length p) in *. set (k := length (concat pieces)) in *.
    pose proof (nblk_mono (n + m) (n + (m + k)) ltac:(lia)) as Hm1. pose proof (cost_mono _ _ Hm1).
    destruct (iappend_run s fls i fl p I Hi) as (s1 & bl1 & ib1 & E1 & I1); [fold n m; lia|fold n m; lia|].
    destruct (IH s1 (<[i := grow_file fl p bl1 ib1]> fls) (grow_file fl p bl1 ib1) I1) as (s2 & bl2 & ib2 & E2 & I2).
    + apply list_lookup_insert_eq. by eapply lookup_lt_Some.
    + cbn [grow_file f_bytes]. rewrite length_app. fold n m k. rewrite <- Nat.add_assoc. done.
    + rewrite (proj1 (im_fb _ _ I1)), (total_insert _ _ _ _ Hi). rewrite (proj1 (im_fb _ _ I)) in Hroom.
      unfold fcost, grow_file in *. cbn [f_bytes]. rewrite length_app. fold n m k. fold n in Hroom. rewrite <- Nat.add_assoc. lia.
    + exists s2, bl2, ib2. cbn [for_each]. mret E1. rewrite E2. split; [done|].
      rewrite list_insert_insert_eq in I2. unfold grow_file in *. cbn [f_type f_bytes] in I2. by rewrite <- app_assoc in I2.
Qed.

(** ** The files of the command line *)

Definition plain_name (name : list Z) : list Z := match name with c :: rest => if c =? 95 then rest else name | [] => name end.
Definition entry (inum : Z) (name : list Z) : list Z := dirent (u16 inum) (bytes_cpy DIRSIZ (plain_name name)).

Lemma length_bytes_cpy n t : length (bytes_cpy n t) = n.
Proof. revert t. induction n as [|n IH]; intros t; [done|]. cbn [bytes_cpy]. destruct (_ =? _); [by rewrite length_replicate|cbn; by rewrite IH]. Qed.
Lemma length_entry inum name : length (entry inum name) = 16%nat.
Proof. unfold entry, dirent. rewrite length_app, length_le_bytes, length_bytes_cpy. done. Qed.

Definition fsize (f : list Z * list (list Z)) : nat := length (concat (snd f)).

Lemma add_file_run s root rest name pieces : image s (root :: rest) -> (length rest < 198)%nat -> slash ∉ name ->
  (nblk (length (f_bytes root) + 16) <= 140)%nat -> (nblk (fsize (name, pieces)) <= 140)%nat ->
  nmeta + total rest + cost (nblk (length (f_bytes root) + 16)) + cost (nblk (fsize (name, pieces))) <= FSSIZE ->
  exists s' bl ib bl' ib', add_file 1 (name, pieces) s = Ret tt s' /\
    image s' (grow_file root (entry (Z.of_nat (length rest) + 2) name) bl ib :: rest ++ [grow_file (new_file T_FILE) (concat pieces) bl' ib']).
Proof.
  intros I Hlen Hname Hr Hp Hroom. unfold fsize in *. cbn [snd] in *. set (e := entry (Z.of_nat (length rest) + 2) name).
  pose proof (length_entry (Z.of_nat (length rest) + 2) name) as He. fold e in He.
  assert (0 <= cost (nblk (length (concat pieces)))) as Hc0 by (unfold cost; destruct (_ <? _)%nat; lia).
  destruct (ialloc_run s (root :: rest) T_FILE I ltac:(cbn; lia) ltac:(unfold T_FILE; lia)) as (s1 & E1 & I1 & Efb1).
  pose proof (proj1 (im_fb _ _ I)) as Hfb. cbn [total] in Hfb.
  destruct (iappend_run s1 _ 0 root e I1 eq_refl) as (s2 & bl & ib & E2 & I2);
    [rewrite He; done|rewrite He, Efb1, Hfb; lia|].
  change (<[0%nat := ?x]> ((root :: rest) ++ ?l)) with (x :: rest ++ l) in I2.
  set (root' := grow_file root e bl ib) in *.
  destruct (appends_run pieces s2 (root' :: rest ++ [new_file T_FILE]) (S (length rest)) (new_file T_FILE) I2) as (s3 & bl' & ib' & E3 & I3).
  - cbn. by apply list_lookup_middle.
  - done.
  - rewrite (proj1 (im_fb _ _ I2)). cbn [total]. rewrite total_snoc. cbn [new_file f_bytes length Nat.add].
    change (fcost (new_file T_FILE)) with 0. unfold fcost at 1, root', grow_file. cbn [f_bytes]. rewrite length_app, He. lia.
  - exists s3, bl, ib, bl', ib'. split.
    + unfold add_file. destruct (existsb (Z.eqb slash) name) eqn:Es.
      { apply existsb_exists in Es as (x & Hx%list_elem_of_In & <-%Z.eqb_eq). done. }
      mret E1. replace (Z.of_nat (length (root :: rest)) + 1) with (Z.of_nat (length rest) + 2) by (cbn [length]; lia).
      change (iappend 1 (dirent (u16 (Z.of_nat (length rest) + 2)) (bytes_cpy DIRSIZ (plain_name name)))) with (iappend (Z.of_nat 0 + 1) e).
      mret E2. replace (Z.of_nat (length rest) + 2) with (Z.of_nat (S (length rest)) + 1) by lia. exact E3.
    + cbn [insert list_insert] in I3.
      assert (<[length rest := grow_file (new_file T_FILE) (concat pieces) bl' ib']> (rest ++ [new_file T_FILE]) =
        rest ++ [grow_file (new_file T_FILE) (concat pieces) bl' ib']) as Ei.
      { rewrite insert_app_r_alt by lia. by rewrite Nat.sub_diag. }
      rewrite <- Ei. exact I3.
Qed.

Fixpoint entries (inum : Z) (files : list (list Z * list (list Z))) : list Z :=
  match files with [] => [] | f :: files => entry inum (fst f) ++ entries (inum + 1) files end.
Fixpoint costs (files : list (list Z * list (list Z))) : Z :=
  match files with [] => 0 | f :: files => cost (nblk (fsize f)) + costs files end.

Lemma length_entries inum files : length (entries inum files) = (16 * length files)%nat.
Proof. revert inum. induction files as [|f files IH]; intros inum; [done|]. cbn [entries length]. rewrite length_app, length_entry, IH. lia. Qed.

Lemma costs_nonneg files : 0 <= costs files.
Proof. induction files as [|f files IH]; cbn [costs]; [lia|]. unfold cost. destruct (_ <? _)%nat; lia. Qed.

Definition is_file (fl : flay) (f : list Z * list (list Z)) : Prop := f_type fl = T_FILE /\ f_bytes fl = concat (snd f).

Lemma add_files_run files s root rest : image s (root :: rest) -> (length rest + length files <= 198)%nat ->
  Forall (fun f => slash ∉ fst f /\ (nblk (fsize f) <= 140)%nat) files ->
  (nblk (length (f_bytes root) + 16 * length files) <= 140)%nat ->
  nmeta + total rest + cost (nblk (length (f_bytes root) + 16 * length files)) + costs files <= FSSIZE ->
  exists s' root' rest', for_each files (add_file 1) s = Ret tt s' /\ image s' (root' :: rest ++ rest') /\
    f_type root' = f_type root /\ f_bytes root' = f_bytes root ++ entries (Z.of_nat (length rest) + 2) files /\ Forall2 is_file rest' files.
Proof.
  revert s root rest. induction files as [|[name pieces] files IH]; intros s root rest I Hlen Hok Hmax Hroom.
  - exists s, root, []. cbn [entries]. rewrite !app_nil_r. by split_and!.
  - apply Forall_cons_1 in Hok as [[Hname Hp] Hok]. cbn [fst length costs] in *. set (n := length (f_bytes root)) in *.
    pose proof (nblk_mono (n + 16) (n + 16 * S (length files)) ltac:(lia)) as Hm. pose proof (cost_mono _ _ Hm) as Hcm. pose proof (costs_nonneg files).
    destruct (add_file_run s root rest name pieces I) as (s1 & bl & ib & bl' & ib' & E1 & I1); try done; try lia; [fold n; lia|fold n; lia|].
    set (root1 := grow_file root _ bl ib) in *. set (fl := grow_file (new_file T_FILE) _ bl' ib') in *.
    assert (length (f_bytes root1) = n + 16)%nat as En by (unfold root1, grow_file; cbn [f_bytes]; by rewrite length_app, length_entry).
    destruct (IH s1 root1 (rest ++ [fl]) I1) as (s2 & root' & rest' & E2 & I2 & Ht & Eb & Hf).
    + rewrite length_app. cbn. lia.
    + done.
    + rewrite En. replace (n + 16 + 16 * length files)%nat with (n + 16 * S (length files))%nat by lia. done.
    + rewrite En, total_snoc. replace (n + 16 + 16 * length files)%nat with (n + 16 * S (length files))%nat by lia.
      change (fcost fl) with (cost (nblk (fsize (name, pieces)))). lia.
    + exists s2, root', (fl :: rest'). cbn [for_each]. mret E1. rewrite <- app_assoc in I2. split_and!; [done|done|by rewrite Ht| |by constructor].
      rewrite Eb. unfold root1, grow_file. cbn [f_bytes entries fst]. rewrite length_app, <- app_assoc. cbn [length].
      do 3 f_equal. lia.
Qed.

(** ** The empty file system *)

Lemma zero_run (n : nat) a c fi fb : 0 <= a ->
  exists c', for_each (seqZ a (Z.of_nat n)) (fun i => wsect i zeroes) (Mk c a fi fb) = Ret tt (Mk c' (a + Z.of_nat n) fi fb) /\
    forall i, c' i = if (a <=? i) && (i <? a + Z.of_nat n) then zeroes else c i.
Proof.
  revert a c. induction n as [|n IH]; intros a c Ha.
  - exists c. rewrite Z.add_0_r. split; [done|]. intros i. destruct (Z.leb_spec a i), (Z.ltb_spec i a); try done; lia.
  - rewrite seqZ_cons by lia. replace (Z.pred (Z.of_nat (S n))) with (Z.of_nat n) by lia.
    destruct (IH (a + 1) (put_sec a zeroes c) ltac:(lia)) as (c' & E & Hc). exists c'. split.
    + cbn [for_each]. unfold wsect at 1. rewrite bind_modify. cbn [sec nsec freeinode freeblock].
      replace (Z.max a (a + 1)) with (a + 1) by lia. replace (a + Z.of_nat (S n)) with (a + 1 + Z.of_nat n) by lia.
      replace (Z.succ a) with (a + 1) by lia. exact E.
    + intros i. rewrite Hc. unfold put_sec.
      destruct (Z.leb_spec (a + 1) i), (Z.ltb_spec i (a + 1 + Z.of_nat n)), (Z.leb_spec a i), (Z.ltb_spec i (a + Z.of_nat (S n))), (Z.eqb_spec i a);
        cbn [andb]; try done; lia.
Qed.

Lemma empty_image c : (forall i, c i = if (0 <=? i) && (i <? FSSIZE) then zeroes else c i) ->
  image (Mk (put_sec 1 (splice 0 sb_bytes zeroes) c) FSSIZE 1 nmeta) [].
Proof.
  intros Hc. assert (forall b, 0 <= b < FSSIZE -> c b = zeroes) as Hz.
  { intros b Hb. rewrite Hc. destruct (Z.leb_spec 0 b), (Z.ltb_spec b FSSIZE); try done; lia. }
  split; cbn [nsec sec freeinode freeblock]; try done.
  - apply put_sec_ok; [|done]. intros b Hb. by rewrite Hz.
  - intros b Hb. change nmeta with 59 in Hb. rewrite put_sec_other by lia. apply Hz. lia.
  - split; [done|cbn; lia].
Qed.

(** ** The image as the kernel reads it *)

Lemma decode_image s fls : image s fls -> decode_sb (sec s 1) = sb.
Proof. intros I. rewrite (im_sb _ _ I). vm_compute. reflexivity. Qed.

(** The inode that [ilock] of the kernel loads from the disk [c]. *)
Definition kernel_inode (c : disk) (inum : Z) : inode :=
  set_i_dev 1 (load_dinode (dinode_off inum) (c (IBLOCK inum (decode_sb (c 1)))) zero_inode).

(** The kernel finds under [inum] an inode of the type [type] with one link whose first
    blocks hold [bytes]; none of them is a block of the log, and all of them are marked as used. *)
Record stored (c : disk) (inum type : Z) (bytes : list Z) : Prop := Stored {
  sto_type : i_type (kernel_inode c inum) = type;
  sto_nlink : i_nlink (kernel_inode c inum) = 1;
  sto_file : @file_ok FSSIZE (sb_logstart sb) (sb_nlog sb) c (kernel_inode c inum) (Z.of_nat (nblk (length bytes)));
  sto_used : forall k, 0 <= k < Z.of_nat (nblk (length bytes)) ->
    nmeta <= block_of c (kernel_inode c inum) k /\ in_use c sb (block_of c (kernel_inode c inum) k) = true;
  sto_bytes : file_bytes c (kernel_inode c inum) 0 (Z.of_nat (length bytes)) = bytes
}.

Lemma rep_block_of c fb x f bl ib k : rep c fb (i_addrs x) f bl ib -> 0 <= k < Z.of_nat (length bl) ->
  block_of c x k = nth (Z.to_nat k) bl 0.
Proof.
  intros R Hk. unfold block_of, NDIRECT. destruct (Z.ltb_spec k (Z.of_nat 12)); [apply (rp_direct _ _ _ _ _ _ R); unfold NDIRECT; lia|].
  pose proof (rp_max _ _ _ _ _ _ R). pose proof (rp_ib _ _ _ _ _ _ R) as Hib. unfold NDIRECT in *.
  rewrite (rp_ind _ _ _ _ _ _ R : nth 12 _ 0 = ib). rewrite (rp_entries _ _ _ _ _ _ R); [f_equal; unfold NDIRECT; lia| |unfold NINDIRECT; lia].
  intros ->. destruct Hib as [Hib _]. specialize (Hib eq_refl). lia.
Qed.

Lemma rep_file_ok c fb x f bl ib : sec_ok c -> fb <= FSSIZE -> i_dev x = 1 -> rep c fb (i_addrs x) f bl ib ->
  @file_ok FSSIZE (sb_logstart sb) (sb_nlog sb) c x (Z.of_nat (length bl)).
Proof.
  intros Hs Hfb Hdev R. pose proof (fun k => rep_block_of _ _ _ _ _ _ k R) as Hb.
  pose proof (rp_range _ _ _ _ _ _ R) as Hr. rewrite Forall_forall in Hr. change nmeta with 59 in Hr. cbv beta in Hr.
  pose proof (rp_nodup _ _ _ _ _ _ R) as Hn. pose proof (rp_ib _ _ _ _ _ _ R) as Hib. pose proof (rp_max _ _ _ _ _ _ R). unfold blocks in Hn.
  assert (forall k, 0 <= k < Z.of_nat (length bl) -> nth (Z.to_nat k) bl 0 ∈ bl) as Hin by (intros k Hk; apply list_elem_of_In, nth_In; lia).
  split; [done|unfold MAXFILE; cbn; lia| | |].
  - intros k Hk. rewrite Hb by done. pose proof (Hr _ (nth_in_blocks bl ib (Z.to_nat k) ltac:(lia))).
    split; [lia|]. split; [|apply Hs; lia]. split; [lia|]. change (~ (2 <= nth (Z.to_nat k) bl 0 < 2 + 30)). lia.
  - intros k k' Hk Hk'. rewrite !Hb by done. apply NoDup_app in Hn as (Hn & _). intros E.
    assert (Z.to_nat k = Z.to_nat k'); [|lia]. eapply NoDup_nth; [by apply NoDup_ListNoDup|lia|lia|exact E].
  - intros Hd. assert (ib <> 0) as Hne by (intros H0; apply Hib in H0; lia). rewrite (rp_ind _ _ _ _ _ _ R).
    pose proof (Hr _ (ib_in_blocks bl ib Hne)). split; [done|]. split; [lia|]. intros k Hk E. rewrite Hb in E by done.
    rewrite (proj2 (Z.eqb_neq ib 0) Hne) in Hn. apply NoDup_app in Hn as (_ & Hd' & _). apply (Hd' ib); [|by left]. rewrite <- E. auto.
Qed.

Lemma rep_file_bytes c fb x f bl ib : rep c fb (i_addrs x) f bl ib -> file_bytes c x 0 (Z.of_nat (length f)) = f.
Proof.
  intros R. apply list_eq_same_length with (n := length f); [done|unfold file_bytes; rewrite length_map, length_seqZ; lia|].
  intros i y z Hi Hy Hz. unfold file_bytes in Hy. rewrite list_lookup_fmap in Hy.
  rewrite lookup_seqZ_lt in Hy by lia. cbn in Hy. injection Hy as <-. unfold file_byte.
  pose proof (byte_block f bl i Hi (rp_room _ _ _ _ _ _ R)) as Hk. change BSIZE with (Z.of_nat 512).
  rewrite Z.add_0_l, <- Nat2Z.inj_mod, <- Nat2Z.inj_div, (rep_block_of _ _ _ _ _ _ _ R), !Nat2Z.id, (rp_bytes _ _ _ _ _ _ R) by lia.
  by apply nth_lookup_Some.
Qed.

Lemma holds_stored c fb inum fl : sec_ok c -> fb <= FSSIZE -> (forall b, 0 <= b < FSSIZE -> in_use c sb b = (b <? fb)) ->
  decode_sb (c 1) = sb -> i_type (rd c inum) = f_type fl -> i_nlink (rd c inum) = 1 ->
  rep c fb (i_addrs (rd c inum)) (f_bytes fl) (f_bl fl) (f_ib fl) -> length (f_bl fl) = nblk (length (f_bytes fl)) ->
  stored c inum (f_type fl) (f_bytes fl).
Proof.
  intros Hs Hfb Hmap Hsb Ht Hl R Hlen. assert (kernel_inode c inum = set_i_dev 1 (rd c inum)) as E by (unfold kernel_inode; by rewrite Hsb).
  split; rewrite E; [done|done| | |].
  - rewrite <- Hlen. by apply (rep_file_ok c fb (set_i_dev 1 (rd c inum)) (f_bytes fl) _ (f_ib fl)).
  - rewrite <- Hlen. intros k Hk. rewrite (rep_block_of c fb (set_i_dev 1 (rd c inum)) _ _ _ k R Hk).
    pose proof (rp_range _ _ _ _ _ _ R) as Hr. rewrite Forall_forall in Hr. change nmeta with 59 in *.
    specialize (Hr _ (nth_in_blocks (f_bl fl) (f_ib fl) (Z.to_nat k) ltac:(lia))). cbv beta in Hr. split; [lia|].
    rewrite Hmap by lia. apply Z.ltb_lt. lia.
  - by apply (rep_file_bytes c fb (set_i_dev 1 (rd c inum)) _ (f_bl fl) (f_ib fl)).
Qed.

(** ** The bitmap *)

Lemma bit_of_zeroes j : bit_of j zeroes = false.
Proof. unfold bit_of. replace (nth _ zeroes 0) with 0; [done|]. unfold zeroes. generalize (Z.to_nat (j / 8)), (Z.to_nat BSIZE). intros k n. revert k. induction n as [|n IH]; intros [|k]; cbn; try done. Qed.

Lemma bitmap_bits (n : nat) : (n <= 4096)%nat ->
  length (fold_left (fun buf i => set_bit i buf) (seqZ 0 (Z.of_nat n)) zeroes) = 512%nat /\
  forall j, 0 <= j -> bit_of j (fold_left (fun buf i => set_bit i buf) (seqZ 0 (Z.of_nat n)) zeroes) = (j <? Z.of_nat n).
Proof.
  induction n as [|n IH]; intros Hn.
  - split; [done|]. intros j Hj. cbn [seqZ fold_left]. change (seqZ 0 (Z.of_nat 0)) with (@nil Z). cbn [fold_left].
    rewrite bit_of_zeroes. symmetry. apply Z.ltb_ge. lia.
  - destruct (IH ltac:(lia)) as [Hl Hb]. replace (Z.of_nat (S n)) with (Z.of_nat n + 1) by lia. rewrite seqZ_app by lia.
    rewrite fold_left_app. cbn [seqZ fold_left]. change (seqZ (0 + Z.of_nat n) 1) with [Z.of_nat n]. cbn [fold_left].
    split; [unfold set_bit; by rewrite length_alter|]. intros j Hj. rewrite bit_of_set by (rewrite ?Hl; lia). rewrite Hb by done.
    destruct (Z.eqb_spec j (Z.of_nat n)), (Z.ltb_spec j (Z.of_nat n)), (Z.ltb_spec j (Z.of_nat n + 1)); done || lia.
Qed.

Lemma balloc_run s : nsec s = FSSIZE -> 0 <= freeblock s <= FSSIZE -> exists buf,
  balloc (freeblock s) s = Ret tt (Mk (put_sec (sb_bmapstart sb) buf (sec s)) FSSIZE (freeinode s) (freeblock s)) /\
  length buf = 512%nat /\ forall b, 0 <= b < FSSIZE -> bit_of (b mod BPB) buf = (b <? freeblock s).
Proof.
  intros Hn Hfb. unfold FSSIZE in *. destruct (bitmap_bits (Z.to_nat (freeblock s)) ltac:(lia)) as [Hl Hb]. rewrite Z2Nat.id in * by lia.
  eexists. split_and!; [|exact Hl|].
  - unfold balloc. rewrite (proj2 (Z.ltb_lt _ _)) by (unfold BSIZE; lia). cbn [negb].
    destruct s as [c ns fi fb]. cbn [nsec sec freeinode freeblock] in *. subst ns. by apply wsect_run.
  - intros b Hb'. unfold BPB. rewrite Z.mod_small by lia. apply Hb. lia.
Qed.

(** ** The whole program *)

(** The file system with the bytes [root] in its root directory and the files [files]. The size
    of the root directory is rounded up to the end of the block behind its last byte. *)
Record built (c : disk) (root : list Z) (files : list (list Z)) (fb : Z) : Prop := Built {
  bu_sb : decode_sb (c 1) = sb;
  bu_map : forall b, 0 <= b < FSSIZE -> in_use c (decode_sb (c 1)) b = (b <? fb);
  bu_root : stored c ROOTINO T_DIR root;
  bu_root_size : i_size (kernel_inode c ROOTINO) = (Z.of_nat (length root) / BSIZE + 1) * BSIZE;
  bu_files : forall k f, files !! k = Some f ->
    stored c (Z.of_nat k + 2) T_FILE f /\ i_size (kernel_inode c (Z.of_nat k + 2)) = Z.of_nat (length f)
}.

Definition finish : prog mk unit :=
  din <- rinode ROOTINO;;
  winode ROOTINO (set_i_size (xint (u32 ((xint (i_size din) / BSIZE + 1) * BSIZE))) din);;;
  used <- gets freeblock;;
  balloc used.

(** What the last two writes change: the size of the root, and the block of the bitmap. *)
Lemma finish_disk s root rest : image s (root :: rest) ->
  exists c, finish s = Ret tt (Mk c FSSIZE (freeinode s) (freeblock s)) /\ sec_ok c /\ c 1 = sec s 1 /\
    (forall b, 0 <= b < FSSIZE -> in_use c sb b = (b <? freeblock s)) /\ (forall b, nmeta <= b -> c b = sec s b) /\
    forall j, 0 <= j < 200 -> rd c j = if j =? 1 then set_i_size ((Z.of_nat (length (f_bytes root)) / BSIZE + 1) * BSIZE) (rd (sec s) 1) else rd (sec s) j.
Proof.
  intros I. pose proof (im_files _ _ I 0%nat root eq_refl) as Hroot. change (Z.of_nat 0 + 1) with 1 in Hroot.
  pose proof (ho_rep _ _ _ _ Hroot) as R. pose proof (rp_room _ _ _ _ _ _ R). pose proof (rp_max _ _ _ _ _ _ R).
  set (n := Z.of_nat (length (f_bytes root))). assert (0 <= n <= 71680) as Hn by (unfold n; lia).
  set (sz := (n / BSIZE + 1) * BSIZE). assert (0 <= sz <= 72192) as Hsz by (unfold sz, BSIZE; Z.div_mod_to_equations; lia).
  set (x := set_i_size sz (rd (sec s) 1)).
  assert (dinode_ok x) as D.
  { pose proof (ho_dinode _ _ _ _ Hroot) as D0. destruct (d_addrs _ D0) as [Ha1 Ha2].
    replace x with (set_i_size sz (set_i_addrs (i_addrs (rd (sec s) 1)) (rd (sec s) 1))) by (unfold x; by destruct (rd (sec s) 1)).
    apply dinode_ok_update; [done|lia|done|done]. }
  pose proof (im_nsec _ _ I) as Hns. pose proof (total_nonneg (root :: rest)). destruct (im_fb _ _ I) as [Hfb Hfb']. change nmeta with 59 in *.
  set (c1 := put_sec (IBLOCK 1 sb) (store_dinode (dinode_off 1) x (sec s (IBLOCK 1 sb))) (sec s)).
  destruct (balloc_run (Mk c1 FSSIZE (freeinode s) (freeblock s)) eq_refl) as (buf & E & Hl & Hb); [cbn [freeblock]; lia|].
  cbn [nsec sec freeinode freeblock] in *. destruct (iblock 1 ltac:(lia)) as [_ Hib]. eexists. split.
  { unfold finish. mret (rinode_run s ROOTINO Hns ltac:(unfold ROOTINO; lia)). unfold ROOTINO. rewrite (ho_size _ _ _ _ Hroot). fold n.
    rewrite (xint_id n) by lia. fold sz. rewrite u32_small, xint_id by lia. fold x. destruct s as [c ns fi fb]. cbn [nsec] in Hns. subst ns.
    mret (winode_run c fi fb 1 x ltac:(lia)). rewrite bind_gets. exact E. }
  change (sb_bmapstart sb) with 58 in *. split_and!.
  - apply put_sec_ok; [|done]. apply store_sec_ok; [apply I|lia|done].
  - rewrite put_sec_other by lia. apply put_sec_other. lia.
  - intros b Hb'. unfold in_use. replace (BBLOCK b sb) with 58; [rewrite put_sec_same; by apply Hb|].
    unfold BBLOCK, BPB, FSSIZE in *. rewrite Z.div_small by lia. reflexivity.
  - intros b Hb'. rewrite put_sec_other by lia. apply put_sec_other. lia.
  - intros j Hj. destruct (iblock j Hj) as [_ Hjb]. unfold rd at 1. rewrite put_sec_other by lia.
    apply (rd_winode (sec s) 1 j x); [apply I|lia|done|done].
Qed.

Lemma finish_built s root rest files : image s (root :: rest) -> f_type root = T_DIR -> Forall2 is_file rest files ->
  exists s', finish s = Ret tt s' /\ freeblock s' = freeblock s /\ built (sec s') (f_bytes root) (map (fun f => concat (snd f)) files) (freeblock s').
Proof.
  intros I Hroot Hfiles. destruct (finish_disk s root rest I) as (c & E & Hs & H1 & Hmap & Hc & Hrd).
  eexists. split; [exact E|]. split; [done|]. cbn [sec freeblock]. pose proof (decode_image _ _ I) as Hsb. rewrite <- H1 in Hsb.
  assert (forall i fl, (root :: rest) !! i = Some fl -> i_type (rd c (Z.of_nat i + 1)) = f_type fl /\ stored c (Z.of_nat i + 1) (f_type fl) (f_bytes fl)) as Hst.
  { intros i fl Hi. pose proof (im_files _ _ I i fl Hi) as H. destruct (image_inum _ _ _ _ I Hi) as [Hin _].
    assert (i_type (rd c (Z.of_nat i + 1)) = i_type (rd (sec s) (Z.of_nat i + 1)) /\ i_nlink (rd c (Z.of_nat i + 1)) = i_nlink (rd (sec s) (Z.of_nat i + 1)) /\
      i_addrs (rd c (Z.of_nat i + 1)) = i_addrs (rd (sec s) (Z.of_nat i + 1))) as (Et & En & Ea).
    { rewrite Hrd by done. destruct (Z.eqb_spec (Z.of_nat i + 1) 1) as [->|]; done. }
    split; [rewrite Et; apply H|]. apply (holds_stored c (freeblock s)); try done; [apply (im_fb _ _ I)|rewrite Et; apply H|rewrite En; apply H| |apply H].
    rewrite Ea. eapply rep_ext; [apply H|done|]. intros b Hb. apply Hc. by eapply image_block. }
  assert (forall inum, kernel_inode c inum = set_i_dev 1 (rd c inum)) as Hk by (intros inum; unfold kernel_inode; by rewrite Hsb).
  split.
  - done.
  - by rewrite Hsb.
  - rewrite <- Hroot. by apply (Hst 0%nat root).
  - rewrite Hk. change ROOTINO with 1. by rewrite Hrd by lia.
  - intros k f Hf. rewrite list_lookup_fmap in Hf. destruct (files !! k) as [f0|] eqn:Hf0; [|done]. cbn in Hf. injection Hf as <-.
    destruct (Forall2_lookup_r _ _ _ _ _ Hfiles Hf0) as (fl & Hfl & Ht & Eb).
    destruct (Hst (S k) fl Hfl) as [_ H]. rewrite Ht, Eb in H. replace (Z.of_nat (S k) + 1) with (Z.of_nat k + 2) in H by lia. split; [exact H|].
    destruct (image_inum s (root :: rest) (S k) fl I Hfl) as [Hin _].
    rewrite Hk. cbn [i_size set_i_dev]. rewrite Hrd by lia. rewrite (proj2 (Z.eqb_neq _ _)) by lia.
    pose proof (ho_size _ _ _ _ (im_files _ _ I (S k) fl Hfl)) as Hsz. replace (Z.of_nat (S k) + 1) with (Z.of_nat k + 2) in Hsz by lia.
    by rewrite Hsz, Eb.
Qed.

Definition dot (name : string) : list Z := dirent (u16 ROOTINO) (splice 0 (lit name ++ [0]) (replicate DIRSIZ 0)).

(** The entries of the root directory. *)
Definition root_dir (files : list (list Z * list (list Z))) : list Z := dot "." ++ dot ".." ++ entries 2 files.

Lemma length_root_dir files : length (root_dir files) = (32 + 16 * length files)%nat.
Proof. unfold root_dir. rewrite !length_app, length_entries. done. Qed.

Definition sized (files : list (list Z * list (list Z))) : Prop :=
  (length files <= 198)%nat /\ Forall (fun f => slash ∉ fst f /\ (nblk (fsize f) <= 140)%nat) files /\
  nmeta + cost (nblk (32 + 16 * length files)) + costs files <= FSSIZE.

(** The file system with a root directory that holds itself twice. *)
Lemma dots_run s : image s [] -> exists s1 s2 s' root,
  ialloc T_DIR s = Ret ROOTINO s1 /\ iappend ROOTINO (dot ".") s1 = Ret tt s2 /\ iappend ROOTINO (dot "..") s2 = Ret tt s' /\
  image s' [root] /\ f_type root = T_DIR /\ f_bytes root = dot "." ++ dot "..".
Proof.
  intros I. destruct (ialloc_run s [] T_DIR I ltac:(cbn; lia) ltac:(unfold T_DIR; lia)) as (s1 & E1 & I1 & _).
  pose proof (proj1 (im_fb _ _ I1)) as Hfb1. change (total _) with 0 in Hfb1.
  destruct (iappend_run s1 _ 0 (new_file T_DIR) (dot ".") I1 eq_refl) as (s2 & bl & ib & E2 & I2); [vm_compute; lia|rewrite Hfb1; vm_compute; discriminate|].
  set (r1 := grow_file _ _ bl ib) in I2. change (image s2 [r1]) in I2.
  pose proof (proj1 (im_fb _ _ I2)) as Hfb2. change (total [r1]) with (1 + 0) in Hfb2.
  destruct (iappend_run s2 [r1] 0 r1 (dot "..") I2 eq_refl) as (s3 & bl' & ib' & E3 & I3); [vm_compute; lia|rewrite Hfb2; vm_compute; discriminate|].
  exists s1, s2, s3, (grow_file r1 (dot "..") bl' ib'). split_and!; done.
Qed.

Lemma total_files rest files : Forall2 is_file rest files -> total rest = costs files.
Proof. induction 1 as [|fl f rest files [_ Hb] _ IH]; [done|]. cbn [total costs]. unfold fcost, fsize. by rewrite Hb, IH. Qed.

Lemma image_total s root rest files : image s (root :: rest) -> Forall2 is_file rest files ->
  freeblock s = nmeta + cost (nblk (length (f_bytes root))) + costs files.
Proof. intros I H. rewrite (proj1 (im_fb _ _ I)). cbn [total]. rewrite (total_files _ _ H). unfold fcost. lia. Qed.

(** C11: for files that fit, with names without a slash, mkfs ends, and the disk it writes is a
    file system for the kernel: the superblock is the one mkfs computed, the bitmap marks just
    the blocks below the first free one, the root inode is a directory with "." and ".." and
    then one entry for every file, with the underscore taken off, and the inode of the k-th file
    has its type, its size and its bytes, in blocks that are apart from the log, marked as
    used, and different from each other. *)
Theorem mkfs_builds_image files c0 fb0 : sized files ->
  exists s, main files (Mk c0 0 1 fb0) = Ret tt s /\
    freeblock s = nmeta + cost (nblk (length (root_dir files))) + costs files /\
    built (sec s) (root_dir files) (map (fun f => concat (snd f)) files) (freeblock s).
Proof.
  intros (Hlen & Hok & Hroom). unfold main. rewrite bind_modify. cbn [sec nsec freeinode].
  destruct (zero_run (Z.to_nat FSSIZE) 0 c0 1 nmeta ltac:(lia)) as (c & E0 & Hc). change (Z.of_nat (Z.to_nat FSSIZE)) with FSSIZE in *. mret E0.
  change (0 + FSSIZE) with FSSIZE in *. mret (wsect_run 1 1 (splice 0 sb_bytes zeroes) c nmeta ltac:(done)).
  assert (forall i, c i = if (0 <=? i) && (i <? FSSIZE) then zeroes else c i) as Hc'.
  { intros i. rewrite (Hc i) at 1. destruct (_ && _) eqn:Ei; [done|]. rewrite Hc. by rewrite Ei. }
  destruct (dots_run _ (empty_image c Hc')) as (s1 & s2 & s3 & root & E1 & E2 & E3 & I3 & Ht & Eb).
  mret E1. change (negb _) with false. cbv iota. mret E2. mret E3.
  assert (length (f_bytes root) = 32%nat) as El by (by rewrite Eb).
  destruct (add_files_run files s3 root [] I3) as (s4 & root' & rest & E4 & I4 & Ht' & Eb' & Hf).
  - cbn. lia.
  - done.
  - rewrite El. pose proof (nblk_mono (32 + 16 * length files) 3200 ltac:(lia)) as Hm. change (nblk 3200) with 7%nat in Hm. lia.
  - rewrite El. cbn [total]. lia.
  - mret E4. cbn [app] in I4. destruct (finish_built s4 root' rest files I4 ltac:(congruence) Hf) as (s5 & E5 & Hfb & B).
    assert (f_bytes root' = root_dir files) as Er by (rewrite Eb', Eb, <- app_assoc; done).
    exists s5. rewrite Er in B. split_and!; [exact E5| |exact B]. rewrite Hfb, (image_total _ _ _ _ I4 Hf). by rewrite Er.
Qed.

(** The files that C1 is tried on: one that is read in two pieces, one without an underscore, and
    one that is empty. *)
Definition some_files : list (list Z * list (list Z)) :=
  [(lit "_cat", [replicate 400 1; replicate 300 2]); (lit "README", [[1; 2; 3]]); (lit "_sh", [])].

Lemma mkfs_builds_image_witness :
  exists s, main some_files (Mk (fun _ => []) 0 1 0) = Ret tt s /\ freeblock s = 63 /\
    built (sec s) (root_dir some_files) [replicate 400 1 ++ replicate 300 2; [1; 2; 3]; []] 63.
Proof.
  assert (sized some_files) as H.
  { split_and!; [cbn; lia| |vm_compute; discriminate].
    repeat constructor; first [by apply (bool_decide_unpack _)|vm_compute; lia]. }
  destruct (mkfs_builds_image some_files (fun _ => []) 0 H) as (s & E & Hfb & B).
  change (_ + _) with 63 in Hfb. exists s. rewrite Hfb in B. split_and!; [exact E|exact Hfb|exact B].
Defined.
