(* ===== verification/Boot.v ===== *)
(** * Boot: the boot loader bootmain.c

    The loader runs on the bare machine: its state is the physical memory and the
    record of its accesses to the I/O ports.  The disk controller is a parameter: what it
    answers is a function of the accesses so far.  Addresses and sizes are 32-bit words,
    as the loader is compiled for 32-bit mode.  Jumping to the kernel is the result
    [Some entry]; [None] is a return to bootasm.S, which then stops. *)

From S2P Require Import Prelude Cstring.
#[local] Open Scope prog_scope.

(** An access to an I/O port: [Insl] is the string instruction that reads [cnt] words. *)
Inductive access := Out (port value : Z) | In (port : Z) | Insl (port : Z) (cnt : nat).

(** The disk controller: the status byte that the last access reads, and word [i] of the
    data that the last access reads. *)
Class IdePorts := {
  ide_status : list access -> Z;
  ide_data : list access -> nat -> Z
}.

Module Boot.

Record boot := Machine { mem_of : mem; ports : list access }.

Definition SECTSIZE : Z := 512.

Definition outb (port v : Z) : prog boot unit := modify (fun s => Machine (mem_of s) (ports s ++ [Out port (u8 v)])).
Definition load32 (a : Z) : prog boot Z := gets (fun s => load_le 4 (mem_of s) a).

Section Ide.
Context `{IdePorts}.

Definition inb (port : Z) : prog boot Z :=
  modify (fun s => Machine (mem_of s) (ports s ++ [In port]));;;
  gets (fun s => ide_status (ports s)).

Definition insl (port addr : Z) (cnt : nat) : prog boot unit :=
  modify (fun s => Machine (mem_of s) (ports s ++ [Insl port cnt]));;;
  modify (fun s => Machine (fold_left (fun m i => store_le 4 m (addr + 4 * Z.of_nat i) (ide_data (ports s) i)) (seq 0 cnt) (mem_of s)) (ports s)).

Definition waitdisk (fuel : nat) : prog boot unit :=
  repeat_until fuel (
    v <- inb 0x1F7;;
    if negb (Z.land v 0xC0 =? 0x40) then ret None else ret (Some tt)).

Definition readsect (fuel : nat) (dst offset : Z) : prog boot unit :=
  waitdisk fuel;;;
  outb 0x1F2 1;;;
  outb 0x1F3 offset;;;
  outb 0x1F4 (Z.shiftr offset 8);;;
  outb 0x1F5 (Z.shiftr offset 16);;;
  outb 0x1F6 (Z.lor (Z.shiftr offset 24) 0xE0);;;
  outb 0x1F7 0x20;;;
  waitdisk fuel;;;
  insl 0x1F0 dst (Z.to_nat (SECTSIZE / 4)).

(** The loop of readseg; [rounds] bounds its turns. *)
Fixpoint readseg_loop (fuel rounds : nat) (pa epa offset : Z) : prog boot unit :=
  if pa <? epa then
    match rounds with
    | O => fun s => NoFuel s
    | S rounds =>
      readsect fuel pa offset;;;
      readseg_loop fuel rounds (u32 (pa + SECTSIZE)) epa (u32 (offset + 1))
    end
  else ret tt.

Definition readseg (fuel : nat) (pa count offset : Z) : prog boot unit :=
  let epa := u32 (pa + count) in
  let pa := u32 (pa - offset mod SECTSIZE) in
  let offset := u32 (offset / SECTSIZE + 1) in
  readseg_loop fuel (Z.to_nat (count / SECTSIZE) + 2) pa epa offset.

(** Where the fields of the multiboot header lie. *)
Definition hdr_flags (hdr : Z) : Z := hdr + 4.
Definition hdr_header_addr (hdr : Z) : Z := hdr + 12.
Definition hdr_load_addr (hdr : Z) : Z := hdr + 16.
Definition hdr_load_end_addr (hdr : Z) : Z := hdr + 20.
Definition hdr_bss_end_addr (hdr : Z) : Z := hdr + 24.
Definition hdr_entry_addr (hdr : Z) : Z := hdr + 28.

(** The search for the header in the first 8192 bytes, which lie at [x]. *)
Definition find_header (x : Z) : prog boot (option Z) :=
  for_break (seqZ 0 (8192 / 4)) (fun n =>
    w0 <- load32 (x + 4 * n);;
    if w0 =? 0x1BADB002 then
      w1 <- load32 (x + 4 * (n + 1));;
      w2 <- load32 (x + 4 * (n + 2));;
      if u32 (w0 + w1 + w2) =? 0 then ret (Some n) else ret None
    else ret None).

Definition bootmain (fuel : nat) : prog boot (option Z) :=
  let x := 0x10000 in
  readseg fuel x 8192 0;;;
  found <- find_header x;;
  match found with
  | None => ret None
  | Some n =>
    let hdr := x + 4 * n in
    flags <- load32 (hdr_flags hdr);;
    if Z.land flags 0x10000 =? 0 then ret None else
    load_addr <- load32 (hdr_load_addr hdr);;
    header_addr <- load32 (hdr_header_addr hdr);;
    if load_addr >? header_addr then ret None else
    load_end_addr <- load32 (hdr_load_end_addr hdr);;
    if load_end_addr <? load_addr then ret None else
    readseg fuel load_addr (u32 (load_end_addr - load_addr)) (u32 (n * 4 - (header_addr - load_addr)));;;
    bss_end_addr <- load32 (hdr_bss_end_addr hdr);;
    load_end_addr <- load32 (hdr_load_end_addr hdr);;
    (when bss_end_addr >? load_end_addr do
       modify (fun s => Machine (stosb (mem_of s) load_end_addr 0 (Z.to_nat (u32 (bss_end_addr - load_end_addr)))) (ports s)));;;
    entry <- load32 (hdr_entry_addr hdr);;
    ret (Some entry)
  end.

End Ide.
End Boot.

(** ** What is known of the disk

    [sector] is what is on it.  The status register reports a ready disk after fewer than
    [patience] polls, and the data port delivers the sector that the last read command has
    addressed, once the disk is ready. *)

Definition word_of (l : list Z) (i : nat) : Z := load_le 4 (at_list 0 l (fun _ => 0)) (4 * Z.of_nat i).

Definition ready (v : Z) : Prop := Z.land v 0xC0 = 0x40.

Definition read_command (lba : Z) : list access :=
  [Out 0x1F2 1; Out 0x1F3 (lba mod 256); Out 0x1F4 (lba / 256 mod 256); Out 0x1F5 (lba / 65536 mod 256);
   Out 0x1F6 (224 + lba / 16777216); Out 0x1F7 0x20].

Class IdeLaws `{IdePorts} (patience : nat) (sector : Z -> list Z) : Prop := {
  ide_sector : forall lba, length (sector lba) = 512%nat /\ Forall (fun b => 0 <= b < 256) (sector lba);
  ide_ready : forall h, exists k, (k < patience)%nat /\ ready (ide_status (h ++ replicate (S k) (In 0x1F7)));
  ide_reads : forall h lba k i, 0 <= lba < 268435456 -> (i < 128)%nat ->
    ready (ide_status (h ++ read_command lba ++ replicate (S k) (In 0x1F7))) ->
    ide_data (h ++ read_command lba ++ replicate (S k) (In 0x1F7) ++ [Insl 0x1F0 128]) i = word_of (sector lba) i
}.

Import Boot.

(** ** Copying words *)

Lemma store_load_le n m m2 a b x : bytes_ok m2 ->
  store_le n m a (load_le n m2 b) x = if in_range a (Z.of_nat n) x then m2 (x - a + b) else m x.
Proof.
  intros Hb. revert m a b. induction n as [|n IH]; intros m a b.
  - cbn [store_le]. unfold in_range. destruct (Z.leb_spec a x), (Z.ltb_spec x (a + Z.of_nat 0)); try done; lia.
  - cbn [store_le load_le]. pose proof (Hb b). replace ((m2 b + 256 * load_le n m2 (b + 1)) / 256) with (load_le n m2 (b + 1)) by (Z.div_mod_to_equations; lia).
    rewrite IH. unfold in_range, store8, u8.
    destruct (Z.leb_spec (a + 1) x), (Z.ltb_spec x (a + 1 + Z.of_nat n)), (Z.eqb_spec x a), (Z.leb_spec a x), (Z.ltb_spec x (a + Z.of_nat (S n)));
      cbn [andb]; try lia; try done; [f_equal; lia|]. subst x. replace (a - a + b) with b by lia. rewrite (Z.mul_comm 256), Z_mod_plus_full. apply Z.mod_small. lia.
Qed.

Lemma words_stored (cnt : nat) addr l (f : nat -> Z) m x : Forall (fun b => 0 <= b < 256) l -> (forall i, (i < cnt)%nat -> f i = word_of l i) ->
  fold_left (fun m i => store_le 4 m (addr + 4 * Z.of_nat i) (f i)) (seq 0 cnt) m x =
  if in_range addr (4 * Z.of_nat cnt) x then at_list 0 l (fun _ => 0) (x - addr) else m x.
Proof.
  intros Hl Hf. induction cnt as [|cnt IH]; [cbn [seq fold_left]; unfold in_range; destruct (Z.leb_spec addr x), (Z.ltb_spec x (addr + 4 * Z.of_nat 0)); try done; lia|].
  rewrite seq_S, fold_left_app. cbn [fold_left Nat.add]. rewrite (Hf cnt) by lia. unfold word_of.
  rewrite store_load_le by (apply at_list_bytes; [done|intros y; lia]). rewrite IH by (intros; apply Hf; lia).
  unfold in_range. change (Z.of_nat 4) with 4.
  destruct (Z.leb_spec (addr + 4 * Z.of_nat cnt) x), (Z.ltb_spec x (addr + 4 * Z.of_nat cnt + 4)), (Z.leb_spec addr x),
    (Z.ltb_spec x (addr + 4 * Z.of_nat (S cnt))), (Z.ltb_spec x (addr + 4 * Z.of_nat cnt)); cbn [andb]; try lia; try done. f_equal. lia.
Qed.

Section Load.
Context `{IdePorts} (patience : nat) (sector : Z -> list Z) (L : IdeLaws patience sector) (fuel : nat) (Hfuel : (patience <= fuel)%nat).

(** Byte [k] of the kernel's file, which starts at sector 1. *)
Definition image (k : Z) : Z := nth (Z.to_nat (k mod 512)) (sector (k / 512 + 1)) 0.

Lemma poll_first n (h : list access) k : (k < n)%nat -> ready (ide_status (h ++ replicate (S k) (In 0x1F7))) -> forall m,
  exists k', waitdisk n (Machine m h) = Ret tt (Machine m (h ++ replicate (S k') (In 0x1F7))) /\ ready (ide_status (h ++ replicate (S k') (In 0x1F7))).
Proof.
  revert h k. induction n as [|n IH]; intros h k Hk Hr m; [lia|].
  unfold waitdisk. cbn [repeat_until]. fold (waitdisk n). unfold inb. rewrite !bind_assoc, bind_modify, bind_gets. cbn [mem_of ports].
  destruct (Z.eqb_spec (Z.land (ide_status (h ++ [In 0x1F7])) 0xC0) 0x40) as [E|E]; cbn [negb].
  - exists 0%nat. by rewrite bind_ret.
  - rewrite bind_ret. destruct k as [|k]; [done|]. destruct (IH (h ++ [In 0x1F7]) k ltac:(lia)) with (m := m) as (k' & Ew & Hr').
    + rewrite <- app_assoc. exact Hr.
    + exists (S k'). rewrite <- app_assoc in Ew, Hr'. split; [exact Ew|exact Hr'].
Qed.

Lemma waitdisk_run m h : exists k, waitdisk fuel (Machine m h) = Ret tt (Machine m (h ++ replicate (S k) (In 0x1F7))) /\
  ready (ide_status (h ++ replicate (S k) (In 0x1F7))).
Proof. destruct (ide_ready h) as (k & Hk & Hr). apply (poll_first fuel h k); [lia|done]. Qed.

Lemma command_bytes lba : 0 <= lba < 268435456 ->
  read_command lba = [Out 0x1F2 (u8 1); Out 0x1F3 (u8 lba); Out 0x1F4 (u8 (Z.shiftr lba 8)); Out 0x1F5 (u8 (Z.shiftr lba 16));
    Out 0x1F6 (u8 (Z.lor (Z.shiftr lba 24) 0xE0)); Out 0x1F7 (u8 0x20)].
Proof.
  intros Hl. unfold read_command. rewrite !Z.shiftr_div_pow2 by lia. change (2 ^ 8) with 256. change (2 ^ 16) with 65536. change (2 ^ 24) with 16777216.
  assert (0 <= lba / 16777216 < 16) as Hd by (Z.div_mod_to_equations; lia). set (d := lba / 16777216) in *.
  assert (Z.lor d 0xE0 = 224 + d) as ->.
  { rewrite <- Z.lxor_lor, <- Z.add_nocarry_lxor; [lia|..]; by assert (d ∈ seqZ 0 16) as Hin by (apply elem_of_seqZ; lia);
      revert Hin; generalize d; apply Forall_forall; vm_compute; repeat constructor. }
  unfold u8. rewrite (Z.mod_small (224 + d)) by lia. done.
Qed.

Lemma readsect_run dst lba m h : 0 <= lba < 268435456 ->
  exists h' m', readsect fuel dst lba (Machine m h) = Ret tt (Machine m' h') /\
    forall x, m' x = if in_range dst 512 x then nth (Z.to_nat (x - dst)) (sector lba) 0 else m x.
Proof.
  intros Hl. destruct (waitdisk_run m h) as (k1 & E1 & _). set (h1 := h ++ _) in E1.
  destruct (waitdisk_run m (h1 ++ read_command lba)) as (k2 & E2 & R2). rewrite <- app_assoc in E2, R2.
  eexists _, _. split.
  - unfold readsect. mret E1. unfold outb. rewrite !bind_modify. cbn [mem_of ports]. rewrite <- !app_assoc. cbn [app].
    rewrite <- (command_bytes lba Hl). mret E2. unfold insl. rewrite bind_modify. cbn [mem_of ports]. reflexivity.
  - intros x. cbn beta. destruct (ide_sector lba) as [Hlen Hb].
    rewrite (words_stored _ dst (sector lba)); [|done|].
    + change (Z.of_nat (Z.to_nat (SECTSIZE / 4))) with 128. destruct (in_range dst (4 * 128) x) eqn:Er; change (4 * 128) with 512 in Er; rewrite Er; [|done].
      apply in_range_spec in Er. unfold at_list. rewrite Hlen. destruct (Z.leb_spec 0 (x - dst)), (Z.ltb_spec (x - dst) (0 + Z.of_nat 512)); cbn [andb]; try lia.
      by rewrite Z.sub_0_r.
    + intros i Hi. cbn [mem_of ports]. rewrite <- !app_assoc. apply (ide_reads h1 lba k2 i Hl Hi R2).
Qed.

Lemma image_in q o x : 0 <= o -> q <= x < q + 512 -> nth (Z.to_nat (x - q)) (sector (o + 1)) 0 = image (512 * o + (x - q)).
Proof.
  intros Ho Hx. unfold image. replace ((512 * o + (x - q)) mod 512) with (x - q) by (Z.div_mod_to_equations; lia).
  replace ((512 * o + (x - q)) / 512) with o by (Z.div_mod_to_equations; lia). done.
Qed.

Lemma readseg_loop_run rounds q epa o m h : 0 <= q -> epa + 511 < 4294967296 -> 0 <= o -> o + Z.of_nat rounds < 268435455 ->
  epa - q <= 512 * Z.of_nat rounds ->
  exists m' h' e, readseg_loop fuel rounds q epa (o + 1) (Machine m h) = Ret tt (Machine m' h') /\
    epa <= e /\ q <= e /\ (e < epa + 512 \/ e = q) /\ forall x, m' x = if in_range q (e - q) x then image (512 * o + (x - q)) else m x.
Proof.
  revert q o m h. induction rounds as [|rounds IH]; intros q o m h Hq He Ho Hos Hr; cbn [readseg_loop].
  all: destruct (Z.ltb_spec q epa) as [Hlt|Hge]; try lia.
  1, 3: exists m, h, q; split_and!; try done; try lia; intros x; unfold in_range;
    destruct (Z.leb_spec q x), (Z.ltb_spec x (q + (q - q))); try done; lia.
  destruct (readsect_run q (o + 1) m h ltac:(lia)) as (h1 & m1 & E1 & Hm1).
  destruct (IH (q + 512) (o + 1) m1 h1 ltac:(lia) He ltac:(lia) ltac:(lia) ltac:(lia)) as (m' & h' & e & E & He1 & He2 & He3 & Hm').
  exists m', h', e. split_and!; [|lia|lia|left; lia|].
  - mret E1. unfold SECTSIZE. rewrite !u32_small by lia. exact E.
  - intros x. rewrite Hm', Hm1. unfold in_range.
    destruct (Z.leb_spec (q + 512) x), (Z.ltb_spec x (q + 512 + (e - (q + 512)))), (Z.leb_spec q x), (Z.ltb_spec x (q + 512)), (Z.ltb_spec x (q + (e - q)));
      cbn [andb]; try lia; try done; [f_equal; lia|]. by apply image_in.
Qed.

Lemma readseg_run pa count off m h : 0 <= count -> 0 <= off < 16384 -> off mod 512 <= pa -> pa + count + 511 < 4294967296 ->
  exists m' h' e, readseg fuel pa count off (Machine m h) = Ret tt (Machine m' h') /\
    pa + count <= e < pa + count + 512 /\
    forall x, m' x = if in_range (pa - off mod 512) (e - (pa - off mod 512)) x then image (off + (x - pa)) else m x.
Proof.
  intros Hc Ho Hp He. unfold readseg, SECTSIZE. pose proof (Z.mod_pos_bound off 512 ltac:(lia)).
  assert (0 <= off / 512 < 32) by (Z.div_mod_to_equations; lia). assert (0 <= count / 512 < 8388608) by (Z.div_mod_to_equations; lia).
  rewrite !u32_small by lia.
  destruct (readseg_loop_run (Z.to_nat (count / 512) + 2) (pa - off mod 512) (pa + count) (off / 512) m h) as (m' & h' & e & E & He1 & He2 & He3 & Hm'); try lia;
    [Z.div_mod_to_equations; lia|].
  exists m', h', e. split_and!; [exact E|lia|lia|]. intros x. rewrite Hm'. destruct (in_range _ _ x); [|done]. f_equal. Z.div_mod_to_equations; lia.
Qed.

(** ** The kernel's header *)

Definition word (k : Z) : Z := load_le 4 image k.
Definition is_header (n : Z) : Prop := word (4 * n) = 0x1BADB002 /\ (word (4 * n) + word (4 * (n + 1)) + word (4 * (n + 2))) mod 4294967296 = 0.
#[export] Instance is_header_dec n : Decision (is_header n).
Proof. unfold is_header. apply _. Defined.

(** The header is the first one in the file, and it asks for the kernel to be loaded above the
    scratch space and the room for the last sector. *)
Record bootable (n : Z) : Prop := Bootable {
  bt_range : 0 <= n <= 2040;
  bt_header : is_header n;
  bt_first : forall j, 0 <= j < n -> ~ is_header j;
  bt_flags : Z.land (word (4 * n + 4)) 0x10000 <> 0;
  bt_load : word (4 * n + 16) <= word (4 * n + 12) <= word (4 * n + 16) + 4 * n;
  bt_end : word (4 * n + 16) <= word (4 * n + 20) < 4294967296 - 512;
  bt_apart : 0x10000 + 8192 + 512 <= word (4 * n + 16)
}.

Lemma image_bytes : bytes_ok image.
Proof.
  intros x. unfold image. destruct (ide_sector (x / 512 + 1)) as [Hl Hb]. rewrite Forall_forall in Hb.
  apply Hb, list_elem_of_In, nth_In. pose proof (Z.mod_pos_bound x 512 ltac:(lia)). lia.
Qed.

Lemma word_range k : 0 <= word k < 4294967296.
Proof.
  unfold word. cbn [load_le]. pose proof (image_bytes k). pose proof (image_bytes (k + 1)). pose proof (image_bytes (k + 1 + 1)).
  pose proof (image_bytes (k + 1 + 1 + 1)). lia.
Qed.

(** The first 8192 bytes of the file are in the scratch space. *)
Definition scratch (m : mem) : Prop := forall k, 0 <= k < 8192 -> m (0x10000 + k) = image k.

Lemma scratch_load m h k : scratch m -> 0 <= k <= 8188 -> load32 (0x10000 + k) (Machine m h) = Ret (word k) (Machine m h).
Proof.
  intros Hs Hk. unfold load32, gets. cbn [mem_of]. f_equal. unfold word. cbn [load_le].
  replace (0x10000 + k + 1) with (0x10000 + (k + 1)) by lia. replace (0x10000 + (k + 1) + 1) with (0x10000 + (k + 2)) by lia.
  replace (0x10000 + (k + 2) + 1) with (0x10000 + (k + 3)) by lia. rewrite !Hs by lia.
  replace (k + 1 + 1) with (k + 2) by lia. replace (k + 2 + 1) with (k + 3) by lia. done.
Qed.

Lemma header_round m h n : scratch m -> 0 <= n <= 2040 ->
  (w0 <- load32 (0x10000 + 4 * n);;
   if w0 =? 0x1BADB002 then
     w1 <- load32 (0x10000 + 4 * (n + 1));;
     w2 <- load32 (0x10000 + 4 * (n + 2));;
     if u32 (w0 + w1 + w2) =? 0 then ret (Some n) else ret None
   else ret None) (Machine m h) = Ret (if decide (is_header n) then Some n else None) (Machine m h).
Proof.
  intros Hs Hn. mret (scratch_load m h (4 * n) Hs ltac:(lia)). unfold is_header, u32.
  destruct (Z.eqb_spec (word (4 * n)) 0x1BADB002) as [E|E].
  - mret (scratch_load m h (4 * (n + 1)) Hs ltac:(lia)). mret (scratch_load m h (4 * (n + 2)) Hs ltac:(lia)).
    destruct (Z.eqb_spec ((word (4 * n) + word (4 * (n + 1)) + word (4 * (n + 2))) mod 4294967296) 0); case_decide; try done; tauto.
  - case_decide; [tauto|done].
Qed.

Lemma find_header_run m h n : scratch m -> bootable n -> find_header 0x10000 (Machine m h) = Ret (Some n) (Machine m h).
Proof.
  intros Hs [Hn Hh Hf _ _ _ _]. unfold find_header. change (8192 / 4) with 2048.
  replace (seqZ 0 2048) with (seqZ 0 n ++ n :: seqZ (n + 1) (2047 - n)).
  - apply for_break_first.
    + intros j Hj. apply elem_of_seqZ in Hj. rewrite header_round by (done || lia). by rewrite decide_False by (apply Hf; lia).
    + rewrite header_round by (done || lia). by rewrite decide_True.
  - replace 2048 with (n + Z.succ (2047 - n)) by lia. rewrite seqZ_app by lia. f_equal. rewrite Z.add_0_l, (seqZ_cons n) by lia.
    by rewrite Z.pred_succ.
Qed.

Lemma scratch_stosb m n k : bootable n -> scratch m -> 0 <= k ->
  scratch (stosb m (word (4 * n + 20)) 0 (Z.to_nat k)).
Proof.
  intros [Hn _ _ _ Hl He Ha] Hs Hk x Hx. rewrite stosb_fill. unfold fill, in_range.
  destruct (Z.leb_spec (word (4 * n + 20)) (0x10000 + x)); [lia|]. cbn [andb]. by apply Hs.
Qed.

(** Both readseg calls. *)
Lemma first_read m h : exists m1 h1, readseg fuel 0x10000 8192 0 (Machine m h) = Ret tt (Machine m1 h1) /\ scratch m1 /\
  forall x, ~ (0x10000 <= x < 0x10000 + 8192 + 512) -> m1 x = m x.
Proof.
  destruct (readseg_run 0x10000 8192 0 m h) as (m1 & h1 & e & E & He & Hm); [lia|lia|done|lia|].
  change (0 mod 512) with 0 in Hm. exists m1, h1. split_and!; [exact E| |].
  - intros k Hk. rewrite Hm. unfold in_range. destruct (Z.leb_spec (0x10000 - 0) (0x10000 + k)), (Z.ltb_spec (0x10000 + k) (0x10000 - 0 + (e - (0x10000 - 0)))); cbn [andb]; try lia.
    f_equal. lia.
  - intros x Hx. rewrite Hm. unfold in_range. destruct (Z.leb_spec (0x10000 - 0) x), (Z.ltb_spec x (0x10000 - 0 + (e - (0x10000 - 0)))); cbn [andb]; done || lia.
Qed.

Lemma second_read m h n : bootable n -> scratch m ->
  let l := word (4 * n + 16) in let off := 4 * n - (word (4 * n + 12) - l) in
  exists m2 h2, readseg fuel l (word (4 * n + 20) - l) off (Machine m h) = Ret tt (Machine m2 h2) /\ scratch m2 /\
    (forall x, l <= x < word (4 * n + 20) -> m2 x = image (off + (x - l))) /\
    (forall x, x < l - 512 \/ word (4 * n + 20) + 512 <= x -> m2 x = m x).
Proof.
  intros B Hs l off. destruct B as [Hn _ _ _ Hl He Ha]. fold l in Hl, He, Ha. pose proof (Z.mod_pos_bound off 512 ltac:(lia)).
  destruct (readseg_run l (word (4 * n + 20) - l) off m h) as (m2 & h2 & e & E & He2 & Hm); [lia|unfold off; lia|lia|lia|].
  exists m2, h2. split_and!; [exact E| | |]; intros x Hx; rewrite Hm; unfold in_range.
  - destruct (Z.leb_spec (l - off mod 512) (0x10000 + x)); [lia|]. cbn [andb]. by apply Hs.
  - destruct (Z.leb_spec (l - off mod 512) x), (Z.ltb_spec x (l - off mod 512 + (e - (l - off mod 512)))); cbn [andb]; done || lia.
  - destruct (Z.leb_spec (l - off mod 512) x), (Z.ltb_spec x (l - off mod 512 + (e - (l - off mod 512)))); cbn [andb]; done || lia.
Qed.

(** C38: when the disk holds a kernel with a multiboot header in its first 8192 bytes, bootmain
    jumps to the entry address of that header, and by then the bytes from the load address to
    the load end address are those of the file, at the place that belongs to the header's
    own address, those from there to the end of the bss are zero, and all the memory but the
    scratch space and the sectors around the kernel is as it was. *)
Theorem bootmain_loads_kernel n s : bootable n ->
  let l := word (4 * n + 16) in let le := word (4 * n + 20) in let be := word (4 * n + 24) in
  exists s', bootmain fuel s = Ret (Some (word (4 * n + 28))) s' /\
    (forall a, l <= a < le -> mem_of s' a = image (4 * n - (word (4 * n + 12) - l) + (a - l))) /\
    (forall a, le <= a < be -> mem_of s' a = 0) /\
    (forall a, ~ (0x10000 <= a < 0x10000 + 8192 + 512) -> ~ (l - 512 <= a < Z.max (le + 512) be) -> mem_of s' a = mem_of s a).
Proof.
  intros B l le be. destruct s as [m h]. destruct (first_read m h) as (m1 & h1 & E1 & S1 & F1).
  destruct (second_read m1 h1 n B S1) as (m2 & h2 & E2 & S2 & I2 & F2). fold l le in E2, I2, F2.
  pose proof (word_range (4 * n + 16)) as W1. pose proof (word_range (4 * n + 20)) as W2. pose proof (word_range (4 * n + 24)) as W3.
  pose proof (word_range (4 * n + 12)) as W4. destruct (B) as [Hn _ _ Hfl Hl He Ha]. fold l le be in W1, W2, W3, Hl, He, Ha.
  assert (forall k m' h', scratch m' -> 0 <= k <= 28 -> load32 (0x10000 + 4 * n + k) (Machine m' h') = Ret (word (4 * n + k)) (Machine m' h')) as Hw
    by (intros k m' h' Hs Hk; rewrite <- Z.add_assoc; apply scratch_load; [done|lia]).
  set (m3 := if be >? le then stosb m2 le 0 (Z.to_nat (be - le)) else m2).
  assert (scratch m3) as S3 by (unfold m3; destruct (be >? le) eqn:Eb; [apply Z.gtb_lt in Eb; apply scratch_stosb; [done|done|lia]|done]).
  exists (Machine m3 h2). split.
  - unfold bootmain. mret E1. mret (find_header_run m1 h1 n S1 B). unfold hdr_flags, hdr_load_addr, hdr_header_addr, hdr_load_end_addr, hdr_bss_end_addr, hdr_entry_addr.
    mret (Hw 4 m1 h1 S1 ltac:(lia)). rewrite (proj2 (Z.eqb_neq _ _) Hfl).
    mret (Hw 16 m1 h1 S1 ltac:(lia)). mret (Hw 12 m1 h1 S1 ltac:(lia)). fold l. rewrite Z.gtb_ltb, (proj2 (Z.ltb_ge _ _)) by lia.
    mret (Hw 20 m1 h1 S1 ltac:(lia)). fold le. rewrite (proj2 (Z.ltb_ge le l)) by lia. rewrite !(u32_small (le - l)), (Z.mul_comm n 4), u32_small by lia. mret E2.
    mret (Hw 24 m2 h2 S2 ltac:(lia)). mret (Hw 20 m2 h2 S2 ltac:(lia)). fold be le.
    assert ((if be >? le then modify (fun s => Machine (stosb (mem_of s) le 0 (Z.to_nat (u32 (be - le)))) (ports s)) else ret tt) (Machine m2 h2) = Ret tt (Machine m3 h2)) as E3.
    { unfold m3. destruct (be >? le) eqn:Eb; [|done]. apply Z.gtb_lt in Eb. unfold modify. cbn [mem_of ports]. by rewrite u32_small by lia. }
    mret E3. mret (Hw 28 m3 h2 S3 ltac:(lia)). done.
  - cbn [mem_of]. assert (forall x, m3 x = if in_range le (be - le) x then 0 else m2 x) as H3.
    { intros x. unfold m3. destruct (be >? le) eqn:Eb.
      - apply Z.gtb_lt in Eb. rewrite stosb_fill, Z2Nat.id by lia. done.
      - rewrite Z.gtb_ltb in Eb. apply Z.ltb_ge in Eb. unfold in_range. destruct (Z.leb_spec le x), (Z.ltb_spec x (le + (be - le))); try done; lia. }
    unfold in_range in H3. split_and!; intros a Ha'; [| |intros Ha2]; rewrite H3;
      destruct (Z.leb_spec le a), (Z.ltb_spec a (le + (be - le))); cbn [andb]; try done; try lia.
    all: try (apply I2; lia). all: rewrite F2 by lia; apply F1; lia.
Qed.

End Load.

(** ** A disk with a small kernel *)

Definition last_out (port : Z) (h : list access) : Z :=
  fold_left (fun v a => match a with Out p x => if p =? port then x else v | _ => v end) h 0.

Definition small_kernel (lba : Z) : list Z :=
  if lba =? 1 then
    concat (map (fun w => [w mod 256; w / 256 mod 256; w / 65536 mod 256; w / 16777216 mod 256])
      [0x1BADB002; 0x10000; 0x100000000 - 0x1BADB002 - 0x10000; 0x100000; 0x100000; 0x100400; 0x100800; 0x100020]) ++ replicate 480 9
  else replicate 512 (lba mod 256).

Definition simple_ide : IdePorts := {|
  ide_status h := 0x40;
  ide_data h := word_of (small_kernel (last_out 0x1F3 h + 256 * last_out 0x1F4 h + 65536 * last_out 0x1F5 h + 16777216 * (last_out 0x1F6 h - 224)))
|}.

Lemma last_out_polls port l k : last_out port (l ++ replicate k (In 0x1F7) ++ [Insl 0x1F0 128]) = last_out port l.
Proof.
  unfold last_out. rewrite !fold_left_app. cbn [fold_left]. generalize (fold_left (fun v a => match a with Out p x => if p =? port then x else v | _ => v end) l 0).
  intros v. induction k as [|k IH]; [done|exact IH].
Qed.

Lemma simple_ide_laws : @IdeLaws simple_ide 1 small_kernel.
Proof.
  split.
  - intros lba. unfold small_kernel. destruct (lba =? 1); [split; [done|]|split; [by rewrite length_replicate|]].
    + apply Forall_app. split; [|apply Forall_replicate; lia]. vm_compute. repeat constructor; discriminate.
    + apply Forall_replicate. apply Z.mod_pos_bound. lia.
  - intros h. exists 0%nat. split; [lia|done].
  - intros h lba k i Hl Hi _. cbn [ide_data simple_ide]. rewrite (app_assoc h), !last_out_polls.
    assert (forall p v, (forall a, fold_left (fun v a => match a with Out q x => if q =? p then x else v | _ => v end) (read_command lba) a = v) ->
      last_out p (h ++ read_command lba) = v) as Hp by (intros p v Hv; unfold last_out; by rewrite fold_left_app).
    rewrite (Hp 0x1F3 _ (fun _ => eq_refl)), (Hp 0x1F4 _ (fun _ => eq_refl)), (Hp 0x1F5 _ (fun _ => eq_refl)), (Hp 0x1F6 _ (fun _ => eq_refl)).
    do 2 f_equal. Z.div_mod_to_equations; lia.
Qed.

Lemma bootmain_loads_kernel_witness : exists s',
  @bootmain simple_ide 1 (Machine (fun _ => 7) []) = Ret (Some 0x100020) s' /\
  mem_of s' 0x100001 = 0xB0 /\ mem_of s' 0x1002FF = 2 /\ mem_of s' 0x1007FF = 0 /\ mem_of s' 0x200000 = 7.
Proof.
  destruct (@bootmain_loads_kernel simple_ide 1 small_kernel simple_ide_laws 1 ltac:(lia) 0 (Machine (fun _ => 7) [])) as (s' & E & H1 & H2 & H3).
  { split; [lia|vm_compute; split; reflexivity|intros j Hj; lia|vm_compute; discriminate|vm_compute; split; discriminate| |vm_compute; discriminate].
    vm_compute. split; [discriminate|reflexivity]. }
  exists s'. split_and!; [exact E| | | |].
  - rewrite H1; [reflexivity|vm_compute; split; [discriminate|reflexivity]].
  - rewrite H1; [reflexivity|vm_compute; split; [discriminate|reflexivity]].
  - apply H2. vm_compute. split; [discriminate|reflexivity].
  - apply H3; vm_compute; intros [A B]; congruence.
Defined.
