(* ===== verification/Platform.v ===== *)
(** * Platform: the description of the machine (mp.c) and the interrupt controllers
      (lapic.c, ioapic.c)

    The state is the kernel's memory, the global variables of the three files and the
    record of the accesses to devices and of the messages printed.  What a device answers is
    a parameter: a function of the accesses up to and including the one that reads. *)

From S2P Require Import Prelude Machine Cstring.
#[local] Open Scope prog_scope.

(** An access to a device, or a message on the console.  A local APIC register is named by its
    index, the two registers of the I/O APIC by their names in [struct ioapic]. *)
Inductive io :=
| OutB (port v : Z) | InB (port : Z) | OutL (port v : Z) | InL (port : Z)
| LapicW (index v : Z) | LapicR (index : Z)
| IoapicReg (v : Z) | IoapicDataW (v : Z) | IoapicDataR
| Cprintf (msg : string) (args : list Z).

Class Devices := { dev_read : list io -> Z }.

Module Platform.

(** [cpus] has the field apicid of every struct cpu; [warned] is the counter in cpunum, and
    [fl_if] the interrupt flag of the CPU. *)
Record plat := Plat {
  p_mem : mem; lapic : Z; cpus : list Z; ncpu : Z; ioapicid : Z; warned : Z; fl_if : bool; accesses : list io
}.

Definition access (a : io) : prog plat unit :=
  modify (fun s => Plat (p_mem s) (lapic s) (cpus s) (ncpu s) (ioapicid s) (warned s) (fl_if s) (accesses s ++ [a])).
Definition set_mem (m : mem) (s : plat) : plat := Plat m (lapic s) (cpus s) (ncpu s) (ioapicid s) (warned s) (fl_if s) (accesses s).
Definition set_lapic (v : Z) (s : plat) : plat := Plat (p_mem s) v (cpus s) (ncpu s) (ioapicid s) (warned s) (fl_if s) (accesses s).
Definition set_ioapicid (v : Z) (s : plat) : plat := Plat (p_mem s) (lapic s) (cpus s) (ncpu s) v (warned s) (fl_if s) (accesses s).
Definition set_warned (v : Z) (s : plat) : plat := Plat (p_mem s) (lapic s) (cpus s) (ncpu s) (ioapicid s) v (fl_if s) (accesses s).
(** [cpus[ncpu].apicid = v; ncpu++] *)
Definition add_cpu (v : Z) (s : plat) : plat :=
  Plat (p_mem s) (lapic s) (<[Z.to_nat (ncpu s) := v]> (cpus s)) (ncpu s + 1) (ioapicid s) (warned s) (fl_if s) (accesses s).

(** ** mp.c *)

Definition load8 (m : mem) (a : Z) : Z := m a.
Definition load16 (m : mem) (a : Z) : Z := load_le 2 m a.
Definition load32 (m : mem) (a : Z) : Z := load_le 4 m a.

(** struct mp has 16 bytes, struct mpconf 44, struct mpproc 20. *)
Definition sizeof_mp : Z := 16.
Definition mp_physaddr (m : mem) (mp : Z) : Z := load32 m (mp + 4).
Definition mp_imcrp (m : mem) (mp : Z) : Z := load8 m (mp + 12).
Definition sizeof_mpconf : Z := 44.
Definition conf_length (m : mem) (conf : Z) : Z := load16 m (conf + 4).
Definition conf_version (m : mem) (conf : Z) : Z := load8 m (conf + 6).
Definition conf_lapicaddr_p (m : mem) (conf : Z) : Z := load32 m (conf + 36).
Definition sizeof_mpproc : Z := 20.
Definition proc_apicid (m : mem) (p : Z) : Z := load8 m (p + 1).
Definition sizeof_mpioapic : Z := 8.
Definition ioapic_apicno (m : mem) (p : Z) : Z := load8 m (p + 1).

Definition MPPROC : Z := 0.
Definition MPBUS : Z := 1.
Definition MPIOAPIC : Z := 2.
Definition MPIOINTR : Z := 3.
Definition MPLINTR : Z := 4.

Fixpoint sum_loop (m : mem) (addr : Z) (len : nat) (acc : Z) : Z :=
  match len with O => acc | S len => sum_loop m (addr + 1) len (i32 (acc + m addr)) end.
Definition sum (m : mem) (addr len : Z) : Z := u8 (sum_loop m addr (Z.to_nat len) 0).

(** [memcmp(p, sig, 4) == 0] *)
Definition has_sig (m : mem) (p : Z) (sig : string) : bool := bool_decide (read_list m p 4 = lit sig).

Definition mpsearch1 (m : mem) (a len : Z) : Z :=
  let addr := P2V a in
  match find (fun p => has_sig m p "_MP_" && (sum m p sizeof_mp =? 0))
          (map (fun i => addr + sizeof_mp * i) (seqZ 0 ((len + sizeof_mp - 1) / sizeof_mp))) with
  | Some p => p
  | None => 0
  end.

Definition mpsearch (m : mem) : Z :=
  let bda := P2V 0x400 in
  let p := u32 (Z.shiftl (Z.lor (Z.shiftl (m (bda + 0x0F)) 8) (m (bda + 0x0E))) 4) in
  let mp :=
    if negb (p =? 0) then mpsearch1 m p 1024
    else mpsearch1 m (u32 (u32 (Z.lor (Z.shiftl (m (bda + 0x14)) 8) (m (bda + 0x13)) * 1024) - 1024)) 1024 in
  if negb (mp =? 0) then mp else mpsearch1 m 0xF0000 0x10000.

(** The MP structure and the configuration table. *)
Definition mpconfig (m : mem) : option (Z * Z) :=
  let mp := mpsearch m in
  if (mp =? 0) || (mp_physaddr m mp =? 0) then None else
  let conf := P2V (mp_physaddr m mp) in
  if negb (has_sig m conf "PCMP") then None else
  if negb (conf_version m conf =? 1) && negb (conf_version m conf =? 4) then None else
  if negb (sum m conf (conf_length m conf) =? 0) then None else
  Some (mp, conf).

Fixpoint mp_entries (rounds : nat) (p e : Z) : prog plat unit :=
  if p <? e then
    match rounds with
    | O => fun s => NoFuel s
    | S rounds =>
      m <- gets p_mem;;
      let type := load8 m p in
      if type =? MPPROC then
        n <- gets ncpu;;
        (when n <? Z.of_nat NCPU do modify (add_cpu (proc_apicid m p)));;;
        mp_entries rounds (p + sizeof_mpproc) e
      else if type =? MPIOAPIC then
        modify (set_ioapicid (ioapic_apicno m p));;;
        mp_entries rounds (p + sizeof_mpioapic) e
      else if (type =? MPBUS) || (type =? MPIOINTR) || (type =? MPLINTR) then mp_entries rounds (p + 8) e
      else panic "Major problem parsing mp config."
    end
  else ret tt.

Section Dev.
Context `{Devices}.

Definition inb (port : Z) : prog plat Z := access (InB port);;; gets (fun s => dev_read (accesses s)).
Definition outb (port v : Z) : prog plat unit := access (OutB port (u8 v)).

Definition mpinit : prog plat unit :=
  m <- gets p_mem;;
  match mpconfig m with
  | None => access (Cprintf "No other CPUs found." [])
  | Some (mp, conf) =>
    modify (set_lapic (P2V (conf_lapicaddr_p m conf)));;;
    mp_entries (Z.to_nat (conf_length m conf)) (conf + sizeof_mpconf) (conf + conf_length m conf);;;
    n <- gets ncpu;;
    access (Cprintf "Seems we are SMP, ncpu = %d" [n]);;;
    when negb (mp_imcrp m mp =? 0) do (outb 0x22 0x70;;; v <- inb 0x23;; outb 0x23 (Z.lor v 1))
  end.

(** ** ioapic.c *)

Definition REG_ID : Z := 0.
Definition REG_VER : Z := 1.
Definition REG_TABLE : Z := 16.
Definition INT_DISABLED : Z := 0x10000.
Definition T_IRQ0 : Z := 32.

Definition ioapicread (reg : Z) : prog plat Z :=
  access (IoapicReg (u32 reg));;; access IoapicDataR;;; gets (fun s => dev_read (accesses s)).
Definition ioapicwrite (reg data : Z) : prog plat unit :=
  access (IoapicReg (u32 reg));;; access (IoapicDataW (u32 data)).

Definition ioapicinit : prog plat unit :=
  ver <- ioapicread REG_VER;;
  let maxintr := Z.land (Z.shiftr ver 16) 0xFF in
  v <- ioapicread REG_ID;;
  let id := Z.shiftr v 24 in
  i <- gets ioapicid;;
  (when negb (id =? i) do access (Cprintf "ioapicinit: id isn't equal to ioapicid; not a MP" []));;;
  for_each (seqZ 0 (maxintr + 1)) (fun i =>
    ioapicwrite (REG_TABLE + 2 * i) (Z.lor INT_DISABLED (T_IRQ0 + i));;;
    ioapicwrite (REG_TABLE + 2 * i + 1) 0).

Definition ioapicenable (irq cpunum : Z) : prog plat unit :=
  ioapicwrite (REG_TABLE + 2 * irq) (T_IRQ0 + irq);;;
  ioapicwrite (REG_TABLE + 2 * irq + 1) (Z.shiftl cpunum 24).

(** ** lapic.c *)

Definition ID : Z := 0x20 / 4.
Definition VER : Z := 0x30 / 4.
Definition TPR : Z := 0x80 / 4.
Definition EOI : Z := 0xB0 / 4.
Definition SVR : Z := 0xF0 / 4.
Definition ENABLE : Z := 0x100.
Definition ESR : Z := 0x280 / 4.
Definition ICRLO : Z := 0x300 / 4.
Definition INIT : Z := 0x500.
Definition STARTUP : Z := 0x600.
Definition DELIVS : Z := 0x1000.
Definition ASSERT : Z := 0x4000.
Definition LEVEL : Z := 0x8000.
Definition BCAST : Z := 0x80000.
Definition ICRHI : Z := 0x310 / 4.
Definition TIMER : Z := 0x320 / 4.
Definition X1 : Z := 0xB.
Definition PERIODIC : Z := 0x20000.
Definition PCINT : Z := 0x340 / 4.
Definition LINT0 : Z := 0x350 / 4.
Definition LINT1 : Z := 0x360 / 4.
Definition ERROR : Z := 0x370 / 4.
Definition MASKED : Z := 0x10000.
Definition TICR : Z := 0x380 / 4.
Definition TDCR : Z := 0x3E0 / 4.
Definition IRQ_TIMER : Z := 0.
Definition IRQ_ERROR : Z := 19.
Definition IRQ_SPURIOUS : Z := 31.

Definition lapicr (index : Z) : prog plat Z := access (LapicR index);;; gets (fun s => dev_read (accesses s)).
Definition lapicw (index value : Z) : prog plat unit := access (LapicW index (u32 value));;; lapicr ID;;; ret tt.

(** [fuel] bounds the turns of the loop that waits for the delivery. *)
Definition lapicinit (fuel : nat) : prog plat unit :=
  l <- gets lapic;;
  if l =? 0 then ret tt else
  lapicw SVR (Z.lor ENABLE (T_IRQ0 + IRQ_SPURIOUS));;;
  lapicw TDCR X1;;;
  lapicw TIMER (Z.lor PERIODIC (T_IRQ0 + IRQ_TIMER));;;
  lapicw TICR 10000000;;;
  lapicw LINT0 MASKED;;;
  lapicw LINT1 MASKED;;;
  ver <- lapicr VER;;
  (when Z.land (Z.shiftr ver 16) 0xFF >=? 4 do lapicw PCINT MASKED);;;
  lapicw ERROR (T_IRQ0 + IRQ_ERROR);;;
  lapicw ESR 0;;;
  lapicw ESR 0;;;
  lapicw EOI 0;;;
  lapicw ICRHI 0;;;
  lapicw ICRLO (Z.lor (Z.lor BCAST INIT) LEVEL);;;
  repeat_until fuel (v <- lapicr ICRLO;; if Z.land v DELIVS =? 0 then ret (Some tt) else ret None);;;
  lapicw TPR 0.

(** [caller] is the address that cpunum returns to. *)
Definition cpunum (caller : Z) : prog plat Z :=
  f <- gets fl_if;;
  (when (f : bool) do
     (n <- gets warned;;
      modify (set_warned (i32 (n + 1)));;;
      when n =? 0 do access (Cprintf "cpu called from %x with interrupts enabled" [caller])));;;
  l <- gets lapic;;
  if l =? 0 then ret 0 else
  v <- lapicr ID;;
  let apicid := Z.shiftr v 24 in
  n <- gets ncpu;;
  r <- for_break (seqZ 0 n) (fun i =>
    id <- gets (fun s => nth (Z.to_nat i) (cpus s) 0);;
    if id =? apicid then ret (Some i) else ret None);;
  match r with Some i => ret i | None => panic "unknown apicid" end.

Definition lapiceoi : prog plat unit :=
  l <- gets lapic;;
  when negb (l =? 0) do lapicw EOI 0.

Definition CMOS_PORT : Z := 0x70.
Definition CMOS_RETURN : Z := 0x71.

Definition lapicstartap (apicid addr : Z) : prog plat unit :=
  outb CMOS_PORT 0xF;;;
  outb (CMOS_PORT + 1) 0x0A;;;
  let wrv := P2V (Z.lor (Z.shiftl 0x40 4) 0x67) in
  modify (fun s => set_mem (store_le 2 (p_mem s) wrv 0) s);;;
  modify (fun s => set_mem (store_le 2 (p_mem s) (wrv + 2) (u16 (Z.shiftr addr 4))) s);;;
  lapicw ICRHI (i32 (Z.shiftl apicid 24));;;
  lapicw ICRLO (Z.lor (Z.lor INIT LEVEL) ASSERT);;;
  lapicw ICRLO (Z.lor INIT LEVEL);;;
  for_each (seqZ 0 2) (fun _ =>
    lapicw ICRHI (i32 (Z.shiftl apicid 24));;;
    lapicw ICRLO (Z.lor STARTUP (Z.shiftr addr 12))).

Definition CMOS_STATA : Z := 0x0a.
Definition CMOS_STATB : Z := 0x0b.
Definition CMOS_UIP : Z := 128.

Record rtcdate := Rtcdate { second : Z; minute : Z; hour : Z; day : Z; month : Z; year : Z }.

Definition cmos_read (reg : Z) : prog plat Z := outb CMOS_PORT reg;;; inb CMOS_RETURN.

Definition fill_rtcdate : prog plat rtcdate :=
  second <- cmos_read 0x00;;
  minute <- cmos_read 0x02;;
  hour <- cmos_read 0x04;;
  day <- cmos_read 0x07;;
  month <- cmos_read 0x08;;
  year <- cmos_read 0x09;;
  ret (Rtcdate second minute hour day month year).

Definition date_eqb (a b : rtcdate) : bool :=
  (second a =? second b) && (minute a =? minute b) && (hour a =? hour b) && (day a =? day b) && (month a =? month b) && (year a =? year b).

(** The macro CONV. *)
Definition conv (x : Z) : Z := u32 (Z.shiftr x 4 * 10 + Z.land x 0xf).

Definition cmostime (fuel : nat) : prog plat rtcdate :=
  sb <- cmos_read CMOS_STATB;;
  let bcd := Z.land sb 4 =? 0 in
  t1 <- repeat_until fuel (
    t1 <- fill_rtcdate;;
    a <- cmos_read CMOS_STATA;;
    if negb (Z.land a CMOS_UIP =? 0) then ret None else
    t2 <- fill_rtcdate;;
    if date_eqb t1 t2 then ret (Some t1) else ret None);;
  let t1 :=
    if bcd then Rtcdate (conv (second t1)) (conv (minute t1)) (conv (hour t1)) (conv (day t1)) (conv (month t1)) (conv (year t1))
    else t1 in
  ret (Rtcdate (second t1) (minute t1) (hour t1) (day t1) (month t1) (u32 (year t1 + 2000))).

End Dev.
End Platform.
Import Platform.

(** ** The table of the processors *)

(** The entries of the configuration table; [rest] is what mpinit does not look at. *)
Inductive entry :=
| Eproc (apicid : Z) (rest : list Z)
| Eioapic (apicno : Z) (rest : list Z)
| Eother (type : Z) (rest : list Z).

Definition entry_bytes (e : entry) : list Z :=
  match e with
  | Eproc id rest => MPPROC :: id :: rest
  | Eioapic no rest => MPIOAPIC :: no :: rest
  | Eother type rest => type :: rest
  end.

Definition entry_ok (e : entry) : Prop :=
  match e with
  | Eproc _ rest => length rest = 18%nat
  | Eioapic _ rest => length rest = 6%nat
  | Eother type rest => type ∈ [MPBUS; MPIOINTR; MPLINTR] /\ length rest = 7%nat
  end.

Definition processors (es : list entry) : list Z := omap (fun e => match e with Eproc id _ => Some id | _ => None end) es.
Definition ioapics (es : list entry) : list Z := omap (fun e => match e with Eioapic no _ => Some no | _ => None end) es.

Definition stored_at (m : mem) (a : Z) (l : list Z) : Prop := forall i x, l !! i = Some x -> m (a + Z.of_nat i) = x.

Lemma stored_at_app m a l1 l2 : stored_at m a (l1 ++ l2) -> stored_at m a l1 /\ stored_at m (a + Z.of_nat (length l1)) l2.
Proof.
  intros H. split; intros i x Hi.
  - apply H. by apply lookup_app_l_Some.
  - rewrite <- Z.add_assoc, <- Nat2Z.inj_add. apply H. rewrite lookup_app_r by lia. by rewrite Nat.add_comm, Nat.add_sub.
Qed.

(** What an entry does to the globals. *)
Definition note (s : plat) (e : entry) : plat :=
  match e with
  | Eproc id _ => if ncpu s <? Z.of_nat NCPU then add_cpu id s else s
  | Eioapic no _ => set_ioapicid no s
  | Eother _ _ => s
  end.

Lemma note_mem s e : p_mem (note s e) = p_mem s.
Proof. destruct e; cbn; [by destruct (_ <? _)|done|done]. Qed.

Lemma mp_entries_run es rounds p s : Forall entry_ok es -> stored_at (p_mem s) p (concat (map entry_bytes es)) -> (length es <= rounds)%nat ->
  mp_entries rounds p (p + Z.of_nat (length (concat (map entry_bytes es)))) s = Ret tt (fold_left note es s).
Proof.
  revert rounds p s. induction es as [|e es IH]; intros rounds p s Hok Hm Hr.
  - destruct rounds; cbn [mp_entries map concat length]; by rewrite (proj2 (Z.ltb_ge _ _)) by lia.
  - apply Forall_cons_1 in Hok as [He Hok]. cbn [map concat] in *. apply stored_at_app in Hm as [Hm1 Hm2].
    destruct rounds as [|rounds]; [cbn in Hr; lia|]. rewrite length_app, Nat2Z.inj_add, Z.add_assoc.
    assert (0 < Z.of_nat (length (entry_bytes e))) by (destruct e; cbn [entry_bytes length]; lia).
    cbn [mp_entries]. rewrite (proj2 (Z.ltb_lt _ _)), bind_gets by lia. unfold load8, proc_apicid, ioapic_apicno, load8.
    assert (forall s', p_mem s' = p_mem s ->
      mp_entries rounds (p + Z.of_nat (length (entry_bytes e))) (p + Z.of_nat (length (entry_bytes e)) + Z.of_nat (length (concat (map entry_bytes es)))) s' =
      Ret tt (fold_left note es s')) as IH' by (intros s' E; apply IH; [done|by rewrite E|cbn in Hr; lia]).
    cbn [fold_left]. pose proof (IH' _ (note_mem s e)) as IHe. pose proof (fun i x H => Hm1 i x H) as Hb.
    destruct e as [id rest|no rest|type rest]; cbn [entry_ok entry_bytes length note] in *.
    + pose proof (Hb 0%nat MPPROC eq_refl) as Ht0. rewrite Z.add_0_r in Ht0. rewrite Ht0, (Hb 1%nat id eq_refl : p_mem s (p + 1) = id), He in *.
      cbn [Z.eqb MPPROC]. rewrite bind_gets. destruct (ncpu s <? Z.of_nat NCPU); [rewrite bind_modify|rewrite bind_ret]; exact IHe.
    + pose proof (Hb 0%nat MPIOAPIC eq_refl) as Ht0. rewrite Z.add_0_r in Ht0. rewrite Ht0, (Hb 1%nat no eq_refl : p_mem s (p + 1) = no), He in *.
      change (MPIOAPIC =? MPPROC) with false. change (MPIOAPIC =? MPIOAPIC) with true. cbv iota. rewrite bind_modify. exact IHe.
    + destruct He as [Ht He]. pose proof (Hb 0%nat type eq_refl) as Ht0. rewrite Z.add_0_r in Ht0. rewrite Ht0, He. rewrite He in IHe.
      apply elem_of_cons in Ht as [->|[->|[->|[]%not_elem_of_nil]%elem_of_cons]%elem_of_cons]; exact IHe.
Qed.

(** The globals after the entries [es], from a state with no processor yet. *)
Record noted (s s' : plat) (es : list entry) : Prop := Noted {
  no_mem : p_mem s' = p_mem s;
  no_lapic : lapic s' = lapic s;
  no_ncpu : ncpu s' = Z.of_nat (length (take NCPU (processors es)));
  no_cpus : length (cpus s') = NCPU /\ take (length (take NCPU (processors es))) (cpus s') = take NCPU (processors es);
  no_ioapic : ioapicid s' = default (ioapicid s) (last (ioapics es));
  no_rest : warned s' = warned s /\ fl_if s' = fl_if s /\ accesses s' = accesses s
}.

Lemma noted_step s s' es e : noted s s' es -> noted s (note s' e) (es ++ [e]).
Proof.
  intros [N1 N2 N3 [N4 N5] N6 N7].
  assert (processors (es ++ [e]) = processors es ++ processors [e] /\ ioapics (es ++ [e]) = ioapics es ++ ioapics [e]) as [Ep Ei]
    by (unfold processors, ioapics; by rewrite !omap_app).
  pose proof N3 as N3'. rewrite length_take in N3. destruct e as [id rest|no rest|type rest]; cbn [note].
  - destruct (Z.ltb_spec (ncpu s') (Z.of_nat NCPU)) as [Hlt|Hge].
    + assert (length (processors es) < NCPU)%nat as Hl by lia. rewrite (take_ge (processors es)) in N5 by lia.
      split; rewrite ?Ep, ?Ei; cbn [add_cpu p_mem lapic cpus ncpu ioapicid warned fl_if accesses]; try done.
      * rewrite (take_ge (_ ++ _)) by (rewrite length_app; change (length (processors [Eproc id rest])) with 1%nat; lia). rewrite length_app. cbn. lia.
      * rewrite length_insert. split; [done|]. rewrite (take_ge (_ ++ _)) by (rewrite length_app; change (length (processors [Eproc id rest])) with 1%nat; lia). rewrite length_app. cbn [length processors omap list_omap].
        replace (Z.to_nat (ncpu s')) with (length (processors es)) by lia. rewrite Nat.add_1_r.
        rewrite (take_S_r _ _ id) by (by rewrite list_lookup_insert_eq by lia). rewrite take_insert_ge by lia. by rewrite N5.
      * by rewrite app_nil_r.
    + split; rewrite ?Ep, ?Ei; try done.
      * rewrite length_take, length_app. change (length (processors [Eproc id rest])) with 1%nat. lia.
      * split; [done|]. assert (NCPU <= length (processors es))%nat by lia. rewrite take_app_le by done. done.
      * by rewrite app_nil_r.
  - split; rewrite ?Ep, ?Ei; cbn [set_ioapicid p_mem lapic cpus ncpu ioapicid warned fl_if accesses]; rewrite ?app_nil_r; try done.
    change (ioapics [Eioapic no rest]) with [no]. by rewrite last_snoc.
  - split; rewrite ?Ep, ?Ei, ?app_nil_r; done.
Qed.

Lemma noted_all s es : ncpu s = 0 -> length (cpus s) = NCPU -> noted s (fold_left note es s) es.
Proof.
  intros H0 Hl. induction es as [|e es IH] using rev_ind.
  - split; try done.
  - rewrite fold_left_app. by apply noted_step.
Qed.

Section Machine.
Context `{Devices}.

(** A description of the machine: an MP structure whose table has the entries [es]. *)
Record described (m : mem) (mp conf : Z) (es : list entry) : Prop := Described {
  de_conf : mpconfig m = Some (mp, conf);
  de_ok : Forall entry_ok es;
  de_bytes : stored_at m (conf + sizeof_mpconf) (concat (map entry_bytes es));
  de_length : conf_length m conf = sizeof_mpconf + Z.of_nat (length (concat (map entry_bytes es)))
}.

Lemma entries_long es : Forall entry_ok es -> (length es <= length (concat (map entry_bytes es)))%nat.
Proof.
  induction 1 as [|e es He _ IH]; [done|]. cbn [map concat length]. rewrite length_app.
  destruct e; cbn [entry_bytes length]; lia.
Qed.

Lemma mpinit_run s mp conf es : described (p_mem s) mp conf es ->
  exists acc, mpinit s = Ret tt (let s' := fold_left note es (set_lapic (P2V (conf_lapicaddr_p (p_mem s) conf)) s) in
    Plat (p_mem s') (lapic s') (cpus s') (ncpu s') (ioapicid s') (warned s') (fl_if s') acc).
Proof.
  intros [D1 D2 D3 D4]. unfold mpinit. rewrite bind_gets, D1, bind_modify. pose proof (entries_long es D2).
  set (s1 := set_lapic _ s).
  assert (mp_entries (Z.to_nat (conf_length (p_mem s) conf)) (conf + sizeof_mpconf) (conf + conf_length (p_mem s) conf) s1 = Ret tt (fold_left note es s1)) as E.
  { rewrite D4, Z.add_assoc. apply mp_entries_run; [done|exact D3|]. unfold sizeof_mpconf. lia. }
  mret E. rewrite bind_gets. unfold access at 1. rewrite bind_modify. destruct (negb _); [|by eexists].
  eexists. unfold outb, inb, access, modify, gets, bind. reflexivity.
Qed.

Lemma loads_nonneg n m a : bytes_ok m -> 0 <= load_le n m a < 256 ^ Z.of_nat n.
Proof.
  intros Hb. revert a. induction n as [|n IH]; intros a; [cbn; lia|]. cbn [load_le]. specialize (IH (a + 1)). pose proof (Hb a).
  rewrite Nat2Z.inj_succ, Z.pow_succ_r by lia. lia.
Qed.

Lemma cpunum_run caller m l c (n : nat) io w acc i id low : l <> 0 -> (length c = NCPU)%nat -> (n <= NCPU)%nat -> 0 <= low < 16777216 ->
  take n c !! i = Some id -> NoDup (take n c) -> dev_read (acc ++ [LapicR ID]) = id * 16777216 + low ->
  cpunum caller (Plat m l c (Z.of_nat n) io w false acc) = Ret (Z.of_nat i) (Plat m l c (Z.of_nat n) io w false (acc ++ [LapicR ID])).
Proof.
  intros Hl Hc Hn Hlow Hi Hnd Hd. unfold cpunum. rewrite bind_gets. cbn [fl_if]. rewrite bind_ret, bind_gets. cbn [lapic].
  rewrite (proj2 (Z.eqb_neq l 0) Hl). unfold lapicr, access. rewrite bind_assoc, bind_modify, bind_gets. cbn [p_mem lapic cpus ncpu ioapicid warned fl_if accesses].
  rewrite Hd, bind_gets. cbn [ncpu]. rewrite Z.shiftr_div_pow2 by lia. replace ((id * 16777216 + low) / 2 ^ 24) with id by (change (2 ^ 24) with 16777216; Z.div_mod_to_equations; lia).
  pose proof (lookup_lt_Some _ _ _ Hi) as Hin. rewrite length_take in Hin.
  assert (forall j x, take n c !! j = Some x -> nth j c 0 = x) as Hnth.
  { intros j x Hj. apply lookup_take_Some in Hj as [Hj _]. by apply nth_lookup_Some with (d := 0) in Hj. }
  set (s2 := Plat _ _ _ _ _ _ _ _).
  assert (for_break (seqZ 0 (Z.of_nat n)) (fun i => id0 <- gets (fun s => nth (Z.to_nat i) (cpus s) 0);; (if id0 =? id then ret (Some i) else ret None)) s2 =
    Ret (Some (Z.of_nat i)) s2) as E; [|by mret E].
  replace (Z.of_nat n) with (Z.of_nat i + Z.succ (Z.of_nat n - Z.of_nat i - 1)) by lia.
  rewrite seqZ_app, Z.add_0_l, (seqZ_cons (Z.of_nat i)) by lia. apply for_break_first.
  - intros j Hj. apply elem_of_seqZ in Hj. rewrite bind_gets. cbn [cpus s2].
    destruct (lookup_lt_is_Some_2 (take n c) (Z.to_nat j)) as [x Hx]; [rewrite length_take; lia|]. rewrite (Hnth _ _ Hx).
    destruct (Z.eqb_spec x id) as [->|]; [|done]. exfalso. pose proof (NoDup_lookup _ _ _ _ Hnd Hx Hi). lia.
  - rewrite bind_gets. cbn [cpus s2]. rewrite Nat2Z.id, (Hnth _ _ Hi). by rewrite Z.eqb_refl.
Qed.

(** C39: mpinit reads the description that the firmware has left in memory.  It ends, for
    every table of known entries, with the local APIC's address from the table, with the
    processors of the table in its order, as many as the kernel has room for, and with the
    last I/O APIC; and then cpunum, called with interrupts off on the i-th of these
    processors, whose local APIC has the number in the table, returns i. *)
Theorem mpinit_numbers_cpus s mp conf es : described (p_mem s) mp conf es -> bytes_ok (p_mem s) -> ncpu s = 0 -> length (cpus s) = NCPU ->
  exists s', mpinit s = Ret tt s' /\ p_mem s' = p_mem s /\ lapic s' = P2V (conf_lapicaddr_p (p_mem s) conf) /\
    ncpu s' = Z.of_nat (length (take NCPU (processors es))) /\ ioapicid s' = default (ioapicid s) (last (ioapics es)) /\
    forall caller i id low acc, take NCPU (processors es) !! i = Some id -> NoDup (take NCPU (processors es)) -> 0 <= low < 16777216 ->
      dev_read (acc ++ [LapicR ID]) = id * 16777216 + low ->
      cpunum caller (Plat (p_mem s') (lapic s') (cpus s') (ncpu s') (ioapicid s') (warned s') false acc) =
      Ret (Z.of_nat i) (Plat (p_mem s') (lapic s') (cpus s') (ncpu s') (ioapicid s') (warned s') false (acc ++ [LapicR ID])).
Proof.
  intros D Hb H0 Hl. destruct (mpinit_run s mp conf es D) as [acc E]. cbv zeta in E. set (s1 := set_lapic _ s) in E.
  pose proof (noted_all s1 es H0 Hl) as [N1 N2 N3 [N4 N5] N6 _]. set (s2 := fold_left note es s1) in *.
  eexists. split; [exact E|]. cbn [p_mem lapic cpus ncpu ioapicid warned fl_if accesses]. split_and!; [by rewrite N1|by rewrite N2|done|done|].
  intros caller i id low acc2 Hi Hnd Hlow Hd. rewrite N3. apply cpunum_run with (id := id) (low := low); try done.
  - rewrite N2. unfold s1, conf_lapicaddr_p, load32. cbn [set_lapic lapic]. pose proof (loads_nonneg 4 (p_mem s) (conf + 36) Hb) as Hr.
    change (256 ^ Z.of_nat 4) with 4294967296 in Hr. unfold P2V, KERNBASE. rewrite u64_small by lia. lia.
  - rewrite length_take. lia.
  - by rewrite N5.
  - by rewrite N5.
Qed.

(** ** The registers of the I/O APIC *)

(** The selected register and the contents of all of them after some accesses. *)
Definition ioapic_step (st : Z * (Z -> Z)) (a : io) : Z * (Z -> Z) :=
  match a with
  | IoapicReg v => (v, snd st)
  | IoapicDataW v => (fst st, fun r => if r =? fst st then v else snd st r)
  | _ => st
  end.
Definition ioapic_regs (r0 : Z -> Z) (acc : list io) : Z -> Z := snd (fold_left ioapic_step acc (0, r0)).

Lemma ioapicwrite_run reg data s r0 : 0 <= reg < 4294967296 -> 0 <= data < 4294967296 ->
  exists s', ioapicwrite reg data s = Ret tt s' /\ ioapicid s' = ioapicid s /\
    forall r, ioapic_regs r0 (accesses s') r = if r =? reg then data else ioapic_regs r0 (accesses s) r.
Proof.
  intros Hr Hd. eexists. unfold ioapicwrite, access. rewrite bind_modify. split; [reflexivity|]. split; [done|].
  intros r. cbn [accesses]. rewrite !u32_small by done. unfold ioapic_regs. rewrite !fold_left_app. done.
Qed.

Lemma mask_entry i : 0 <= i < 256 -> Z.lor INT_DISABLED (T_IRQ0 + i) = INT_DISABLED + T_IRQ0 + i.
Proof.
  intros Hi. rewrite <- Z.add_assoc. symmetry. rewrite Z.add_nocarry_lxor, Z.lxor_lor; try done; unfold INT_DISABLED, T_IRQ0.
  all: change 65536 with (Z.shiftl 1 16); apply Z.bits_inj'; intros k Hk; rewrite Z.land_spec, Z.bits_0, Z.shiftl_spec by lia.
  all: destruct (Z.eq_dec k 16) as [->|Hne]; [rewrite (Z.bits_above_log2 (32 + i) 16); [apply andb_false_r|lia|apply Z.log2_lt_pow2; lia]|].
  all: replace (Z.testbit 1 (k - 16)) with false; [done|]; symmetry; destruct (Z.ltb_spec k 16); [apply Z.testbit_neg_r; lia|apply Z.bits_above_log2; cbn; lia].
Qed.

Lemma ioapicinit_loop (n : nat) s r0 : (n <= 256)%nat -> exists s',
  for_each (seqZ 0 (Z.of_nat n)) (fun i => ioapicwrite (REG_TABLE + 2 * i) (Z.lor INT_DISABLED (T_IRQ0 + i));;; ioapicwrite (REG_TABLE + 2 * i + 1) 0) s = Ret tt s' /\
  forall i, 0 <= i < Z.of_nat n -> ioapic_regs r0 (accesses s') (REG_TABLE + 2 * i) = INT_DISABLED + T_IRQ0 + i /\
    ioapic_regs r0 (accesses s') (REG_TABLE + 2 * i + 1) = 0.
Proof.
  induction n as [|n IH]; intros Hn; [exists s; split; [done|lia]|].
  destruct (IH ltac:(lia)) as (s1 & E1 & H1). replace (Z.of_nat (S n)) with (Z.of_nat n + 1) by lia. rewrite seqZ_app by lia.
  change (seqZ (0 + Z.of_nat n) 1) with [Z.of_nat n]. unfold REG_TABLE, INT_DISABLED, T_IRQ0 in *.
  destruct (ioapicwrite_run (16 + 2 * Z.of_nat n) (65536 + 32 + Z.of_nat n) s1 r0 ltac:(lia) ltac:(lia)) as (s2 & E2 & _ & R2).
  destruct (ioapicwrite_run (16 + 2 * Z.of_nat n + 1) 0 s2 r0 ltac:(lia) ltac:(lia)) as (s3 & E3 & _ & R3).
  exists s3. split.
  - rewrite for_each_app. mret E1. cbn [for_each]. pose proof (mask_entry (Z.of_nat n) ltac:(lia)) as Em. unfold INT_DISABLED, T_IRQ0 in Em. rewrite Em.
    rewrite bind_assoc. mret E2. by mret E3.
  - intros i Hi. rewrite !R3, !R2. destruct (Z.eq_dec i (Z.of_nat n)) as [->|Hne].
    + rewrite Z.eqb_refl. destruct (Z.eqb_spec (16 + 2 * Z.of_nat n) (16 + 2 * Z.of_nat n + 1)); [lia|]. by rewrite Z.eqb_refl.
    + rewrite !(proj2 (Z.eqb_neq _ _)) by lia. apply H1. lia.
Qed.

(** After ioapicinit every one of the [maxintr + 1] entries of the redirection table of
    the I/O APIC has its own vector and is masked, with no destination; ioapicenable then
    unmasks just the entry of its interrupt and sends it to the local APIC it names. *)
Theorem ioapic_masks_then_routes s r0 irq cpu :
  let maxintr := Z.land (Z.shiftr (dev_read (accesses s ++ [IoapicReg 1; IoapicDataR])) 16) 0xFF in
  0 <= irq <= maxintr -> 0 <= cpu < 256 ->
  exists s1 s2, ioapicinit s = Ret tt s1 /\ ioapicenable irq cpu s1 = Ret tt s2 /\
    (forall i, 0 <= i <= maxintr -> ioapic_regs r0 (accesses s1) (REG_TABLE + 2 * i) = INT_DISABLED + T_IRQ0 + i /\
       ioapic_regs r0 (accesses s1) (REG_TABLE + 2 * i + 1) = 0) /\
    ioapic_regs r0 (accesses s2) (REG_TABLE + 2 * irq) = T_IRQ0 + irq /\
    ioapic_regs r0 (accesses s2) (REG_TABLE + 2 * irq + 1) = cpu * 16777216 /\
    (forall r, r <> REG_TABLE + 2 * irq -> r <> REG_TABLE + 2 * irq + 1 -> ioapic_regs r0 (accesses s2) r = ioapic_regs r0 (accesses s1) r).
Proof.
  intros maxintr Hirq Hcpu. assert (0 <= maxintr < 256) as Hm.
  { unfold maxintr. change 0xFF with (Z.ones 8). rewrite Z.land_ones by lia. apply Z.mod_pos_bound. lia. }
  unfold ioapicinit, ioapicread, access. rewrite bind_assoc, bind_modify, bind_assoc, bind_modify, bind_gets.
  cbn [p_mem lapic cpus ncpu ioapicid warned fl_if accesses]. rewrite <- app_assoc. cbn [app]. change (u32 REG_VER) with 1. fold maxintr.
  rewrite bind_assoc, bind_modify, bind_assoc, bind_modify, bind_gets, bind_gets. cbn [p_mem lapic cpus ncpu ioapicid warned fl_if accesses].
  set (s0 := Plat _ _ _ _ _ _ _ _). set (c := negb _).
  assert (exists s0', (if c then modify (fun s => Plat (p_mem s) (lapic s) (cpus s) (ncpu s) (ioapicid s) (warned s) (fl_if s)
    (accesses s ++ [Cprintf "ioapicinit: id isn't equal to ioapicid; not a MP" []])) else ret tt) s0 = Ret tt s0') as [s0' E0] by (destruct c; by eexists).
  destruct (ioapicinit_loop (Z.to_nat (maxintr + 1)) s0' r0 ltac:(lia)) as (s1 & E1 & H1). rewrite Z2Nat.id in E1, H1 by lia.
  unfold REG_TABLE, T_IRQ0 in *.
  destruct (ioapicwrite_run (16 + 2 * irq) (32 + irq) s1 r0 ltac:(lia) ltac:(lia)) as (s2 & E2 & _ & R2).
  destruct (ioapicwrite_run (16 + 2 * irq + 1) (cpu * 16777216) s2 r0 ltac:(lia) ltac:(lia)) as (s3 & E3 & _ & R3).
  exists s1, s3. split_and!.
  - mret E0. exact E1.
  - unfold ioapicenable. mret E2. rewrite Z.shiftl_mul_pow2 by lia. exact E3.
  - intros i Hi. apply H1. lia.
  - rewrite R3, R2. rewrite (proj2 (Z.eqb_neq _ _)) by lia. by rewrite Z.eqb_refl.
  - by rewrite R3, Z.eqb_refl.
  - intros r N1 N2. by rewrite R3, R2, !(proj2 (Z.eqb_neq _ _)).
Qed.

(** ** The clock *)

(** How the clock shows the number [x], in decimal digits or as it is. *)
Definition shows (bcd : bool) (x : Z) : Z := if bcd then 16 * (x / 10) + x mod 10 else x.

Lemma conv_shows x : 0 <= x < 100 -> conv (shows true x) = x.
Proof.
  intros Hx. unfold conv, shows. rewrite Z.shiftr_div_pow2 by lia. change 0xf with (Z.ones 4). rewrite Z.land_ones by lia.
  change (2 ^ 4) with 16. rewrite u32_small; Z.div_mod_to_equations; lia.
Qed.

(** A clock that shows [t] and is not being updated. *)
Record clock_at (bcd : bool) (t : rtcdate) : Prop := Clock_at {
  ck_second : forall h, dev_read (h ++ [OutB 0x70 0x00; InB 0x71]) = shows bcd (second t);
  ck_minute : forall h, dev_read (h ++ [OutB 0x70 0x02; InB 0x71]) = shows bcd (minute t);
  ck_hour : forall h, dev_read (h ++ [OutB 0x70 0x04; InB 0x71]) = shows bcd (hour t);
  ck_day : forall h, dev_read (h ++ [OutB 0x70 0x07; InB 0x71]) = shows bcd (day t);
  ck_month : forall h, dev_read (h ++ [OutB 0x70 0x08; InB 0x71]) = shows bcd (month t);
  ck_year : forall h, dev_read (h ++ [OutB 0x70 0x09; InB 0x71]) = shows bcd (year t);
  ck_stata : forall h, Z.land (dev_read (h ++ [OutB 0x70 0x0a; InB 0x71])) CMOS_UIP = 0;
  ck_statb : forall h, (Z.land (dev_read (h ++ [OutB 0x70 0x0b; InB 0x71])) 4 =? 0) = bcd
}.

Definition more (s : plat) (acc : list io) : plat :=
  Plat (p_mem s) (lapic s) (cpus s) (ncpu s) (ioapicid s) (warned s) (fl_if s) (accesses s ++ acc).

Lemma cmos_read_run reg s : 0 <= reg < 256 -> cmos_read reg s =
  Ret (dev_read (accesses s ++ [OutB 0x70 reg; InB 0x71])) (more s [OutB 0x70 reg; InB 0x71]).
Proof.
  intros Hr. unfold cmos_read, outb, inb, access, more. rewrite bind_modify, bind_modify. unfold gets. cbn [p_mem lapic cpus ncpu ioapicid warned fl_if accesses].
  rewrite <- app_assoc. unfold u8. by rewrite Z.mod_small.
Qed.

Lemma fill_rtcdate_run bcd t s : clock_at bcd t -> exists s', fill_rtcdate s =
  Ret (Rtcdate (shows bcd (second t)) (shows bcd (minute t)) (shows bcd (hour t)) (shows bcd (day t)) (shows bcd (month t)) (shows bcd (year t))) s'.
Proof.
  intros C. eexists. unfold fill_rtcdate. rewrite (bind_Ret _ _ _ _ _ (cmos_read_run 0x00 s ltac:(lia))), (ck_second _ _ C).
  do 5 (erewrite bind_Ret by (apply cmos_read_run; lia)).
  rewrite (ck_minute _ _ C), (ck_hour _ _ C), (ck_day _ _ C), (ck_month _ _ C), (ck_year _ _ C). reflexivity.
Qed.

(** A clock that is not being updated is read in one round, as the date that it shows. *)
Lemma cmostime_reads_clock bcd t s fuel : clock_at bcd t ->
  Forall (fun x => 0 <= x < 100) [second t; minute t; hour t; day t; month t; year t] ->
  exists s', cmostime (S fuel) s = Ret (Rtcdate (second t) (minute t) (hour t) (day t) (month t) (year t + 2000)) s'.
Proof.
  intros C Ht. repeat (apply Forall_cons_1 in Ht as [? Ht]). unfold cmostime. mret (cmos_read_run CMOS_STATB s ltac:(unfold CMOS_STATB; lia)).
  change CMOS_STATB with 0x0b. rewrite (ck_statb _ _ C). set (s1 := more s _).
  destruct (fill_rtcdate_run bcd t s1 C) as [s2 E2]. set (t' := Rtcdate (shows bcd (second t)) _ _ _ _ _) in *.
  destruct (fill_rtcdate_run bcd t (more s2 [OutB 0x70 0x0a; InB 0x71]) C) as [s4 E4]. fold t' in E4.
  eexists. erewrite bind_Ret.
  2:{ cbn [repeat_until]. erewrite bind_Ret; [|mret E2; mret (cmos_read_run CMOS_STATA s2 ltac:(unfold CMOS_STATA; lia)); change CMOS_STATA with 0x0a;
        rewrite (ck_stata _ _ C); change (negb (0 =? 0)) with false; cbv iota; mret E4; unfold date_eqb; rewrite !Z.eqb_refl; reflexivity]. reflexivity. }
  unfold ret. f_equal. unfold t'. destruct bcd; cbn [second minute hour day month year].
  - rewrite !conv_shows, u32_small by lia. done.
  - cbn [shows]. rewrite u32_small by lia. done.
Qed.

End Machine.

(** ** A machine with three processors *)

Lemma stored_at_read m a l : read_list m a (length l) = l -> stored_at m a l.
Proof.
  intros E i x Hi. pose proof (lookup_lt_Some _ _ _ Hi) as Hl. rewrite <- (nth_read_list m a (length l) i Hl), E.
  by apply nth_lookup_Some with (d := 0) in Hi.
Qed.

(** The list with its byte [k] set so that the sum of all bytes is 0. *)
Definition summed (k : nat) (l : list Z) : list Z := <[k := (256 - foldr Z.add 0 l mod 256) mod 256]> l.

Definition three_cpus : list entry :=
  [Eproc 0 (replicate 18 0); Eother MPBUS (replicate 7 9); Eproc 4 (replicate 18 0); Eioapic 2 (replicate 6 0); Eproc 2 (replicate 18 0); Eother MPLINTR (replicate 7 1)].

Definition firmware : mem :=
  let conf := lit "PCMP" ++ [128; 0; 4; 0] ++ replicate 28 0 ++ [0; 0; 224; 254] ++ replicate 4 0 ++ concat (map entry_bytes three_cpus) in
  at_list (P2V 0x40E) [0; 144]
    (at_list (P2V 0x90010) (summed 10 (lit "_MP_" ++ [0; 16; 9; 0; 1; 4; 0; 0; 128; 0; 0; 0]))
      (at_list (P2V 0x91000) (summed 7 conf) (fun _ => 0))).

Lemma firmware_bytes : bytes_ok firmware.
Proof. repeat (apply at_list_bytes; [vm_compute; repeat constructor; discriminate|]). intros x. lia. Qed.

Lemma firmware_described : described firmware (P2V 0x90010) (P2V 0x91000) three_cpus.
Proof.
  split.
  - vm_compute. reflexivity.
  - repeat constructor; try done; by apply (bool_decide_unpack _).
  - apply stored_at_read. vm_compute. reflexivity.
  - vm_compute. reflexivity.
Qed.

Definition second_cpu : Devices := {| dev_read _ := 4 * 16777216 |}.

Lemma mpinit_numbers_cpus_witness : exists s',
  @mpinit second_cpu (Plat firmware 0 (replicate 8 0) 0 0 0 false []) = Ret tt s' /\
  lapic s' = P2V 0xFEE00000 /\ ncpu s' = 3 /\ ioapicid s' = 2 /\
  @cpunum second_cpu 0 (Plat firmware (lapic s') (cpus s') (ncpu s') (ioapicid s') (warned s') false []) =
    Ret 1 (Plat firmware (lapic s') (cpus s') (ncpu s') (ioapicid s') (warned s') false [LapicR ID]).
Proof.
  destruct (@mpinit_numbers_cpus second_cpu (Plat firmware 0 (replicate 8 0) 0 0 0 false []) _ _ _ firmware_described firmware_bytes eq_refl eq_refl)
    as (s' & E & Em & El & En & Ei & Hc).
  exists s'. split_and!; [exact E| | | |].
  - rewrite El. vm_compute. reflexivity.
  - rewrite En. reflexivity.
  - rewrite Ei. reflexivity.
  - cbn [p_mem] in Em. rewrite <- Em. apply (Hc 0 1%nat 4 0 []); [reflexivity|by apply (bool_decide_unpack _)|lia|reflexivity].
Defined.

Definition io_apic_24 : Devices := {| dev_read _ := 0x170011 |}.

Lemma ioapic_masks_then_routes_witness : exists s1 s2,
  @ioapicinit io_apic_24 (Plat firmware 0 (replicate 8 0) 0 0 0 false []) = Ret tt s1 /\ ioapicenable 1 3 s1 = Ret tt s2 /\
  ioapic_regs (fun _ => 0) (accesses s1) 18 = 0x10021 /\ ioapic_regs (fun _ => 0) (accesses s2) 18 = 0x21 /\
  ioapic_regs (fun _ => 0) (accesses s2) 19 = 0x3000000.
Proof.
  destruct (@ioapic_masks_then_routes io_apic_24 (Plat firmware 0 (replicate 8 0) 0 0 0 false []) (fun _ => 0) 1 3) as (s1 & s2 & E1 & E2 & H1 & H2 & H3 & _).
  - vm_compute. split; discriminate.
  - lia.
  - exists s1, s2. split_and!; [exact E1|exact E2| |exact H2|exact H3]. apply (H1 1). vm_compute. split; discriminate.
Defined.
