(* ===== verification/Ports.v ===== *)
(** * Ports: the disk controller (ide.c) and the serial port (uart.c) at their registers

    Bio and Console describe these devices as the kernel uses them, a disk of blocks and
    a line of bytes.  Here are the accesses to the registers by which the drivers get there, and a
    proof that they amount to these descriptions for devices that behave as documented. *)

From S2P Require Import Prelude Machine Cstring Layout Sched Bio Ide Platform.
#[local] Open Scope prog_scope.
Import Platform.

(** The 32-bit words of a buffer, and back. *)
Fixpoint to_words (l : list Z) : list Z :=
  match l with a :: b :: c :: d :: l => a + 256 * b + 65536 * c + 16777216 * d :: to_words l | _ => [] end.
Fixpoint to_bytes (ws : list Z) : list Z :=
  match ws with [] => [] | w :: ws => [w mod 256; w / 256 mod 256; w / 65536 mod 256; w / 16777216 mod 256] ++ to_bytes ws end.

Section Drivers.
Context `{Devices}.

(** x86.h, for the sizes that the disk driver uses. *)
Definition outsl (port : Z) (data : list Z) : prog plat unit := for_each (to_words data) (fun w => access (OutL port w)).
Fixpoint insl (port : Z) (cnt : nat) : prog plat (list Z) :=
  match cnt with
  | O => ret []
  | S cnt => access (InL port);;; w <- gets (fun s => dev_read (accesses s));; l <- insl port cnt;; ret (to_bytes [u32 w] ++ l)
  end.

(** ** ide.c *)

Definition SECTOR_SIZE : Z := 512.
Definition IDE_BSY : Z := 0x80.
Definition IDE_DRDY : Z := 0x40.
Definition IDE_DF : Z := 0x20.
Definition IDE_ERR : Z := 0x01.
Definition IDE_CMD_READ : Z := 0x20.
Definition IDE_CMD_WRITE : Z := 0x30.
Definition IDE_CMD_RDMUL : Z := 0xc4.
Definition IDE_CMD_WRMUL : Z := 0xc5.

Definition idewait (fuel : nat) (checkerr : bool) : prog plat Z :=
  r <- repeat_until fuel (
    r <- inb 0x1f7;;
    ret (if negb (Z.land r (Z.lor IDE_BSY IDE_DRDY) =? IDE_DRDY) then None else Some r));;
  if checkerr && negb (Z.land r (Z.lor IDE_DF IDE_ERR) =? 0) then ret (-1) else ret 0.

(** ideinit behind initlock; the result is havedisk1. *)
Definition ide_probe (fuel : nat) : prog plat Z :=
  n <- gets ncpu;;
  ioapicenable 14 (n - 1);;;
  idewait fuel false;;;
  outb 0x1f6 (Z.lor 0xe0 (Z.shiftl 1 4));;;
  r <- for_break (seq 0 1000) (fun _ =>
    r <- inb 0x1f7;;
    ret (if negb (r =? 0) then Some 1 else None));;
  outb 0x1f6 (Z.lor 0xe0 (Z.shiftl 0 4));;;
  ret (match r with Some h => h | None => 0 end).

Definition ide_start (fuel : nat) (b : buf) : prog plat unit :=
  if b_blockno b >=? FSSIZE then panic "incorrect blockno" else
  let sector_per_block := BSIZE / SECTOR_SIZE in
  let sector := i32 (u32 (b_blockno b * sector_per_block)) in
  let read_cmd := if sector_per_block =? 1 then IDE_CMD_READ else IDE_CMD_RDMUL in
  let write_cmd := if sector_per_block =? 1 then IDE_CMD_WRITE else IDE_CMD_WRMUL in
  if sector_per_block >? 7 then panic "idestart" else
  idewait fuel false;;;
  outb 0x3f6 0;;;
  outb 0x1f2 sector_per_block;;;
  outb 0x1f3 (Z.land sector 0xff);;;
  outb 0x1f4 (Z.land (Z.shiftr sector 8) 0xff);;;
  outb 0x1f5 (Z.land (Z.shiftr sector 16) 0xff);;;
  outb 0x1f6 (Z.lor (Z.lor 0xe0 (Z.shiftl (Z.land (b_dev b) 1) 4)) (Z.land (Z.shiftr sector 24) 0x0f));;;
  if negb (Z.land (b_flags b) B_DIRTY =? 0) then
    outb 0x1f7 write_cmd;;;
    outsl 0x1f0 (b_data b)
  else outb 0x1f7 read_cmd.

(** The memory disk of memide.c instead: ideinit takes its size from the linked image, and its interrupt
    handler does nothing; the image itself is the disk. *)
Definition memide_init (fs_img_size : Z) : Z := u32 fs_img_size / BSIZE.
Definition memide_intr : prog plat unit := ret tt.

(** The data of the buffer after [if(!(b->flags & B_DIRTY) && idewait(1) >= 0) insl(...)] in ideintr. *)
Definition ide_fetch (fuel : nat) (b : buf) : prog plat (list Z) :=
  if Z.land (b_flags b) B_DIRTY =? 0 then
    r <- idewait fuel true;;
    if r >=? 0 then insl 0x1f0 (Z.to_nat (BSIZE / 4)) else ret (b_data b)
  else ret (b_data b).

(** ** uart.c

    The variable uart is an argument, and the result of uartearlyinit. *)

Definition COM1 : Z := 0x3f8.

Definition uart_putc (uart c : Z) : prog plat unit :=
  if uart =? 0 then ret tt else
  for_break (seq 0 128) (fun _ => r <- inb (COM1 + 5);; ret (if Z.land r 0x20 =? 0 then None else Some tt));;;
  outb (COM1 + 0) c.

Definition uartearlyinit : prog plat Z :=
  outb (COM1 + 2) 0;;;
  outb (COM1 + 3) 0x80;;;
  outb (COM1 + 0) (115200 / 9600);;;
  outb (COM1 + 1) 0;;;
  outb (COM1 + 3) 0x03;;;
  outb (COM1 + 4) 0;;;
  outb (COM1 + 1) 0x01;;;
  r <- inb (COM1 + 5);;
  if r =? 0xFF then ret 0 else
  for_each (lit "xv6..." ++ [10]) (uart_putc 1);;;
  ret 1.

Definition uartinit (uart : Z) : prog plat unit :=
  if uart =? 0 then ret tt else
  inb (COM1 + 2);;;
  inb (COM1 + 0);;;
  ioapicenable 4 0.

Definition uartgetc (uart : Z) : prog plat Z :=
  if uart =? 0 then ret (-1) else
  r <- inb (COM1 + 5);;
  if Z.land r 0x01 =? 0 then ret (-1) else
  inb (COM1 + 0).

End Drivers.

(** ** A disk controller as documented

    The registers of a command, the command with its drive and address, the words of the
    sector moved so far, and the blocks of the two drives. *)
Record ata := Ata { a_reg : Z -> Z; a_cmd : Z; a_drive : Z; a_lba : Z; a_pos : nat; a_in : list Z; a_disk : Z -> Z -> list Z }.

Definition ata_lba (r : Z -> Z) : Z := r 0x1f3 + 256 * r 0x1f4 + 65536 * r 0x1f5 + 16777216 * Z.land (r 0x1f6) 0xf.
Definition ata_drive (r : Z -> Z) : Z := Z.land (Z.shiftr (r 0x1f6) 4) 1.
Definition set_block (drive lba : Z) (data : list Z) (d : Z -> Z -> list Z) : Z -> Z -> list Z :=
  fun i => if i =? drive then (fun k => if k =? lba then data else d i k) else d i.

Definition ata_step (a : ata) (x : io) : ata :=
  match x with
  | OutB p v =>
    if p =? 0x1f7 then Ata (a_reg a) v (ata_drive (a_reg a)) (ata_lba (a_reg a)) 0 [] (a_disk a)
    else Ata (fun q => if q =? p then v else a_reg a q) (a_cmd a) (a_drive a) (a_lba a) (a_pos a) (a_in a) (a_disk a)
  | OutL p w =>
    if (p =? 0x1f0) && (a_cmd a =? IDE_CMD_WRITE) && bool_decide (length (a_in a) < 128)%nat then
      let ws := a_in a ++ [w] in
      Ata (a_reg a) (a_cmd a) (a_drive a) (a_lba a) (a_pos a) ws
        (if bool_decide (length ws = 128%nat) then set_block (a_drive a) (a_lba a) (to_bytes ws) (a_disk a) else a_disk a)
    else a
  | InL p => if p =? 0x1f0 then Ata (a_reg a) (a_cmd a) (a_drive a) (a_lba a) (S (a_pos a)) (a_in a) (a_disk a) else a
  | _ => a
  end.
Definition ata_of (a0 : ata) (h : list io) : ata := fold_left ata_step h a0.

Definition ide_ready (r : Z) : bool := Z.land r (Z.lor IDE_BSY IDE_DRDY) =? IDE_DRDY.

(** The data port delivers the sector of a read command word by word, and after any accesses
    the controller is ready, without an error, after some polls of the status. *)
Record ata_device `{Devices} (a0 : ata) : Prop := Ata_device {
  ad_data : forall h, let a := ata_of a0 h in a_cmd a = IDE_CMD_READ ->
    dev_read (h ++ [InL 0x1f0]) = nth (a_pos a) (to_words (a_disk a (a_drive a) (a_lba a))) 0;
  ad_ready : forall h, exists k, (forall j, (j < k)%nat -> ide_ready (dev_read (h ++ replicate (S j) (InB 0x1f7))) = false) /\
    let r := dev_read (h ++ replicate (S k) (InB 0x1f7)) in ide_ready r = true /\ Z.land r (Z.lor IDE_DF IDE_ERR) = 0
}.

Lemma to_bytes_words n l : length l = (4 * n)%nat -> Forall (fun x => 0 <= x < 256) l -> to_bytes (to_words l) = l.
Proof.
  revert l. induction n as [|n IH]; intros l Hl Hb; [by destruct l|]. destruct l as [|a [|b [|c [|d l]]]]; cbn [length] in Hl; try lia.
  cbn [to_words to_bytes app]. repeat (apply Forall_cons_1 in Hb as [? Hb]). rewrite (IH l) by (done || lia).
  repeat f_equal; Z.div_mod_to_equations; lia.
Qed.

Lemma length_to_words n l : length l = (4 * n)%nat -> length (to_words l) = n.
Proof.
  revert l. induction n as [|n IH]; intros l Hl; [by destruct l|]. destruct l as [|a [|b [|c [|d l]]]]; cbn [length] in Hl; try lia.
  cbn. f_equal. apply IH. lia.
Qed.

Section Disk.
Context `{Devices}.

Lemma more_more s h1 h2 : more (more s h1) h2 = more s (h1 ++ h2).
Proof. unfold more. cbn. by rewrite app_assoc. Qed.

Lemma accesses_more s h : accesses (more s h) = accesses s ++ h.
Proof. done. Qed.

Lemma outb_run p v s : 0 <= v < 256 -> outb p v s = Ret tt (more s [OutB p v]).
Proof. intros Hv. unfold outb, access, u8. by rewrite Z.mod_small. Qed.

Lemma inb_run p s : inb p s = Ret (dev_read (accesses s ++ [InB p])) (more s [InB p]).
Proof. done. Qed.

Lemma idewait_run a0 (D : ata_device a0) c s : exists k, forall fuel, (k < fuel)%nat ->
  idewait fuel c s = Ret 0 (more s (replicate (S k) (InB 0x1f7))).
Proof.
  destruct (ad_ready a0 D (accesses s)) as (k & Hb & Hr & He). exists k. intros fuel Hf. unfold idewait.
  set (r := dev_read _) in Hr, He. erewrite (bind_Ret _ _ _ r).
  { rewrite He. cbn [Z.eqb negb]. rewrite andb_false_r. reflexivity. }
  clear He. unfold r in *. clear r. revert s fuel Hf Hb Hr. induction k as [|k IH]; intros s [|fuel] Hf Hb Hr; try lia; cbn [repeat_until].
  - rewrite bind_assoc. mret (inb_run 0x1f7 s). unfold ide_ready in Hr. cbn [replicate] in Hr. rewrite Hr. cbn [negb]. done.
  - rewrite bind_assoc. mret (inb_run 0x1f7 s). pose proof (Hb 0%nat ltac:(lia)) as H0. unfold ide_ready in H0. cbn [replicate] in H0. rewrite H0. cbn [negb].
    rewrite bind_ret.
    assert (forall j, accesses s ++ replicate (S (S j)) (InB 0x1f7) = accesses (more s [InB 0x1f7]) ++ replicate (S j) (InB 0x1f7)) as Ea
      by (intros j; rewrite accesses_more, <- app_assoc; done).
    rewrite (IH (more s [InB 0x1f7])); [by rewrite Ea, more_more|lia|intros j Hj; rewrite <- Ea; apply Hb; lia|by rewrite <- Ea].
Qed.

End Disk.

Lemma ata_of_app a0 h1 h2 : ata_of a0 (h1 ++ h2) = ata_of (ata_of a0 h1) h2.
Proof. apply fold_left_app. Qed.

Lemma ata_of_polls a n : ata_of a (replicate n (InB 0x1f7)) = a.
Proof. induction n; done. Qed.

(** The words of a write command reach the disk with the last one. *)
Lemma ata_of_words a ws k : a_cmd a = IDE_CMD_WRITE -> (length (a_in a) + length ws + k = 128)%nat -> ws <> [] ->
  let a' := ata_of a (map (OutL 0x1f0) ws) in
  a' = Ata (a_reg a) (a_cmd a) (a_drive a) (a_lba a) (a_pos a) (a_in a ++ ws)
    (if bool_decide (k = 0%nat) then set_block (a_drive a) (a_lba a) (to_bytes (a_in a ++ ws)) (a_disk a) else a_disk a).
Proof.
  intros Hc. revert a Hc. induction ws as [|w ws IH]; intros a Hc Hl Hne; [done|]. cbn zeta. cbn [map length] in *.
  change (ata_of a (OutL 0x1f0 w :: ?h)) with (ata_of (ata_step a (OutL 0x1f0 w)) h).
  cbn [ata_step]. rewrite Hc, bool_decide_true by lia. cbn [Z.eqb Pos.eqb IDE_CMD_WRITE andb].
  destruct ws as [|w2 ws].
  - cbn [map ata_of fold_left length] in *. f_equal. rewrite length_app. cbn. destruct k;
      [rewrite !bool_decide_true by (done || lia)|rewrite !bool_decide_false by (done || lia)]; done.
  - rewrite bool_decide_false by (rewrite length_app; cbn [length] in *; lia). rewrite IH; [cbn; by rewrite <- app_assoc|done|cbn [a_in]; rewrite length_app; cbn [length] in *; lia|done].
Qed.

Section Transfer.
Context `{Devices}.

Lemma outsl_run port data s : outsl port data s = Ret tt (more s (map (OutL port) (to_words data))).
Proof.
  unfold outsl. generalize (to_words data) as ws. intros ws. revert s. induction ws as [|w ws IH]; intros s; cbn [for_each map].
  - unfold ret, more. rewrite app_nil_r. by destruct s.
  - unfold access at 1. rewrite bind_modify. fold (more s [OutL port w]). rewrite IH, more_more. done.
Qed.

(** A read delivers the rest of the sector. *)
Lemma insl_run a0 (D : ata_device a0) n s : let a := ata_of a0 (accesses s) in
  a_cmd a = IDE_CMD_READ -> length (to_words (a_disk a (a_drive a) (a_lba a))) = (a_pos a + n)%nat ->
  Forall (fun w => 0 <= w < 4294967296) (to_words (a_disk a (a_drive a) (a_lba a))) ->
  insl 0x1f0 n s = Ret (to_bytes (List.skipn (a_pos a) (to_words (a_disk a (a_drive a) (a_lba a))))) (more s (replicate n (InL 0x1f0))).
Proof.
  revert s. induction n as [|n IH]; intros s a Hc Hl Hw; cbn [insl].
  - rewrite skipn_all2 by lia. unfold ret, more. rewrite app_nil_r. by destruct s.
  - unfold access at 1. rewrite bind_modify. fold (more s [InL 0x1f0]). rewrite bind_gets, accesses_more, (ad_data a0 D) by done. fold a.
    set (ws := to_words _) in *. set (s1 := more s [InL 0x1f0]). assert (ata_of a0 (accesses s1) = ata_step a (InL 0x1f0)) as Ea by (unfold s1; by rewrite accesses_more, ata_of_app).
    pose proof (IH s1) as IH1. cbn zeta in IH1. rewrite Ea in IH1. cbn [ata_step Z.eqb Pos.eqb a_cmd a_disk a_drive a_lba a_pos] in IH1. fold ws in IH1.
    mret (IH1 Hc ltac:(lia) Hw). unfold s1. rewrite more_more. unfold ret. f_equal.
    destruct (lookup_lt_is_Some_2 ws (a_pos a) ltac:(lia)) as [w Ew].
    assert (List.skipn (a_pos a) ws = w :: List.skipn (S (a_pos a)) ws) as -> by (by apply drop_S).
    rewrite (nth_lookup_Some ws (a_pos a) 0 w Ew). cbn [to_bytes]. rewrite app_nil_r, u32_small; [done|]. rewrite Forall_lookup in Hw. exact (Hw _ _ Ew).
Qed.

End Transfer.

(** ** The commands *)

(** The accesses by which the driver writes the registers of a request. *)
Definition request_regs (n dev : Z) : list io :=
  [OutB 0x3f6 0; OutB 0x1f2 1; OutB 0x1f3 (n mod 256); OutB 0x1f4 (n / 256 mod 256); OutB 0x1f5 0; OutB 0x1f6 (0xe0 + 16 * dev)].
Definition request_cmd (b : buf) : list io :=
  if dirty b then OutB 0x1f7 IDE_CMD_WRITE :: map (OutL 0x1f0) (to_words (b_data b)) else [OutB 0x1f7 IDE_CMD_READ].

Definition is_block (l : list Z) : Prop := length l = 512%nat /\ Forall (fun x => 0 <= x < 256) l.

Lemma block_words l : is_block l -> length (to_words l) = 128%nat /\ Forall (fun w => 0 <= w < 4294967296) (to_words l) /\ to_bytes (to_words l) = l.
Proof.
  intros [Hl Hb]. split_and!; [by apply length_to_words| |by apply (to_bytes_words 128)]. clear Hl.
  revert l Hb. fix IH 1. intros [|a [|b [|c [|d l]]]] Hb; cbn [to_words]; try done.
  repeat (apply Forall_cons_1 in Hb as [? Hb]). constructor; [lia|by apply IH].
Qed.

Section Requests.
Context `{Devices} (a0 : ata) (D : ata_device a0) (b : buf).
Context (Hn : 0 <= b_blockno b < FSSIZE) (Hdev : 0 <= b_dev b).
Let n := b_blockno b.
Let dev := Z.land (b_dev b) 1.

Lemma dev_bit : dev = 0 \/ dev = 1.
Proof using.
  assert (dev = b_dev b mod 2) as -> by (exact (Z.land_ones (b_dev b) 1 ltac:(lia))).
  assert (0 <= b_dev b mod 2 < 2) by (apply Z.mod_pos_bound; lia). lia.
Qed.

Lemma ide_start_run s : exists k, forall fuel, (k < fuel)%nat ->
  ide_start fuel b s = Ret tt (more s (replicate (S k) (InB 0x1f7) ++ request_regs n dev ++ request_cmd b)).
Proof using D Hn.
  destruct (idewait_run a0 D false s) as [k Hk]. exists k. intros fuel Hf. unfold ide_start. fold n dev.
  destruct (Z.geb_spec n FSSIZE) as [|_]; [unfold n in *; lia|]. change (BSIZE / SECTOR_SIZE) with 1. rewrite Z.mul_1_r. unfold FSSIZE in Hn. fold n in Hn.
  rewrite u32_small, i32_small by lia. change (1 >? 7) with false. change (1 =? 1) with true. cbn iota. mret (Hk fuel Hf).
  change 0xff with (Z.ones 8). change 0x0f with (Z.ones 4). rewrite !Z.land_ones, !Z.shiftr_div_pow2 by lia.
  replace (n / 2 ^ 16) with 0 by (Z.div_mod_to_equations; lia). replace (n / 2 ^ 24) with 0 by (Z.div_mod_to_equations; lia).
  change (2 ^ 8) with 256. change (0 mod 256) with 0. change (0 mod 2 ^ 4) with 0. rewrite Z.lor_0_r.
  assert (Z.lor 0xe0 (Z.shiftl dev 4) = 0xe0 + 16 * dev) as -> by (by destruct dev_bit as [-> | ->]).
  assert (0 <= n mod 256 < 256) as R1 by (apply Z.mod_pos_bound; lia). assert (0 <= n / 256 mod 256 < 256) as R2 by (apply Z.mod_pos_bound; lia).
  assert (0 <= 0xe0 + 16 * dev < 256) as R3 by (destruct dev_bit; lia).
  do 6 (erewrite bind_Ret by (apply outb_run; lia)). unfold request_cmd, dirty. destruct (negb _).
  - erewrite bind_Ret by (apply outb_run; unfold IDE_CMD_WRITE; lia).
    rewrite outsl_run, !more_more, <- ?app_assoc. done.
  - rewrite outb_run, !more_more, <- ?app_assoc by (unfold IDE_CMD_READ; lia). done.
Qed.

Lemma ata_request a : ata_of a (request_regs n dev) = Ata (a_reg (ata_of a (request_regs n dev))) (a_cmd a) (a_drive a) (a_lba a) (a_pos a) (a_in a) (a_disk a) /\
  ata_lba (a_reg (ata_of a (request_regs n dev))) = n /\ ata_drive (a_reg (ata_of a (request_regs n dev))) = dev.
Proof using Hn.
  split; [done|]. unfold FSSIZE in Hn. fold n in Hn. split.
  - unfold ata_lba. cbn -[Z.land Z.div Z.modulo]. replace (Z.land (0xe0 + 16 * dev) 15) with 0 by (by destruct dev_bit as [-> | ->]). Z.div_mod_to_equations. lia.
  - unfold ata_drive. cbn -[Z.land Z.shiftr]. by destruct dev_bit as [-> | ->].
Qed.

End Requests.

Section Serve.
Context `{Devices} (a0 : ata) (D : ata_device a0) (b : buf).
Context (Hn : 0 <= b_blockno b < FSSIZE) (Hb : is_block (b_data b)).

(** The controller behind the accesses of a request. *)
Lemma ata_command a : a_disk (ata_of (ata_of a (request_regs (b_blockno b) (Z.land (b_dev b) 1))) (request_cmd b)) =
    (if dirty b then set_block (Z.land (b_dev b) 1) (b_blockno b) (b_data b) (a_disk a) else a_disk a) /\
  (dirty b = false -> let a' := ata_of (ata_of a (request_regs (b_blockno b) (Z.land (b_dev b) 1))) (request_cmd b) in
     a_cmd a' = IDE_CMD_READ /\ a_drive a' = Z.land (b_dev b) 1 /\ a_lba a' = b_blockno b /\ a_pos a' = 0%nat).
Proof using Hn Hb.
  destruct (ata_request b Hn a) as (E1 & E2 & E3). set (a1 := ata_of a (request_regs _ _)) in *. unfold request_cmd.
  assert (a_disk a1 = a_disk a) as Ed by (by rewrite E1). destruct (dirty b).
  - split; [|done]. destruct (block_words _ Hb) as (L & _ & R).
    change (ata_of a1 (?x :: ?h)) with (ata_of (ata_step a1 x) h). cbn [ata_step Z.eqb Pos.eqb]. rewrite E2, E3, Ed.
    rewrite (ata_of_words _ (to_words (b_data b)) 0); [|done|cbn; lia|by intros E; rewrite E in L]. cbn [a_disk a_drive a_lba a_in app]. by rewrite bool_decide_true, R by done.
  - cbn [ata_of fold_left ata_step Z.eqb Pos.eqb]. split; [exact Ed|]. intros _. cbn. split_and!; [done|exact E3|exact E2|done].
Qed.

End Serve.

(** C20: A request of the driver does at the registers of a controller that works as documented
    what the model of the disk says: for a buffer with a block number inside the disk, ide_start ends
    after the controller got ready, and then the selected drive has the contents of
    the disk after the request (the buffer in its block for a write, no change for a read),
    the other drive is as before; and at the interrupt the driver fetches the data that the buffer
    has when the request is served, the block on the drive for a read. *)
Theorem ide_registers_refine `{Devices} a0 b s :
  ata_device a0 -> 0 <= b_blockno b < FSSIZE -> is_block (b_data b) ->
  let drive := Z.land (b_dev b) 1 in let d := a_disk (ata_of a0 (accesses s)) in
  is_block (d drive (b_blockno b)) ->
  exists k s', (forall fuel, (k < fuel)%nat -> ide_start fuel b s = Ret tt s') /\
    (forall i, a_disk (ata_of a0 (accesses s')) i = if i =? drive then issue b (d drive) else d i) /\
    exists k2 s2, forall fuel, (k2 < fuel)%nat -> ide_fetch fuel b s' = Ret (b_data (served (d drive) b)) s2.
Proof.
  intros D Hn Hb drive d Hd. destruct (ide_start_run a0 D b Hn s) as [k Hk]. eexists k, _. split; [exact Hk|]. rewrite accesses_more, !ata_of_app, ata_of_polls.
  change (Z.land (b_dev b) 1) with drive. set (s' := more s _). set (a := ata_of a0 (accesses s)). destruct (ata_command b Hn Hb a) as [Ed Er]. fold drive in Ed, Er. change (a_disk a) with d in Ed. split.
  - intros i. rewrite Ed. unfold issue. destruct (dirty b); [unfold set_block|]; (destruct (Z.eqb_spec i drive); [by subst i|done]).
  - destruct (idewait_run a0 D true s') as [k2 Hk2]. exists k2. unfold ide_fetch. rewrite <- (negb_involutive (Z.land (b_flags b) B_DIRTY =? 0)).
    fold (dirty b). destruct (dirty b) eqn:Eb; cbn [negb].
    + exists s'. intros fuel _. unfold served. rewrite Eb. done.
    + eexists. intros fuel Hf. mret (Hk2 fuel Hf). change (0 >=? 0) with true. cbn iota. change (Z.to_nat (BSIZE / 4)) with 128%nat.
      destruct (Er eq_refl) as (E1 & E2 & E3 & E4). destruct (block_words _ Hd) as (L & F & R). set (s2 := more s' _).
      assert (ata_of a0 (accesses s2) = ata_of (ata_of a (request_regs (b_blockno b) drive)) (request_cmd b)) as Ea.
      { unfold s2, s', a. by rewrite !accesses_more, !ata_of_app, !ata_of_polls. }
      pose proof (insl_run a0 D 128 s2) as Hi. cbn zeta in Hi. rewrite Ea, Ed, E1, E2, E3, E4 in Hi. change (List.skipn 0 ?l) with l in Hi. rewrite R in Hi.
      unfold served. rewrite Eb. cbn [set_b_flags set_b_data b_data]. apply Hi; [done|lia|done].
Qed.

(** ** The serial port as documented

    While the line control register has bit 7, the first two ports are the divisor of the clock;
    otherwise a byte written to the first one is sent. *)
Record line := Line { l_lcr : Z; l_lo : Z; l_hi : Z; l_ier : Z; l_fifo : Z; l_sent : list Z }.

Definition line_step (u : line) (x : io) : line :=
  match x with
  | OutB p v =>
    if p =? COM1 + 3 then Line v (l_lo u) (l_hi u) (l_ier u) (l_fifo u) (l_sent u)
    else if p =? COM1 + 2 then Line (l_lcr u) (l_lo u) (l_hi u) (l_ier u) v (l_sent u)
    else if p =? COM1 + 0 then
      if Z.testbit (l_lcr u) 7 then Line (l_lcr u) v (l_hi u) (l_ier u) (l_fifo u) (l_sent u)
      else Line (l_lcr u) (l_lo u) (l_hi u) (l_ier u) (l_fifo u) (l_sent u ++ [v])
    else if p =? COM1 + 1 then
      if Z.testbit (l_lcr u) 7 then Line (l_lcr u) (l_lo u) v (l_ier u) (l_fifo u) (l_sent u)
      else Line (l_lcr u) (l_lo u) (l_hi u) v (l_fifo u) (l_sent u)
    else u
  | _ => u
  end.
Definition line_of (u0 : line) (h : list io) : line := fold_left line_step h u0.
Definition sent (l : list Z) (u : line) : line := Line (l_lcr u) (l_lo u) (l_hi u) (l_ier u) (l_fifo u) (l_sent u ++ l).

Lemma line_of_app u0 h1 h2 : line_of u0 (h1 ++ h2) = line_of (line_of u0 h1) h2.
Proof. apply fold_left_app. Qed.

Lemma line_of_polls u n p : line_of u (replicate n (InB p)) = u.
Proof. induction n; done. Qed.

Section Serial.
Context `{Devices}.

Definition poll_sent (_ : nat) : prog plat (option unit) :=
  r <- inb (COM1 + 5);; ret (if Z.land r 0x20 =? 0 then None else Some tt).

Lemma polls_run n i s : exists k r, (k <= n)%nat /\ for_break (seq i n) poll_sent s = Ret r (more s (replicate k (InB (COM1 + 5)))).
Proof.
  revert i s. induction n as [|n IH]; intros i s; cbn [seq for_break].
  - exists 0%nat, None. split; [lia|]. unfold ret, more. rewrite app_nil_r. by destruct s.
  - unfold poll_sent at 1. rewrite bind_assoc. mret (inb_run (COM1 + 5) s). rewrite bind_ret. destruct (_ =? 0).
    + destruct (IH (S i) (more s [InB (COM1 + 5)])) as (k & r & Hk & E). exists (S k), r. split; [lia|]. rewrite E, more_more. done.
    + exists 1%nat, (Some tt). split; [lia|done].
Qed.

(** At most 128 polls, and the byte. *)
Lemma uart_putc_run c s : exists k, (k <= 128)%nat /\ uart_putc 1 c s = Ret tt (more s (replicate k (InB (COM1 + 5)) ++ [OutB COM1 (u8 c)])).
Proof.
  destruct (polls_run 128 0 s) as (k & r & Hk & E). exists k. split; [done|]. unfold uart_putc. cbn [Z.eqb]. fold poll_sent.
  mret E. unfold outb, access. rewrite <- more_more. done.
Qed.

Lemma uart_puts_run l s u0 : Z.testbit (l_lcr (line_of u0 (accesses s))) 7 = false ->
  exists h, for_each l (uart_putc 1) s = Ret tt (more s h) /\ line_of u0 (accesses s ++ h) = sent (map u8 l) (line_of u0 (accesses s)).
Proof.
  revert s. induction l as [|c l IH]; intros s Hl; cbn [for_each].
  - exists []. rewrite app_nil_r. split; [unfold more; rewrite app_nil_r; by destruct s|]. unfold sent. cbn [map]. rewrite app_nil_r. by destruct (line_of _ _).
  - destruct (uart_putc_run c s) as (k & _ & E). set (h1 := replicate k _ ++ _) in E.
    assert (line_of u0 (accesses s ++ h1) = sent [u8 c] (line_of u0 (accesses s))) as E1.
    { unfold h1. rewrite !line_of_app, line_of_polls. cbn -[Z.testbit]. by rewrite Hl. }
    destruct (IH (more s h1)) as (h & E2 & E3); [by rewrite accesses_more, E1|]. exists (h1 ++ h). rewrite accesses_more in E3. split; [mret E; by rewrite E2, more_more|].
    rewrite app_assoc, E3, E1. unfold sent. cbn. by rewrite <- app_assoc.
Qed.

End Serial.

(** uartearlyinit sets a serial port that is there to 115200/9600 = 12 as its divisor, eight data bits without
    parity, the FIFO off and the interrupt for received bytes on, sends the message, and returns 1; without a port it
    returns 0, and then output is dropped.  From then on uartputc sends one byte for every call, in order, with at
    most 128 polls of the status, whatever the line answers, which is how the console uses the port. *)
Theorem uart_sends_bytes `{Devices} u0 s : exists s1 r, uartearlyinit s = Ret r s1 /\
  (r = 0 /\ (forall l, for_each l (uart_putc r) s1 = Ret tt s1) \/
   r = 1 /\ line_of u0 (accesses s1) = Line 0x03 12 0 1 0 (l_sent (line_of u0 (accesses s)) ++ lit "xv6..." ++ [10]) /\
   forall l, exists h, for_each l (uart_putc r) s1 = Ret tt (more s1 h) /\
     line_of u0 (accesses s1 ++ h) = sent (map u8 l) (line_of u0 (accesses s1))).
Proof.
  unfold uartearlyinit. do 7 (erewrite bind_Ret by (apply outb_run; vm_compute; intuition congruence)). rewrite !more_more. cbn [app]. set (s0 := more s _).
  mret (inb_run (COM1 + 5) s0). set (s1 := more s0 _). destruct (_ =? 0xFF).
  - exists s1, 0. split; [done|]. left. split; [done|]. intros l. induction l as [|c l IH]; [done|]. cbn [for_each]. exact IH.
  - assert (line_of u0 (accesses s1) = Line 0x03 12 0 1 0 (l_sent (line_of u0 (accesses s)))) as E1.
    { unfold s1, s0. rewrite !accesses_more, !line_of_app. reflexivity. }
    destruct (uart_puts_run (lit "xv6..." ++ [10]) s1 u0) as (h & E2 & E3); [by rewrite E1|]. exists (more s1 h), 1. split; [mret E2; done|]. right. split; [done|].
    rewrite accesses_more, E3, E1. split; [reflexivity|]. intros l. destruct (uart_puts_run l (more s1 h) u0) as (h2 & E4 & E5); [by rewrite accesses_more, E3, E1|].
    exists h2. split; [exact E4|]. rewrite accesses_more in E5. by rewrite E5, E3, E1.
Qed.

(** ideinit looks for drive 1, in at most 1000 polls of its status, and selects drive 0 again. *)
Section Probe.
Context `{Devices} (a0 : ata) (D : ata_device a0).

Definition poll_drive1 (_ : nat) : prog plat (option Z) := r <- inb 0x1f7;; ret (if negb (r =? 0) then Some 1 else None).

Lemma probe_run n i s : let r k := dev_read (accesses s ++ replicate (S k) (InB 0x1f7)) in
  (exists k, (k < n)%nat /\ r k <> 0 /\ for_break (seq i n) poll_drive1 s = Ret (Some 1) (more s (replicate (S k) (InB 0x1f7)))) \/
  (forall k, (k < n)%nat -> r k = 0) /\ for_break (seq i n) poll_drive1 s = Ret None (more s (replicate n (InB 0x1f7))).
Proof using.
  cbn zeta. revert i s. induction n as [|n IH]; intros i s; cbn [seq for_break].
  - right. split; [lia|]. unfold ret, more. rewrite app_nil_r. by destruct s.
  - unfold poll_drive1 at 1 3. rewrite !bind_assoc. setoid_rewrite (bind_Ret _ _ _ _ _ (inb_run 0x1f7 s)). setoid_rewrite bind_ret.
    destruct (Z.eqb_spec (dev_read (accesses s ++ [InB 0x1f7])) 0) as [E|E]; cbn [negb]; [|left; exists 0%nat; split_and!; [lia|done|done]].
    assert (forall j, accesses (more s [InB 0x1f7]) ++ replicate (S j) (InB 0x1f7) = accesses s ++ replicate (S (S j)) (InB 0x1f7)) as Ea
      by (intros j; rewrite accesses_more, <- app_assoc; done).
    destruct (IH (S i) (more s [InB 0x1f7])) as [(k & Hk & Hr & E1)|[Hr E1]]; rewrite E1, more_more; [left; exists (S k)|right].
    + rewrite <- Ea. split_and!; [lia|done|done].
    + split; [|done]. intros [|k] Hk; [done|]. rewrite <- Ea. apply Hr. lia.
Qed.

Lemma ide_probe_run s : 1 <= ncpu s <= 256 -> exists k r h, (forall fuel, (k < fuel)%nat -> ide_probe fuel s = Ret r (more s h)) /\
  a_reg (ata_of a0 (accesses s ++ h)) 0x1f6 = 0xe0 /\ a_disk (ata_of a0 (accesses s ++ h)) = a_disk (ata_of a0 (accesses s)) /\ (r = 0 \/ r = 1).
Proof using D.
  intros Hc. set (h0 := [IoapicReg (REG_TABLE + 2 * 14); IoapicDataW (T_IRQ0 + 14); IoapicReg (REG_TABLE + 2 * 14 + 1); IoapicDataW (u32 (Z.shiftl (ncpu s - 1) 24))]).
  assert (ioapicenable 14 (ncpu s - 1) s = Ret tt (more s h0)) as E0.
  { unfold ioapicenable, ioapicwrite, access, h0, more. rewrite !bind_assoc, !bind_modify. unfold modify. cbn. by rewrite <- !app_assoc. }
  destruct (idewait_run a0 D false (more s h0)) as [k Hk]. set (h1 := replicate (S k) _) in Hk.
  set (s2 := more (more (more s h0) h1) [OutB 0x1f6 0xf0]). destruct (probe_run 1000 0 s2) as [(j & _ & _ & E2)|[_ E2]]; eexists k, _, _; (split;
    [intros fuel Hf; unfold ide_probe; rewrite bind_gets; mret E0; mret (Hk fuel Hf); mret (outb_run 0x1f6 0xf0 (more (more s h0) h1) ltac:(lia));
     fold s2; fold poll_drive1; mret E2; erewrite bind_Ret by (apply outb_run; vm_compute; intuition congruence); unfold s2; rewrite !more_more; reflexivity|]).
  all: rewrite !ata_of_app, !ata_of_polls; unfold h1; rewrite ?ata_of_polls; (split_and!; [reflexivity|reflexivity|auto]).
Qed.

End Probe.

(** *** Witness *)

(** A controller that is always ready. *)
Definition quick_controller (a0 : ata) : Devices := {|
  dev_read h := match last h with
    | Some (InL _) => let a := ata_of a0 (removelast h) in nth (a_pos a) (to_words (a_disk a (a_drive a) (a_lba a))) 0
    | _ => 0x40
    end |}.

Lemma quick_controller_ok a0 : ata_device (H := quick_controller a0) a0.
Proof.
  split.
  - intros h a _. cbn. by rewrite last_snoc, removelast_last.
  - intros h. exists 0%nat. split; [lia|]. cbn. by rewrite last_snoc.
Qed.

Definition blank_drives : ata := Ata (fun _ => 0) 0 0 0 0 [] (fun _ _ => replicate 512 0).
Definition quiet_plat : plat := Plat (fun _ => 0) 0 [] 1 0 0 false [].
Definition write_request : buf := Buf (Z.lor B_VALID B_DIRTY) 1 5 (Sleeplock 1 "buffer" 1) 1 (replicate 512 7).

Lemma ide_registers_refine_witness : exists k s', (forall fuel, (k < fuel)%nat -> ide_start (H := quick_controller blank_drives) fuel write_request quiet_plat = Ret tt s') /\
  a_disk (ata_of blank_drives (accesses s')) 1 5 = replicate 512 7.
Proof.
  destruct (ide_registers_refine (H := quick_controller blank_drives) blank_drives write_request quiet_plat (quick_controller_ok blank_drives)) as (k & s' & E1 & E2 & _).
  - unfold FSSIZE. cbn. lia.
  - split; [done|]. apply Forall_replicate. lia.
  - split; [done|]. apply Forall_replicate. lia.
  - exists k, s'. split; [exact E1|]. rewrite E2. reflexivity.
Defined.
