(* ===== verification/Start.v ===== *)
(** * Start: the start of the kernel (main.c, and seginit and syscallinit of vm.c)

    The state puts the kernel, the platform and the drivers' own variables together, with the
    record of the instructions that load system registers.  While the first processor
    waits for another one to start, the others run: this is a [Swtch] of the model. *)

From S2P Require Import Prelude Machine Spinlock Cstring Ktrace Layout Kalloc Vm.
From S2P Require Import Sched Bio Fs Console File Proc Trap Platform Ports Asm.
#[local] Open Scope prog_scope.

Inductive sysop := Wrmsr (r v : Z) | Lgdt (p size : Z) | Lidt (p size : Z) | Ltr (sel : Z).

(** [m_started] and [m_local] are fields of the structs cpu in [cpus]. *)
Record machine := Mach {
  m_k : kstate; m_p : Platform.plat; m_started : list Z; m_local : list Z; m_uart : Z; m_havedisk1 : Z; m_idt : Z; m_ops : list sysop
}.

Definition set_m_k (v : kstate) (r : machine) : machine := Mach v (m_p r) (m_started r) (m_local r) (m_uart r) (m_havedisk1 r) (m_idt r) (m_ops r).
Definition set_m_p (v : Platform.plat) (r : machine) : machine := Mach (m_k r) v (m_started r) (m_local r) (m_uart r) (m_havedisk1 r) (m_idt r) (m_ops r).
Definition set_m_started (v : list Z) (r : machine) : machine := Mach (m_k r) (m_p r) v (m_local r) (m_uart r) (m_havedisk1 r) (m_idt r) (m_ops r).
Definition set_m_local (v : list Z) (r : machine) : machine := Mach (m_k r) (m_p r) (m_started r) v (m_uart r) (m_havedisk1 r) (m_idt r) (m_ops r).
Definition set_m_uart (v : Z) (r : machine) : machine := Mach (m_k r) (m_p r) (m_started r) (m_local r) v (m_havedisk1 r) (m_idt r) (m_ops r).
Definition set_m_havedisk1 (v : Z) (r : machine) : machine := Mach (m_k r) (m_p r) (m_started r) (m_local r) (m_uart r) v (m_idt r) (m_ops r).
Definition set_m_idt (v : Z) (r : machine) : machine := Mach (m_k r) (m_p r) (m_started r) (m_local r) (m_uart r) (m_havedisk1 r) v (m_ops r).
Definition set_m_ops (v : list sysop) (r : machine) : machine := Mach (m_k r) (m_p r) (m_started r) (m_local r) (m_uart r) (m_havedisk1 r) (m_idt r) v.

(** A program on a part of the state. *)
Fixpoint zoom {S T A} (get : T -> S) (put : S -> T -> T) (t : T) (o : outcome S A) : outcome T A :=
  match o with
  | Ret a s => Ret a (put s t)
  | Panic msg s => Panic msg (put s t)
  | Spin s => Spin (put s t)
  | Undef what s => Undef what (put s t)
  | Swtch s k => Swtch (put s t) (fun t' => zoom get put t' (k (get t')))
  | NoFuel s => NoFuel (put s t)
  end.

Definition on_k {A} (c : kprog A) : prog machine A := fun m => zoom m_k set_m_k m (c (m_k m)).

(** The platform sees the memory and the interrupt flag of the kernel. *)
Definition get_p (m : machine) : Platform.plat :=
  let p := m_p m in
  Platform.Plat (k_mem (m_k m)) (Platform.lapic p) (Platform.cpus p) (Platform.ncpu p) (Platform.ioapicid p) (Platform.warned p)
    (cpu_if (k_cpu (m_k m))) (Platform.accesses p).
Definition put_p (p : Platform.plat) (m : machine) : machine := set_m_p p (set_m_k (set_k_mem (Platform.p_mem p) (m_k m)) m).
Definition on_p {A} (c : prog Platform.plat A) : prog machine A := fun m => zoom get_p put_p m (c (get_p m)).

Definition sysop_do (o : sysop) : prog machine unit := modify (fun m => set_m_ops (m_ops m ++ [o]) m).

(** ** mmu.h *)

Definition SEG_KCODE : Z := 1.
Definition SEG_KDATA : Z := 2.
Definition SEG_UCODE32 : Z := 3.
Definition SEG_UDATA : Z := 4.
Definition SEG_UCODE : Z := 5.
Definition SEG_KCPU : Z := 6.
Definition SEG_TSS : Z := 7.
Definition NSEGS : Z := 8.

Definition USER_CS : Z := Z.lor (Z.shiftl SEG_UCODE 3) DPL_USER.
Definition USER_DS : Z := Z.lor (Z.shiftl SEG_UDATA 3) DPL_USER.
Definition USER32_CS : Z := Z.lor (Z.shiftl SEG_UCODE32 3) DPL_USER.
Definition KERNEL_CS : Z := Z.shiftl SEG_KCODE 3.

Definition APP_SEG : Z := 1.
Definition STA_X : Z := 0x8.
Definition STA_W : Z := 0x2.
Definition STA_R : Z := 0x2.
Definition STS_T64A : Z := 0x9.

Definition FL_TF : Z := 0x100.
Definition FL_DF : Z := 0x400.
Definition FL_IOPL_3 : Z := 0x3000.
Definition FL_NT : Z := 0x4000.
Definition FL_AC : Z := 0x40000.

Definition MSR_STAR : Z := 0xC0000081.
Definition MSR_LSTAR : Z := 0xC0000082.
Definition MSR_CSTAR : Z := 0xC0000083.
Definition MSR_SFMASK : Z := 0xC0000084.

Record segdesc := Segdesc {
  lim_15_0 : Z; base_15_0 : Z; base_23_16 : Z; sd_type : Z; sd_s : Z; sd_dpl : Z; sd_p : Z;
  lim_19_16 : Z; sd_avl : Z; sd_rsv1 : Z; sd_db : Z; sd_g : Z; base_31_24 : Z
}.

(** The eight bytes of a descriptor; a bit field keeps the low bits of what it is assigned. *)
Definition seg_bits (d : segdesc) : Z :=
  let field (pos width v : Z) := Z.shiftl (v mod 2 ^ width) pos in
  field 0 16 (lim_15_0 d) + field 16 16 (base_15_0 d) + field 32 8 (base_23_16 d) + field 40 4 (sd_type d) + field 44 1 (sd_s d) +
  field 45 2 (sd_dpl d) + field 47 1 (sd_p d) + field 48 4 (lim_19_16 d) + field 52 1 (sd_avl d) + field 53 1 (sd_rsv1 d) +
  field 54 1 (sd_db d) + field 55 1 (sd_g d) + field 56 8 (base_31_24 d).

Definition SEG (type lim base sys dpl rsv : Z) : segdesc :=
  Segdesc (Z.land (u64 lim) 0xffff) (Z.land (u32 base) 0xffff) (Z.land (Z.shiftr (u64 base) 16) 0xff) type sys dpl 1
    (Z.shiftr (u64 lim) 60) 0 rsv 0 1 (Z.shiftr (u64 base) 24).

(** Addresses that the linker provides, and those behind the calls of cpunum. *)
Class Entries := {
  entryother_start : Z; entryother_size : Z; entry32mp : Z; syscall_entry_addr : Z; ignore_sysret_addr : Z; vectors : nat -> Z;
  caller_in : string -> Z
}.

Section Start.
Context `{LK : Linker} `{DR : BlockDriver} `{DV : DevSw} `{SY : Symbols} `{Devices} `{EN : Entries} (fuel : nat).

(** ** vm.c *)

Definition syscallinit : prog machine unit :=
  sysop_do (Wrmsr MSR_STAR (Z.lor (Z.shiftl USER32_CS 48) (Z.shiftl KERNEL_CS 32)));;;
  sysop_do (Wrmsr MSR_LSTAR syscall_entry_addr);;;
  sysop_do (Wrmsr MSR_CSTAR ignore_sysret_addr);;;
  sysop_do (Wrmsr MSR_SFMASK (Z.lor (Z.lor (Z.lor (Z.lor (Z.lor FL_TF FL_DF) FL_IF) FL_IOPL_3) FL_AC) FL_NT)).

Definition seginit : prog machine unit :=
  local <- on_k kalloc;;
  on_k (zero_page local);;;
  let gdt := local in
  let tss := local + 1024 in
  on_k (st32 (tss + 4 * 16) 0x00680000);;;
  sysop_do (Wrmsr 0xC0000100 (u64 (local + 2048)));;;
  n <- on_p (Platform.cpunum (caller_in "seginit"));;
  modify (fun m => set_m_local (<[Z.to_nat n := local]> (m_local m)) m);;;
  on_k (modify (upd_cpu (fun c => set_cpu_proc None (set_cpu_local local (set_cpu_id n c)))));;;
  let addr := tss in
  on_k (st64 (gdt + 8 * 0) 0);;;
  on_k (st64 (gdt + 8 * SEG_KCODE) (seg_bits (SEG (Z.lor STA_X STA_R) 0 0 APP_SEG 0 1)));;;
  on_k (st64 (gdt + 8 * SEG_KDATA) (seg_bits (SEG STA_W 0 0 APP_SEG 0 0)));;;
  on_k (st64 (gdt + 8 * SEG_UCODE32) 0);;;
  on_k (st64 (gdt + 8 * SEG_UDATA) (seg_bits (SEG STA_W 0 0 APP_SEG DPL_USER 0)));;;
  on_k (st64 (gdt + 8 * SEG_UCODE) (seg_bits (SEG (Z.lor STA_X STA_R) 0 0 APP_SEG DPL_USER 1)));;;
  on_k (st64 (gdt + 8 * SEG_KCPU) 0);;;
  on_k (st64 (gdt + 8 * SEG_TSS) (seg_bits (SEG STS_T64A 0xb addr 0 DPL_USER 0)));;;
  on_k (st64 (gdt + 8 * (SEG_TSS + 1)) (seg_bits (SEG 0 (Z.shiftr addr 32) (Z.shiftr addr 48) 0 0 0)));;;
  sysop_do (Lgdt gdt ((NSEGS + 1) * 8));;;
  sysop_do (Ltr (Z.shiftl SEG_TSS 3)).

(** ** main.c *)

Definition idtinit : prog machine unit := idt <- gets m_idt;; sysop_do (Lidt idt PGSIZE).

Definition others_run : prog machine unit := fun m => Swtch m (fun m' => Ret tt m').

Definition mpmain : prog machine unit :=
  n <- on_p (Platform.cpunum (caller_in "mpmain"));;
  on_k (cprintf (lit "cpu%d: starting" ++ [newline]) [FInt n]);;;
  idtinit;;;
  syscallinit;;;
  modify (fun m => set_m_started (<[Z.to_nat (cpu_id (k_cpu (m_k m))) := 1]> (m_started m)) m);;;
  on_k (scheduler fuel 0).

Definition mpenter : prog machine unit :=
  on_k switchkvm;;;
  seginit;;;
  on_p (Platform.lapicinit fuel);;;
  mpmain.

(** One round of the loop in startothers. *)
Definition startother (code c : Z) : prog machine unit :=
  self <- on_p (Platform.cpunum (caller_in "startothers"));;
  if c =? self then ret tt else
  stack <- on_k kalloc;;
  on_k (st32 (code - 4) 0x8000);;;
  on_k (st32 (code - 8) (u32 (V2P entry32mp)));;;
  on_k (st64 (code - 16) (u64 (stack + KSTACKSIZE)));;;
  apicid <- gets (fun m => nth (Z.to_nat c) (Platform.cpus (m_p m)) 0);;
  on_p (Platform.lapicstartap apicid (V2P code));;;
  repeat_until fuel (
    st <- gets (fun m => nth (Z.to_nat c) (m_started m) 0);;
    if st =? 0 then others_run;;; ret None else ret (Some tt)).

Definition startothers : prog machine unit :=
  let code := P2V 0x7000 in
  on_k (modify (upd_mem (fun m => memmove m code entryother_start entryother_size)));;;
  n <- gets (fun m => Platform.ncpu (m_p m));;
  for_each (seqZ 0 n) (startother code).

Definition ideinit : prog machine unit :=
  on_k (initlock LKide "ide");;;
  h <- on_p (ide_probe fuel);;
  modify (fun m => if h =? 0 then m else set_m_havedisk1 h m).

Definition main : prog machine unit :=
  u <- on_p uartearlyinit;;
  modify (set_m_uart u);;;
  on_k (kinit1 kernel_end (P2V PHYSTOP));;;
  on_k kvmalloc;;;
  on_p Platform.mpinit;;;
  on_p (Platform.lapicinit fuel);;;
  idt <- on_k (tvinit vectors);;
  modify (set_m_idt idt);;;
  seginit;;;
  n <- on_p (Platform.cpunum (caller_in "main"));;
  on_k (cprintf ([newline] ++ lit "cpu%d: starting Spring 2026 xv6" ++ [newline; newline]) [FInt n]);;;
  on_p Platform.ioapicinit;;;
  on_k consoleinit;;; on_p (Platform.ioapicenable 1 0);;;
  u <- gets m_uart;;
  on_p (uartinit u);;;
  on_k traceinit;;;
  on_k pinit;;;
  on_k binit;;;
  on_k fileinit;;;
  ideinit;;;
  startothers;;;
  on_k kinit2;;;
  on_k (userinit fuel);;;
  mpmain.

End Start.

(** ** Descriptors *)

Ltac pow2s := repeat match goal with |- context [2 ^ ?k] => let v := eval vm_compute in (2 ^ k) in change (2 ^ k) with v end.

(** Fields of a descriptor, and the attributes of a segment: type, code or data, ring, present, 64-bit. *)
Definition seg_field (d pos width : Z) : Z := d / 2 ^ pos mod 2 ^ width.
Definition seg_attrs (d : Z) : list Z := [seg_field d 40 4; seg_field d 44 1; seg_field d 45 2; seg_field d 47 1; seg_field d 53 1].

(** The base of a task state segment, in the two halves of its descriptor. *)
Definition tss_address (lo hi : Z) : Z := seg_field lo 16 24 + Z.shiftl (seg_field lo 56 8) 24 + Z.shiftl (seg_field hi 0 32) 32.
(** Its limit counts pages when the bit 55 is set. *)
Definition tss_limit (lo : Z) : Z :=
  let lim := seg_field lo 0 16 + Z.shiftl (seg_field lo 48 4) 16 in if seg_field lo 55 1 =? 1 then 4096 * lim + 4095 else lim.

Lemma tss_low_bits a : 0 <= a < 18446744073709551616 ->
  seg_bits (SEG STS_T64A 0xb a 0 DPL_USER 0) = 0xb + 65536 * (a mod 65536) + 4294967296 * (a / 65536 mod 256) +
    1099511627776 * 9 + 35184372088832 * 3 + 140737488355328 + 36028797018963968 + 72057594037927936 * (a / 16777216 mod 256).
Proof.
  intros Ha. unfold seg_bits, SEG. cbn [lim_15_0 base_15_0 base_23_16 sd_type sd_s sd_dpl sd_p lim_19_16 sd_avl sd_rsv1 sd_db sd_g base_31_24].
  rewrite !(u64_small a), (u64_small 0xb) by lia. rewrite !Z.shiftl_mul_pow2, !Z.shiftr_div_pow2 by lia.
  change 0xffff with (Z.ones 16). change 0xff with (Z.ones 8). rewrite !Z.land_ones by lia. unfold STS_T64A, DPL_USER, u32.
  change (2 ^ 16) with 65536. change (2 ^ 8) with 256. change (2 ^ 24) with 16777216. change (2 ^ 32) with 4294967296.
  change (2 ^ 0) with 1. change (2 ^ 4) with 16. change (2 ^ 1) with 2. change (2 ^ 2) with 4.
  replace (a mod 4294967296 mod 65536) with (a mod 65536) by (Z.div_mod_to_equations; lia).
  rewrite !Z.mod_mod by lia. change (0xb mod 65536) with 0xb. change (0xb / 2 ^ 60 mod 16) with 0. pow2s. change (9 mod 16) with 9. change (0 mod ?x) with 0. change (3 mod 4) with 3. change (1 mod ?x) with 1. lia.
Qed.

Lemma tss_high_bits a : 0 <= a < 18446744073709551616 ->
  seg_bits (SEG 0 (Z.shiftr a 32) (Z.shiftr a 48) 0 0 0) = a / 4294967296 + 140737488355328 + 36028797018963968.
Proof.
  intros Ha. unfold seg_bits, SEG. cbn [lim_15_0 base_15_0 base_23_16 sd_type sd_s sd_dpl sd_p lim_19_16 sd_avl sd_rsv1 sd_db sd_g base_31_24].
  rewrite !Z.shiftl_mul_pow2, !Z.shiftr_div_pow2 by lia. set (h := a / 2 ^ 32). assert (a / 2 ^ 48 = h / 65536) as ->.
  { unfold h. rewrite Z.div_div by lia. done. }
  assert (0 <= h < 4294967296) as Hh by (unfold h; change (2 ^ 32) with 4294967296; Z.div_mod_to_equations; lia). change (a / 4294967296) with h.
  assert (0 <= h / 65536 < 65536) as Hh2 by (Z.div_mod_to_equations; lia).
  rewrite !(u64_small h), !(u64_small (h / 65536)) by lia. change 0xffff with (Z.ones 16). change 0xff with (Z.ones 8). rewrite !Z.land_ones by lia. unfold u32.
  rewrite (Z.mod_small (h / 65536) 4294967296) by lia.
  change (2 ^ 16) with 65536. change (2 ^ 8) with 256. change (2 ^ 24) with 16777216. change (2 ^ 60) with 1152921504606846976.
  replace (h / 65536 / 65536) with 0 by (Z.div_mod_to_equations; lia). replace (h / 65536 / 16777216) with 0 by (Z.div_mod_to_equations; lia).
  replace (h / 1152921504606846976) with 0 by (Z.div_mod_to_equations; lia). rewrite !Z.mod_mod by lia.
  change (0 mod ?x) with 0. change (1 mod ?x) with 1. rewrite (Z.mod_small (h / 65536) 65536) by lia. pow2s. Z.div_mod_to_equations. lia.
Qed.

Lemma tss_descriptor a : 0 <= a < 18446744073709551616 ->
  let lo := seg_bits (SEG STS_T64A 0xb a 0 DPL_USER 0) in let hi := seg_bits (SEG 0 (Z.shiftr a 32) (Z.shiftr a 48) 0 0 0) in
  0 <= lo < 18446744073709551616 /\ 0 <= hi < 18446744073709551616 /\
  tss_address lo hi = a /\ tss_limit lo = 0xbfff /\ seg_attrs lo = [9; 0; 3; 1; 0].
Proof.
  intros Ha. cbn zeta. rewrite tss_low_bits, tss_high_bits by done.
  set (b0 := a mod 65536). set (b1 := a / 65536 mod 256). set (b2 := a / 16777216 mod 256). set (h := a / 4294967296).
  assert (0 <= b0 < 65536 /\ 0 <= b1 < 256 /\ 0 <= b2 < 256 /\ 0 <= h < 4294967296 /\ a = b0 + 65536 * b1 + 16777216 * b2 + 4294967296 * h) as (B0 & B1 & B2 & Hh & Ea)
    by (unfold b0, b1, b2, h; Z.div_mod_to_equations; lia).
  clearbody b0 b1 b2 h. subst a. unfold tss_address, tss_limit, seg_attrs, seg_field. rewrite !Z.shiftl_mul_pow2 by lia.
  pow2s.
  set (lo := 0xb + _ + _ + _ + _ + _ + _ + _). 
  assert (lo / 65536 mod 16777216 = b0 + 65536 * b1) as -> by (unfold lo; Z.div_mod_to_equations; lia).
  assert (lo / 72057594037927936 mod 256 = b2) as -> by (unfold lo; Z.div_mod_to_equations; lia).
  assert (lo / 1 mod 65536 = 0xb) as -> by (unfold lo; Z.div_mod_to_equations; lia).
  assert (lo / 281474976710656 mod 16 = 0) as -> by (unfold lo; Z.div_mod_to_equations; lia).
  assert (lo / 36028797018963968 mod 2 = 1) as -> by (unfold lo; Z.div_mod_to_equations; lia).
  assert (lo / 1099511627776 mod 16 = 9) as -> by (unfold lo; Z.div_mod_to_equations; lia).
  assert (lo / 17592186044416 mod 2 = 0) as -> by (unfold lo; Z.div_mod_to_equations; lia).
  assert (lo / 35184372088832 mod 4 = 3) as -> by (unfold lo; Z.div_mod_to_equations; lia).
  assert (lo / 140737488355328 mod 2 = 1) as -> by (unfold lo; Z.div_mod_to_equations; lia).
  assert (lo / 9007199254740992 mod 2 = 0) as -> by (unfold lo; Z.div_mod_to_equations; lia).
  split_and!; try done; unfold lo; try lia; Z.div_mod_to_equations; lia.
Qed.

(** ** seginit *)

(** The values [vs], of [n] bytes each, from the index [i] of the table at [a] on. *)
Fixpoint stores (n : nat) (vs : list Z) (m : mem) (a i : Z) : mem :=
  match vs with [] => m | v :: vs => stores n vs (store_le n m (a + Z.of_nat n * i) v) a (i + 1) end.

Lemma stores_out n vs m a i x : ~ (a + Z.of_nat n * i <= x < a + Z.of_nat n * (i + Z.of_nat (length vs))) -> stores n vs m a i x = m x.
Proof.
  revert m i. induction vs as [|v vs IH]; intros m i Hx; cbn [stores length] in *; [done|]. rewrite IH by nia. apply store_le_out. nia.
Qed.

Lemma stores_load n vs m a i k v : Forall (fun v => 0 <= v < 256 ^ Z.of_nat n) vs -> vs !! k = Some v ->
  load_le n (stores n vs m a i) (a + Z.of_nat n * (i + Z.of_nat k)) = v.
Proof.
  revert m i k. induction vs as [|w vs IH]; intros m i k Hv Hk; [done|]. apply Forall_cons in Hv as [Hw Hv]. cbn [stores].
  destruct k as [|k]; [injection Hk as ->|].
  - rewrite Z.add_0_r. transitivity (load_le n (store_le n m (a + Z.of_nat n * i) v) (a + Z.of_nat n * i)).
    + apply load_le_ext. intros x Hx. apply stores_out. nia.
    + rewrite load_store_same. by apply Z.mod_small.
  - replace (i + Z.of_nat (S k)) with (i + 1 + Z.of_nat k) by lia. by apply IH.
Qed.

Lemma stores_bytes n vs m a i : bytes_ok m -> bytes_ok (stores n vs m a i).
Proof. revert m i. induction vs as [|v vs IH]; intros m i Hm; cbn [stores]; [done|]. apply IH. by apply store_le_bytes. Qed.

Definition gdt_words (q : Z) : list Z :=
  [0; seg_bits (SEG (Z.lor STA_X STA_R) 0 0 APP_SEG 0 1); seg_bits (SEG STA_W 0 0 APP_SEG 0 0); 0; seg_bits (SEG STA_W 0 0 APP_SEG DPL_USER 0);
   seg_bits (SEG (Z.lor STA_X STA_R) 0 0 APP_SEG DPL_USER 1); 0; seg_bits (SEG STS_T64A 0xb (q + 1024) 0 DPL_USER 0);
   seg_bits (SEG 0 (Z.shiftr (q + 1024) 32) (Z.shiftr (q + 1024) 48) 0 0 0)].
(** The CPU-local page. *)
Definition local_mem (q : Z) (m : mem) : mem :=
  stores 8 (gdt_words q) (store_le 4 (memset m q 0 PGSIZE) (q + 1024 + 4 * 16) 0x00680000) q 0.

Lemma on_k_run {A} (c : kprog A) m a s : c (m_k m) = Ret a s -> on_k c m = Ret a (set_m_k s m).
Proof. intros E. unfold on_k. by rewrite E. Qed.
Lemma on_p_run {A} (c : prog Platform.plat A) m a p : c (get_p m) = Ret a p -> on_p c m = Ret a (put_p p m).
Proof. intros E. unfold on_p. by rewrite E. Qed.

(** The running processor is the [i]-th of the table, whose local APIC has the number [id]. *)
Record this_cpu `{Devices} (i : nat) (m : machine) : Prop := This_cpu {
  tc_lapic : Platform.lapic (m_p m) <> 0;
  tc_if : cpu_if (k_cpu (m_k m)) = false;
  tc_table : length (Platform.cpus (m_p m)) = NCPU;
  tc_number : exists n id, Platform.ncpu (m_p m) = Z.of_nat n /\ (n <= NCPU)%nat /\
    take n (Platform.cpus (m_p m)) !! i = Some id /\ NoDup (take n (Platform.cpus (m_p m))) /\
    forall acc, exists low, 0 <= low < 16777216 /\ dev_read (acc ++ [LapicR Platform.ID]) = id * 16777216 + low
}.

Lemma this_cpu_num `{Devices} i m caller : this_cpu i m ->
  on_p (Platform.cpunum caller) m = Ret (Z.of_nat i) (put_p (Platform.more (get_p m) [LapicR Platform.ID]) m).
Proof.
  intros [H1 H2 H3 (n & id & H4 & H5 & H6 & H7 & H8)]. apply on_p_run. unfold get_p. rewrite H2, H4.
  destruct (H8 (Platform.accesses (m_p m))) as (low & Hl & Hd).
  rewrite (Platform.cpunum_run _ _ _ _ _ _ _ _ _ _ _ H1 H3 H5 Hl H6 H7 Hd). done.
Qed.

Section Seginit.
Context `{LK : Linker} `{Devices} `{EN : Entries}.

Lemma seginit_run i q m : freelist (k_kmem (m_k m)) = q -> q <> 0 -> alloc_ready (m_k m) -> this_cpu i m ->
  let k1 := kalloced q (m_k m) in cpu_if (k_cpu k1) = cpu_if (k_cpu (m_k m)) ->
  exists m', seginit m = Ret tt m' /\
    m_k m' = set_k_mem (local_mem q (k_mem k1)) (upd_cpu (fun c => set_cpu_proc None (set_cpu_local q (set_cpu_id (Z.of_nat i) c))) k1) /\
    m_ops m' = m_ops m ++ [Wrmsr 0xC0000100 (u64 (q + 2048)); Lgdt q 72; Ltr 0x38] /\ m_local m' = <[i := q]> (m_local m) /\
    Platform.accesses (m_p m') = Platform.accesses (m_p m) ++ [LapicR Platform.ID] /\ m_started m' = m_started m.
Proof.
  intros Hq Hq0 Hr Hc k1 Hif. eexists. split.
  - unfold seginit. mret (on_k_run kalloc m q k1 (kalloc_run q (m_k m) Hq Hq0 Hr)).
    erewrite bind_Ret by (apply on_k_run; reflexivity). erewrite bind_Ret by (apply on_k_run; reflexivity). erewrite bind_Ret by reflexivity.
    erewrite bind_Ret. 2:{ apply (this_cpu_num i). destruct Hc as [H1 H2 H3 H4]. split; [exact H1|by etransitivity|exact H3|exact H4]. }
    rewrite bind_modify, Nat2Z.id. do 10 (erewrite bind_Ret by (apply on_k_run; reflexivity)). erewrite bind_Ret by reflexivity. reflexivity.
  - cbn [m_k m_ops m_local m_p m_started set_m_ops set_m_k set_m_local put_p set_m_p]. split_and!; try done.
    by rewrite <- !app_assoc.
Qed.

End Seginit.

Section Local.
Context `{LK : Linker} (q : Z) (Hq : page_ok q).

Lemma page_room : 0 < q /\ q + 4096 <= 18446744073709551616.
Proof using Hq. destruct Hq as (H1 & _ & _ & H2 & H3). unfold PGSIZE in *. split; [done|]. Z.div_mod_to_equations. lia. Qed.

Lemma gdt_words_ok : Forall word64 (gdt_words q).
Proof using Hq.
  pose proof page_room. destruct (tss_descriptor (q + 1024) ltac:(lia)) as (L & R & _). repeat constructor; try done; try apply L; try apply R.
Qed.

Lemma local_mem_gdt m k v : gdt_words q !! k = Some v -> load64 (local_mem q m) (q + 8 * Z.of_nat k) = v.
Proof using Hq. intros Hk. exact (stores_load 8 _ _ q 0 k v gdt_words_ok Hk). Qed.

Lemma local_mem_out m x : ~ (q <= x < q + PGSIZE) -> local_mem q m x = m x.
Proof using.
  unfold PGSIZE. intros Hx. unfold local_mem. rewrite stores_out by (change (length (gdt_words q)) with 9%nat; lia).
  rewrite store_le_out by lia. rewrite zero_page_mem. destruct (in_range q PGSIZE x) eqn:E; [apply in_range_spec in E; unfold PGSIZE in E; lia|done].
Qed.

(** Outside the GDT and the word that seginit sets, the page is 0. *)
Lemma local_mem_zero m x : q + 72 <= x < q + PGSIZE -> ~ (q + 1024 + 64 <= x < q + 1024 + 68) -> local_mem q m x = 0.
Proof using.
  unfold PGSIZE. intros Hx Hx2. unfold local_mem. rewrite stores_out by (change (length (gdt_words q)) with 9%nat; lia).
  rewrite store_le_out by lia. rewrite zero_page_mem, (proj2 (in_range_spec _ _ _)); [done|unfold PGSIZE; lia].
Qed.

Lemma local_mem_bytes m : bytes_ok m -> bytes_ok (local_mem q m).
Proof using.
  intros Hb. unfold local_mem.
  apply stores_bytes, store_le_bytes, memset_bytes; [done|unfold PGSIZE; lia].
Qed.

End Local.

Lemma seginit_boot `{LK : Linker} `{Devices} `{EN : Entries} i q l m :
  free_pages (m_k m) (q :: l) -> alloc_ready (m_k m) -> use_lock (k_kmem (m_k m)) = 0 -> this_cpu i m ->
  exists m', seginit m = Ret tt m' /\ page_ok q /\ k_mem (m_k m') = local_mem q (k_mem (m_k m)) /\ free_pages (m_k m') l /\
    k_cpu (m_k m') = set_cpu_proc None (set_cpu_local q (set_cpu_id (Z.of_nat i) (k_cpu (m_k m)))) /\
    m_ops m' = m_ops m ++ [Wrmsr 0xC0000100 (u64 (q + 2048)); Lgdt q 72; Ltr 0x38] /\ m_local m' = <[i := q]> (m_local m).
Proof.
  intros Hf Hr Hu Hc. pose proof Hf as [Hlk Hnd Hp _]. apply Forall_cons_1 in Hp as [Hq Hl]. apply NoDup_cons in Hnd as [Hql _].
  assert (locking (m_k m) = false) as El by (unfold locking; by rewrite Hu).
  assert (kalloced q (m_k m) = set_k_kmem (set_freelist (load64 (k_mem (m_k m)) q) (k_kmem (m_k m))) (m_k m)) as Ek.
  { unfold kalloced, lock_sync, mem_traced. rewrite El. unfold locking. cbn. by rewrite Hu. }
  destruct (seginit_run i q m (proj1 Hlk) ltac:(destruct Hq as (_ & _ & _ & ?); lia) Hr Hc) as (m' & E1 & E2 & E3 & E4 & _); [by rewrite Ek|].
  exists m'. pose proof (free_pages_alloced q (m_k m) l Hf) as Hf'. rewrite Ek in E2, Hf'. split_and!; try done.
  - by rewrite E2.
  - rewrite E2. eapply (free_pages_same (set_k_mem (local_mem q (k_mem (m_k m))) (set_k_kmem (set_freelist (load64 (k_mem (m_k m)) q) (k_kmem (m_k m))) (m_k m)))); [done|done|].
    apply free_pages_mem; [exact Hf'|apply local_mem_bytes, Hf|]. intros p x Hpl Hx. cbn. apply local_mem_out.
    rewrite Forall_forall in Hl. destruct (Hl p Hpl) as (Hpa & _). apply (pages_apart p q x); [done|apply Hq|set_solver|exact Hx].
  - by rewrite E2.
Qed.

(** ** Protection *)

(** seginit gives the processor that runs it its own page with the segments that the kernel and the
    system calls need: present 64-bit code and data segments for the kernel in ring 0 and for
    user programs in ring 3, at the selectors of mmu.h, and a task state segment whose
    descriptor has the base 1024 bytes into the page, for every 64-bit address of the page; it loads them, points fs to the middle of the page, and
    records the page and the number of the processor; no other memory changes, and the page is
    not free any more. *)
Theorem seginit_segments `{LK : Linker} `{Devices} `{EN : Entries} i q l m :
  free_pages (m_k m) (q :: l) -> alloc_ready (m_k m) -> use_lock (k_kmem (m_k m)) = 0 -> this_cpu i m ->
  exists m', seginit m = Ret tt m' /\
    let d sel := load64 (k_mem (m_k m')) (q + sel) in
    seg_attrs (d KERNEL_CS) = [Z.lor STA_X STA_R; 1; 0; 1; 1] /\ seg_attrs (d (8 * SEG_KDATA)) = [STA_W; 1; 0; 1; 0] /\
    seg_attrs (d (USER_DS - 3)) = [STA_W; 1; 3; 1; 0] /\ seg_attrs (d (USER_CS - 3)) = [Z.lor STA_X STA_R; 1; 3; 1; 1] /\
    d 0 = 0 /\ tss_address (d (8 * SEG_TSS)) (d (8 * (SEG_TSS + 1))) = q + 1024 /\ seg_attrs (d (8 * SEG_TSS)) = [STS_T64A; 0; 3; 1; 0] /\
    m_ops m' = m_ops m ++ [Wrmsr 0xC0000100 (q + 2048); Lgdt q (9 * 8); Ltr (8 * SEG_TSS)] /\ m_local m' = <[i := q]> (m_local m) /\
    k_cpu (m_k m') = set_cpu_proc None (set_cpu_local q (set_cpu_id (Z.of_nat i) (k_cpu (m_k m)))) /\
    (forall x, ~ (q <= x < q + PGSIZE) -> k_mem (m_k m') x = k_mem (m_k m) x) /\ free_pages (m_k m') l.
Proof.
  intros Hf Hr Hu Hc. destruct (seginit_boot i q l m Hf Hr Hu Hc) as (m' & E1 & Hq & E2 & E3 & E4 & E5 & E6).
  pose proof (page_room q Hq) as [R1 R2]. rewrite (u64_small (q + 2048)) in E5 by lia.
  destruct (tss_descriptor (q + 1024) ltac:(lia)) as (_ & _ & T1 & _ & T2). exists m'. split; [done|]. cbn zeta. rewrite E2.
  assert (forall k v sel, gdt_words q !! k = Some v -> sel = 8 * Z.of_nat k -> load64 (local_mem q (k_mem (m_k m))) (q + sel) = v) as G
    by (intros k v sel Hk ->; by apply local_mem_gdt).
  rewrite (G 1%nat _ KERNEL_CS eq_refl eq_refl), (G 2%nat _ (8 * SEG_KDATA) eq_refl eq_refl), (G 4%nat _ (USER_DS - 3) eq_refl eq_refl),
    (G 5%nat _ (USER_CS - 3) eq_refl eq_refl), (G 0%nat _ 0 eq_refl eq_refl), (G 7%nat _ (8 * SEG_TSS) eq_refl eq_refl), (G 8%nat _ (8 * (SEG_TSS + 1)) eq_refl eq_refl).
  split_and!; try done. intros x Hx. by apply local_mem_out.
Qed.

(** The processor lets a program in user mode, without I/O privilege, access a port when its bit in the
    map of the task state segment is clear; the base of the map is the word at the offset 102. *)
Definition io_permitted (m : mem) (tss limit port : Z) : bool :=
  let map := load_le 2 m (tss + 102) in
  (map + port / 8 + 1 <=? limit) && negb (Z.testbit (load_le 2 m (tss + map + port / 8)) (port mod 8)).

(** C24: The task state segment that seginit makes does not keep user programs from the devices: the base of its map of
    ports is 0, as seginit stores the intended base at the offset 64 instead of 102, the map
    lies inside the limit of the segment, and also after switchuvm has set the stack in it, the bits of all the
    registers of the disk controller are clear, so that a user program can give it commands. *)
Theorem tss_leaves_ports_open `{LK : Linker} `{Devices} `{EN : Entries} i q l m :
  free_pages (m_k m) (q :: l) -> alloc_ready (m_k m) -> use_lock (k_kmem (m_k m)) = 0 -> this_cpu i m ->
  exists m', seginit m = Ret tt m' /\
    let lo := load64 (k_mem (m_k m')) (q + 8 * SEG_TSS) in
    load_le 2 (k_mem (m_k m')) (q + 1024 + 102) = 0 /\ load_le 4 (k_mem (m_k m')) (q + 1024 + 64) = 0x00680000 /\ tss_limit lo = 0xbfff /\
    forall kstack port, 0x1f0 <= port <= 0x1f7 -> io_permitted (tss_mem q kstack (k_mem (m_k m'))) (q + 1024) (tss_limit lo) port = true.
Proof.
  intros Hf Hr Hu Hc. destruct (seginit_boot i q l m Hf Hr Hu Hc) as (m' & E1 & Hq & E2 & _).
  pose proof (page_room q Hq) as [R1 R2]. exists m'. split; [done|]. cbn zeta. rewrite E2. set (M := local_mem q _).
  destruct (tss_descriptor (q + 1024) ltac:(lia)) as (_ & _ & _ & T & _).
  assert (load64 M (q + 8 * SEG_TSS) = seg_bits (SEG STS_T64A 0xb (q + 1024) 0 DPL_USER 0)) as -> by (exact (local_mem_gdt q Hq _ 7 _ eq_refl)). rewrite T.
  assert (forall x, q + 72 <= x < q + 4096 -> ~ (q + 1088 <= x < q + 1092) -> M x = 0) as HM by (intros x Hx Hx2; apply local_mem_zero; unfold PGSIZE; lia).
  assert (forall m a, m a = 0 -> m (a + 1) = 0 -> load_le 2 m a = 0) as L2 by (intros m0 a A1 A2; cbn [load_le]; by rewrite A1, A2).
  split_and!.
  - apply L2; apply HM; lia.
  - transitivity (load_le 4 (store_le 4 (memset (k_mem (m_k m)) q 0 PGSIZE) (q + 1024 + 4 * 16) 0x00680000) (q + 1024 + 64)); [|rewrite (load_store_same 4); done].
    apply load_le_ext. intros x Hx. apply stores_out. change (length (gdt_words q)) with 9%nat. lia.
  - done.
  - intros kstack port Hp. assert (forall x, q + 1024 + 12 <= x < q + 4096 -> tss_mem q kstack M x = M x) as Ht
      by (intros x Hx; unfold tss_mem; rewrite !store_le_out by lia; done).
    assert (port / 8 = 62) as Ep by (Z.div_mod_to_equations; lia). unfold io_permitted. rewrite Ep.
    rewrite (L2 _ (q + 1024 + 102)) by (rewrite Ht by lia; apply HM; lia). rewrite (L2 _ (q + 1024 + 0 + 62)) by (rewrite Ht by lia; apply HM; lia).
    by rewrite Z.testbit_0_l.
Qed.

(** The last value written to a model specific register. *)
Definition msr (r : Z) (ops : list sysop) : Z :=
  fold_left (fun v o => match o with Wrmsr r' w => if r' =? r then w else v | _ => v end) ops 0.

(** syscallinit sets the processor up so that the instruction syscall enters syscall_entry in ring 0 with interrupts off, and sysretq
    returns to ring 3 with the selectors of the user segments that seginit makes. *)
Theorem syscallinit_selectors `{EN : Entries} fs tss m : exists m', syscallinit m = Ret tt m' /\
  let sys := Sysregs fs tss (msr MSR_STAR (m_ops m')) (msr MSR_LSTAR (m_ops m')) (msr MSR_SFMASK (m_ops m')) in
  forall s next,
    x_rip (step sys (Syscall next) s) = syscall_entry_addr /\ x_cs (step sys (Syscall next) s) = KERNEL_CS /\
    x_ss (step sys (Syscall next) s) = 8 * SEG_KDATA /\ Z.land (x_rflags (step sys (Syscall next) s)) FL_IF = 0 /\
    x_cs (step sys Sysretq s) = USER_CS /\ x_ss (step sys Sysretq s) = USER_DS.
Proof.
  eexists. split; [unfold syscallinit, sysop_do; rewrite !bind_modify; reflexivity|]. cbn zeta. intros s next. cbn [m_ops set_m_ops]. unfold msr.
  rewrite !fold_left_app. cbn [fold_left]. split_and!; try done. cbn -[Z.land Z.ldiff].
  apply Z.bits_inj'. intros k Hk. rewrite Z.land_spec, Z.ldiff_spec, Z.testbit_0_l.
  destruct (Z.testbit FL_IF k) eqn:E; [|apply andb_false_r]. assert (k = 9) as ->; [|by destruct (Z.testbit (x_rflags s) 9)].
  unfold FL_IF in E. change 512 with (2 ^ 9) in E. rewrite Z.pow2_bits_eqb in E by lia. by apply Z.eqb_eq in E.
Qed.

(** *** Witnesses *)

(** One free page before kinit2, on the second of three processors. *)
Definition cold : kstate := kfreed one_page (set_k_kmem (Kmem 0 0) booted).
Definition three_apics : Platform.plat := Platform.Plat (fun _ => 0) (P2V 0xFEE00000) [0; 4; 6; 0; 0; 0; 0; 0] 3 2 0 false [].
Definition cold_machine : machine := Mach cold three_apics (replicate 8 0) (replicate 8 0) 1 0 0 [].
Definition no_entries : Entries := {| entryother_start := 0; entryother_size := 0; entry32mp := 0; syscall_entry_addr := 0x1000;
  ignore_sysret_addr := 0; vectors _ := 0; caller_in _ := 0 |}.

Lemma cold_free : @free_pages small_linker cold [one_page] /\ alloc_ready cold.
Proof.
  split.
  - apply (@free_pages_freed small_linker); [apply one_page_ok|set_solver|]. split; [done|constructor|constructor|]. intros x. cbn. lia.
  - apply kfreed_ready. split_and!; [boot_lock|boot_lock|apply cpu_ok_boot].
Qed.

Lemma cold_cpu : @this_cpu Platform.second_cpu 1 cold_machine.
Proof.
  split; [done|done|done|]. exists 3%nat, 4. split_and!; [done|unfold NCPU; lia|done|by apply (bool_decide_unpack _)|].
  intros acc. exists 0. split; [lia|done].
Qed.

Lemma seginit_segments_witness : exists m', @seginit Platform.second_cpu no_entries cold_machine = Ret tt m' /\
  tss_address (load64 (k_mem (m_k m')) (one_page + 56)) (load64 (k_mem (m_k m')) (one_page + 64)) = one_page + 1024.
Proof.
  destruct (@seginit_segments small_linker Platform.second_cpu no_entries 1 one_page [] cold_machine (proj1 cold_free) (proj2 cold_free) eq_refl cold_cpu)
    as (m' & E & _ & _ & _ & _ & _ & T & _).
  exists m'. split; [exact E|exact T].
Defined.

Lemma tss_leaves_ports_open_witness : exists m', @seginit Platform.second_cpu no_entries cold_machine = Ret tt m' /\
  load_le 2 (k_mem (m_k m')) (one_page + 1024 + 102) = 0.
Proof.
  destruct (@tss_leaves_ports_open small_linker Platform.second_cpu no_entries 1 one_page [] cold_machine (proj1 cold_free) (proj2 cold_free) eq_refl cold_cpu)
    as (m' & E & T & _).
  exists m'. split; [exact E|exact T].
Defined.

(** ** Gates *)

Lemma lor_low k a b : 0 <= k -> 0 <= a < 2 ^ k -> Z.lor a (b * 2 ^ k) = a + b * 2 ^ k.
Proof.
  intros Hk Ha. rewrite <- Z.add_lor_land. replace (Z.land a (b * 2 ^ k)) with 0; [lia|]. symmetry. apply Z.bits_inj'. intros i Hi.
  rewrite Z.land_spec, Z.testbit_0_l. destruct (Z.ltb_spec i k); [rewrite (Z.mul_pow2_bits_low b k i) by lia; apply andb_false_r|].
  rewrite <- (Z.mod_small a (2 ^ k)), Z.mod_pow2_bits_high by lia. done.
Qed.

Lemma mkgate_words a : 0 <= a < 18446744073709551616 ->
  mkgate a 0 = [a mod 65536 + 8 * 65536; 0x8E00 + a / 65536 mod 65536 * 65536; a / 4294967296; 0].
Proof.
  intros Ha. unfold mkgate, Trap.KERNEL_CS. rewrite Z.shiftl_mul_pow2, Z.shiftr_div_pow2 by lia. f_equal; [|f_equal; [|f_equal]].
  - change 65535 with (Z.ones 16). rewrite Z.land_ones, lor_low by (try apply Z.mod_pos_bound; lia). done.
  - assert (Z.land a 4294901760 = a / 65536 mod 65536 * 65536) as ->.
    { apply Z.bits_inj'. intros i Hi. change 4294901760 with (Z.ones 16 * 2 ^ 16). change 65536 with (2 ^ 16). rewrite Z.land_spec.
      destruct (Z.ltb_spec i 16); [rewrite !Z.mul_pow2_bits_low by lia; apply andb_false_r|]. rewrite !Z.mul_pow2_bits by lia. rewrite Z.testbit_ones by lia.
      destruct (Z.ltb_spec (i - 16) 16); [rewrite Z.mod_pow2_bits_low, Z.div_pow2_bits by lia; replace (i - 16 + 16) with i by lia|rewrite Z.mod_pow2_bits_high by lia].
      - rewrite (proj2 (Z.leb_le 0 (i - 16))) by lia. apply andb_true_r.
      - by rewrite !andb_false_r. }
    change (Z.shiftl (Z.land 0 3) 13) with 0. rewrite Z.lor_0_r, Z.lor_comm. change 65536 with (2 ^ 16) at 2. rewrite (lor_low 16 36352) by lia.
    apply u32_small. Z.div_mod_to_equations. lia.
  - change (2 ^ 32) with 4294967296. rewrite u32_small; [done|]. Z.div_mod_to_equations. lia.
Qed.

(** The target, the selector and the attributes of the gate at [g]. *)
Definition gate_target (m : mem) (g : Z) : Z :=
  load_le 4 m g mod 65536 + load_le 4 m (g + 4) / 65536 * 65536 + load_le 4 m (g + 8) * 4294967296.
Definition gate_selector (m : mem) (g : Z) : Z := load_le 4 m g / 65536.
Definition gate_attrs (m : mem) (g : Z) : Z := load_le 4 m (g + 4) mod 65536.

Definition idt_words (vectors : nat -> Z) (n : nat) : list Z := concat (map (fun k => mkgate (vectors k) 0) (seq 0 n)).

Lemma st32_all vs a i s : for_each (imap (fun j w => (a + 4 * (i + Z.of_nat j), w)) vs) (fun p => st32 (fst p) (snd p)) s =
  Ret tt (upd_mem (fun m => stores 4 vs m a i) s).
Proof.
  revert i s. induction vs as [|v vs IH]; intros i s; cbn [for_each stores]; [by destruct s|]. cbn [imap for_each]. unfold st32 at 1. rewrite bind_modify.
  replace (imap _ vs) with (imap (fun j w => (a + 4 * (i + 1 + Z.of_nat j), w)) vs); [rewrite IH; cbn [fst snd]; by rewrite Z.add_0_r|].
  apply imap_ext. intros j w _. cbn. do 2 f_equal. lia.
Qed.

Lemma stores_app n vs ws m a i : stores n (vs ++ ws) m a i = stores n ws (stores n vs m a i) a (i + Z.of_nat (length vs)).
Proof. revert m i. induction vs as [|v vs IH]; intros m i; cbn [stores app length]; [f_equal; lia|]. rewrite IH. f_equal. lia. Qed.

Section Idt.
Context (vectors : nat -> Z).

Lemma idt_words_S n : idt_words vectors (S n) = idt_words vectors n ++ mkgate (vectors n) 0.
Proof. unfold idt_words. rewrite seq_S, map_app, concat_app. cbn [map concat Nat.add]. by rewrite app_nil_r. Qed.

Lemma length_idt_words n : length (idt_words vectors n) = (4 * n)%nat.
Proof. induction n as [|n IH]; [done|]. rewrite idt_words_S, length_app, IH. cbn. lia. Qed.

Lemma idt_fill q n s :
  for_each (seq 0 n) (fun n => for_each (imap (fun j w => (q + 16 * Z.of_nat n + 4 * Z.of_nat j, w)) (mkgate (vectors n) 0)) (fun p => st32 (fst p) (snd p))) s =
  Ret tt (upd_mem (fun m => stores 4 (idt_words vectors n) m q 0) s).
Proof.
  revert s. induction n as [|n IH]; intros s; [by destruct s|]. rewrite seq_S, for_each_app. mret (IH s). cbn [for_each Nat.add].
  replace (imap _ (mkgate (vectors n) 0)) with (imap (fun j w => (q + 4 * (Z.of_nat (4 * n) + Z.of_nat j), w)) (mkgate (vectors n) 0))
    by (apply imap_ext; intros j w _; cbn; f_equal; lia).
  mret (st32_all (mkgate (vectors n) 0) q (Z.of_nat (4 * n)) (upd_mem (fun m => stores 4 (idt_words vectors n) m q 0) s)).
  unfold ret, upd_mem. cbn [k_mem set_k_mem]. f_equal. by rewrite idt_words_S, stores_app, length_idt_words.
Qed.

Lemma idt_words_at n k j : (k < n)%nat -> (j < 4)%nat -> idt_words vectors n !! (4 * k + j)%nat = mkgate (vectors k) 0 !! j.
Proof.
  intros Hk Hj. induction n as [|n IH]; [lia|]. rewrite idt_words_S.
  destruct (decide (k = n)) as [->|Hne].
  - rewrite lookup_app_r, length_idt_words by (rewrite length_idt_words; lia). f_equal. lia.
  - rewrite lookup_app_l by (rewrite length_idt_words; lia). apply IH. lia.
Qed.

Lemma idt_words_ok n : (forall k, (k < n)%nat -> word64 (vectors k)) -> Forall (fun v => 0 <= v < 256 ^ Z.of_nat 4) (idt_words vectors n).
Proof.
  intros Hv. unfold idt_words. apply Forall_concat, Forall_map, Forall_forall. intros k Hk%elem_of_seq. cbn. rewrite mkgate_words by (apply Hv; lia).
  specialize (Hv k ltac:(lia)). unfold word64 in Hv. repeat constructor; change (256 ^ Z.of_nat 4) with 4294967296; Z.div_mod_to_equations; lia.
Qed.

End Idt.

(** tvinit makes an interrupt descriptor table in a page of its own in which each of the 256 gates leads to its
    entry point, whatever 64-bit address that has, through the code segment of the kernel, as a present
    interrupt gate (which turns interrupts off) that user programs cannot call; no other memory
    changes. *)
Theorem tvinit_gates `{LK : Linker} q l vectors s :
  free_pages s (q :: l) -> alloc_ready s -> (forall n, (n < 256)%nat -> word64 (vectors n)) ->
  exists s', tvinit vectors s = Ret q s' /\
    (forall n, (n < 256)%nat -> let g := q + 16 * Z.of_nat n in
       gate_target (k_mem s') g = vectors n /\ gate_selector (k_mem s') g = KERNEL_CS /\ gate_attrs (k_mem s') g = 0x8E00) /\
    (forall x, ~ (q <= x < q + PGSIZE) -> k_mem s' x = k_mem s x) /\ free_pages s' l.
Proof.
  intros Hf Hr Hv. pose proof Hf as [Hlk Hnd Hp _]. apply Forall_cons_1 in Hp as [Hq Hl]. apply NoDup_cons in Hnd as [Hql _].
  set (k1 := kalloced q s). set (M := stores 4 (idt_words vectors 256) (memset (k_mem k1) q 0 PGSIZE) q 0).
  exists (set_k_mem M k1).
  assert (forall x, ~ (q <= x < q + PGSIZE) -> M x = k_mem s x) as Hout.
  { unfold PGSIZE. intros x Hx. unfold M. rewrite stores_out by (rewrite length_idt_words; lia). rewrite zero_page_mem.
    destruct (in_range q PGSIZE x) eqn:E; [apply in_range_spec in E; unfold PGSIZE in E; lia|]. unfold k1. by rewrite kalloced_mem. }
  split_and!; [| |done|].
  - unfold tvinit. mret (kalloc_run q s (proj1 Hlk) ltac:(destruct Hq as (_ & _ & _ & ?); lia) Hr). rewrite bind_modify.
    mret (idt_fill vectors q 256 (upd_mem (fun m => memset m q 0 PGSIZE) k1)). done.
  - intros n Hn. cbn zeta. cbn [k_mem set_k_mem]. specialize (Hv n Hn) as Hvn. unfold word64 in Hvn.
    assert (forall j w, mkgate (vectors n) 0 !! j = Some w -> load_le 4 M (q + 16 * Z.of_nat n + 4 * Z.of_nat j) = w) as Hw.
    { intros j w Hj. pose proof (lookup_lt_Some _ _ _ Hj) as Hj4. cbn in Hj4. rewrite <- (idt_words_at vectors 256 n j Hn Hj4) in Hj.
      pose proof (stores_load 4 (idt_words vectors 256) (memset (k_mem k1) q 0 PGSIZE) q 0 _ w (idt_words_ok vectors 256 Hv) Hj) as E. fold M in E. rewrite <- E. f_equal. lia. }
    rewrite mkgate_words in Hw by done. pose proof (Hw 0%nat _ eq_refl) as W0. pose proof (Hw 1%nat _ eq_refl) as W1. pose proof (Hw 2%nat _ eq_refl) as W2.
    change (4 * Z.of_nat 0) with 0 in W0. change (4 * Z.of_nat 1) with 4 in W1. change (4 * Z.of_nat 2) with 8 in W2. rewrite Z.add_0_r in W0.
    unfold gate_target, gate_selector, gate_attrs. rewrite W0, W1, W2. change KERNEL_CS with 8. split_and!; Z.div_mod_to_equations; lia.
  - apply free_pages_mem; [by apply free_pages_alloced|apply stores_bytes, memset_bytes; [unfold k1; rewrite kalloced_mem; apply Hf|unfold PGSIZE; lia]|].
    intros p x Hpl Hx. unfold k1. rewrite kalloced_mem. apply Hout. rewrite Forall_forall in Hl. destruct (Hl p Hpl) as (Hpa & _).
    clear - Hq Hql Hpa Hx Hpl. apply (pages_apart p q x); [done|apply Hq|set_solver|exact Hx].
Qed.

Lemma tvinit_gates_witness : exists s', tvinit (fun n => KERNBASE + 0x100000 + 16 * Z.of_nat n) cold = Ret one_page s' /\
  gate_target (k_mem s') (one_page + 16 * 14) = KERNBASE + 0x100000 + 16 * 14.
Proof.
  destruct (@tvinit_gates small_linker one_page [] (fun n => KERNBASE + 0x100000 + 16 * Z.of_nat n) cold (proj1 cold_free) (proj2 cold_free)) as (s' & E & G & _).
  - intros n Hn. unfold word64, KERNBASE. lia.
  - exists s'. split; [exact E|]. apply (G 14%nat). lia.
Defined.

(** ** The other processors *)

(** The STARTUP messages in a sequence of accesses: the local APIC they go to and the page at which that processor
    starts; the destination is in the upper half of the command register. *)
Definition startup_step (st : Z * list (Z * Z)) (a : io) : Z * list (Z * Z) :=
  match a with
  | LapicW i v =>
    if i =? Platform.ICRHI then (v, snd st)
    else if (i =? Platform.ICRLO) && (Z.land v 0x700 =? Platform.STARTUP) then (fst st, snd st ++ [(fst st / 16777216, v mod 256)])
    else st
  | _ => st
  end.
Definition startups (acc : list io) : list (Z * Z) := snd (fold_left startup_step acc (0, [])).

Section Others.
Context `{LK : Linker} `{Devices} `{EN : Entries}.

(** The accesses of lapicstartap. *)
Definition ipis (apicid addr : Z) : list io :=
  let w i v := [LapicW i (u32 v); LapicR Platform.ID] in
  [OutB 0x70 0xF; OutB 0x71 0x0A] ++ w Platform.ICRHI (i32 (Z.shiftl apicid 24)) ++ w Platform.ICRLO 0xC500 ++ w Platform.ICRLO 0x8500 ++
  w Platform.ICRHI (i32 (Z.shiftl apicid 24)) ++ w Platform.ICRLO (Z.lor 0x600 (Z.shiftr addr 12)) ++
  w Platform.ICRHI (i32 (Z.shiftl apicid 24)) ++ w Platform.ICRLO (Z.lor 0x600 (Z.shiftr addr 12)).
Definition reset_vector (addr : Z) (m : mem) : mem :=
  store_le 2 (store_le 2 m (P2V 0x467) 0) (P2V 0x467 + 2) (u16 (Z.shiftr addr 4)).

Lemma lapicw_run i v p : Platform.lapicw i v p = Ret tt (Platform.more p [LapicW i (u32 v); LapicR Platform.ID]).
Proof.
  unfold Platform.lapicw, Platform.lapicr, Platform.access. rewrite bind_modify, bind_assoc, bind_modify, bind_gets. unfold ret, Platform.more. cbn. by rewrite <- app_assoc.
Qed.

Lemma lapicstartap_run apicid addr p : Platform.lapicstartap apicid addr p =
  Ret tt (Platform.more (Platform.set_mem (reset_vector addr (Platform.p_mem p)) p) (ipis apicid addr)).
Proof.
  unfold Platform.lapicstartap, Platform.outb, Platform.access. rewrite !bind_modify. change (seqZ 0 2) with [0; 1]. cbn [for_each].
  do 3 (erewrite bind_Ret by apply lapicw_run). erewrite bind_Ret by (erewrite bind_Ret by apply lapicw_run; apply lapicw_run).
  erewrite bind_Ret by (erewrite bind_Ret by apply lapicw_run; apply lapicw_run). rewrite !more_more.
  unfold ret, Platform.more, Platform.set_mem. cbn [Platform.p_mem Platform.lapic Platform.cpus Platform.ncpu Platform.ioapicid Platform.warned Platform.fl_if Platform.accesses].
  rewrite <- !app_assoc. reflexivity.
Qed.

Lemma startups_ipis apicid : 0 <= apicid < 256 -> startups (ipis apicid 0x7000) = [(apicid, 7); (apicid, 7)].
Proof.
  intros Ha. assert (u32 (i32 (Z.shiftl apicid 24)) = apicid * 16777216) as E.
  { rewrite Z.shiftl_mul_pow2 by lia. change (2 ^ 24) with 16777216. word_lia. }
  transitivity [(u32 (i32 (Z.shiftl apicid 24)) / 16777216, 7); (u32 (i32 (Z.shiftl apicid 24)) / 16777216, 7)]; [reflexivity|].
  by rewrite E, Z.div_mul by lia.
Qed.

End Others.

(** The round of the wait for the processor [c]. *)
Definition wait_started (c : Z) : prog machine (option unit) :=
  st <- gets (fun m => nth (Z.to_nat c) (m_started m) 0);;
  if st =? 0 then others_run;;; ret None else ret (Some tt).

Lemma wait_started_runs R n n' c m : (n' <= n)%nat ->
  runs n' R (repeat_until (S n) (wait_started c) m) (fun _ m' => nth (Z.to_nat c) (m_started m') 0 <> 0 /\ (m' = m \/ exists m0, R m0 m')).
Proof.
  revert n' m. induction n as [|n IH]; intros n' m Hn; change (repeat_until (S ?k) ?r) with (x <- r;; match x with Some v => ret v | None => repeat_until k r end);
    unfold wait_started at 1; rewrite bind_assoc, bind_gets; (destruct (Z.eqb_spec (nth (Z.to_nat c) (m_started m) 0) 0); [|split; [done|by left]]).
  - cbn. assert (n' = 0%nat) as -> by lia. done.
  - rewrite bind_assoc. cbn. destruct n' as [|n']; [done|]. intros m2 Hm. cbn.
    eapply runs_mono; [|apply IH; lia]. cbv beta. intros [] m3 [H1 H2]. split; [done|]. right. destruct H2 as [->|H2]; [by exists m|done].
Qed.

Section Boot_others.
Context `{LK : Linker} `{Devices} `{EN : Entries}.
Context (Hlow : P2V 0x7000 <= kernel_end).
Let code := P2V 0x7000.

(** Low memory for the processor that starts: what entryother.S and entry.S read there. *)
Definition boot_mem (stack : Z) (m : mem) : mem :=
  reset_vector 0x7000 (store64 (store_le 4 (store_le 4 m (code - 4) 0x8000) (code - 8) (u32 (V2P entry32mp))) (code - 16) (u64 (stack + KSTACKSIZE))).

Lemma boot_mem_out stack m x : code <= x -> boot_mem stack m x = m x.
Proof using.
  intros Hx. unfold boot_mem, reset_vector, store64. change (P2V 0x467) with (code - 0x6b99). rewrite !store_le_out; [done|lia..].
Qed.

Lemma boot_mem_words stack m : word64 (stack + KSTACKSIZE) -> let M := boot_mem stack m in
  load_le 4 M (code - 4) = 0x8000 /\ load_le 4 M (code - 8) = u32 (V2P entry32mp) /\ load64 M (code - 16) = stack + KSTACKSIZE.
Proof using.
  intros Hs. cbn zeta. unfold boot_mem, reset_vector. change (P2V 0x467) with (code - 0x6b99). split_and!.
  - etransitivity; [apply (load_le_ext 4 _ (store_le 4 m (code - 4) 0x8000)); intros x Hx; unfold store64; do 4 rewrite store_le_out by lia; done|]. by rewrite (load_store_same 4).
  - etransitivity; [apply (load_le_ext 4 _ (store_le 4 (store_le 4 m (code - 4) 0x8000) (code - 8) (u32 (V2P entry32mp)))); intros x Hx; unfold store64; do 3 rewrite store_le_out by lia; done|].
    rewrite (load_store_same 4). apply Z.mod_small. apply u32_range.
  - etransitivity; [apply load64_other; intros x Hx; do 2 rewrite store_le_out by lia; reflexivity|]. rewrite (u64_small _ Hs). by apply load64_store64.
Qed.

Lemma startother_run i q l c id m fuel : free_pages (m_k m) (q :: l) -> alloc_ready (m_k m) -> use_lock (k_kmem (m_k m)) = 0 -> this_cpu i m ->
  c <> i -> Platform.cpus (m_p m) !! c = Some id ->
  exists m1, startother fuel code (Z.of_nat c) m = repeat_until fuel (wait_started (Z.of_nat c)) m1 /\
    k_mem (m_k m1) = boot_mem q (k_mem (m_k m)) /\ free_pages (m_k m1) l /\ page_ok q /\ m_started m1 = m_started m /\
    Platform.accesses (m_p m1) = Platform.accesses (m_p m) ++ [LapicR Platform.ID] ++ ipis id 0x7000 /\
    Platform.cpus (m_p m1) = Platform.cpus (m_p m) /\ Platform.ncpu (m_p m1) = Platform.ncpu (m_p m).
Proof using Hlow.
  intros Hf Hr Hu Hc Hne Hid. pose proof Hf as [Hlk Hnd Hp _]. apply Forall_cons_1 in Hp as [Hq Hl].
  set (m0 := put_p (Platform.more (get_p m) [LapicR Platform.ID]) m). assert (m_k m0 = m_k m) as Ek0 by (unfold m0; cbn; by destruct (m_k m)).
  set (k1 := kalloced q (m_k m)). eexists. split.
  - unfold startother. mret (this_cpu_num i m (caller_in "startothers") Hc). fold m0. destruct (Z.eqb_spec (Z.of_nat c) (Z.of_nat i)); [lia|].
    erewrite bind_Ret. 2:{ apply (on_k_run kalloc m0 q k1). rewrite Ek0. apply kalloc_run; [apply Hlk|destruct Hq as (_ & _ & _ & ?); lia|done]. }
    do 3 (erewrite bind_Ret by (apply on_k_run; reflexivity)). rewrite bind_gets. erewrite bind_Ret by (apply on_p_run; apply lapicstartap_run).
    fold (wait_started (Z.of_nat c)). reflexivity.
  - assert (k_mem k1 = k_mem (m_k m)) as Em by apply kalloced_mem. pose proof (free_pages_alloced q (m_k m) l Hf) as Hf1. fold k1 in Hf1.
    assert (nth (Z.to_nat (Z.of_nat c)) (Platform.cpus (m_p m)) 0 = id) as Ei by (rewrite Nat2Z.id; by apply nth_lookup_Some).
    split_and!; try done.
    + cbn. rewrite Em. done.
    + eapply (free_pages_same (set_k_mem (boot_mem q (k_mem k1)) k1)); [done|done|]. apply free_pages_mem; [done| |].
      * unfold boot_mem, reset_vector. do 5 apply store_le_bytes. rewrite Em. apply Hf.
      * intros p x Hpl [Hx _]. apply boot_mem_out. rewrite Forall_forall in Hl. destruct (Hl p Hpl) as (_ & Hke & _). unfold code. lia.
    + cbn. rewrite Ei, <- app_assoc. done.
Qed.

End Boot_others.

(** C23: One round of startothers, for another processor [c] that has not started: it takes a free page as the
    stack of that processor and leaves in low memory, below the code at 0x7000, what entryother.S and entry.S read there,
    the 32-bit entry point, a first stack, and the top of the page taken; then it sends the local APIC of exactly that processor
    two STARTUP messages for the page of the code, and waits; whatever the others do meanwhile,
    it goes on only when that processor has set its flag started.  The running processor itself is left alone. *)
Theorem startother_boots `{LK : Linker} `{Devices} `{EN : Entries} i q l c id n m :
  P2V 0x7000 <= kernel_end -> free_pages (m_k m) (q :: l) -> alloc_ready (m_k m) -> use_lock (k_kmem (m_k m)) = 0 -> this_cpu i m ->
  c <> i -> Platform.cpus (m_p m) !! c = Some id -> 0 <= id < 256 -> nth c (m_started m) 0 = 0 ->
  let code := P2V 0x7000 in
  (exists m1 k, startother (S n) code (Z.of_nat c) m = Swtch m1 k /\
     load_le 4 (k_mem (m_k m1)) (code - 4) = 0x8000 /\ load_le 4 (k_mem (m_k m1)) (code - 8) = u32 (V2P entry32mp) /\
     load64 (k_mem (m_k m1)) (code - 16) = q + KSTACKSIZE /\ free_pages (m_k m1) l /\
     (forall x, code <= x -> k_mem (m_k m1) x = k_mem (m_k m) x) /\
     exists acc, Platform.accesses (m_p m1) = Platform.accesses (m_p m) ++ acc /\ startups acc = [(id, 7); (id, 7)]) /\
  runs n (fun _ _ => True) (startother (S n) code (Z.of_nat c) m) (fun _ m' => nth c (m_started m') 0 <> 0) /\
  exists m', startother (S n) code (Z.of_nat i) m = Ret tt m' /\ m_k m' = m_k m /\ m_started m' = m_started m.
Proof.
  intros Hlow Hf Hr Hu Hc Hne Hid Hr0 Hst code. subst code.
  destruct (startother_run Hlow i q l c id m (S n) Hf Hr Hu Hc Hne Hid) as (m1 & E1 & E2 & E3 & Hq & E4 & E5 & _).
  pose proof (page_room q Hq) as [R1 R2]. split_and!.
  - exists m1. eexists. rewrite E1, E2. split.
    + cbn [repeat_until]. unfold wait_started at 1. rewrite bind_assoc, bind_gets, Nat2Z.id, E4, Hst. reflexivity.
    + destruct (boot_mem_words q (k_mem (m_k m))) as (B1 & B2 & B3); [|split_and!; try done].
      * destruct Hq as (_ & _ & Hph & _). unfold word64, KSTACKSIZE in *. unfold V2P, PHYSTOP, u64, KERNBASE in Hph. Z.div_mod_to_equations. lia.
      * intros x Hx. by apply boot_mem_out.
      * eexists. split; [exact E5|]. rewrite <- (startups_ipis id Hr0). reflexivity.
  - rewrite E1. eapply runs_mono; [|by apply (wait_started_runs _ n n)]. cbv beta. intros [] m' [Hm _]. by rewrite Nat2Z.id in Hm.
  - eexists. unfold startother. rewrite (bind_Ret _ _ _ _ _ (this_cpu_num i m (caller_in "startothers") Hc)). rewrite Z.eqb_refl. split; [reflexivity|].
    cbn. split; [by destruct (m_k m)|done].
Qed.

Lemma startother_boots_witness : exists m1 k, @startother Platform.second_cpu no_entries 10 (P2V 0x7000) 2 cold_machine = Swtch m1 k /\
  load64 (k_mem (m_k m1)) (P2V 0x7000 - 16) = one_page + KSTACKSIZE.
Proof.
  destruct (@startother_boots small_linker Platform.second_cpu no_entries 1 one_page [] 2 6 9 cold_machine) as [(m1 & k & E & _ & _ & B & _) _].
  - vm_compute. congruence.
  - apply cold_free.
  - apply cold_free.
  - done.
  - apply cold_cpu.
  - done.
  - done.
  - lia.
  - done.
  - exists m1, k. split; [exact E|exact B].
Defined.
