(* ===== verification/Userprogs.v ===== *)
(** * Userprogs: printf.c of the user library, stat() of ulib.c, and the programs echo.c,
      kill.c, ln.c, mkdir.c, rm.c, ls.c and init.c

    A user program is run from the list of the system calls it has made so far; what the
    kernel answers to a call is a function of that list, which ends with the call.  A C
    string is the list of its bytes before the NUL.  [exit] is the last call of a program. *)

From S2P Require Import Prelude Machine Cstring Ktrace Console.
#[local] Open Scope prog_scope.

Inductive ucall :=
| Write (fd : Z) (bytes : list Z)
| Open (path : list Z) (mode : Z)
| Fstat (fd : Z)
| Read (fd n : Z)
| Close (fd : Z)
| Dup (fd : Z)
| Mknod (path : list Z) (major minor : Z)
| Mkdir (path : list Z)
| Link (old new : list Z)
| Unlink (path : list Z)
| Fork
| Exec (path : list Z) (argv : list (list Z))
| Wait
| Kill (pid : Z)
| Exit.

(** The fields of struct stat that the programs use. *)
Record ustat := Ustat { st_type : Z; st_ino : Z; st_size : Z }.

(** What the kernel answers to the last call: its result, and the bytes or the status that
    it stores for the caller. *)
Class Kernel := {
  result : list ucall -> Z;
  bytes_read : list ucall -> list Z;
  status : list ucall -> ustat
}.

Module User.

Section User.
Context `{Kernel}.

Definition uprog := prog (list ucall).

Definition sys (c : ucall) : uprog Z := modify (fun l => l ++ [c]);;; gets result.

(** ** printf.c *)

Definition putc (fd c : Z) : uprog unit := sys (Write fd [u8 c]);;; ret tt.

Definition digits : list Z := lit "0123456789abcdef".

(** [n] digits from the top of a word with [bits] bits. *)
Fixpoint print_x (n : nat) (bits : Z) (fd x : Z) : uprog unit :=
  match n with
  | O => ret tt
  | S n => putc fd (nth (Z.to_nat (Z.shiftr x (bits - 4))) digits 0);;; print_x n bits fd (Z.shiftl x 4 mod 2 ^ bits)
  end.
Definition print_x64 (fd x : Z) : uprog unit := print_x 16 64 fd x.
Definition print_x32 (fd x : Z) : uprog unit := print_x 8 32 fd x.

(** The digits of [x], the last one first, in a buffer of 16. *)
Fixpoint d_loop (room : nat) (x : Z) : list Z :=
  match room with
  | O => []
  | S room => nth (Z.to_nat (x mod 10)) digits 0 :: (if x / 10 =? 0 then [] else d_loop room (x / 10))
  end.
Definition print_d (fd v : Z) : uprog unit :=
  let x := if v <? 0 then - v else v in
  let buf := d_loop 16 x ++ (if v <? 0 then [45] else []) in
  for_each (rev buf) (putc fd).

Fixpoint printf (fd : Z) (fmt : list Z) (args : list farg) : uprog unit :=
  match fmt with
  | [] => ret tt
  | c :: fmt =>
    if negb (c =? 37) then putc fd c;;; printf fd fmt args else
    match fmt with
    | [] => ret tt
    | c :: fmt =>
      if c =? 99 then
        match args with FInt v :: args => putc fd v;;; printf fd fmt args | _ => undef "printf: argument" end
      else if c =? 100 then
        match args with FInt v :: args => print_d fd v;;; printf fd fmt args | _ => undef "printf: argument" end
      else if c =? 120 then
        match args with FInt v :: args => print_x32 fd (u32 v);;; printf fd fmt args | _ => undef "printf: argument" end
      else if c =? 112 then
        match args with FPtr v :: args => print_x64 fd (u64 v);;; printf fd fmt args | _ => undef "printf: argument" end
      else if c =? 115 then
        match args with
        | FStr s :: args => for_each (default (lit "(null)") s) (putc fd);;; printf fd fmt args
        | _ => undef "printf: argument"
        end
      else if c =? 37 then putc fd 37;;; printf fd fmt args
      else putc fd 37;;; putc fd c;;; printf fd fmt args
    end
  end.

Definition print (fd : Z) (fmt : string) (args : list farg) : uprog unit := printf fd (lit fmt ++ [10]) args.

(** ** ulib.c *)

(** The result of fstat, and the status it has stored. *)
Definition fstat (fd : Z) : uprog (Z * ustat) := r <- sys (Fstat fd);; st <- gets status;; ret (r, st).

Definition stat (n : list Z) (st : ustat) : uprog (Z * ustat) :=
  fd <- sys (Open n 0);;
  if fd <? 0 then ret (-1, st) else
  r <- fstat fd;;
  sys (Close fd);;;
  ret r.

(** ** echo.c, kill.c, ln.c, mkdir.c and rm.c; [args] is argv without the name of the program *)

Definition exit : uprog unit := sys Exit;;; ret tt.

Fixpoint echo_loop (args : list (list Z)) : uprog unit :=
  match args with
  | [] => ret tt
  | a :: args =>
    printf 1 (lit "%s%s") [FStr (Some a); FStr (Some (match args with [] => [10] | _ => lit " " end))];;;
    echo_loop args
  end.
Definition echo (args : list (list Z)) : uprog unit := echo_loop args;;; exit.

Definition kill_main (args : list (list Z)) : uprog unit :=
  match args with
  | [] => print 2 "usage: kill pid..." [];;; exit
  | _ =>
    for_each args (fun a => sys (Kill (default 0 (atoi (S (length a)) (at_list 0 a (fun _ => 0)) 0)));;; ret tt);;;
    exit
  end.

Definition ln (args : list (list Z)) : uprog unit :=
  match args with
  | [old; new] =>
    r <- sys (Link old new);;
    (when r <? 0 do print 2 "link %s %s: failed" [FStr (Some old); FStr (Some new)]);;;
    exit
  | _ => print 2 "Usage: ln old new" [];;; exit
  end.

Definition mkdir (args : list (list Z)) : uprog unit :=
  match args with
  | [] => print 2 "Usage: mkdir files..." [];;; exit
  | _ =>
    _ <- for_break args (fun a =>
      r <- sys (Mkdir a);;
      if r <? 0 then print 2 "mkdir: %s failed to create" [FStr (Some a)];;; ret (Some tt) else ret None);;
    exit
  end.

Definition rm (args : list (list Z)) : uprog unit :=
  match args with
  | [] => print 2 "Usage: rm files..." [];;; exit
  | _ =>
    _ <- for_break args (fun a =>
      r <- sys (Unlink a);;
      if r <? 0 then print 2 "rm: %s failed to delete" [FStr (Some a)];;; ret (Some tt) else ret None);;
    exit
  end.

(** ** ls.c *)

Definition DIRSIZ : nat := 14.
Definition T_DIR : Z := 1.
Definition T_FILE : Z := 2.

(** The characters after the last slash, the list taken from its end. *)
Fixpoint before_slash (l : list Z) : list Z :=
  match l with [] => [] | c :: l => if c =? 47 then [] else c :: before_slash l end.

Definition fmtname (path : list Z) : list Z :=
  let p := rev (before_slash (rev path)) in
  if (DIRSIZ <=? length p)%nat then p else p ++ replicate (DIRSIZ - length p) 32.

Definition show (name : list Z) (st : ustat) : uprog unit :=
  print 1 "%s %d %d %d" [FStr (Some (fmtname name)); FInt (i32 (st_type st)); FInt (i32 (st_ino st)); FInt (i32 (st_size st))].

(** The entries of the directory [path]; [rounds] bounds their number. *)
Fixpoint ls_entries (rounds : nat) (path : list Z) (fd : Z) (st : ustat) : uprog unit :=
  match rounds with
  | O => fun s => NoFuel s
  | S rounds =>
    r <- sys (Read fd 16);;
    if negb (r =? 16) then ret tt else
    de <- gets bytes_read;;
    let inum := of_le_bytes (take 2 de) in
    if inum =? 0 then ls_entries rounds path fd st else
    let buf := path ++ [47] ++ c_str (take DIRSIZ (drop 2 de)) in
    r <- stat buf st;;
    let '(r, st) := r in
    if r <? 0 then print 1 "ls: cannot stat %s" [FStr (Some buf)];;; ls_entries rounds path fd st
    else show buf st;;; ls_entries rounds path fd st
  end.

Definition ls (rounds : nat) (path : list Z) : uprog unit :=
  fd <- sys (Open path 0);;
  if fd <? 0 then print 2 "ls: cannot open %s" [FStr (Some path)] else
  r <- fstat fd;;
  let '(r, st) := r in
  if r <? 0 then print 2 "ls: cannot stat %s" [FStr (Some path)];;; sys (Close fd);;; ret tt else
  (if st_type st =? T_FILE then show path st
   else if st_type st =? T_DIR then
     if (512 <? length path + 1 + DIRSIZ + 1)%nat then print 1 "ls: path too long" []
     else ls_entries rounds path fd st
   else ret tt);;;
  sys (Close fd);;;
  ret tt.

Definition ls_main (rounds : nat) (args : list (list Z)) : uprog unit :=
  match args with
  | [] => ls rounds (lit ".");;; exit
  | _ => for_each args (ls rounds);;; exit
  end.

(** ** init.c *)

(** One turn of the loop of main: [Some tt] when the program is over, which in the child is
    also the end of an exec that succeeds, as it does not return. *)
Definition init_round (waits : nat) : uprog (option unit) :=
  print 1 "init: starting sh" [];;;
  pid <- sys Fork;;
  if pid <? 0 then print 1 "init: fork failed" [];;; exit;;; ret (Some tt) else
  if pid =? 0 then
    r <- sys (Exec (lit "sh") [lit "sh"]);;
    if r <? 0 then print 1 "init: exec sh failed" [];;; exit;;; ret (Some tt) else ret (Some tt)
  else
    repeat_until waits (
      wpid <- sys Wait;;
      if (wpid >=? 0) && negb (wpid =? pid) then print 1 "zombie!" [];;; ret None else ret (Some tt));;;
    ret None.

Definition init (waits rounds : nat) : uprog unit :=
  fd <- sys (Open (lit "console") 2);;
  (when fd <? 0 do (sys (Mknod (lit "console") 1 1);;; sys (Open (lit "console") 2);;; ret tt));;;
  sys (Dup 0);;;
  sys (Dup 0);;;
  repeat_until rounds (init_round waits).

End User.
End User.
Import User.

(** ** What printf writes *)

Definition writes (fd : Z) (l : list Z) : list ucall := map (fun c => Write fd [c]) l.
Definition bytes (l : list Z) : Prop := Forall (fun c => 0 <= c < 256) l.

Section Calls.
Context `{Kernel}.

Lemma sys_run c l : sys c l = Ret (result (l ++ [c])) (l ++ [c]).
Proof. done. Qed.

Lemma putc_run fd c l : 0 <= c < 256 -> putc fd c l = Ret tt (l ++ [Write fd [c]]).
Proof. intros Hc. unfold putc. mret (sys_run (Write fd [u8 c]) l). unfold u8. by rewrite Z.mod_small. Qed.

Lemma puts_run fd cs l : bytes cs -> for_each cs (putc fd) l = Ret tt (l ++ writes fd cs).
Proof.
  intros Hb. revert l. induction Hb as [|c cs Hc _ IH]; intros l; cbn [for_each writes map]; [by rewrite app_nil_r|].
  mret (putc_run fd c l Hc). rewrite IH. unfold writes. by rewrite <- app_assoc.
Qed.

Lemma writes_app fd a b : writes fd (a ++ b) = writes fd a ++ writes fd b.
Proof. apply map_app. Qed.

Lemma nth_digit d : 0 <= d < 16 -> nth (Z.to_nat d) digits 0 = digit d /\ 0 <= digit d < 256.
Proof.
  intros Hd. assert (d ∈ seqZ 0 16) as Hin by (apply elem_of_seqZ; lia). revert Hin. generalize d. apply Forall_forall.
  vm_compute. repeat constructor; discriminate.
Qed.

(** The kernel prints the digits of a number from the end. *)
Lemma hex_digits_top n y : 0 <= y < 16 ^ Z.of_nat (S n) ->
  hex_digits (S n) y = digit (y / 16 ^ Z.of_nat n) :: hex_digits n (y mod 16 ^ Z.of_nat n).
Proof.
  revert y. induction n as [|n IH]; intros y Hy.
  - cbn [hex_digits app]. change (16 ^ Z.of_nat 0) with 1. change (16 ^ Z.of_nat 1) with 16 in Hy. rewrite Z.div_1_r, Z.mod_small by lia. done.
  - set (p := 16 ^ Z.of_nat n) in *. assert (16 ^ Z.of_nat (S n) = 16 * p) as Ep by (rewrite Nat2Z.inj_succ, Z.pow_succ_r by lia; done).
    assert (0 < p) as Hp by (apply Z.pow_pos_nonneg; lia).
    rewrite (Nat2Z.inj_succ (S n)), Z.pow_succ_r, Ep in Hy by lia. rewrite Ep.
    change (hex_digits (S (S n)) y) with (hex_digits (S n) (y / 16) ++ [digit (y mod 16)]).
    rewrite IH by (rewrite Ep; split; [apply Z.div_pos; lia|apply Z.div_lt_upper_bound; lia]). cbn [hex_digits app]. f_equal.
    + f_equal. by rewrite Z.div_div by lia.
    + f_equal; [f_equal|f_equal; f_equal].
      * rewrite Z.rem_mul_r by lia. rewrite Z.add_comm, Z.mul_comm, Z.div_add_l by lia. rewrite (Z.div_small (y mod 16)) by (apply Z.mod_pos_bound; lia). lia.
      * rewrite Z.rem_mul_r by lia. rewrite Z.add_comm, Z.mul_comm, Z.add_comm, Z_mod_plus_full. by rewrite Z.mod_mod by lia.
Qed.

(** The user library prints them from the top. *)
Lemma print_x_run n (N : nat) fd x l : (n <= N)%nat -> 0 <= x < 16 ^ Z.of_nat N ->
  print_x n (4 * Z.of_nat N) fd x l = Ret tt (l ++ writes fd (hex_digits n (x / 16 ^ Z.of_nat (N - n)))).
Proof.
  revert x l. induction n as [|n IH]; intros x l Hn Hx; cbn [print_x]; [cbn; by rewrite app_nil_r|].
  assert (forall k : nat, 2 ^ (4 * Z.of_nat k) = 16 ^ Z.of_nat k) as Hpow by (intros k; rewrite Z.pow_mul_r by lia; done).
  set (q := 16 ^ Z.of_nat (N - S n)). assert (0 < q) as Hq by (apply Z.pow_pos_nonneg; lia).
  set (p := 16 ^ Z.of_nat n). assert (0 < p) as Hp by (apply Z.pow_pos_nonneg; lia).
  assert (16 ^ Z.of_nat N = 16 * (p * q)) as EN.
  { unfold p, q. rewrite <- Z.pow_add_r, <- (Z.pow_succ_r 16) by lia. f_equal. lia. }
  assert (2 ^ (4 * Z.of_nat N - 4) = p * q) as E4.
  { replace (4 * Z.of_nat N - 4) with (4 * Z.of_nat (n + (N - S n))) by lia. rewrite Hpow, Nat2Z.inj_add, Z.pow_add_r by lia. done. }
  rewrite Z.shiftr_div_pow2, E4 by lia. assert (0 <= x / (p * q) < 16) as Hd by (split; [apply Z.div_pos; lia|apply Z.div_lt_upper_bound; lia]).
  destruct (nth_digit _ Hd) as [-> Hb]. mret (putc_run fd _ l Hb).
  rewrite Z.shiftl_mul_pow2, Hpow by lia. change (2 ^ 4) with 16. rewrite IH; [|lia|apply Z.mod_pos_bound; lia].
  rewrite <- app_assoc. do 2 f_equal. rewrite hex_digits_top.
  - fold p q. rewrite (Z.div_div x q p), (Z.mul_comm q p) by lia. cbn [writes map app]. f_equal. unfold writes. do 2 f_equal.
    rewrite EN. replace (16 ^ Z.of_nat (N - n)) with (16 * q) by (unfold q; rewrite <- Z.pow_succ_r by lia; f_equal; lia).
    rewrite (Z.mul_comm x 16), Z.mul_mod_distr_l by lia. rewrite Z.div_mul_cancel_l by lia.
    rewrite (Z.mul_comm p q), Z.rem_mul_r by lia. rewrite Z.add_comm, (Z.mul_comm q), Z.div_add_l by lia. rewrite (Z.div_small (x mod q)) by (apply Z.mod_pos_bound; lia). lia.
  - rewrite Nat2Z.inj_succ, Z.pow_succ_r by lia. fold p q. split; [apply Z.div_pos; lia|]. apply Z.div_lt_upper_bound; lia.
Qed.

Lemma d_loop_rev n x : rev (d_loop n x) = dec_digits n x.
Proof.
  revert x. induction n as [|n IH]; intros x; [done|]. cbn [d_loop dec_digits rev]. pose proof (Z.mod_pos_bound x 10 ltac:(lia)).
  destruct (nth_digit (x mod 10) ltac:(lia)) as [-> _]. f_equal. destruct (_ =? 0); [done|apply IH].
Qed.

Lemma dec_digits_bytes n x : bytes (dec_digits n x).
Proof.
  revert x. induction n as [|n IH]; intros x; [constructor|]. cbn [dec_digits]. apply Forall_app. split; [destruct (_ =? 0); [constructor|apply IH]|].
  pose proof (Z.mod_pos_bound x 10 ltac:(lia)). constructor; [|constructor]. apply nth_digit. lia.
Qed.

Lemma print_d_run fd v l : print_d fd v l = Ret tt (l ++ writes fd (Console.print_d v)).
Proof.
  unfold print_d, Console.print_d. rewrite rev_app_distr, d_loop_rev. destruct (v <? 0); cbn [rev app]; rewrite puts_run; try done; try apply dec_digits_bytes.
  constructor; [lia|apply dec_digits_bytes].
Qed.

(** A format without the conversion %c, which the kernel does not have. *)
Fixpoint no_char (fmt : list Z) : bool :=
  match fmt with
  | [] => true
  | c :: fmt => if negb (c =? 37) then no_char fmt else match fmt with [] => true | c :: fmt => negb (c =? 99) && no_char fmt end
  end.

Definition farg_ok (a : farg) : Prop := match a with FStr (Some s) => bytes s | _ => True end.

(** One conversion in front of the rest of a format. *)
Lemma printf_step (m k : uprog unit) (l : list ucall) fd p cs : m l = Ret tt (l ++ writes fd p) ->
  k (l ++ writes fd p) = Ret tt ((l ++ writes fd p) ++ writes fd cs) -> (m;;; k) l = Ret tt (l ++ writes fd (p ++ cs)).
Proof. intros E1 E2. mret E1. rewrite E2, writes_app. by rewrite <- app_assoc. Qed.

Lemma printf_run fd fmt args cs l : format fmt args = Some cs -> no_char fmt = true -> bytes fmt -> Forall farg_ok args ->
  printf fd fmt args l = Ret tt (l ++ writes fd cs).
Proof.
  remember (length fmt) as n eqn:Hn. revert fmt args cs l Hn. induction n as [n IH] using lt_wf_ind. intros fmt args cs l -> Hf Hc Hb Ha.
  destruct fmt as [|c fmt]; [injection Hf as <-; cbn; by rewrite app_nil_r|]. cbn [format no_char printf] in *.
  apply Forall_cons_1 in Hb as [Hb1 Hb]. destruct (Z.eqb_spec c 37) as [->|Hne]; cbn [negb] in *.
  2:{ apply fmap_Some in Hf as (cs' & Hf & ->). apply (printf_step _ _ l fd [c] cs'); [by apply putc_run|].
      by apply (IH (length fmt)) with (fmt := fmt) (args := args); [cbn; lia|..]. }
  destruct fmt as [|c2 fmt]; [injection Hf as <-; cbn; by rewrite app_nil_r|]. apply Forall_cons_1 in Hb as [Hb2 Hb].
  apply andb_prop in Hc as [Hc1 Hc]. apply negb_true_iff in Hc1. rewrite Hc1. cbn [length] in IH.
  assert (forall args cs' l, Forall farg_ok args -> format fmt args = Some cs' -> printf fd fmt args l = Ret tt (l ++ writes fd cs')) as IH'
    by (intros args' cs' l' Ha' Hf'; by apply (IH (length fmt)) with (fmt := fmt) (args := args'); [lia|..]).
  destruct (Z.eqb_spec c2 100); [|destruct (Z.eqb_spec c2 120); [|destruct (Z.eqb_spec c2 112); [|destruct (Z.eqb_spec c2 115)]]].
  1-4: destruct args as [|[v|v|o] args]; try discriminate Hf; apply fmap_Some in Hf as (cs' & Hf & ->); apply Forall_cons_1 in Ha as [Ha1 Ha];
    apply printf_step; [|by apply IH'].
  - apply print_d_run.
  - pose proof (print_x_run 8 8 fd (u32 v) l ltac:(lia) (u32_range v)) as E. change (16 ^ Z.of_nat (8 - 8)) with 1 in E. rewrite Z.div_1_r in E. exact E.
  - pose proof (print_x_run 16 16 fd (u64 v) l ltac:(lia) (u64_range v)) as E. change (16 ^ Z.of_nat (16 - 16)) with 1 in E. rewrite Z.div_1_r in E. exact E.
  - apply puts_run. destruct o as [s|]; cbn [default]; [exact Ha1|]. apply lit_bytes.
  - destruct (Z.eqb_spec c2 37); apply fmap_Some in Hf as (cs' & Hf & ->).
    + apply (printf_step _ _ l fd [37] cs'); [by apply putc_run|by apply IH'].
    + rewrite <- bind_assoc. apply (printf_step _ _ l fd [37; c2] cs'); [|by apply IH'].
      mret (putc_run fd 37 l ltac:(lia)). rewrite putc_run by done. by rewrite <- app_assoc.
Qed.

(** the printf of the user library and the cprintf of the kernel agree: for every
    format without %c, which only printf has, and arguments of the types that it asks for,
    printf writes just the characters that cprintf puts on the console, one call of write()
    for each, although one prints hexadecimal digits from the top of the word and the other
    from its end. *)
Theorem printf_matches_cprintf fd fmt args cs l :
  format fmt args = Some cs -> no_char fmt = true -> bytes fmt -> Forall farg_ok args ->
  printf fd fmt args l = Ret tt (l ++ map (fun c => Write fd [c]) cs).
Proof. apply printf_run. Qed.

(** ** The programs *)

Lemma echo_loop_run args l : Forall bytes args ->
  echo_loop args l = Ret tt (l ++ writes 1 (match args with [] => [] | a :: args => a ++ concat (map (cons 32) args) ++ [10] end)).
Proof.
  intros Ha. revert l. induction Ha as [|a args Ha Hargs IH]; intros l; cbn [echo_loop]; [cbn; by rewrite app_nil_r|].
  set (sep := match args with [] => [10] | _ => lit " " end).
  assert (printf 1 (lit "%s%s") [FStr (Some a); FStr (Some sep)] l = Ret tt (l ++ writes 1 (a ++ sep))) as E.
  { apply printf_run; [|done|apply lit_bytes|].
    - transitivity (Some (a ++ sep ++ [])); [reflexivity|by rewrite app_nil_r].
    - constructor; [exact Ha|]. constructor; [|constructor]. unfold sep. destruct args; [constructor; [lia|constructor]|apply lit_bytes]. }
  mret E. rewrite IH, <- app_assoc, <- writes_app. do 3 f_equal. unfold sep. destruct args as [|b args]; cbn [map concat app].
  - by rewrite app_nil_r.
  - rewrite <- !app_assoc. done.
Qed.

(** echo writes its arguments, separated by blanks, and a newline, and exits. *)
Lemma echo_prints_arguments a args l : Forall bytes (a :: args) ->
  echo (a :: args) l = Ret tt (l ++ writes 1 (a ++ concat (map (cons 32) args) ++ [10]) ++ [Exit]).
Proof. intros Ha. unfold echo. mret (echo_loop_run (a :: args) l Ha). unfold exit. mret (sys_run Exit (l ++ writes 1 (a ++ concat (map (cons 32) args) ++ [10]))). by rewrite <- app_assoc. Qed.

Lemma before_slash_none l : 47 ∉ l -> before_slash l = l.
Proof.
  induction l as [|c l IH]; intros Hl; [done|]. apply not_elem_of_cons in Hl as [Hc Hl]. cbn [before_slash].
  rewrite (proj2 (Z.eqb_neq c 47)) by done. by rewrite IH.
Qed.
Lemma before_slash_app l1 l2 : 47 ∉ l1 -> before_slash (l1 ++ 47 :: l2) = l1.
Proof.
  induction l1 as [|c l1 IH]; intros Hl; [done|]. apply not_elem_of_cons in Hl as [Hc Hl]. cbn [before_slash app].
  rewrite (proj2 (Z.eqb_neq c 47)) by done. by rewrite IH.
Qed.

(** The column of a name in a listing: its last component, filled up with blanks. *)
Lemma fmtname_last_component dir name : 47 ∉ name ->
  fmtname (dir ++ 47 :: name) = fmtname name /\
  fmtname name = name ++ replicate (DIRSIZ - length name) 32.
Proof.
  intros Hn. assert (47 ∉ rev name) as Hr by (rewrite <- in_rev, list_elem_of_In in Hn || (intros Hin%list_elem_of_In%in_rev%list_elem_of_In; done)).
  unfold fmtname. rewrite rev_app_distr. cbn [rev]. rewrite <- app_assoc. cbn [app].
  rewrite (before_slash_app _ _ Hr), (before_slash_none _ Hr), rev_involutive. split; [done|].
  destruct (Nat.leb_spec DIRSIZ (length name)) as [Hle|Hlt]; [|done]. replace (DIRSIZ - length name)%nat with 0%nat by lia. by rewrite app_nil_r.
Qed.

Lemma format_rm a : format (lit "rm: %s failed to delete" ++ [10]) [FStr (Some a)] = Some (lit "rm: " ++ a ++ lit " failed to delete" ++ [10]).
Proof. reflexivity. Qed.

(** rm unlinks its arguments in their order, up to the first that fails, which it reports. *)
Lemma rm_until_failure done rest l : done ++ rest <> [] -> Forall bytes rest ->
  (forall k, (k < length done)%nat -> 0 <= result (l ++ map Unlink (take (S k) done))) ->
  (forall a, head rest = Some a -> result (l ++ map Unlink (done ++ [a])) < 0) ->
  rm (done ++ rest) l = Ret tt (l ++ map Unlink done ++
    match rest with [] => [] | a :: _ => Unlink a :: writes 2 (lit "rm: " ++ a ++ lit " failed to delete" ++ [10]) end ++ [Exit]).
Proof.
  intros Hne Hb Hok Hbad. unfold rm. destruct (done ++ rest) as [|x xs] eqn:E0; [done|]. rewrite <- E0. clear E0 Hne x xs.
  set (body := fun a => _).
  assert (exists r, for_break (done ++ rest) body l = Ret r (l ++ map Unlink done ++
    match rest with [] => [] | a :: _ => Unlink a :: writes 2 (lit "rm: " ++ a ++ lit " failed to delete" ++ [10]) end)) as [r E].
  { revert l Hok Hbad. induction done as [|d done IH]; intros l Hok Hbad; cbn [app map].
    - destruct rest as [|a rest]; cbn [for_break]; [exists None; by rewrite app_nil_r|]. apply Forall_cons_1 in Hb as [Hb _].
      exists (Some tt). unfold body at 1. rewrite bind_assoc. mret (sys_run (Unlink a) l).
      rewrite (proj2 (Z.ltb_lt _ _)) by (by apply Hbad). unfold print. rewrite bind_assoc.
      mret (printf_run 2 _ _ _ (l ++ [Unlink a]) (format_rm a) eq_refl ltac:(repeat constructor; lia) ltac:(by repeat constructor)).
      rewrite bind_ret, <- app_assoc. done.
    - destruct (IH (l ++ [Unlink d])) as [r E].
      + intros k Hk. rewrite <- app_assoc. apply (Hok (S k)). cbn. lia.
      + intros a Ha. rewrite <- app_assoc. by apply Hbad.
      + exists r. cbn [for_break]. unfold body at 1. rewrite bind_assoc. mret (sys_run (Unlink d) l).
        rewrite (proj2 (Z.ltb_ge _ _)) by (apply (Hok 0%nat); cbn; lia). rewrite bind_ret, E, <- app_assoc. done. }
  mret E. unfold exit. rewrite (bind_Ret _ _ _ _ _ (sys_run Exit _)). unfold ret. by rewrite <- !app_assoc.
Qed.

Lemma print_run fd fmt l cs : format (lit fmt ++ [10]) [] = Some cs -> no_char (lit fmt ++ [10]) = true ->
  print fd fmt [] l = Ret tt (l ++ writes fd cs).
Proof. intros Hf Hc. apply printf_run; [done|done| |constructor]. apply Forall_app. split; [apply lit_bytes|constructor; [lia|constructor]]. Qed.

Definition zombie : list ucall := Wait :: writes 1 (lit "zombie!" ++ [10]).

Lemma init_wait_run waits pid n l : (n < waits)%nat ->
  (forall k, (k < n)%nat -> 0 <= result (l ++ concat (replicate k zombie) ++ [Wait]) /\ result (l ++ concat (replicate k zombie) ++ [Wait]) <> pid) ->
  (result (l ++ concat (replicate n zombie) ++ [Wait]) = pid \/ result (l ++ concat (replicate n zombie) ++ [Wait]) < 0) ->
  repeat_until waits (
    wpid <- sys Wait;;
    if (wpid >=? 0) && negb (wpid =? pid) then print 1 "zombie!" [];;; ret None else ret (Some tt)) l = Ret tt (l ++ concat (replicate n zombie) ++ [Wait]).
Proof.
  revert n l. induction waits as [|waits IH]; intros n l Hn Hz Hp; [lia|]. cbn [repeat_until]. rewrite bind_assoc. mret (sys_run Wait l).
  destruct n as [|n].
  - cbn [replicate concat app] in *. assert ((result (l ++ [Wait]) >=? 0) && negb (result (l ++ [Wait]) =? pid) = false) as ->.
    { destruct Hp as [->|Hp]; [by rewrite Z.eqb_refl, andb_false_r|]. rewrite Z.geb_leb, (proj2 (Z.leb_gt _ _)) by lia. done. }
    by rewrite bind_ret.
  - destruct (Hz 0%nat ltac:(lia)) as [Z1 Z2]. cbn [replicate concat app] in Z1, Z2. rewrite Z.geb_leb, (proj2 (Z.leb_le _ _) Z1), (proj2 (Z.eqb_neq _ _) Z2). cbn [andb negb].
    rewrite bind_assoc. mret (print_run 1 "zombie!" (l ++ [Wait]) _ eq_refl eq_refl). rewrite bind_ret.
    assert (forall k t, (l ++ zombie) ++ concat (replicate k zombie) ++ t = l ++ concat (replicate (S k) zombie) ++ t) as Ez
      by (intros k t; cbn [replicate concat]; by rewrite <- !app_assoc).
    rewrite <- Ez. replace ((l ++ [Wait]) ++ writes 1 _) with (l ++ zombie) by (unfold zombie; by rewrite <- app_assoc). apply IH; [lia| |].
    + intros k Hk. rewrite Ez. apply Hz. lia.
    + rewrite Ez. exact Hp.
Qed.

(** A round of init that has started a shell collects the zombies that it inherits and ends when
    wait() returns the shell itself, or has no child left: the next round starts a new shell. *)
Lemma init_round_waits_for_shell waits pid n l : let l1 := l ++ writes 1 (lit "init: starting sh" ++ [10]) ++ [Fork] in
  result l1 = pid -> 0 < pid -> (n < waits)%nat ->
  (forall k, (k < n)%nat -> 0 <= result (l1 ++ concat (replicate k zombie) ++ [Wait]) /\ result (l1 ++ concat (replicate k zombie) ++ [Wait]) <> pid) ->
  (result (l1 ++ concat (replicate n zombie) ++ [Wait]) = pid \/ result (l1 ++ concat (replicate n zombie) ++ [Wait]) < 0) ->
  init_round waits l = Ret None (l1 ++ concat (replicate n zombie) ++ [Wait]).
Proof.
  intros l1 Hr Hpid Hn Hz Hp. unfold init_round. mret (print_run 1 "init: starting sh" l _ eq_refl eq_refl).
  rewrite (bind_Ret _ _ _ _ _ (sys_run Fork _)). replace ((l ++ _) ++ [Fork]) with l1 by (unfold l1; by rewrite app_assoc). rewrite Hr, (proj2 (Z.ltb_ge _ _)), (proj2 (Z.eqb_neq _ _)) by lia.
  by mret (init_wait_run waits pid n l1 Hn Hz Hp).
Qed.

End Calls.

(** A kernel in which every call returns 0. *)
Definition quiet : Kernel := {| result _ := 0; bytes_read _ := []; status _ := Ustat 0 0 0 |}.

Lemma printf_matches_cprintf_witness :
  @printf quiet 2 (lit "%s: %d %x %p%%") [FStr (Some (lit "x")); FInt (-2147483648); FInt (-1); FPtr 4096] [] =
  Ret tt (map (fun c => Write 2 [c]) (lit "x: -2147483648 ffffffff 0000000000001000%")).
Proof.
  apply (@printf_matches_cprintf quiet 2 (lit "%s: %d %x %p%%") [FStr (Some (lit "x")); FInt (-2147483648); FInt (-1); FPtr 4096] _ []).
  - vm_compute. reflexivity.
  - reflexivity.
  - apply lit_bytes.
  - repeat constructor; vm_compute; discriminate.
Defined.
