(* ===== verification/Filters.v ===== *)
(** * Filters: the main functions of grep.c, wc.c and cat.c

    The files are what open() finds under a name, and the standard input is one more.  The
    result is the list of the texts that the program writes or prints; [None] is
    more rounds than the bounds of the loops in Textutils, which does not happen. *)

From S2P Require Import Prelude Cstring Ktrace Console Textutils.

Definition output := list (list Z).

Module Filters.

Definition cannot_open (program path : list Z) : list Z := program ++ lit ": cannot open " ++ path ++ [10].

Section Files.
Context (open : list Z -> option fd) (stdin : fd).

Fixpoint grep_files (pattern : list Z) (names : list (list Z)) : option output :=
  match names with
  | [] => Some []
  | a :: names =>
    match open a with
    | None => Some [cannot_open (lit "grep") a]
    | Some f => out ← Grep.grep pattern f; rest ← grep_files pattern names; Some (out ++ rest)
    end
  end.

(** [args] is argv without the name of the program. *)
Definition grep_main (args : list (list Z)) : option output :=
  match args with
  | [] => Some [lit "usage: grep pattern [file ...]" ++ [10]]
  | [pattern] => Grep.grep pattern stdin
  | pattern :: names => grep_files pattern names
  end.

(** What wc prints for one input, and whether it goes on. *)
Definition wc_one (f : fd) (name : list Z) : option (output * bool) :=
  r ← Wc.wc f;
  match r with
  | None => Some ([lit "wc: read error" ++ [10]], false)
  | Some t => text ← format (lit "%d %d %d %s" ++ [10]) [FInt (Wc.l t); FInt (Wc.w t); FInt (Wc.c t); FStr (Some name)]; Some ([text], true)
  end.

(** The loop of main, for wc and for cat: [one] is what is done with a file. *)
Fixpoint each_file (program : list Z) (one : fd -> list Z -> option (output * bool)) (names : list (list Z)) : option output :=
  match names with
  | [] => Some []
  | a :: names =>
    match open a with
    | None => Some [cannot_open program a]
    | Some f =>
      r ← one f a;
      let '(out, ok) := r in
      if ok : bool then rest ← each_file program one names; Some (out ++ rest) else Some out
    end
  end.

Definition wc_main (args : list (list Z)) : option output :=
  match args with
  | [] => fst <$> wc_one stdin []
  | _ => each_file (lit "wc") wc_one args
  end.

Definition cat_main (write : list Z -> Z) (args : list (list Z)) : option output :=
  match args with
  | [] => fst <$> Cat.cat write stdin
  | _ => each_file (lit "cat") (fun f _ => Cat.cat write f) args
  end.

End Files.
End Filters.

Import Filters.

(** cat writes the contents of the files it is given, one after the other. *)
Lemma cat_concatenates open stdin write names ts : names <> [] -> (forall b, write b = Z.of_nat (length b)) ->
  Forall2 (fun a t => exists f, open a = Some f /\ contents f = Some t) names ts ->
  exists out, cat_main open stdin write names = Some out /\ concat out = concat ts.
Proof.
  intros Hne Hw H. unfold cat_main. destruct names as [|a names]; [done|]. clear Hne. remember (a :: names) as l. clear a names Heql.
  induction H as [|a t names ts (f & Ho & Hc) _ (out & E & IH)]; [by exists []|].
  destruct (cat_copies write f t Hc Hw) as (out1 & E1 & <-). exists (out1 ++ out). cbn [each_file]. rewrite Ho, E1. cbn [mbind option_bind]. rewrite E. cbn [mbind option_bind]. split; [done|].
  by rewrite concat_app, IH.
Qed.

(** wc prints one line for every file. *)
Lemma wc_prints_counts open stdin name f t : open name = Some f -> contents f = Some t -> Z.of_nat (length t) < 2147483648 ->
  exists text, wc_main open stdin [name] = Some [text] /\
    format (lit "%d %d %d %s" ++ [10]) [FInt (Z.of_nat (length (filter (fun b => b = 10) t))); FInt (Z.of_nat (words_from false t));
      FInt (Z.of_nat (length t)); FStr (Some name)] = Some text.
Proof.
  intros Ho Hc Hn. destruct (wc_counts f t Hc Hn) as (r & E & <- & <- & <-). eexists. split; [|reflexivity].
  unfold wc_main. cbn [each_file]. rewrite Ho. unfold wc_one. rewrite E. reflexivity.
Qed.
